(* ===== verification/_CoqProject ===== *)
-Q . S2P
Prelude.v
JsString.v
JsArray.v
JsNum.v
Json.v
Http.v
BlockSync.v
Connection.v
Cache.v
Chunking.v
QueryAnalyzer.v
GraphqlClient.v
Nexus.v
ResLens.v
LiveStats.v
Pipeline.v
Efficiency.v
KvStore.v
VectorStore.v
StoreRoundtrip.v
Retrieval.v
ContextFormatter.v
Embedding.v
Loader.v
Ingestion.v
Prompts.v
LlmClient.v
Optimization.v
Explanation.v
Explain.v
ApiServer.v
McpServer.v
Toast.v
ResVault.v
Codec.v
Wallet.v
WalletTx.v
KeyRing.v
ContentScript.v
DateTime.v
DeltaEncoding.v
TxHistory.v
Middleware.v
CodeComposer.v
FactMemory.v
BeaconIndex.v
BeaconSearch.v
ApiClients.v
ContractCli.v
ChatStream.v
NexusService.v
Rescontract.v
Profiling.v
VaultPages.v
StreamMarkdown.v
ResLensJobs.v
ResLensCharts.v
NexusDocs.v
Uri.v
TextCodec.v
Endpoints.v
BeaconIssues.v
BeaconAssist.v
BeaconFind.v
CreateApp.v
