(* ===== verification/Prelude.v ===== *)
(** * Verification of the TypeScript services of ResilientDB

    ResilientDB is a replicated database written in C++; around it, under
    src/ecosystem/, live the TypeScript and JavaScript programs that this
    library verifies:

    - resilient-node-cache copies the blocks of the chain into MongoDB and
      follows new blocks over a WebSocket;
    - graphq-llm answers questions about GraphQL queries: documents are
      chunked, embedded and stored in ResilientDB through a key-value HTTP
      wrapper, retrieved by similarity, formatted into prompts, and explained
      or optimised with a language model; a static analyzer, the ResLens
      client, the live statistics and the efficiency estimator supply the
      numbers;
    - ResVault is a wallet: a browser extension with a background script, a
      content script and pages, and an SDK for web sites that talk to it;
    - ResLens shows what the database does: a middleware collects blocks,
      metrics and profiles, and a dashboard draws them and starts jobs;
    - nexus answers questions about research papers with agents, and Beacon
      is the documentation with its search, its assistants and its comments;
    - rescontract, the contract kit and the contract GraphQL server deploy
      and execute smart contracts;
    - drawing-lib and reshare-lib are clients of two applications, and
      create-resilient-app sets up a project.

    ** Conventions

    - A call that may throw returns [result]: [Ok] or [Throw] with the
      message of the error.  [undefined] is [None].
    - A string is a list of code units ([str], JsString.v), limited to the
      code points U+0000-U+00FF; where a stream is read, text is its bytes
      (TextCodec.v).  Integers are [Z] or [nat] where the code only counts,
      and theorems about larger ones (microseconds) keep them within the safe
      integers; any number that is divided, averaged or compared as a
      score is a binary64 value ([num], JsNum.v, on [SpecFloat]), NaN and
      rounding included.
    - A JavaScript [Map], or an object used as one, is the insertion-ordered
      [jsmap] of JsArray.v; the store of KvStore.v, whose keys are the
      clients', also has the prototype it inherits from; [sort] is a stable sort under the comparator.
    - A component's fields are a record; a method takes the record and
      returns the new one.  Where a method awaits, and another call may run
      in between, the calls under way are part of the state and the method
      is split at its awaits into steps (Connection.v, LiveStats.v,
      Explanation.v, the workers of BlockSync.v, and the pages: VaultPages.v,
      ChatStream.v, ResLensJobs.v, BeaconAssist.v, BeaconFind.v).  A page is
      the state of its hooks; a callback that was made by an earlier
      rendering carries the values it saw then.
    - What is outside the sources (MongoDB, the ResilientDB server, fetch and
      axios, language and embedding models, [JSON.parse] of a body, the clock
      and random numbers) is an argument of the definitions or a [Context] of
      the section; what the theorems need of it is a hypothesis or a class
      ([MongoCollection], [SimilarityIndex]), with an instance that satisfies
      it.
    - Log output is not modelled.

    ** Files

    Base files:
    - Prelude.v: [result], the tactics and the hint database [resdb], and facts
      on lists and integers;
    - JsString.v, JsArray.v, JsNum.v, Json.v, Http.v, Uri.v, TextCodec.v: the
      parts of the language and of the platform that the sources use.

    resilient-node-cache (cache/resilient-node-cache/src/index.ts):
    - BlockSync.v: [processBlocks], the scan for new blocks ([scan]), and the
      five workers of [processBatchRanges] as a step relation ([step]) over
      the shared queue.  An initial sync returns in every schedule: it throws
      before anything is stored when the scan fails, and otherwise every new
      block of the server outside the batches reported as failed is in the
      collection ([initial_sync_complete]); every schedule of the workers ends and none
      is stuck ([processBatchRanges_terminates]); what an error during the
      scan loses ([scan_error_skips_blocks]) and a server for which the scan
      does not end ([scan_diverges]).
    - Connection.v: the socket, its handlers, the reconnection and the
      periodic timer, [close].  At most one reconnection timer, and none
      beside an open socket ([connection_one_socket]); what [close] guarantees
      and what it does not ([close_is_final], [close_leaves_reconnection]).

    graphq-llm, knowledge base (ai-tools/mcp/graphq-llm/src/):
    - Loader.v (rag/document-loader.ts): exactly the wanted files are loaded
      ([loadDirectory_complete]).
    - Chunking.v (rag/chunking-service.ts): chunks are substrings within the
      size bound that cover the document ([chunkBySize_covers],
      [chunkBySize_chunks], [chunkBySections_covers]).
    - Embedding.v (rag/embedding-service.ts): the i-th vector is that of the
      i-th text ([generateEmbeddings_aligned]).
    - Ingestion.v (rag/ingestion-pipeline.ts): every chunk is accounted for
      once, stored or failed, when the progress callback does not throw
      ([ingestDocuments_accounts]); what happens when it does
      ([throwing_callback_counts_twice]).
    - KvStore.v (resilientdb/http-wrapper.ts): the request handler implements
      a finite map, but for the names a plain object inherits
      ([kv_refines_map], [proto_commit_pollutes]).
    - VectorStore.v (rag/resilientdb-vector-store.ts): similarity search
      returns the best chunks in order when the stored vectors are
      comparable ([searchSimilar_topk]); it is an instance of the interface
      [SimilarityIndex].  StoreRoundtrip.v runs the vector store against the
      key-value wrapper: what was stored is read back after any other
      requests, while the store has room ([store_then_read]).
    - Retrieval.v (rag/retrieval-service.ts): retrieval against that interface
      ([retrieve_best], [retrieveMultiple_merges]).

    graphq-llm, measurements:
    - QueryAnalyzer.v (services/query-analyzer.ts): the field count is that of
      a one-pass automaton ([fieldCount_automaton]).
    - GraphqlClient.v (resilientdb/client.ts) and Pipeline.v
      (pipeline/data-pipeline.ts): a state and error monad; every query is
      recorded once ([processQuery_accounts]) and the schema is never stale
      ([schema_fresh]).
    - ResLens.v (reslens/client.ts), LiveStats.v
      (services/live-stats-service.ts), Efficiency.v
      (services/efficiency-estimator.ts): answers from the local history
      ([reslens_local_history]), one polling timer ([polling_sequential]),
      the ranking of similar queries ([rankSimilar_best]) and the ranges of
      the estimates ([estimateEfficiency_ranges]).

    graphq-llm, answers:
    - Cache.v (utils/cache.ts): [SimpleCache] answers like a cache that never
      purges ([cache_refines_spec]).
    - ContextFormatter.v (rag/context-formatter.ts), Prompts.v
      (llm/prompts.ts): the token budget ([format_within_budget]).
    - LlmClient.v (llm/llm-client.ts, config/llm.ts): the conversation reaches
      the provider unchanged ([live_stats_conversation]); errors are not
      retried ([completion_not_retried]).
    - Explanation.v and Explain.v (llm/explanation-service.ts): concurrent
      calls for one query share one execution ([explain_single_flight]); an
      execution always gives an explanation ([executeExplain_sound]), and
      what happens to that of a failed model ([outage_cached]).
    - Optimization.v (llm/optimization-service.ts): suggestions are unique by
      key and ordered by priority ([deduplicateSuggestions_spec]).
    - Nexus.v (nexus/integration.ts): the reading of answers
      ([suggestion_fenced], [nexus_ranges]).
    - ApiServer.v (api/http-server.ts) and McpServer.v (mcp/server.ts): every
      request is answered ([api_replies]); listings and handlers agree
      ([mcp_listings_served]).

    ResVault (sdk/resvault-sdk, tools/resvault):
    - ResVault.v (src/resvault-sdk.ts): which handlers a message reaches
      ([deliver_registered]).
    - Codec.v, Wallet.v, WalletTx.v (public/background.js): base64 and
      hexadecimal; the keys stored per site and net stay well-formed and are
      read back ([storage_well_formed], [stored_keys_read_back]); a
      transaction is signed with the stored keys
      ([transaction_uses_stored_key]) and a contract is deployed step by step
      ([deploy_in_order]).
    - KeyRing.v (src/context/GlobalContext.js, and the handlers of the pages
      that call it with their callbacks): under all operations the stored
      pairs can be decrypted and the pair shown is a valid one, and choosing
      a pair makes list, index and shown keys agree ([keyring_consistent],
      [keyring_reload]).
    - ContentScript.v (public/content.js): what a page can make the extension
      show and do ([submit_is_shown]).
    - VaultPages.v (src/pages): a site shown as connected has its keys with
      the background script ([shown_connected_held]); what is submitted is
      what the form has ([submitted_with_keys]); logging in restores the
      stored pairs and shows again the pair shown at logout, if it is still
      stored ([login_restores]); where the shown
      pair drifts from the index ([generated_pair_not_selected],
      [deleted_pair_stays_current]).

    ResLens (monitoring/reslens, monitoring/reslens-middleware):
    - DateTime.v, DeltaEncoding.v, TxHistory.v: times, the delta encoding
      ([delta_roundtrip]), and the job that copies the history of blocks,
      complete for runs that do not overlap ([history_complete]), with what
      overlapping runs insert twice ([overlapping_runs_duplicate]); from the table through the encoding to the chart
      nothing is lost ([chart_shows_history]).
    - Middleware.v, Profiling.v: the controllers, and reports of profiles read
      back ([report_read_back]).
    - Toast.v (src/hooks/use-toast.ts): the reducer and its timers
      ([toasts_invariant]).
    - ResLensJobs.v (flamegraph.tsx): jobs and their polling in every order of
      clicks, answers and timers ([busy_is_watched], [job_completes]), and the
      profile that is shown ([answers_in_order], [interval_restored]).
    - ResLensCharts.v: the mode, the charts with their zoom and the paging of
      the block table ([mode_instance], [zoom_shows_selection],
      [volume_fits], [blocks_paged]).

    nexus (ai-tools/nexus):
    - CodeComposer.v, FactMemory.v (lib): reranking within a token budget
      ([rerank_selects]) and the facts kept of a conversation
      ([facts_bounded]).
    - NexusService.v (lib/llama-service.ts, lib/agent.ts): sessions do not
      share an agent ([sessions_isolated]); a failed ingestion is not repeated
      ([failed_pipeline_never_retried]).
    - ChatStream.v (the chat route and research/page.tsx): text and tool calls
      of an answer arrive on the page however the bytes are cut into chunks
      ([chat_delivered], [code_sections]).
    - StreamMarkdown.v (response.tsx): a text that is still arriving is shown
      with its formats closed ([open_span_closed], [open_link_cut]).
    - NexusDocs.v: listing, serving, selecting and copying ([served_inside],
      [outside_served], [documents_listed], [selection_consistent],
      [code_copied]).

    Beacon (ai-tools/beacon):
    - BeaconIndex.v, BeaconSearch.v: the index and the search of the
      documentation ([chunkContent_covers], [search_best],
      [index_at_most_an_hour_old]).
    - BeaconFind.v (PagefindSearch.tsx): marking the terms of a query
      ([excerpt_marked]) and the search bar ([search_as_typed]); a term that
      is not a regular expression empties the results
      ([invalid_term_empties]).
    - BeaconAssist.v: from the language model through the relay to the chat
      ([model_answer_shown]), one answer at a time ([one_answer_awaited]),
      running Python ([own_output_shown]), explaining selections
      ([one_selection_timer]), and what goes wrong ([cut_line_lost],
      [cut_character_replaced], [run_never_over]).
    - BeaconIssues.v: comments become issues, within a limit
      ([issues_limited], [issue_authorised], [comment_posted_or_kept]).

    Contracts and tools (smart-contract, tools):
    - ContractCli.v (smart-contract-graphql), Rescontract.v (rescontract and
      resilient-contract-kit): temporary files are removed
      ([temporary_removed]), a contract is deployed once per owner and name
      ([deployed_once]), and executing one through the kit
      ([execute_end_to_end]).
    - ApiClients.v, Endpoints.v (drawing-lib, reshare-lib): attempts,
      tokens and cookies ([request_attempts], [transient_failures_survived],
      [cookie_sent_back]); what each operation sends, with the target
      as [fetch] parses it, and that it can be told from any other
      ([sent_alike], [identifier_normalised]); what is sent more than once and what is
      not ([stroke_repeated], [sent_once]).
    - CreateApp.v (create-resilient-app): a project never replaces a directory
      ([project_copied]).

    The services call each other as in the code: a component that the caller
    only uses through its answers is an argument of the caller's section, and
    StoreRoundtrip.v, Retrieval.v, Pipeline.v, Explain.v, VaultPages.v,
    Rescontract.v, TxHistory.v and BeaconAssist.v put the pieces together.

    ** Fuel and bounds

    Recursion is structural except for a few loops.  The scan of BlockSync.v
    takes fuel; [n - current + 1] rounds are enough when the server has [n]
    blocks, which [initial_sync_complete] proves, and [scan_diverges] shows
    that no fuel is enough for a server that answers without advancing.  The
    loop of [chunkBySize] has as fuel the code's own bound
    [maxIterations = 10000].  Loops over batches have the number of items as
    fuel; each round removes at least one item.  The retries of
    [generateCompletion] are bounded by an argument, and
    [completion_not_retried] holds for every value of it.  A call of the
    file-sharing client has as fuel its retries and two more, and
    [reshare_fuel] proves that more changes nothing; the blocks of a streamed
    answer are taken out with the length of the buffer as fuel, each block
    being shorter than the buffer.  The worker pool has no fuel: its step
    relation is proved to terminate.

    ** Not modelled

    - The environment and the entry points of graphq-llm: a validation
      library and process start-up.
    - What the pages draw: the markup and styles of the components, their
      focus handling, and the components that have nothing else (most of
      components/ui, the landing pages, the diagrams and charts as drawn).
    - The frame in which the TypeScript playground runs a program, and the
      compilation of a search term with special characters of regular
      expressions, which is a parameter of BeaconFind.v.
    - Data files (src/static of the dashboard, templates, prompts that are
      only text), tests, examples and the templates of new projects; rooms.js
      of drawing-lib, which no module loads.
    - The C++ layers below the services, and third-party code: databases,
      models, browsers and their extensions' storage are parameters. *)

From Stdlib Require Export Ascii.
From stdpp Require Export base list strings gmap pretty relations.
From Stdlib Require Export ZArith Lia.
From Stdlib Require Export Permutation Sorted.

#[export] Set Default Goal Selector "!".

(** ** Results of code that may throw

    A JavaScript call returns a value or throws an [Error]; an [Error] is
    represented by its [message]. *)

Inductive result (A : Type) : Type :=
| Ok (a : A)
| Throw (message : list ascii).
Arguments Ok {A} a.
Arguments Throw {A} message.

Declare Scope js_scope.
Delimit Scope js_scope with js.

Notation "'try!' x <- c ; k" :=
  (match c with Ok x => k | Throw e => Throw e end)
  (at level 100, x pattern, c at next level, k at level 200,
   right associativity) : js_scope.

Definition is_ok {A} (r : result A) : bool :=
  match r with Ok _ => true | Throw _ => false end.

Definition result_map {A B} (f : A -> B) (r : result A) : result B :=
  match r with Ok a => Ok (f a) | Throw e => Throw e end.

(** [x ?? d] *)
Definition coalesce {A} (x : option A) (d : A) : A :=
  match x with Some a => a | None => d end.

(** ** Tactics and hint database *)

Create HintDb resdb discriminated.

(** Case analysis on every [if]/[match] scrutinee in the goal. *)
Ltac split_matches :=
  repeat (case_match; simplify_eq/=; try done).

Ltac split_bools :=
  repeat match goal with
  | H : _ && _ = true |- _ => apply andb_true_iff in H as [??]
  | H : _ || _ = false |- _ => apply orb_false_iff in H as [??]
  | H : negb _ = true |- _ => apply negb_true_iff in H
  | H : negb _ = false |- _ => apply negb_false_iff in H
  | H : (_ <? _)%Z = true |- _ => apply Z.ltb_lt in H
  | H : (_ <? _)%Z = false |- _ => apply Z.ltb_ge in H
  | H : (_ <=? _)%Z = true |- _ => apply Z.leb_le in H
  | H : (_ <=? _)%Z = false |- _ => apply Z.leb_gt in H
  | H : (_ =? _)%Z = true |- _ => apply Z.eqb_eq in H
  | H : (_ =? _)%Z = false |- _ => apply Z.eqb_neq in H
  | H : bool_decide _ = true |- _ => apply bool_decide_eq_true in H
  | H : bool_decide _ = false |- _ => apply bool_decide_eq_false in H
  end.

(** ** Lists *)

Section lists.
Context {A B : Type}.
Implicit Types (l : list A) (f : A -> bool).

(** [Array.prototype.filter] with a boolean callback. *)
Definition filterb f l : list A := List.filter f l.

Lemma elem_of_filterb f l x : x ∈ filterb f l <-> x ∈ l /\ f x = true.
Proof. rewrite !list_elem_of_In. apply filter_In. Qed.

Lemma length_filterb_le f l : length (filterb f l) <= length l.
Proof.
  unfold filterb. induction l as [|x l IH]; simpl; [lia|].
  destruct (f x); simpl; lia.
Qed.

Lemma filterb_app f l1 l2 : filterb f (l1 ++ l2) = filterb f l1 ++ filterb f l2.
Proof. apply List.filter_app. Qed.

Lemma filterb_comm f (g : A -> bool) l : filterb f (filterb g l) = filterb g (filterb f l).
Proof.
  induction l as [|x l IH]; [done|]. cbn.
  destruct (f x) eqn:Hf, (g x) eqn:Hg; cbn; rewrite ?Hf, ?Hg; cbn; unfold filterb in *; congruence.
Qed.

Lemma filterb_all f l : (forall x, x ∈ l -> f x = true) -> filterb f l = l.
Proof.
  induction l as [|x l IH]; intros H; [done|]. cbn.
  rewrite H by constructor. f_equal. apply IH. intros y Hy. apply H. by constructor.
Qed.

Lemma filterb_ext f (g : A -> bool) l :
  (forall x, x ∈ l -> f x = g x) -> filterb f l = filterb g l.
Proof.
  induction l as [|x l IH]; intros H; [done|]. cbn.
  rewrite (H x) by constructor.
  assert (filterb f l = filterb g l) as E by (apply IH; intros; apply H; by constructor).
  unfold filterb in *. by rewrite E.
Qed.

(** [Array.prototype.slice(0, n)] for a non-negative [n]. *)
Lemma elem_of_take_sub (n : nat) l x : x ∈ take n l -> x ∈ l.
Proof. intros H. rewrite <- (take_drop n l). apply elem_of_app. by left. Qed.
Lemma elem_of_drop_sub (n : nat) l x : x ∈ drop n l -> x ∈ l.
Proof. intros H. rewrite <- (take_drop n l). apply elem_of_app. by right. Qed.
End lists.

#[export] Hint Resolve elem_of_take_sub elem_of_drop_sub : resdb.

(** [take n] of a list sorted for a relation is related to what it leaves
    out: the top-k property of [sort] followed by [slice]. *)
Lemma StronglySorted_take_drop {A} (R : A -> A -> Prop) (n : nat) (l : list A) x y :
  StronglySorted R l -> x ∈ take n l -> y ∈ drop n l -> R x y.
Proof.
  intros Hs. revert n. induction Hs as [|z l Hs IH Hz]; intros n Hx Hy.
  - rewrite take_nil in Hx. set_solver.
  - destruct n as [|n]; cbn in *; [set_solver|].
    apply elem_of_cons in Hx as [->|Hx]; [|by eapply IH].
    rewrite Forall_forall in Hz. apply Hz.
    rewrite <- (take_drop n l). apply elem_of_app. by right.
Qed.

Lemma StronglySorted_take {A} (R : A -> A -> Prop) (n : nat) (l : list A) :
  StronglySorted R l -> StronglySorted R (take n l).
Proof.
  intros Hs. revert n. induction Hs as [|z l Hs IH Hz]; intros n.
  - rewrite take_nil. constructor.
  - destruct n as [|n]; cbn; constructor; [by apply IH|].
    rewrite Forall_forall in Hz |- *. intros w Hw. apply Hz. eauto with resdb.
Qed.

Lemma StronglySorted_fmap {A B} (f : A -> B) (R : B -> B -> Prop) (l : list A) :
  StronglySorted R (f <$> l) <-> StronglySorted (fun x y => R (f x) (f y)) l.
Proof.
  induction l as [|x l IH]; cbn; split; intros H; inversion H; subst; constructor;
    try (by apply IH); by rewrite ?Forall_fmap in *.
Qed.

(** A list with its positions, as the callback arguments [(x, index)]. *)
Definition indexed {A} (l : list A) : list (nat * A) := imap pair l.

Lemma length_indexed {A} (l : list A) : length (indexed l) = length l.
Proof. apply length_imap. Qed.

Lemma sum_list_app (l1 l2 : list nat) : sum_list (l1 ++ l2) = sum_list l1 + sum_list l2.
Proof. induction l1 as [|x l1 IH]; cbn; lia. Qed.

(** [Math.max] over a list. *)
Lemma foldr_max_in (x : Z) l : foldr Z.max x l = x \/ foldr Z.max x l ∈ l.
Proof.
  induction l as [|y l IH]; cbn; [by left|].
  destruct (Z.max_spec y (foldr Z.max x l)) as [[_ ->]|[_ ->]]; [|right; by left].
  destruct IH as [->|?]; [by left|right; by right].
Qed.

Lemma foldr_max_ge (x : Z) l y : y = x \/ y ∈ l -> (y <= foldr Z.max x l)%Z.
Proof.
  intros [->|Hy].
  - induction l; cbn; lia.
  - induction Hy as [y l|y z l Hy IH]; cbn; lia.
Qed.
