(* ===== verification/JsString.v ===== *)
(** * JavaScript strings

    The operations of [String.prototype] the sources use, on sequences of
    code units.  A string is a list of 8-bit units read as the code points
    U+0000-U+00FF; on these every operation below is the ECMAScript one
    (white space includes U+00A0, [toLowerCase] maps U+00C0-U+00DE except
    U+00D7). *)

From S2P Require Import Prelude.

Abbreviation str := (list ascii).

Definition js (s : string) : str := String.list_ascii_of_string s.
Arguments js s%_string_scope.

Definition newline : ascii := "010"%char.
Definition nl : str := [newline].

(** Backslash escapes are not part of Rocq string literals; [jsn] turns each
    ["|n"] of a literal into a newline. *)
Fixpoint unescape (s : str) : str :=
  match s with
  | "|"%char :: "n"%char :: s' => newline :: unescape s'
  | c :: s' => c :: unescape s'
  | [] => []
  end.
Definition jsn (s : string) : str := unescape (js s).
Arguments jsn s%_string_scope.

(** ** Character classes *)

Definition code (c : ascii) : N := N_of_ascii c.
Definition between (lo hi : N) (c : ascii) : bool :=
  (lo <=? code c)%N && (code c <=? hi)%N.

(** [\s] *)
Definition is_space (c : ascii) : bool :=
  between 9 13 c || (code c =? 32)%N || (code c =? 160)%N.
(** [\d] *)
Definition is_digit (c : ascii) : bool := between 48 57 c.
(** [\w] *)
Definition is_word (c : ascii) : bool :=
  is_digit c || between 65 90 c || between 97 122 c || (code c =? 95)%N.

Definition char_lower (c : ascii) : ascii :=
  if between 65 90 c || (between 192 222 c && negb (code c =? 215)%N)
  then ascii_of_N (code c + 32) else c.
Definition toLowerCase (s : str) : str := char_lower <$> s.

(** The length of the run of characters of a class at the head: what a
    greedy [f+] or [f*] matches. *)
Fixpoint run_length (f : ascii -> bool) (s : str) : nat :=
  match s with
  | c :: s' => if f c then S (run_length f s') else 0
  | [] => 0
  end.

(** ** Prefixes, search *)

Fixpoint is_prefix (p s : str) : bool :=
  match p, s with
  | [], _ => true
  | _ :: _, [] => false
  | a :: p', b :: s' => bool_decide (a = b) && is_prefix p' s'
  end.

Definition startsWith (s p : str) : bool := is_prefix p s.
Definition endsWith (s p : str) : bool := is_prefix (rev p) (rev s).

(** [s.indexOf(p)] as an option: [None] is [-1]. *)
Fixpoint indexOf (s p : str) : option nat :=
  if is_prefix p s then Some 0
  else match s with
       | [] => None
       | _ :: s' => S <$> indexOf s' p
       end.

Definition includes (s p : str) : bool := bool_decide (is_Some (indexOf s p)).

(** [s.lastIndexOf(p, n)]: the largest position at most [n]. *)
Fixpoint last_index_upto (s p : str) (n : nat) : option nat :=
  if is_prefix p (drop n s) then Some n
  else match n with
       | O => None
       | S n' => last_index_upto s p n'
       end.
Definition lastIndexOf (s p : str) (pos : Z) : Z :=
  match last_index_upto s p (Z.to_nat (Z.min pos (Z.of_nat (length s)))) with
  | Some i => Z.of_nat i
  | None => -1
  end.

(** ** Cutting *)

Definition clamp (lo hi x : Z) : Z := Z.max lo (Z.min hi x).

(** [s.slice(a, b)]: negative arguments count from the end. *)
Definition slice_pos (len x : Z) : Z :=
  if (x <? 0)%Z then Z.max 0 (len + x) else Z.min x len.
Definition slice {A} (s : list A) (a b : Z) : list A :=
  let len := Z.of_nat (length s) in
  let from := slice_pos len a in
  let to := slice_pos len b in
  take (Z.to_nat (to - from)) (drop (Z.to_nat from) s).

(** [s.substring(a, b)]: arguments are clamped and swapped when reversed. *)
Definition substring (s : str) (a b : Z) : str :=
  let len := Z.of_nat (length s) in
  let a' := clamp 0 len a in
  let b' := clamp 0 len b in
  take (Z.to_nat (Z.max a' b' - Z.min a' b')) (drop (Z.to_nat (Z.min a' b')) s).

Fixpoint trimStart (s : str) : str :=
  match s with
  | c :: s' => if is_space c then trimStart s' else s
  | [] => []
  end.
Definition trimEnd (s : str) : str := rev (trimStart (rev s)).
Definition trim (s : str) : str := trimEnd (trimStart s).

(** ** Splitting and joining *)

(** [s.split(sep)] for a non-empty [sep]; [cur] is the piece being read,
    reversed, and [skip] the separator units still to pass over. *)
Fixpoint split_go (sep s cur : str) (skip : nat) : list str :=
  match s with
  | [] => [rev cur]
  | c :: s' =>
      match skip with
      | S k => split_go sep s' cur k
      | O => if is_prefix sep s
             then rev cur :: split_go sep s' [] (length sep - 1)
             else split_go sep s' (c :: cur) 0
      end
  end.
Definition split (s sep : str) : list str := split_go sep s [] 0.

Fixpoint join (l : list str) (sep : str) : str :=
  match l with
  | [] => []
  | [x] => x
  | x :: l' => x ++ sep ++ join l' sep
  end.

(** [s.split(/[...]+/)] for a class of characters *)
Fixpoint split_class_go (f : ascii -> bool) (s cur : str) (in_sep : bool) : list str :=
  match s with
  | [] => [rev cur]
  | c :: s' =>
      if f c
      then if in_sep then split_class_go f s' cur true else rev cur :: split_class_go f s' [] true
      else split_class_go f s' (c :: cur) false
  end.
Definition split_class (f : ascii -> bool) (s : str) : list str := split_class_go f s [] false.

(** [s.split(/\s+/)] *)
Definition split_ws (s : str) : list str := split_class is_space s.

(** [s.replace(/[...]+/g, r)] for a class of characters and a character *)
Fixpoint collapse (f : ascii -> bool) (r : ascii) (s : str) (in_sep : bool) : str :=
  match s with
  | [] => []
  | c :: s' =>
      if f c
      then if in_sep then collapse f r s' true else r :: collapse f r s' true
      else c :: collapse f r s' false
  end.

(** [s.replace(/\s+/g, ' ')] *)
Definition collapse_ws (s : str) (in_sep : bool) : str := collapse is_space " "%char s in_sep.

(** ** Regular expressions *)

(** The first position where [f] matches. *)
Fixpoint first_match {A} (f : str -> option A) (s : str) : option A :=
  match f s with
  | Some a => Some a
  | None => match s with [] => None | _ :: s' => first_match f s' end
  end.

(** A character that [.] does not match, among U+0000-U+00FF. *)
Definition line_end (c : ascii) : bool :=
  bool_decide (c = newline) || bool_decide (c = "013"%char).

(** [s.replace(/^.../gm, '')]: [m] gives the length of a match at the head.
    [bol] says whether the position is at the beginning of a line, [skip] how
    many characters of the match are still to be left out. *)
Fixpoint remove_at_lines (m : str -> option nat) (s : str) (skip : nat) (bol : bool) : str :=
  match s with
  | [] => []
  | c :: s' =>
      match skip with
      | S k => remove_at_lines m s' k (line_end c)
      | O =>
          match (if bol then m s else None) with
          | Some (S n) => remove_at_lines m s' n (line_end c)
          | _ => c :: remove_at_lines m s' 0 (line_end c)
          end
      end
  end.

(** [s.replace(re, ...)] for a global [re] without empty matches: [m] gives
    the length of a match at the head and what replaces it. *)
Fixpoint replace_matches (m : str -> option (nat * str)) (s : str) (skip : nat) : str :=
  match s with
  | [] => []
  | c :: s' =>
      match skip with
      | S k => replace_matches m s' k
      | O => match m s with
             | Some (S k, r) => r ++ replace_matches m s' k
             | _ => c :: replace_matches m s' 0
             end
      end
  end.

(** [s.replace(p, r)] with a string pattern: the first occurrence only. *)
Definition replace_first (s p r : str) : str :=
  match indexOf s p with
  | Some i => take i s ++ r ++ drop (i + length p) s
  | None => s
  end.

Definition str_of_Z (z : Z) : str := js (pretty z).
Definition str_of_nat (n : nat) : str := js (pretty n).

(** ** Lemmas *)

Lemma js_inj s1 s2 : js s1 = js s2 -> s1 = s2.
Proof.
  intros H. rewrite <- (String.string_of_list_ascii_of_string s1).
  rewrite <- (String.string_of_list_ascii_of_string s2). by f_equal.
Qed.

Lemma str_of_Z_inj x y : str_of_Z x = str_of_Z y -> x = y.
Proof. intros H%js_inj. by apply (inj pretty). Qed.

Lemma str_of_nat_inj x y : str_of_nat x = str_of_nat y -> x = y.
Proof. intros H%js_inj. by apply (inj pretty). Qed.

Lemma pretty_N_go_ne x s : s <> EmptyString -> pretty_N_go x s <> EmptyString.
Proof.
  revert s. induction (N.lt_wf_0 x) as [x _ IH]; intros s Hs.
  destruct (decide (x = 0)%N) as [->|Hx]; [by rewrite pretty_N_go_0|].
  rewrite pretty_N_go_step by lia. apply IH; [apply N.div_lt; lia|done].
Qed.

Lemma str_of_Z_ne z : str_of_Z z <> [].
Proof.
  assert (forall n : N, pretty n <> EmptyString) as HN.
  { intros n. unfold pretty, pretty_N. case_decide; [done|]. rewrite pretty_N_go_step by lia. by apply pretty_N_go_ne. }
  intros E. apply (js_inj _ EmptyString) in E. revert E. unfold pretty, pretty_Z. destruct z; try done. apply HN.
Qed.

Lemma is_prefix_spec p s : is_prefix p s = true <-> exists t, s = p ++ t.
Proof.
  revert s. induction p as [|a p IH]; intros s; cbn.
  - split; eauto.
  - destruct s as [|b s]; cbn; [split; [done|by intros [??]]|].
    rewrite andb_true_iff, bool_decide_eq_true, IH. split.
    + intros [-> [t ->]]. by exists t.
    + intros [t [= -> ->]]. eauto.
Qed.

Lemma startsWith_spec s p : startsWith s p = true <-> exists t, s = p ++ t.
Proof. apply is_prefix_spec. Qed.

Lemma indexOf_Some s p i :
  indexOf s p = Some i -> exists t, s = take i s ++ p ++ t /\ i <= length s.
Proof.
  revert i. induction s as [|c s IH]; intros i; cbn.
  - destruct (is_prefix p []) eqn:Hp; [|done]. intros [= <-].
    apply is_prefix_spec in Hp as [t Ht]. exists t. split; [done|lia].
  - destruct (is_prefix p (c :: s)) eqn:Hp.
    + intros [= <-]. apply is_prefix_spec in Hp as [t Ht]. exists t. split; [done|cbn; lia].
    + intros (j & Hj & ->)%fmap_Some. destruct (IH j Hj) as (t & Ht & ?).
      exists t. cbn. split; [by f_equal|lia].
Qed.

Lemma indexOf_None s p : indexOf s p = None -> forall a b, s <> a ++ p ++ b.
Proof.
  induction s as [|c s IH]; cbn; intros H a b E.
  - destruct a, p; simplify_eq/=.
  - destruct (is_prefix p (c :: s)) eqn:Hp; [done|].
    apply fmap_None in H. destruct a as [|c' a]; cbn in E.
    + assert (is_prefix p (c :: s) = true) by (apply is_prefix_spec; eauto). congruence.
    + injection E as _ E. by eapply IH.
Qed.

Lemma indexOf_first a p b i : indexOf (a ++ p ++ b) p = Some i -> i <= length a.
Proof.
  revert i. induction a as [|c a IH]; intros i.
  - cbn [app length]. destruct (p ++ b) eqn:E; cbn [indexOf].
    + destruct (is_prefix p []); [by intros [= <-]|done].
    + rewrite <- E, (proj2 (is_prefix_spec p (p ++ b))) by eauto. by intros [= <-].
  - cbn [app indexOf]. destruct (is_prefix p _); [intros [= <-]; cbn; lia|].
    intros (j & Hj & ->)%fmap_Some. apply IH in Hj. cbn. lia.
Qed.

(** [includes] is the substring relation. *)
Lemma includes_spec s p : includes s p = true <-> exists a b, s = a ++ p ++ b.
Proof.
  unfold includes. rewrite bool_decide_eq_true. split.
  - intros [i Hi]. destruct (indexOf_Some _ _ _ Hi) as (t & Ht & _). eauto.
  - intros (a & b & E). destruct (indexOf s p) eqn:H; [by eexists|].
    exfalso. by eapply indexOf_None.
Qed.

Lemma last_index_upto_Some s p n i :
  last_index_upto s p n = Some i -> i <= n /\ is_prefix p (drop i s) = true.
Proof.
  revert i. induction n as [|n IH]; intros i; cbn [last_index_upto].
  - destruct (is_prefix p (drop 0 s)) eqn:E; [|done]. by intros [= <-].
  - destruct (is_prefix p (drop (S n) s)) eqn:E.
    + intros [= <-]. by split.
    + intros H. destruct (IH i H). split; [lia|done].
Qed.

Lemma lastIndexOf_le s p pos : (0 <= pos)%Z -> (lastIndexOf s p pos <= pos)%Z.
Proof.
  intros Hp. unfold lastIndexOf.
  destruct (last_index_upto _ _ _) as [i|] eqn:E; [|lia].
  apply last_index_upto_Some in E as [? _]. lia.
Qed.

Lemma lastIndexOf_lt_length s p pos :
  p <> [] -> (lastIndexOf s p pos < Z.of_nat (length s))%Z.
Proof.
  intros Hp. unfold lastIndexOf.
  destruct (last_index_upto _ _ _) as [i|] eqn:E; [|lia].
  apply last_index_upto_Some in E as [_ H]. apply is_prefix_spec in H as [t Ht].
  assert (length (drop i s) = length p + length t) as Hl by (by rewrite Ht, length_app).
  rewrite length_drop in Hl. destruct p; [done|]. cbn in Hl. lia.
Qed.

(** *** [slice] and [substring] on ordinary arguments *)

Lemma slice_take_drop {A} (s : list A) a b :
  (0 <= a <= b)%Z -> (b <= Z.of_nat (length s))%Z ->
  slice s a b = take (Z.to_nat (b - a)) (drop (Z.to_nat a) s).
Proof.
  intros ??. unfold slice, slice_pos.
  rewrite !(proj2 (Z.ltb_ge _ 0)) by lia. by rewrite !Z.min_l by lia.
Qed.

Lemma lookup_slice {A} (s : list A) a b p :
  (0 <= a <= Z.of_nat p)%Z -> (Z.of_nat p < b)%Z -> (b <= Z.of_nat (length s))%Z ->
  slice s a b !! (p - Z.to_nat a) = s !! p.
Proof.
  intros ???. rewrite slice_take_drop by lia.
  rewrite lookup_take_lt by lia. rewrite lookup_drop. f_equal. lia.
Qed.

Lemma length_slice {A} (s : list A) a b :
  (0 <= a <= b)%Z -> (b <= Z.of_nat (length s))%Z ->
  Z.of_nat (length (slice s a b)) = (b - a)%Z.
Proof. intros ??. rewrite slice_take_drop, length_take, length_drop by lia. lia. Qed.

Lemma slice_0 {A} (s : list A) n :
  (0 <= n)%Z -> slice s 0 n = take (Z.to_nat n) s.
Proof.
  intros ?. unfold slice, slice_pos.
  rewrite !(proj2 (Z.ltb_ge _ 0)) by lia.
  rewrite (Z.min_l 0) by lia. rewrite Z.sub_0_r. change (Z.to_nat 0) with 0. rewrite drop_0.
  destruct (Z.le_ge_cases n (Z.of_nat (length s))).
  - by rewrite Z.min_l by lia.
  - rewrite Z.min_r by lia. rewrite Nat2Z.id, firstn_all.
    symmetry. apply take_ge. lia.
Qed.

Lemma length_slice_le {A} (s : list A) a b :
  (0 <= a)%Z -> (Z.of_nat (length (slice s a b)) <= Z.max 0 (b - a))%Z \/ (b < 0)%Z.
Proof.
  intros ?. destruct (Z.ltb_spec b 0); [by right|left].
  unfold slice, slice_pos. rewrite !(proj2 (Z.ltb_ge _ 0)) by lia.
  rewrite length_take, length_drop. lia.
Qed.

Lemma substring_prefix (s : str) n :
  (0 <= n)%Z -> substring s 0 n = take (Z.to_nat n) s.
Proof.
  intros Hn. rewrite <- slice_0 by done. unfold substring, slice, slice_pos, clamp.
  rewrite !(proj2 (Z.ltb_ge _ 0)) by lia.
  f_equal; [f_equal; lia|f_equal; f_equal; lia].
Qed.

Lemma length_substring_0 (s : str) n :
  (0 <= n)%Z -> length (substring s 0 n) = Nat.min (Z.to_nat n) (length s).
Proof. intros. rewrite substring_prefix by done. by rewrite length_take. Qed.

(** *** [trim] *)

Lemma trimStart_split s : exists w, s = w ++ trimStart s /\ Forall (fun c => is_space c = true) w.
Proof.
  induction s as [|c s (w & Hw & Hf)]; cbn; [by exists []|].
  destruct (is_space c) eqn:E; [|by exists []].
  exists (c :: w). split; [by rewrite Hw at 1|by constructor].
Qed.

Lemma trim_split s : exists w1 w2,
  s = w1 ++ trim s ++ w2 /\ Forall (fun c => is_space c = true) w1 /\ Forall (fun c => is_space c = true) w2.
Proof.
  destruct (trimStart_split s) as (w1 & H1 & Hf1).
  destruct (trimStart_split (rev (trimStart s))) as (w2 & H2 & Hf2).
  exists w1, (rev w2). repeat split; [|done|].
  - rewrite H1 at 1. f_equal. unfold trim, trimEnd.
    rewrite <- rev_app_distr, <- H2. by rewrite rev_involutive.
  - by apply Forall_rev.
Qed.

Lemma length_trim_le s : length (trim s) <= length s.
Proof. destruct (trim_split s) as (w1 & w2 & H & _). rewrite H at 2. rewrite !length_app. lia. Qed.

Lemma trim_nil_spaces s : trim s = [] -> Forall (fun c => is_space c = true) s.
Proof.
  intros E. destruct (trim_split s) as (w1 & w2 & H & H1 & H2). rewrite E in H. cbn in H.
  rewrite H. by apply Forall_app.
Qed.

Lemma trimStart_id s : (forall c s', s = c :: s' -> is_space c = false) -> trimStart s = s.
Proof. destruct s as [|c s]; cbn; [done|]. intros H. by rewrite (H c s eq_refl). Qed.

Lemma trimStart_head s c s' : trimStart s = c :: s' -> is_space c = false.
Proof. induction s as [|d s IH]; cbn; [done|]. destruct (is_space d) eqn:E; [done|congruence]. Qed.

Lemma trimStart_idem s : trimStart (trimStart s) = trimStart s.
Proof. apply trimStart_id. intros c s'. apply trimStart_head. Qed.

(** [trim] removes white space once and for all. *)
Lemma trim_idem s : trim (trim s) = trim s.
Proof.
  unfold trim, trimEnd.
  assert (trimStart (rev (trimStart (rev (trimStart s)))) = rev (trimStart (rev (trimStart s)))) as E.
  { apply trimStart_id. intros c t Ht.
    destruct (trimStart_split (rev (trimStart s))) as (w & Hw & _).
    apply (f_equal (@rev ascii)) in Hw. rewrite rev_involutive, rev_app_distr, Ht in Hw.
    cbn in Hw. by eapply trimStart_head. }
  by rewrite E, rev_involutive, trimStart_idem.
Qed.

(** *** [split] and [join] *)

Lemma join_cons x y l sep : join (x :: y :: l) sep = x ++ sep ++ join (y :: l) sep.
Proof. done. Qed.

Lemma split_go_ne sep s cur k : split_go sep s cur k <> [].
Proof. revert cur k. induction s as [|c s IH]; intros cur k; cbn; [done|]. case_match; [case_match|]; done. Qed.

Lemma join_split_go sep s cur k :
  sep <> [] -> join (split_go sep s cur k) sep = rev cur ++ drop k s.
Proof.
  intros Hsep. revert cur k. induction s as [|c s IH]; intros cur k; cbn [split_go].
  - by rewrite drop_nil, app_nil_r.
  - destruct k as [|k]; [|apply IH].
    destruct (is_prefix sep (c :: s)) eqn:Hp.
    + destruct (split_go sep s [] (length sep - 1)) as [|y l] eqn:E; [by apply split_go_ne in E|].
      rewrite join_cons, <- E, IH. f_equal. apply is_prefix_spec in Hp as [t Ht].
      destruct sep as [|d sep]; [done|]. cbn in Ht |- *. injection Ht as -> ->.
      by rewrite Nat.sub_0_r, drop_app_length.
    + rewrite IH. cbn. by rewrite <- app_assoc.
Qed.

(** Joining the pieces of a split with the separator gives the string back. *)
Lemma join_split s sep : sep <> [] -> join (split s sep) sep = s.
Proof. intros H. unfold split. by rewrite join_split_go. Qed.

Lemma length_join l sep :
  length (join l sep) = sum_list (length <$> l) + (length l - 1) * length sep.
Proof.
  induction l as [|x [|y l] IH]; [done|cbn; lia|].
  rewrite join_cons, !length_app, IH. cbn. lia.
Qed.

(** ** Greedy runs *)

Lemma run_length_split f s :
  exists a b, s = a ++ b /\ length a = run_length f s /\ Forall (fun c => f c = true) a /\
    match b with [] => True | c :: _ => f c = false end.
Proof.
  induction s as [|c s (a & b & -> & Ha & Hf & Hb)]; cbn.
  - by exists [], [].
  - destruct (f c) eqn:E.
    + exists (c :: a), b. cbn. split_and!; [done|by rewrite Ha|by constructor|done].
    + by exists [], (c :: a ++ b).
Qed.

Lemma run_length_app f a b :
  Forall (fun c => f c = true) a -> match b with [] => True | c :: _ => f c = false end ->
  run_length f (a ++ b) = length a.
Proof.
  intros Ha Hb. induction Ha as [|c a Hc _ IH]; cbn.
  - destruct b; [done|]. cbn. by rewrite Hb.
  - by rewrite Hc, IH.
Qed.

(** ** Single characters *)

Lemma indexOf_char a c s : c ∉ a -> indexOf (a ++ c :: s) [c] = Some (length a).
Proof.
  intros Ha. induction a as [|x a IH]; cbn.
  - by rewrite bool_decide_eq_true_2.
  - rewrite bool_decide_eq_false_2 by set_solver. cbn. rewrite IH by set_solver. done.
Qed.

Lemma last_index_upto_char a c s n :
  c ∉ s -> length a <= n -> last_index_upto (a ++ c :: s) [c] n = Some (length a).
Proof.
  intros Hs. induction n as [|n IH]; intros Hn.
  - destruct a; [|cbn in Hn; lia]. cbn. by rewrite bool_decide_eq_true_2.
  - cbn [last_index_upto]. destruct (decide (length a = S n)) as [E|E].
    + rewrite drop_app_ge by lia. rewrite E, Nat.sub_diag. cbn. by rewrite bool_decide_eq_true_2.
    + assert (is_prefix [c] (drop (S n) (a ++ c :: s)) = false) as ->; [|apply IH; lia].
      rewrite drop_app_ge by lia. replace (S n - length a) with (S (n - length a)) by lia.
      cbn [drop]. destruct (drop (n - length a) s) as [|x t] eqn:Et; [done|]. cbn.
      rewrite bool_decide_eq_false_2; [done|]. intros ->. apply Hs.
      rewrite <- (take_drop (n - length a) s), Et. set_solver.
Qed.

Lemma lastIndexOf_char a c s :
  c ∉ s -> lastIndexOf (a ++ c :: s) [c] (Z.of_nat (length (a ++ c :: s))) = Z.of_nat (length a).
Proof.
  intros Hs. unfold lastIndexOf. rewrite last_index_upto_char; [done..|].
  rewrite length_app. cbn. lia.
Qed.

Lemma substring_app (a b s : str) :
  substring (a ++ b ++ s) (Z.of_nat (length a)) (Z.of_nat (length a + length b)) = b.
Proof.
  unfold substring, clamp. rewrite !length_app.
  replace (Z.to_nat (Z.min _ _)) with (length a) by lia. rewrite drop_app_length.
  replace (Z.to_nat _) with (length b) by lia. apply take_app_length.
Qed.

(** Splitting at a character. *)
Lemma split_go_word c w : forall cur s,
  c ∉ w -> split_go [c] (w ++ c :: s) cur 0 = (rev cur ++ w) :: split_go [c] s [] 0.
Proof.
  induction w as [|x w IH]; intros cur s Hw; cbn [app split_go].
  - cbn. rewrite bool_decide_eq_true_2 by done. cbn. by rewrite app_nil_r.
  - apply not_elem_of_cons in Hw as [Hx Hw]. cbn. rewrite bool_decide_eq_false_2 by done. cbn.
    rewrite IH by done. cbn. by rewrite <- app_assoc.
Qed.

Lemma split_go_last c w : forall cur, c ∉ w -> split_go [c] w cur 0 = [rev cur ++ w].
Proof.
  induction w as [|x w IH]; intros cur Hw; [cbn; by rewrite app_nil_r|].
  apply not_elem_of_cons in Hw as [Hx Hw]. cbn. rewrite bool_decide_eq_false_2 by done. cbn.
  rewrite IH by done. cbn. by rewrite <- app_assoc.
Qed.

Lemma split_cons c w s : c ∉ w -> split (w ++ c :: s) [c] = w :: split s [c].
Proof. apply (split_go_word c w []). Qed.
Lemma split_single c w : c ∉ w -> split w [c] = [w].
Proof. apply (split_go_last c w []). Qed.

Lemma split_join c ls : ls <> [] -> Forall (fun l => c ∉ l) ls -> split (join ls [c]) [c] = ls.
Proof.
  intros Hne H. induction H as [|l ls Hl Hls IH]; [done|]. destruct ls as [|l' ls]; [by apply split_single|].
  rewrite join_cons. change ([c] ++ ?x) with (c :: x). rewrite split_cons by done. f_equal. by apply IH.
Qed.

(** The joined text of a list includes every element of the list. *)
Lemma join_includes x l sep : x ∈ l -> includes (join l sep) x = true.
Proof.
  intros (l1 & l2 & ->)%list_elem_of_split. apply includes_spec.
  induction l1 as [|y l1 (a & b & IH)].
  - cbn [app]. destruct l2 as [|z l2]; [exists [], []; cbn; by rewrite app_nil_r|].
    rewrite join_cons. by exists [], (sep ++ join (z :: l2) sep).
  - exists (y ++ sep ++ a), b. change ((y :: l1) ++ x :: l2) with (y :: (l1 ++ x :: l2)).
    destruct (l1 ++ x :: l2) eqn:E; [by destruct l1|]. rewrite join_cons, IH. by simplify_list_eq.
Qed.

(** ** Global replacement *)

Lemma replace_matches_plain m a s :
  (forall a1 a2, a = a1 ++ a2 -> a2 <> [] -> m (a2 ++ s) = None) ->
  replace_matches m (a ++ s) 0 = a ++ replace_matches m s 0.
Proof.
  induction a as [|c a IH]; intros H; [done|]. pose proof (H [] (c :: a) eq_refl ltac:(done)) as Hc.
  cbn [app] in *. cbn [replace_matches]. rewrite Hc. f_equal. apply IH. intros a1 a2 -> Hne.
  by apply (H (c :: a1) a2).
Qed.

Lemma replace_matches_skip m a s : replace_matches m (a ++ s) (length a) = replace_matches m s 0.
Proof. by induction a as [|c a IH]; [destruct s|]; cbn. Qed.

Lemma replace_matches_at m a s r :
  a <> [] -> m (a ++ s) = Some (length a, r) -> replace_matches m (a ++ s) 0 = r ++ replace_matches m s 0.
Proof.
  destruct a as [|c a]; [done|]. intros _ H. cbn [app] in *. cbn [replace_matches]. rewrite H. cbn.
  by rewrite replace_matches_skip.
Qed.

(** ** Occurrences *)

Lemma app_within {A} (s t a b : list A) : s ++ t = a ++ b -> length a <= length s -> exists c, s = a ++ c.
Proof.
  intros E Hl. exists (drop (length a) s). apply (f_equal (take (length a))) in E.
  rewrite take_app_length, take_app_le in E by done. rewrite <- E at 1. by rewrite take_drop.
Qed.

Lemma indexOf_intro a p b :
  (forall a' b', a ++ p ++ b = a' ++ p ++ b' -> length a <= length a') -> indexOf (a ++ p ++ b) p = Some (length a).
Proof.
  intros H. destruct (indexOf (a ++ p ++ b) p) as [i|] eqn:E; [|by eapply indexOf_None in E].
  f_equal. pose proof (indexOf_first _ _ _ _ E). apply indexOf_Some in E as (t & Ht & ?).
  apply H in Ht. rewrite length_take in Ht. lia.
Qed.

Lemma indexOf_app s p t i : indexOf s p = Some i -> indexOf (s ++ t) p = Some i.
Proof.
  intros E. destruct (indexOf_Some _ _ _ E) as (u & Hu & Hi). set (a := take i s) in *.
  assert (length a = i) as La by (subst a; rewrite length_take; lia). clearbody a. subst i.
  rewrite Hu, <- !app_assoc. apply indexOf_intro. intros a' b' E'.
  destruct (le_lt_dec (length a) (length a')) as [|Hlt]; [done|exfalso].
  assert (exists c, s = (a' ++ p) ++ c) as [c Hc].
  { apply (app_within s t _ b').
    - rewrite Hu, <- !app_assoc. done.
    - rewrite Hu, !length_app. lia. }
  rewrite Hc, <- app_assoc in E. apply indexOf_first in E. lia.
Qed.

(** An occurrence of a text without the character [c] lies before or after
    any [c]. *)
Lemma occurrence_beside (c : ascii) a t p a' b' :
  c ∉ p -> a ++ c :: t = a' ++ p ++ b' -> (exists d, a = a' ++ p ++ d) \/ (exists d, a' = (a ++ [c]) ++ d).
Proof.
  intros Hc E. destruct (le_lt_dec (length (a' ++ p)) (length a)) as [Hl|Hl].
  - left. destruct (app_within a (c :: t) (a' ++ p) b') as [d Hd]; [by rewrite <- app_assoc|done|].
    exists d. by rewrite app_assoc.
  - right. apply (app_within a' (p ++ b') (a ++ [c]) t); [by rewrite <- app_assoc|].
    destruct (le_lt_dec (length (a ++ [c])) (length a')) as [|Hk]; [done|exfalso].
    rewrite length_app in Hl, Hk. cbn in Hk. apply Hc.
    apply list_elem_of_lookup_2 with (length a - length a').
    apply (f_equal (fun l => l !! length a)) in E.
    rewrite list_lookup_middle in E by done. rewrite lookup_app_r in E by lia.
    rewrite lookup_app_l in E by lia. done.
Qed.

Lemma includes_false s p : includes s p = false <-> forall a b, s <> a ++ p ++ b.
Proof.
  rewrite <- not_true_iff_false, includes_spec. naive_solver.
Qed.

Lemma includes_prefix s t p : s `prefix_of` t -> includes t p = false -> includes s p = false.
Proof.
  intros [u ->]. rewrite !includes_false. intros H a b ->. apply (H a (b ++ u)). by rewrite <- !app_assoc.
Qed.

Lemma first_match_found {A} (f : str -> option A) s x : first_match f s = Some x -> exists a t, s = a ++ t /\ f t = Some x.
Proof.
  induction s as [|c s IH]; cbn.
  - destruct (f []) eqn:E; [|done]. intros [= <-]. by exists [], [].
  - destruct (f (c :: s)) eqn:E; [intros [= <-]; by exists [], (c :: s)|].
    intros (a & t & -> & Ht)%IH. by exists (c :: a), t.
Qed.

(** A text that has something else than spaces. *)
Definition not_blank (s : str) : Prop := exists c, c ∈ s /\ is_space c = false.

Lemma trimStart_visible a b : not_blank a -> trimStart (a ++ b) = trimStart a ++ b.
Proof.
  intros (c & Hc & Hs). induction a as [|x a IH]; [by apply elem_of_nil in Hc|]. cbn.
  destruct (is_space x) eqn:E; [|done]. apply IH.
  apply elem_of_cons in Hc as [->|]; [congruence|done].
Qed.

Lemma trimEnd_visible a b : not_blank b -> trimEnd (a ++ b) = a ++ trimEnd b.
Proof.
  intros (c & Hc & Hs). unfold trimEnd. rewrite rev_app_distr, trimStart_visible, rev_app_distr, rev_involutive; [done|].
  exists c. split; [by apply list_elem_of_In, in_rev; rewrite rev_involutive; apply list_elem_of_In|done].
Qed.

Lemma trimEnd_prefix s : trimEnd s `prefix_of` s.
Proof.
  destruct (trimStart_split (rev s)) as (w & E & _). exists (rev w). unfold trimEnd.
  rewrite <- rev_app_distr, <- E. by rewrite rev_involutive.
Qed.

(** What starts with a visible character only loses the spaces at the end. *)
Lemma trim_app_end c a b : is_space c = false -> not_blank b -> trim ((c :: a) ++ b) = (c :: a) ++ trimEnd b.
Proof.
  intros Hc Hb. unfold trim. cbn. rewrite Hc. change (c :: a ++ b) with ((c :: a) ++ b). by apply trimEnd_visible.
Qed.

(** What is in a line is in the text. *)
Lemma line_includes s line p : line ∈ split s nl -> includes line p = true -> includes s p = true.
Proof.
  intros Hl (x & y & ->)%includes_spec. apply (join_includes _ _ nl) in Hl. rewrite join_split in Hl by done.
  apply includes_spec in Hl as (a & b & ->). apply includes_spec. exists (a ++ x), (y ++ b).
  by rewrite <- !app_assoc.
Qed.

Lemma trim_head s c t : trim s = c :: t -> is_space c = false.
Proof.
  intros E. destruct (trimEnd_prefix (trimStart s)) as [w Hw]. fold (trim s) in Hw. rewrite E in Hw.
  by eapply trimStart_head.
Qed.

Lemma split_go_head sep s cur : exists t, head (split_go sep s cur 0) = Some (rev cur ++ t).
Proof.
  revert cur. induction s as [|c s IH]; intros cur; cbn [split_go]; [exists []; by rewrite app_nil_r|].
  destruct (is_prefix sep (c :: s)); [exists []; by rewrite app_nil_r|].
  destruct (IH (c :: cur)) as [t ->]. exists (c :: t). cbn. by rewrite <- app_assoc.
Qed.

(** ** Printing values of a countable type

    As sequences of bits: enough to read them back. *)

Fixpoint bits (p : positive) : str :=
  match p with xH => [] | xO p => "0"%char :: bits p | xI p => "1"%char :: bits p end.
Fixpoint unbits (s : str) : positive :=
  match s with [] => xH | c :: s => if bool_decide (c = "1"%char) then xI (unbits s) else xO (unbits s) end.

Lemma unbits_bits p : unbits (bits p) = p.
Proof. induction p as [p IH|p IH|]; cbn; by rewrite ?IH. Qed.

Definition print_bits `{Countable A} (a : A) : str := bits (encode a).
Definition read_bits `{Countable A} (s : str) : option A := decode (unbits s).

Lemma read_print_bits `{Countable A} (a : A) : read_bits (print_bits a) = Some a.
Proof. unfold read_bits, print_bits. by rewrite unbits_bits, decode_encode. Qed.
