(* ===== verification/JsArray.v ===== *)
(** * JavaScript arrays and maps

    [Array.prototype.sort] with a comparator (stable since ECMAScript 2019)
    and the insertion-ordered [Map]. *)

From S2P Require Import Prelude.

(** ** Stable sorting

    [lt a b] stands for [compare(a, b) < 0].  A consistent comparator has
    exactly one stable sorted arrangement, so any stable algorithm gives the
    engine's result; this one inserts from the left. *)

Section sorting.
Context {A : Type} (lt : A -> A -> bool).

Fixpoint insert_by (x : A) (l : list A) : list A :=
  match l with
  | [] => [x]
  | y :: l' => if lt x y then x :: y :: l' else y :: insert_by x l'
  end.

Definition sort_by (l : list A) : list A := foldl (fun acc x => insert_by x acc) [] l.

Lemma insert_by_perm x l : insert_by x l ≡ₚ x :: l.
Proof.
  induction l as [|y l IH]; cbn; [done|]. case_match; [done|].
  rewrite IH. apply Permutation_swap.
Qed.

Lemma foldl_insert_perm l acc : foldl (fun acc x => insert_by x acc) acc l ≡ₚ acc ++ l.
Proof.
  revert acc. induction l as [|x l IH]; intros acc; cbn.
  - by rewrite app_nil_r.
  - rewrite IH, insert_by_perm. cbn. apply Permutation_middle.
Qed.

Lemma sort_by_perm l : sort_by l ≡ₚ l.
Proof. unfold sort_by. by rewrite foldl_insert_perm. Qed.

Lemma length_sort_by l : length (sort_by l) = length l.
Proof. apply Permutation_length, sort_by_perm. Qed.

Lemma elem_of_sort_by l x : x ∈ sort_by l <-> x ∈ l.
Proof. by rewrite sort_by_perm. Qed.

(** The comparator is consistent on the elements satisfying [D]. *)
Context (D : A -> Prop).
Definition le (x y : A) : Prop := lt y x = false.
Context (lt_asym : forall x y, D x -> D y -> lt x y = true -> le x y).
Context (le_trans : forall x y z, D x -> D y -> D z -> le x y -> le y z -> le x z).

Lemma insert_by_sorted x l :
  D x -> Forall D l -> StronglySorted le l -> StronglySorted le (insert_by x l).
Proof.
  intros Hx HD Hs. induction Hs as [|y l Hs IH Hy]; cbn; [repeat constructor|].
  inversion HD as [|?? HDy HDl]; subst.
  destruct (lt x y) eqn:E; constructor.
  - by constructor.
  - constructor; [by apply lt_asym|]. rewrite Forall_forall in *.
    intros z Hz. apply (le_trans x y z); auto.
  - by apply IH.
  - rewrite Forall_forall in *. intros z. rewrite (insert_by_perm x l).
    intros [->|Hz]%elem_of_cons; [done|auto].
Qed.

Lemma foldl_insert_sorted l acc :
  Forall D l -> Forall D acc -> StronglySorted le acc ->
  StronglySorted le (foldl (fun acc x => insert_by x acc) acc l).
Proof.
  revert acc. induction l as [|x l IH]; intros acc Hl Hacc Hs; cbn; [done|].
  inversion Hl; subst. apply IH; [done| |by apply insert_by_sorted].
  rewrite insert_by_perm. by constructor.
Qed.

Lemma sort_by_sorted l : Forall D l -> StronglySorted le (sort_by l).
Proof. intros. by apply foldl_insert_sorted; [|constructor|constructor]. Qed.

(** Top-k: what [sort().slice(0, n)] keeps is at least as good as what it
    leaves out. *)
Lemma sort_by_take_best n l x y :
  Forall D l -> x ∈ take n (sort_by l) -> y ∈ drop n (sort_by l) -> le x y.
Proof. intros HD. apply StronglySorted_take_drop. by apply sort_by_sorted. Qed.

(** Stability: elements the comparator does not tell apart keep their order. *)
Lemma insert_by_stable (p : A -> bool) x l :
  D x -> Forall D l -> StronglySorted le l ->
  (forall y z, p y = true -> p z = true -> lt y z = false) ->
  filterb p (insert_by x l) = filterb p l ++ filterb p [x].
Proof.
  intros Hx HD Hs Hp. induction Hs as [|y l Hs IH Hy]; [done|].
  inversion HD as [|?? HDy HDl]; subst. cbn [insert_by].
  destruct (lt x y) eqn:E.
  - destruct (p x) eqn:Px.
    2:{ unfold filterb. cbn. rewrite Px. destruct (p y); by rewrite ?app_nil_r. }
    assert (filterb p (y :: l) = []) as Hnil.
    { assert (forall z, z ∈ y :: l -> p z = false) as Hz.
      { intros z Hz. destruct (p z) eqn:Pz; [|done]. exfalso.
        assert (le y z) as Hyz.
        { apply elem_of_cons in Hz as [->|Hz].
          - unfold le. by apply Hp.
          - rewrite Forall_forall in Hy. auto. }
        assert (D z) as HDz.
        { rewrite Forall_forall in HD. auto. }
        assert (le y x) as Hyx.
        { apply (le_trans y z x); auto. unfold le. by apply Hp. }
        unfold le in Hyx. congruence. }
      clear -Hz. induction (y :: l) as [|w m IH]; [done|]. cbn.
      rewrite Hz by constructor. apply IH. intros. apply Hz. by constructor. }
    change (x :: y :: l) with ([x] ++ y :: l).
    by rewrite filterb_app, Hnil, app_nil_r.
  - cbn. unfold filterb in *. cbn. rewrite IH by done. destruct (p y); done.
Qed.

Lemma sort_by_stable (p : A -> bool) l :
  Forall D l -> (forall y z, p y = true -> p z = true -> lt y z = false) ->
  filterb p (sort_by l) = filterb p l.
Proof.
  intros HD Hp. unfold sort_by.
  enough (forall acc, Forall D acc -> StronglySorted le acc ->
    filterb p (foldl (fun acc x => insert_by x acc) acc l) = filterb p acc ++ filterb p l) as E.
  { apply (E []); constructor. }
  induction HD as [|x l Hx HD IH]; intros acc Hacc Hs; cbn [foldl].
  - by rewrite app_nil_r.
  - rewrite IH; [|by rewrite insert_by_perm; constructor|by apply insert_by_sorted].
    rewrite insert_by_stable by done.
    rewrite <- app_assoc. f_equal. by rewrite <- filterb_app.
Qed.
End sorting.

(** A sorted list is left alone. *)
Lemma insert_by_end {A} (lt : A -> A -> bool) x l : (forall y, y ∈ l -> lt x y = false) -> insert_by lt x l = l ++ [x].
Proof.
  induction l as [|y l IH]; intros H; [done|]. cbn. rewrite H by constructor. f_equal. apply IH.
  intros z Hz. apply H. by constructor.
Qed.

Lemma sort_by_id {A} (lt : A -> A -> bool) l :
  StronglySorted (fun x y => lt y x = false) l -> sort_by lt l = l.
Proof.
  intros Hs. unfold sort_by. enough (forall acc, StronglySorted (fun x y => lt y x = false) (acc ++ l) ->
    foldl (fun acc x => insert_by lt x acc) acc l = acc ++ l) as H by (by apply (H [])).
  clear Hs. induction l as [|x l IH]; intros acc Hs; cbn; [by rewrite app_nil_r|].
  assert (forall y, y ∈ acc -> lt x y = false) as Hx.
  { intros y Hy. clear IH. induction acc as [|z acc IHa]; [by apply elem_of_nil in Hy|].
    cbn in Hs. inversion Hs as [|?? Hs' Hz]; subst. apply elem_of_cons in Hy as [->|Hy]; [|auto].
    rewrite Forall_forall in Hz. apply Hz. apply elem_of_app. right. left. }
  rewrite insert_by_end by done. rewrite IH by (by rewrite <- app_assoc). by rewrite <- app_assoc.
Qed.

(** [l.sort((a, b) => key(b) - key(a))] for integer keys. *)
Definition sort_desc_Z {A} (key : A -> Z) (l : list A) : list A :=
  sort_by (fun a b => (key b <? key a)%Z) l.

Lemma sort_desc_Z_sorted {A} (key : A -> Z) (l : list A) :
  StronglySorted (fun x y => (key y <= key x)%Z) (sort_desc_Z key l).
Proof.
  assert (StronglySorted (le (fun a b => (key b <? key a)%Z)) (sort_desc_Z key l)) as H.
  { apply sort_by_sorted with (D := fun _ => True);
      [| |by apply Forall_true]; unfold le; intros; split_bools; rewrite Z.ltb_ge; lia. }
  induction H as [|x l' H IH Hx]; constructor; [done|].
  eapply Forall_impl; [exact Hx|]. unfold le. intros y Hy. by apply Z.ltb_ge.
Qed.

Lemma sort_desc_Z_stable {A} (key : A -> Z) (k : Z) (l : list A) :
  filterb (fun x => key x =? k)%Z (sort_desc_Z key l) = filterb (fun x => key x =? k)%Z l.
Proof.
  unfold sort_desc_Z. eapply sort_by_stable with (D := fun _ => True);
    [| |by apply Forall_true|]; unfold le; intros; split_bools; rewrite ?Z.ltb_ge; lia.
Qed.

(** [sort((a, b) => a - b)] on whole numbers. *)
Definition sort_asc (l : list Z) : list Z := sort_by Z.ltb l.

Lemma sort_asc_sorted (l : list Z) : StronglySorted Z.le (sort_asc l).
Proof.
  assert (StronglySorted (le Z.ltb) (sort_asc l)) as H.
  { apply sort_by_sorted with (D := fun _ => True);
      [| |by apply Forall_true]; unfold le; intros; split_bools; rewrite Z.ltb_ge; lia. }
  induction H as [|x l' H IH Hx]; constructor; [done|].
  eapply Forall_impl; [exact Hx|]. unfold le. intros y Hy. by apply Z.ltb_ge.
Qed.

(** ** [Set]

    In the order of insertion. *)

Section jsset.
Context {A : Type} `{EqDecision A}.

Definition set_add (s : list A) (x : A) : list A := if bool_decide (x ∈ s) then s else s ++ [x].
Definition set_adds (s l : list A) : list A := foldl set_add s l.

(** [Array.from(new Set(l))] *)
Definition unique (l : list A) : list A := set_adds [] l.

Lemma elem_of_set_adds s l x : x ∈ set_adds s l <-> x ∈ s \/ x ∈ l.
Proof.
  unfold set_adds. revert s. induction l as [|y l IH]; intros s; cbn [foldl]; [set_solver|].
  rewrite IH. unfold set_add. case_bool_decide; set_solver.
Qed.

Lemma elem_of_unique l x : x ∈ unique l <-> x ∈ l.
Proof. unfold unique. rewrite elem_of_set_adds. set_solver. Qed.

Lemma set_adds_NoDup s l : NoDup s -> NoDup (set_adds s l).
Proof.
  unfold set_adds. revert s. induction l as [|y l IH]; intros s Hs; cbn [foldl]; [done|]. apply IH.
  unfold set_add. case_bool_decide; [done|]. apply NoDup_app. split; [done|].
  split; [set_solver|apply NoDup_singleton].
Qed.
End jsset.

(** ** [Map]

    A [Map] keeps its entries in insertion order; [set] on a present key
    replaces the value in place. *)

Abbreviation jsmap K V := (list (K * V)).

Section jsmap.
Context {K V : Type} `{EqDecision K}.
Implicit Types (m : jsmap K V) (k : K) (v : V).

Fixpoint map_get m k : option V :=
  match m with
  | [] => None
  | (k', v) :: m' => if decide (k = k') then Some v else map_get m' k
  end.

Fixpoint map_set m k v : jsmap K V :=
  match m with
  | [] => [(k, v)]
  | (k', v') :: m' => if decide (k = k') then (k', v) :: m' else (k', v') :: map_set m' k v
  end.

Definition map_delete m k : jsmap K V := filterb (fun e => negb (bool_decide (e.1 = k))) m.
Definition map_has m k : bool := bool_decide (is_Some (map_get m k)).
Definition map_values m : list V := m.*2.
Definition map_keys m : list K := m.*1.
Definition map_size m : nat := length m.

(** No key is bound twice. *)
Definition map_wf m : Prop := NoDup (map_keys m).

Lemma map_get_set_eq m k v : map_get (map_set m k v) k = Some v.
Proof. induction m as [|[k' v'] m IH]; cbn; repeat (case_decide; cbn); congruence. Qed.

Lemma map_get_set_ne m k k' v : k <> k' -> map_get (map_set m k v) k' = map_get m k'.
Proof. intros. induction m as [|[k2 v2] m IH]; cbn; repeat (case_decide; cbn); congruence. Qed.

Lemma map_set_set m k v w : map_set (map_set m k v) k w = map_set m k w.
Proof. induction m as [|[k' v'] m IH]; cbn; repeat (case_decide; cbn); congruence. Qed.

Lemma map_set_fresh m k v : map_get m k = None -> map_set m k v = m ++ [(k, v)].
Proof. induction m as [|[k' v'] m IH]; cbn; [done|]. case_decide; [done|]. intros E. by rewrite IH. Qed.

Lemma map_get_delete_eq m k : map_get (map_delete m k) k = None.
Proof.
  induction m as [|[k' v'] m IH]; [done|]. unfold map_delete, filterb in *. cbn.
  case_bool_decide; cbn; [done|]. by rewrite decide_False by congruence.
Qed.

Lemma map_get_delete_ne m k k' : k <> k' -> map_get (map_delete m k) k' = map_get m k'.
Proof.
  intros. induction m as [|[k2 v2] m IH]; [done|]. unfold map_delete, filterb in *. cbn.
  case_bool_decide; cbn; case_decide; congruence.
Qed.

Lemma map_keys_set m k v :
  map_keys (map_set m k v) = if map_has m k then map_keys m else map_keys m ++ [k].
Proof.
  unfold map_has, map_keys. induction m as [|[k' v'] m IH]; [done|].
  cbn [map_set map_get]. case_decide as E; cbn [fmap list_fmap fst].
  - by rewrite bool_decide_eq_true_2 by (by eexists).
  - rewrite IH. by destruct (bool_decide _).
Qed.

Lemma elem_of_map_keys m k : k ∈ map_keys m <-> is_Some (map_get m k).
Proof.
  unfold map_keys. induction m as [|[k' v'] m IH]; cbn; [split; [set_solver|by intros [??]]|].
  rewrite elem_of_cons, IH. case_decide; [naive_solver|]. naive_solver.
Qed.

Lemma map_set_wf m k v : map_wf m -> map_wf (map_set m k v).
Proof.
  unfold map_wf. intros H. rewrite map_keys_set. unfold map_has.
  case_bool_decide as E; [done|]. rewrite <- elem_of_map_keys in E.
  apply NoDup_app. split; [done|]. split; [set_solver|apply NoDup_singleton].
Qed.

Lemma map_keys_filter (f : K * V -> bool) m : map_wf m -> map_wf (filterb f m).
Proof.
  unfold map_wf, map_keys, filterb. induction m as [|e m IH]; cbn; [done|].
  intros [H1 H2]%NoDup_cons. specialize (IH H2). destruct (f e); [|done]. cbn.
  apply NoDup_cons. split; [|done]. contradict H1.
  apply list_elem_of_fmap in H1 as (e' & ? & He'). apply list_elem_of_fmap.
  exists e'. split; [done|]. apply list_elem_of_In, filter_In in He' as [? _].
  by apply list_elem_of_In.
Qed.

Lemma map_delete_wf m k : map_wf m -> map_wf (map_delete m k).
Proof. apply map_keys_filter. Qed.

Lemma elem_of_map_get m k v : map_wf m -> (k, v) ∈ m <-> map_get m k = Some v.
Proof.
  unfold map_wf, map_keys. induction m as [|[k' v'] m IH]; cbn; [set_solver|].
  intros [H1 H2]%NoDup_cons. rewrite elem_of_cons, IH by done.
  case_decide as E; [|naive_solver]. subst. split.
  - intros [[= ->]|H]; [done|]. exfalso. apply H1.
    assert (k' ∈ map_keys m) by (apply elem_of_map_keys; by eexists). done.
  - intros [= ->]. by left.
Qed.

Lemma map_get_filter (f : K * V -> bool) m k :
  map_wf m ->
  map_get (filterb f m) k = match map_get m k with
                            | Some v => if f (k, v) then Some v else None
                            | None => None
                            end.
Proof.
  intros Hwf. assert (map_wf (filterb f m)) as Hwf' by by apply map_keys_filter.
  destruct (map_get (filterb f m) k) as [v|] eqn:E.
  - apply elem_of_map_get in E; [|done]. apply elem_of_filterb in E as [E Hf].
    apply elem_of_map_get in E; [|done]. by rewrite E, Hf.
  - destruct (map_get m k) as [v|] eqn:E2; [|done]. destruct (f (k, v)) eqn:Hf; [|done].
    apply elem_of_map_get in E2; [|done].
    assert ((k, v) ∈ filterb f m) as E3 by (apply elem_of_filterb; done).
    apply elem_of_map_get in E3; [|done]. congruence.
Qed.

Lemma length_map_set_le m k v : length (map_set m k v) <= S (length m).
Proof. induction m as [|[k' v'] m IH]; cbn; [lia|]. case_decide; cbn; lia. Qed.

Lemma elem_of_map_values m v : map_wf m -> v ∈ map_values m <-> exists k, map_get m k = Some v.
Proof.
  intros Hwf. unfold map_values. rewrite list_elem_of_fmap. split.
  - intros ([k w] & -> & H). exists k. by apply elem_of_map_get.
  - intros [k H]. exists (k, v). split; [done|]. by apply elem_of_map_get.
Qed.
End jsmap.

#[export] Hint Resolve map_set_wf map_delete_wf map_keys_filter : resdb.
