(* ===== verification/JsNum.v ===== *)
(** * JavaScript numbers

    IEEE 754 binary64 values and the operations of the language on them,
    through the executable specification [SpecFloat].  Numbers that are
    integers in the safe range are plain [Z] in the components; this file is
    for the code that divides, weighs and compares scores. *)

From Stdlib Require Import SpecFloat.
From S2P Require Import Prelude JsString JsArray.

Definition num : Type := spec_float.

Definition prec : Z := 53.
Definition emax : Z := 1024.

Definition nadd : num -> num -> num := SFadd prec emax.
Definition nsub : num -> num -> num := SFsub prec emax.
Definition nmul : num -> num -> num := SFmul prec emax.
Definition ndiv : num -> num -> num := SFdiv prec emax.
Definition nsqrt : num -> num := SFsqrt prec emax.

(** The double nearest to an integer, and to the decimal [n / d]. *)
Definition of_Z (z : Z) : num := binary_normalize prec emax z 0 false.
Definition dec (n d : Z) : num := ndiv (of_Z n) (of_Z d).

Definition nzero : num := of_Z 0.
Definition none : num := of_Z 1.

Definition nlt (x y : num) : bool := SFltb x y.
Definition nle (x y : num) : bool := SFleb x y.
Definition neq (x y : num) : bool := SFeqb x y.
Definition is_nan (x : num) : bool :=
  match x with S754_nan => true | _ => false end.

(** [!x] for a number: zero and NaN are falsy. *)
Definition truthy_num (x : num) : bool := negb (is_nan x) && negb (neq x nzero).

(** [Math.min], [Math.max] *)
Definition nmin (x y : num) : num :=
  if is_nan x || is_nan y then S754_nan else if nlt y x then y else x.
Definition nmax (x y : num) : num :=
  if is_nan x || is_nan y then S754_nan else if nlt x y then y else x.

(** Twice the value of a finite number, rounded down: enough to define the
    rounding functions without leaving the integers. *)
Definition floor2 (s : bool) (m : positive) (e : Z) : Z :=
  Z.shiftl (if s then Z.neg m else Z.pos m) (e + 1).
Definition floor1 (s : bool) (m : positive) (e : Z) : Z :=
  Z.shiftl (if s then Z.neg m else Z.pos m) e.

Definition signed_zero (s : bool) (z : Z) : num :=
  if (z =? 0)%Z then S754_zero s else of_Z z.

Definition nfloor (x : num) : num :=
  match x with S754_finite s m e => signed_zero s (floor1 s m e) | _ => x end.
(** [Math.round]: halves go up. *)
Definition nround (x : num) : num :=
  match x with S754_finite s m e => signed_zero s ((floor2 s m e + 1) / 2) | _ => x end.
Definition nceil (x : num) : num :=
  match x with
  | S754_finite s m e => signed_zero s (- Z.shiftl (if s then Z.pos m else Z.neg m) e)
  | _ => x
  end.

(** The integer below a finite number. *)
Definition to_Z (x : num) : Z :=
  match x with S754_finite s m e => floor1 s m e | _ => 0 end.

(** [x.toFixed(f)] for numbers below [1e21]: the nearest multiple of
    [10^-f], the larger of two. *)
Definition fixed_digits (n : Z) (f : nat) : str :=
  let d := str_of_Z n in
  match f with
  | O => d
  | _ =>
      let d := repeat "0"%char (S f - length d) ++ d in
      take (length d - f) d ++ js "." ++ drop (length d - f) d
  end.

Definition toFixed (x : num) (f : nat) : str :=
  match x with
  | S754_nan => js "NaN"
  | S754_infinity s => (if s then js "-" else []) ++ js "Infinity"
  | S754_zero _ => fixed_digits 0 f
  | S754_finite s m e =>
      let scaled := Z.pos m * 10 ^ Z.of_nat f in
      let n := if 0 <=? e then scaled * 2 ^ e else (scaled * 2 + 2 ^ (- e)) / (2 ^ (- e) * 2) in
      (if s then js "-" else []) ++ fixed_digits n f
  end%Z.

(** ** Order *)

Definition num_ok (x : num) : Prop := is_nan x = false.

Lemma nlt_irrefl x : nlt x x = false.
Proof.
  unfold nlt, SFltb. destruct x as [s|s| |s m e]; cbn; try done; destruct s; cbn; try done.
  all: rewrite Z.compare_refl.
  all: change (Pos.compare_cont Eq m m) with (Pos.compare m m).
  all: by rewrite Pos.compare_refl.
Qed.

(** On finite values the comparison is lexicographic in exponent and
    mantissa. *)
Definition lex_lt (e1 : Z) (m1 : positive) (e2 : Z) (m2 : positive) : Prop :=
  (e1 < e2)%Z \/ (e1 = e2 /\ (m1 < m2)%positive).

Lemma nlt_finite s1 m1 e1 s2 m2 e2 :
  nlt (S754_finite s1 m1 e1) (S754_finite s2 m2 e2) = true <->
  match s1, s2 with
  | false, false => lex_lt e1 m1 e2 m2
  | true, true => lex_lt e2 m2 e1 m1
  | true, false => True
  | false, true => False
  end.
Proof.
  unfold nlt, SFltb, lex_lt. cbn.
  destruct s1, s2; cbn; try naive_solver.
  all: change (Pos.compare_cont Eq m1 m2) with (Pos.compare m1 m2).
  all: destruct (Z.compare_spec e1 e2), (Pos.compare_spec m1 m2); cbn; split; try done; lia.
Qed.

(** [x <= y] as "not [y < x]" is transitive away from NaN, and [<] is
    asymmetric: a comparator on such keys is consistent. *)
Lemma nlt_asym x y : nlt x y = true -> nlt y x = false.
Proof.
  destruct (nlt y x) eqn:E; [|done]. intros H. exfalso. revert H E.
  destruct x as [s1|s1| |s1 m1 e1], y as [s2|s2| |s2 m2 e2];
    try (cbn; repeat match goal with s : bool |- _ => destruct s end; done).
  rewrite !nlt_finite. unfold lex_lt. destruct s1, s2; lia.
Qed.

Lemma nle_trans x y z :
  num_ok x -> num_ok y -> num_ok z ->
  nlt y x = false -> nlt z y = false -> nlt z x = false.
Proof.
  unfold num_ok. intros Hx Hy Hz H1 H2. apply not_true_is_false. intros H3.
  apply not_true_iff_false in H1, H2. revert H1 H2 H3.
  destruct x as [s1|s1| |s1 m1 e1], y as [s2|s2| |s2 m2 e2], z as [s3|s3| |s3 m3 e3]; try done;
    rewrite ?nlt_finite; unfold lex_lt;
    repeat match goal with s : bool |- _ => destruct s end; cbn; try done; try lia.
  all: naive_solver.
Qed.

(** Away from NaN the order is total: [x <= y] is "not [y < x]". *)
Lemma SFcompare_antisym x y : SFcompare y x = option_map CompOpp (SFcompare x y).
Proof.
  destruct x as [[]|[]| |[] m1 e1], y as [[]|[]| |[] m2 e2]; try done; cbn.
  all: rewrite (Z.compare_antisym e1 e2); destruct (Z.compare e1 e2); try done; cbn.
  all: change (Pos.compare_cont Eq m2 m1) with (Pos.compare m2 m1).
  all: change (Pos.compare_cont Eq m1 m2) with (Pos.compare m1 m2).
  all: by rewrite (Pos.compare_antisym m1 m2).
Qed.

Lemma SFcompare_total x y : num_ok x -> num_ok y -> is_Some (SFcompare x y).
Proof. destruct x as [[]|[]| |[]], y as [[]|[]| |[]]; try done; intros; by eexists. Qed.

Lemma nle_nlt x y : num_ok x -> num_ok y -> nle x y = negb (nlt y x).
Proof.
  intros Hx Hy. unfold nle, nlt, SFleb, SFltb. rewrite (SFcompare_antisym x y).
  destruct (SFcompare_total x y Hx Hy) as [c ->]. by destruct c.
Qed.

Lemma nle_ok_l x y : nle x y = true -> num_ok x.
Proof. by destruct x as [[]|[]| |[]], y as [[]|[]| |[]]. Qed.

Lemma nle_ok_r x y : nle x y = true -> num_ok y.
Proof. by destruct x as [[]|[]| |[]], y as [[]|[]| |[]]. Qed.

(** [m <= x] and [x] not above [y] give [m <= y]. *)
Lemma nle_ranked m x y : num_ok y -> nle m x = true -> nlt y x = false -> nle m y = true.
Proof.
  intros Hy Hle Hlt. pose proof (nle_ok_l _ _ Hle) as Hm. pose proof (nle_ok_r _ _ Hle) as Hx.
  rewrite nle_nlt in Hle |- * by done. apply negb_true_iff in Hle. apply negb_true_iff.
  by apply (nle_trans m x y).
Qed.

(** [l.sort((a, b) => key(b) - key(a))]: the sign of an IEEE difference is
    the order of its operands, and a NaN difference counts as 0. *)
Definition sort_desc {A} (key : A -> num) (l : list A) : list A :=
  sort_by (fun a b => nlt (key b) (key a)) l.

Section sort_desc.
Context {A : Type} (key : A -> num).

Definition ranked (x y : A) : Prop := nlt (key x) (key y) = false.

Lemma sort_desc_perm l : sort_desc key l ≡ₚ l.
Proof. apply sort_by_perm. Qed.

Lemma elem_of_sort_desc l x : x ∈ sort_desc key l <-> x ∈ l.
Proof. apply elem_of_sort_by. Qed.

Lemma length_sort_desc l : length (sort_desc key l) = length l.
Proof. apply length_sort_by. Qed.

Lemma sort_desc_sorted l :
  Forall (fun x => num_ok (key x)) l -> StronglySorted ranked (sort_desc key l).
Proof.
  intros H. apply sort_by_sorted with (D := fun x => num_ok (key x)); [| |done].
  - intros x y _ _ E. unfold le. by apply nlt_asym.
  - intros x y z Hx Hy Hz E1 E2. unfold le in *. by apply (nle_trans (key z) (key y) (key x)).
Qed.

Lemma sort_desc_take_best n l x y :
  Forall (fun x => num_ok (key x)) l ->
  x ∈ take n (sort_desc key l) -> y ∈ drop n (sort_desc key l) -> ranked x y.
Proof. intros. by eapply StronglySorted_take_drop; [apply sort_desc_sorted|..]. Qed.

(** A list already in descending order is left alone. *)
Lemma sort_desc_id l : StronglySorted ranked l -> sort_desc key l = l.
Proof. apply sort_by_id. Qed.
End sort_desc.

(** ** Numbers that are not negative

    Sums and products of such numbers are such numbers again, rounded or
    overflowing to infinity as they may be. *)

Section nonneg.
Local Open Scope Z_scope.

Definition nonneg (x : num) : Prop :=
  match x with
  | S754_zero _ | S754_infinity false | S754_finite false _ _ => True
  | _ => False
  end.

(** Also not infinite. *)
Definition nonneg_finite (x : num) : Prop :=
  match x with S754_finite false _ _ => True | _ => False end.

Lemma nonneg_ok x : nonneg x -> num_ok x.
Proof. by destruct x. Qed.

Lemma shr_1_nonneg r : 0 <= shr_m r -> 0 <= shr_m (shr_1 r).
Proof. destruct r as [[|[]|[]] r s]; cbn; lia. Qed.

Lemma iter_pos_nonneg p r : 0 <= shr_m r -> 0 <= shr_m (SpecFloat.iter_pos shr_1 p r).
Proof.
  revert r. induction p as [p IH|p IH|]; intros r Hr; cbn [SpecFloat.iter_pos].
  - by apply IH, IH, shr_1_nonneg.
  - by apply IH, IH.
  - by apply shr_1_nonneg.
Qed.

Lemma shr_fexp_nonneg m e l : 0 <= m -> 0 <= shr_m (shr_fexp prec emax m e l).1.
Proof.
  intros Hm. unfold shr_fexp, shr.
  assert (0 <= shr_m (shr_record_of_loc m l)) by (destruct l as [|[]]; done).
  case_match; [done|by apply iter_pos_nonneg|done].
Qed.

Lemma binary_round_aux_nonneg m e l : 0 <= m -> nonneg (binary_round_aux prec emax false m e l).
Proof.
  intros Hm. unfold binary_round_aux. pose proof (shr_fexp_nonneg m e l Hm) as H.
  destruct (shr_fexp prec emax m e l) as [r e1]. cbn in H.
  assert (0 <= round_nearest_even (shr_m r) (loc_of_shr_record r)) as H1.
  { unfold round_nearest_even. repeat case_match; lia. }
  pose proof (shr_fexp_nonneg _ e1 loc_Exact H1) as H2.
  destruct (shr_fexp prec emax _ e1 loc_Exact) as [r2 e2]. cbn in H2.
  destruct (shr_m r2); [done| |lia]. by destruct (e2 <=? _).
Qed.

Lemma binary_normalize_nonneg m e : 0 <= m -> nonneg (binary_normalize prec emax m e false).
Proof.
  intros Hm. unfold binary_normalize, binary_round. destruct m as [|m|m]; [done| |lia].
  destruct (shl_align _ _ _) as [mz ez]. by apply binary_round_aux_nonneg.
Qed.

Lemma of_Z_nonneg z : 0 <= z -> nonneg (of_Z z).
Proof. apply binary_normalize_nonneg. Qed.

Lemma nadd_nonneg x y : nonneg x -> nonneg y -> nonneg (nadd x y).
Proof.
  destruct x as [[]|[]| |[] m1 e1], y as [[]|[]| |[] m2 e2]; try done. intros _ _.
  unfold nadd, SFadd. by apply binary_normalize_nonneg.
Qed.

Lemma nmul_nonneg x y : nonneg x -> nonneg_finite y -> nonneg (nmul x y).
Proof.
  destruct x as [[]|[]| |[] m1 e1], y as [[]|[]| |[] m2 e2]; try done. intros _ _.
  unfold nmul, SFmul. by apply binary_round_aux_nonneg.
Qed.
End nonneg.
