(* ===== verification/Json.v ===== *)
(** * JSON values

    What [JSON.parse] returns and [JSON.stringify] takes, with the property
    access and truthiness tests of the sources.  [undefined] is [None]. *)

From S2P Require Import Prelude JsString JsArray JsNum.

Inductive json : Type :=
| JNull
| JBool (b : bool)
| JNum (n : num)
| JStr (s : str)
| JArr (l : list json)
| JObj (o : jsmap str json).

(** [v.key] for a value read as a record: [undefined] unless [v] is an
    object with that property. *)
Definition prop (v : json) (key : str) : option json :=
  match v with JObj o => map_get o key | _ => None end.

(** [Boolean(v)] *)
Definition truthy (v : option json) : bool :=
  match v with
  | None | Some JNull => false
  | Some (JBool b) => b
  | Some (JNum n) => truthy_num n
  | Some (JStr s) => negb (bool_decide (s = []))
  | Some (JArr _) | Some (JObj _) => true
  end.

(** [a || b] *)
Definition js_or (a b : option json) : option json := if truthy a then a else b.

(** [s || d] for an optional string: the empty string is falsy. *)
Definition str_or (a : option str) (d : str) : str :=
  match a with Some (c :: s) => c :: s | _ => d end.

Definition as_str (v : option json) : option str :=
  match v with Some (JStr s) => Some s | _ => None end.

Definition is_array (v : option json) : option (list json) :=
  match v with Some (JArr l) => Some l | _ => None end.

(** [v.key] for any value: reading a property of [null] or [undefined]
    throws. *)
Definition get_prop (v : option json) (key : str) : result (option json) :=
  match v with
  | None => Throw (js "Cannot read properties of undefined (reading '" ++ key ++ js "')")
  | Some JNull => Throw (js "Cannot read properties of null (reading '" ++ key ++ js "')")
  | Some v => Ok (prop v key)
  end.

(** [v?.key] *)
Definition opt_prop (v : option json) (key : str) : option json :=
  match v with Some v => prop v key | None => None end.

(** [s || d] for a property read as a string. *)
Definition prop_str (v : option json) (key : str) (d : str) : str :=
  str_or (as_str (opt_prop v key)) d.

Definition as_num (v : json) : option num := match v with JNum n => Some n | _ => None end.

(** An array of numbers. *)
Definition as_nums (v : option json) : option (list num) :=
  match v with Some (JArr l) => mapM as_num l | _ => None end.

(** The properties of an object literal with those that are [undefined] left
    out: reading them gives [undefined] just the same, and a message does not
    carry them. *)
Definition present (fields : list (str * option json)) : jsmap str json :=
  omap (fun kv => match kv.2 with Some v => Some (kv.1, v) | None => None end) fields.

(** [Object.keys(o)]: keys that are array indices come first, in numerical
    order, the others follow in the order they were added.  A shorter index
    is a smaller one. *)
Definition is_index_key (k : str) : bool :=
  match k with
  | [] => false
  | ["0"%char] => true
  | c :: _ => forallb is_digit k && negb (bool_decide (c = "0"%char)) && (length k <=? 9)%nat
  end.

Fixpoint str_ltb (a b : str) : bool :=
  match a, b with
  | _, [] => false
  | [], _ :: _ => true
  | x :: a', y :: b' =>
      if (code x <? code y)%N then true else if (code x =? code y)%N then str_ltb a' b' else false
  end.

Definition index_ltb (a b : str) : bool :=
  (length a <? length b)%nat || ((length a =? length b)%nat && str_ltb a b).

Definition object_keys {V} (o : jsmap str V) : list str :=
  sort_by index_ltb (filterb is_index_key (map_keys o)) ++
  filterb (fun k => negb (is_index_key k)) (map_keys o).

Lemma elem_of_object_keys {V} (o : jsmap str V) k : k ∈ object_keys o <-> k ∈ map_keys o.
Proof.
  unfold object_keys. rewrite elem_of_app, elem_of_sort_by, !elem_of_filterb.
  destruct (is_index_key k); naive_solver.
Qed.

Lemma length_object_keys {V} (o : jsmap str V) : length (object_keys o) = length o.
Proof.
  unfold object_keys, map_keys. rewrite length_app, length_sort_by. unfold filterb.
  induction o as [|[k v] o IH]; cbn; [done|]. destruct (is_index_key k); cbn; lia.
Qed.
