(* ===== verification/Http.v ===== *)
(** * HTTP

    The requests the services send with [fetch] or axios, and the answers
    they read.  The other end is a parameter of each component: a function
    from requests to a response or a rejection. *)

From S2P Require Import Prelude JsString JsArray.

Record request := Request {
  method : str;
  url : str;
  headers : jsmap str str;
  body : option str;
}.

(** A response: its status and what [response.json()] or [response.text()]
    gives. *)
Record response (B : Type) := Response { status : Z; payload : result B }.
Arguments Response {B}. Arguments status {B}. Arguments payload {B}.

(** [response.ok] *)
Definition ok {B} (r : response B) : bool := ((200 <=? status r) && (status r <=? 299))%Z.

(** The headers of a request with an optional bearer token; an empty key is
    falsy. *)
Definition auth_headers (base : jsmap str str) (apiKey : option str) : jsmap str str :=
  match apiKey with
  | Some (c :: k) => map_set base (js "Authorization") (js "Bearer " ++ c :: k)
  | _ => base
  end.

Definition json_headers : jsmap str str := [(js "Content-Type", js "application/json")].
