(* ===== verification/BlockSync.v ===== *)
(** * Block synchronisation (resilient-node-cache)

    Models [WebSocketMongoSync] of
    src/ecosystem/cache/resilient-node-cache/src/index.ts: the endpoints it
    derives from its configuration, the scan for new blocks, the pool of
    five workers that fetch and upsert the batches, and the WebSocket
    connection with its reconnection timer.  The ResilientDB server and
    MongoDB are parameters: the server is the response [get] gives to a
    range request, the collection an instance of [MongoCollection]. *)

From S2P Require Import Prelude JsString JsArray JsNum Json.

(** ** Configuration and endpoints *)

Record ResilientDBConfig := {
  baseUrl : str;
  cfg_httpSecure : option bool;
  cfg_wsSecure : option bool;
  cfg_httpEndpoint : option str;
  cfg_wsEndpoint : option str;
  cfg_reconnectInterval : option Z;
  cfg_fetchInterval : option Z;
}.

(** The parts of [new URL(...)] the code reads. *)
Record Url := { protocol : str; hostname : str; port : str }.

Record Endpoints := {
  httpEndpoint : str;
  wsEndpoint : str;
  reconnectInterval : Z;
  fetchInterval : Z;
}.

Section endpoints.
Context (parseUrl : str -> result Url).
Local Open Scope js_scope.

Definition initializeEndpoints (cfg : ResilientDBConfig) : result Endpoints :=
  let httpSecure := coalesce (cfg_httpSecure cfg) false in
  let wsSecure := coalesce (cfg_wsSecure cfg) false in
  let reconnectInterval := coalesce (cfg_reconnectInterval cfg) 5000%Z in
  let fetchInterval := coalesce (cfg_fetchInterval cfg) 30000%Z in
  try! url <- parseUrl (baseUrl cfg);
  if bool_decide (protocol url <> js "resilientdb:")
  then Throw (js "Invalid protocol in baseUrl. Expected resilientdb://")
  else
    let hostPort :=
      if bool_decide (port url <> []) then hostname url ++ js ":" ++ port url
      else hostname url in
    let httpProtocol := if httpSecure then js "https" else js "http" in
    let wsProtocol := if wsSecure then js "wss" else js "ws" in
    Ok {| httpEndpoint :=
            str_or (cfg_httpEndpoint cfg) (httpProtocol ++ js "://" ++ hostPort ++ js "/v1/blocks");
          wsEndpoint :=
            str_or (cfg_wsEndpoint cfg)
              (wsProtocol ++ js "://" ++ hostPort ++ js "/blockupdatelistener");
          reconnectInterval := reconnectInterval;
          fetchInterval := fetchInterval |}.
End endpoints.

(** ** Blocks *)

Record block := Block {
  id : option Z;
  transactions : option json;
  others : gmap str json;
}.

(** The document a block is written as. *)
Definition block_doc (b : block) : gmap str json :=
  let add (k : str) (v : option json) (d : gmap str json) :=
    match v with Some j => <[k := j]> d | None => d end in
  add (js "transactions") (transactions b) (add (js "id") (JNum ∘ of_Z <$> id b) (others b)).

Section processing.
Context (JSON_parse : str -> option json).

Definition looks_like_json (value : str) : bool :=
  let trimmedValue := trim value in
  (startsWith trimmedValue (js "{") && endsWith trimmedValue (js "}"))
  || (startsWith trimmedValue (js "[") && endsWith trimmedValue (js "]")).

Definition processTransaction (transaction : json) : json :=
  match transaction with
  | JObj o =>
      match map_get o (js "value") with
      | Some (JStr value) =>
          if looks_like_json value
          then match JSON_parse value with
               | Some v => JObj (map_set o (js "value") v)
               | None => transaction
               end
          else JObj (map_set o (js "value") (JStr value))
      | Some value => JObj (map_set o (js "value") value)
      | None => transaction
      end
  | _ => transaction
  end.

Definition processBlock (b : block) : block :=
  match is_array (transactions b) with
  | Some l => {| id := id b;
                 transactions := Some (JArr (processTransaction <$> l));
                 others := others b |}
  | None => b
  end.

Definition processBlocks (blocks : list block) : list block := processBlock <$> blocks.

Lemma processBlock_id b : id (processBlock b) = id b.
Proof. unfold processBlock. by case_match. Qed.
End processing.

(** ** The MongoDB collection

    [find c i] is the document whose [id] field is [i] ([None]: missing),
    [updateOne c b] the operation [{filter: {id: b.id}, update: {$set: b},
    upsert: true}], [last_id] the [id] of [findOne({}, {sort: {id: -1}})]. *)

Class MongoCollection (C : Type) := {
  find : C -> option Z -> option (gmap str json);
  updateOne : C -> block -> C;
  last_id : C -> option Z;
  find_updateOne c b j :
    find (updateOne c b) j =
      if decide (id b = j) then Some (block_doc b ∪ default ∅ (find c j)) else find c j;
  last_id_max c i j : last_id c = Some i -> is_Some (find c (Some j)) -> (j <= i)%Z;
  last_id_found c i : last_id c = Some i -> is_Some (find c (Some i));
  last_id_none c j : last_id c = None -> find c (Some j) = None;
}.

(** ** Scanning for new blocks

    The loop shared by [fetchAndSyncInitialBlocks] and
    [fetchAndSyncNewBlocks].  [get] is the answer to
    [axios.get(`${httpEndpoint}/${min_seq}/${max_seq}`)]: an array, some
    other data, or a rejection. *)

Inductive response :=
| Array (blocks : list block)
| NotArray.

Definition range : Type := Z * Z.
Definition batchSize : Z := 100.
Definition concurrencyLimit : nat := 5.

Definition max_seen (current : Z) (blocks : list block) : Z :=
  foldr Z.max current ((fun b => default 0%Z (id b)) <$> blocks).

Section scan.
Context (get : Z -> Z -> result response).

(** [None]: out of fuel.  Otherwise the new [currentBlockNumber] and the
    ranges collected, or the error that left the loop. *)
Fixpoint scan (fuel : nat) (current : Z) (ranges : list range)
    : option (Z * result (list range)) :=
  match fuel with
  | O => None
  | S fuel' =>
      let min_seq := (current + 1)%Z in
      let max_seq := (min_seq + batchSize - 1)%Z in
      match get min_seq max_seq with
      | Throw e => Some (current, Throw e)
      | Ok (Array (b :: blocks)) =>
          scan fuel' (max_seen current (b :: blocks)) (ranges ++ [(min_seq, max_seq)])
      | Ok _ => Some (current, Ok ranges)
      end
  end.
End scan.

(** ** Batches

    [fetchAndSyncBatch] alone: the new collection, and whether the range was
    reported in [console.error] (the error is swallowed). *)

Section batch.
Context {C : Type} `{MongoCollection C} (JSON_parse : str -> option json).

Definition bulkWrite (c : C) (blocks : list block) : C := foldl updateOne c blocks.

Definition fetchAndSyncBatch (answer : result response) (c : C) : C * bool :=
  match answer with
  | Ok (Array (b :: blocks)) => (bulkWrite c (processBlocks JSON_parse (b :: blocks)), false)
  | Ok _ => (c, false)
  | Throw _ => (c, true)
  end.
End batch.

(** ** The worker pool of [processBatchRanges]

    Five workers share the queue.  JavaScript interleaves them at each
    [await]: a worker takes a range and issues its request, later receives
    the answer, then its upserts reach the collection one by one.  [answers]
    are the possible responses at that moment; an upsert may also fail,
    which ends the batch. *)

Inductive worker :=
| Ready
| Fetching (r : range)
| Writing (r : range) (ops : list block)
| Done.

Section pool.
Context {C : Type} `{MongoCollection C}.
Context (JSON_parse : str -> option json).
Context (answers : Z -> Z -> result response -> Prop).

Record pool := Pool {
  queue : list range;
  workers : list worker;
  coll : C;
  failed : list range;
}.

(** A step is labelled with the upsert that reaches the collection. *)
Inductive step : pool -> option block -> pool -> Prop :=
| step_take r q ws1 ws2 c f :
    step (Pool (r :: q) (ws1 ++ Ready :: ws2) c f) None (Pool q (ws1 ++ Fetching r :: ws2) c f)
| step_finish ws1 ws2 c f :
    step (Pool [] (ws1 ++ Ready :: ws2) c f) None (Pool [] (ws1 ++ Done :: ws2) c f)
| step_blocks r b blocks q ws1 ws2 c f :
    answers r.1 r.2 (Ok (Array (b :: blocks))) ->
    step (Pool q (ws1 ++ Fetching r :: ws2) c f) None
         (Pool q (ws1 ++ Writing r (processBlocks JSON_parse (b :: blocks)) :: ws2) c f)
| step_no_blocks r a q ws1 ws2 c f :
    answers r.1 r.2 (Ok a) -> a = Array [] \/ a = NotArray ->
    step (Pool q (ws1 ++ Fetching r :: ws2) c f) None (Pool q (ws1 ++ Ready :: ws2) c f)
| step_fetch_error r e q ws1 ws2 c f :
    answers r.1 r.2 (Throw e) ->
    step (Pool q (ws1 ++ Fetching r :: ws2) c f) None
         (Pool q (ws1 ++ Ready :: ws2) c (f ++ [r]))
| step_write r b ops q ws1 ws2 c f :
    step (Pool q (ws1 ++ Writing r (b :: ops) :: ws2) c f) (Some b)
         (Pool q (ws1 ++ Writing r ops :: ws2) (updateOne c b) f)
| step_written r q ws1 ws2 c f :
    step (Pool q (ws1 ++ Writing r [] :: ws2) c f) None (Pool q (ws1 ++ Ready :: ws2) c f)
| step_write_error r ops q ws1 ws2 c f :
    step (Pool q (ws1 ++ Writing r ops :: ws2) c f) None
         (Pool q (ws1 ++ Ready :: ws2) c (f ++ [r])).

Definition pool_step (p p' : pool) : Prop := exists op, step p op p'.

Definition processBatchRanges_start (ranges : list range) (limit : nat) (c : C) : pool :=
  Pool ranges (replicate limit Ready) c [].

(** [Promise.all] resolves. *)
Definition finished (p : pool) : Prop := Forall (eq Done) (workers p).
End pool.
Arguments pool C : clear implicits.

(** ** Termination of the pool *)

Definition worker_rank (w : worker) : nat :=
  match w with Ready => 1 | Fetching _ => 0 | Writing _ ops => 2 + length ops | Done => 0 end.

#[export] Instance done_dec w : Decision (Done = w).
Proof. destruct w; by (left + right). Defined.

Definition is_fetching (w : worker) : bool :=
  match w with Fetching _ => true | _ => false end.

Section pool_termination.
Context {C : Type} `{MongoCollection C}.
Context (JSON_parse : str -> option json) (answers : Z -> Z -> result response -> Prop).
Local Abbreviation step := (step (C := C) JSON_parse answers).
Local Abbreviation pool_step := (pool_step (C := C) JSON_parse answers).

(** Requests still to be issued or answered, then the local work left. *)
Definition pool_measure (p : pool C) : nat * nat :=
  (2 * length (queue p) + length (filterb is_fetching (workers p)),
   sum_list (worker_rank <$> workers p)).

Definition measure_lt (m n : nat * nat) : Prop :=
  m.1 < n.1 \/ (m.1 = n.1 /\ m.2 < n.2).

Lemma measure_lt_wf : well_founded measure_lt.
Proof.
  intros [a b]. revert b. induction (lt_wf a) as [a _ IHa].
  intros b. induction (lt_wf b) as [b _ IHb].
  constructor. intros [a' b'] [Hlt|[Heq Hlt]]; cbn in *; [by apply IHa|].
  subst. by apply IHb.
Qed.

Lemma step_decreases p op p' : step p op p' -> measure_lt (pool_measure p') (pool_measure p).
Proof.
  unfold pool_measure, measure_lt.
  destruct 1; cbn [queue workers fst snd];
    rewrite !filterb_app, !fmap_app, !length_app, !sum_list_app; cbn; lia.
Qed.

(** Every schedule of the pool is finite. *)
Lemma pool_wf : well_founded (flip pool_step).
Proof.
  intros p. remember (pool_measure p) as m eqn:Em. revert p Em.
  induction m as [m IH] using (well_founded_induction measure_lt_wf).
  intros p ->. constructor. intros p' [op Hs]. eapply IH; [|done]. by eapply step_decreases.
Qed.

(** No schedule is stuck before every worker is done. *)
Lemma pool_progress p :
  (forall a b, exists r, answers a b r) ->
  ~ finished p -> exists p', pool_step p p'.
Proof.
  intros Htot Hnf. destruct p as [q ws c f].
  assert (exists w, w ∈ ws /\ w <> Done) as (w & Hw & Hd).
  { unfold finished in Hnf. cbn in Hnf. clear -Hnf. induction ws as [|w ws IH].
    - by destruct Hnf.
    - destruct w; try (eexists; split; [by left|done]).
      destruct IH as (w & ? & ?); [|exists w; split; [by right|done]].
      contradict Hnf. by constructor. }
  apply list_elem_of_split in Hw as (ws1 & ws2 & ->).
  destruct w as [|r|r [|b ops]|].
  - destruct q; eexists _, _; econstructor.
  - destruct (Htot r.1 r.2) as [[[[|b bs]|]|e] Ha].
    + eexists _, _. eapply step_no_blocks; eauto.
    + eexists _, _. by eapply step_blocks.
    + eexists _, _. eapply step_no_blocks; eauto.
    + eexists _, _. by eapply step_fetch_error.
  - eexists _, _. apply step_written.
  - eexists _, _. apply step_write.
  - done.
Qed.

Lemma pool_finished_or_steps p :
  (forall a b, exists r, answers a b r) -> finished p \/ exists p', pool_step p p'.
Proof.
  intros Htot. destruct (decide (Forall (eq Done) (workers p))) as [Hf|Hf]; [by left|right].
  by apply pool_progress.
Qed.

End pool_termination.

(** ** Correctness of the pool against the chain

    [chain i] is block [i] of the ledger.  A server is faithful to it when
    every answer is a rejection or the array of exactly the blocks of the
    requested range. *)

Definition covers (r : range) (i : Z) : Prop := (r.1 <= i <= r.2)%Z.

Record faithful (chain : Z -> option block) (answers : Z -> Z -> result response -> Prop) := {
  chain_id i b : chain i = Some b -> id b = Some i;
  answers_array a b r : answers a b (Ok r) -> r <> NotArray;
  answers_exact a b bs : answers a b (Ok (Array bs)) ->
    forall blk, blk ∈ bs <-> exists i, (a <= i <= b)%Z /\ chain i = Some blk;
}.

Section pool_correct.
Context {C : Type} `{MongoCollection C}.
Context (JSON_parse : str -> option json) (answers : Z -> Z -> result response -> Prop).
Context (chain : Z -> option block) (Hserver : faithful chain answers).
Context (c0 : C) (ranges : list range).
Local Abbreviation step := (step (C := C) JSON_parse answers).
Local Abbreviation pool_step := (pool_step (C := C) JSON_parse answers).

(** What the collection should hold under [j] once the blocks [done] have
    been written. *)
Definition synced (done : gset Z) (j : option Z) : option (gmap str json) :=
  match j with
  | Some i =>
      match chain i with
      | Some b => if decide (i ∈ done)
                  then Some (block_doc (processBlock JSON_parse b) ∪ default ∅ (find c0 j))
                  else find c0 j
      | None => find c0 j
      end
  | None => find c0 None
  end.

Definition pending (w : worker) (i : Z) : Prop :=
  match w with
  | Fetching r => covers r i
  | Writing _ ops => exists b, b ∈ ops /\ id b = Some i
  | _ => False
  end.

Definition worker_ok (w : worker) : Prop :=
  match w with
  | Fetching r => r ∈ ranges
  | Writing r ops =>
      r ∈ ranges /\
      Forall (fun b => exists i b0, covers r i /\ chain i = Some b0 /\ b = processBlock JSON_parse b0) ops
  | _ => True
  end.

(** Block [i] is still going to be written, or was reported as failed. *)
Definition outstanding (p : pool C) (i : Z) : Prop :=
  (exists r, r ∈ queue p /\ covers r i) \/
  (exists w, w ∈ workers p /\ pending w i) \/
  (exists r, r ∈ failed p /\ covers r i).

Record pool_inv (p : pool C) (done : gset Z) : Prop := {
  inv_coll j : find (coll p) j = synced done j;
  inv_done i : i ∈ done -> exists r, r ∈ ranges /\ covers r i;
  inv_all i r : r ∈ ranges -> covers r i -> is_Some (chain i) -> i ∈ done \/ outstanding p i;
  inv_queue r : r ∈ queue p -> r ∈ ranges;
  inv_workers : Forall worker_ok (workers p);
  inv_drained : Done ∈ workers p -> queue p = [];
}.

Lemma pool_inv_start limit : pool_inv (processBatchRanges_start ranges limit c0) ∅.
Proof.
  constructor; cbn; try done.
  - intros [i|]; cbn; [|done]. case_match; [|done]. by rewrite decide_False by set_solver.
  - intros i r Hr Hc _. right. left. eauto.
  - apply Forall_replicate. exact I.
  - intros [[=] _]%elem_of_replicate.
Qed.

(** Writing a processed block of the chain marks it as done. *)
Lemma synced_write done i b0 j :
  chain i = Some b0 ->
  (if decide (id (processBlock JSON_parse b0) = j)
   then Some (block_doc (processBlock JSON_parse b0) ∪ default ∅ (synced done j))
   else synced done j) = synced ({[i]} ∪ done) j.
Proof.
  intros Hi. rewrite processBlock_id, (chain_id _ _ Hserver i b0 Hi).
  case_decide as Hj; subst; cbn.
  - rewrite Hi. rewrite (decide_True _ _ (P := i ∈ {[i]} ∪ done)) by set_solver.
    case_decide; [|done]. cbn. by rewrite map_union_assoc, map_union_idemp.
  - destruct j as [j|]; cbn; [|done]. destruct (chain j); [|done].
    destruct (decide (j ∈ done)); case_decide; try done; set_solver.
Qed.

Lemma outstanding_app_cons q ws1 w ws2 (c : C) f i :
  outstanding (Pool q (ws1 ++ w :: ws2) c f) i <->
  (exists r, r ∈ q /\ covers r i) \/ pending w i \/
  (exists w', w' ∈ ws1 ++ ws2 /\ pending w' i) \/ (exists r, r ∈ f /\ covers r i).
Proof.
  unfold outstanding. cbn. setoid_rewrite elem_of_app. setoid_rewrite elem_of_cons.
  naive_solver.
Qed.

(** The blocks a step takes out of the outstanding ones are those written
    by it. *)
Lemma step_outstanding p op p' i :
  step p op p' -> Forall worker_ok (workers p) -> is_Some (chain i) -> outstanding p i ->
  outstanding p' i \/ exists b, op = Some b /\ id b = Some i.
Proof.
  intros Hs Hok Hi. destruct Hs; cbn [workers] in Hok; rewrite !outstanding_app_cons; cbn [pending coll];
    apply Forall_app in Hok as [_ [Hw _]%Forall_cons]; cbn [worker_ok] in Hw.
  - setoid_rewrite elem_of_cons. naive_solver.
  - naive_solver.
  - intros [?|[Hc|?]]; [tauto| |tauto]. left. right. left.
    destruct Hi as [blk Hblk]. exists (processBlock JSON_parse blk).
    split; [|by rewrite processBlock_id; eapply chain_id].
    apply list_elem_of_fmap. exists blk. split; [done|].
    eapply answers_exact; [done..|]. eauto.
  - intros [?|[Hc|?]]; [tauto| |tauto]. destruct H1 as [->| ->].
    + destruct Hi as [blk Hblk]. assert (blk ∈ @nil block) as E; [|set_solver].
      eapply answers_exact; [done..|]. eauto.
    + by eapply answers_array in H0.
  - setoid_rewrite elem_of_app. setoid_rewrite list_elem_of_singleton. naive_solver.
  - setoid_rewrite elem_of_cons. naive_solver.
  - intros [?|[(? & ?%elem_of_nil & _)|?]]; tauto.
  - intros [?|[(b & Hb & Hid)|[?|(r' & ? & ?)]]]; [tauto| |tauto|].
    + left. do 3 right. exists r. split; [set_solver|].
      destruct Hw as [_ Hw]. rewrite Forall_forall in Hw.
      destruct (Hw b Hb) as (i' & b0 & Hc & Hch & ->).
      rewrite processBlock_id, (chain_id _ _ Hserver _ _ Hch) in Hid. by simplify_eq.
    + left. do 3 right. exists r'. split; [set_solver|done].
Qed.

Lemma step_workers_ok p op p' :
  step p op p' -> (forall r, r ∈ queue p -> r ∈ ranges) ->
  Forall worker_ok (workers p) -> Forall worker_ok (workers p').
Proof.
  intros Hs Hq Hok. destruct Hs; cbn [workers queue] in *;
    apply Forall_app in Hok as [? [Hw ?]%Forall_cons];
    apply Forall_app; (split; [done|]); apply Forall_cons; (split; [|done]); cbn in Hw |- *; try done.
  - apply Hq. by left.
  - split; [done|]. change (Forall (fun blk => exists i b0, covers r i /\ chain i = Some b0
      /\ blk = processBlock JSON_parse b0) (processBlock JSON_parse <$> (b :: blocks))).
    rewrite Forall_fmap, Forall_forall. intros blk Hblk. cbn.
    eapply answers_exact in Hblk as (i & ? & ?); [|done..]. by exists i, blk.
  - destruct Hw as [? [_ ?]%Forall_cons]. done.
Qed.

Lemma step_drained p op p' :
  step p op p' -> (Done ∈ workers p -> queue p = []) -> Done ∈ workers p' -> queue p' = [].
Proof.
  destruct 1; cbn [workers queue]; rewrite !elem_of_app, !elem_of_cons; naive_solver.
Qed.

Lemma step_coll p op p' :
  step p op p' ->
  coll p' = match op with Some b => updateOne (coll p) b | None => coll p end.
Proof. by destruct 1. Qed.

Lemma step_op_ok p b p' :
  step p (Some b) p' -> Forall worker_ok (workers p) ->
  exists r i b0, r ∈ ranges /\ covers r i /\ chain i = Some b0 /\ b = processBlock JSON_parse b0.
Proof.
  inversion 1; subst; cbn [workers].
  intros [_ [[Hr [(i & b0 & ? & ? & ?) _]%Forall_cons] _]%Forall_cons]%Forall_app.
  by exists r, i, b0.
Qed.

(** The blocks written so far, after a step. *)
Definition done_after (done : gset Z) (op : option block) : gset Z :=
  match op with
  | Some b => match id b with Some i => {[i]} ∪ done | None => done end
  | None => done
  end.

Lemma pool_inv_step p op p' done :
  step p op p' -> pool_inv p done -> pool_inv p' (done_after done op).
Proof.
  intros Hs [Hc Hd Ha Hq Hw Hdr].
  constructor; [| | | |by eapply step_workers_ok|by eapply step_drained].
  - intros j. rewrite (step_coll _ _ _ Hs). destruct op as [b|]; [|done].
    destruct (step_op_ok _ _ _ Hs Hw) as (r & i & b0 & _ & _ & Hi & ->).
    rewrite find_updateOne, Hc, (synced_write _ i) by done. cbn.
    by rewrite processBlock_id, (chain_id _ _ Hserver i b0 Hi).
  - intros i. destruct op as [b|]; [|apply Hd].
    destruct (step_op_ok _ _ _ Hs Hw) as (r & i' & b0 & ? & ? & Hi & ->).
    cbn. rewrite processBlock_id, (chain_id _ _ Hserver _ _ Hi).
    intros [->%elem_of_singleton|?]%elem_of_union; eauto.
  - intros i r Hr Hcov Hi. destruct (Ha i r Hr Hcov Hi) as [Hin|Ho].
    + left. unfold done_after. repeat case_match; set_solver.
    + destruct (step_outstanding _ _ _ i Hs Hw Hi Ho) as [?|(b & -> & Hb)]; [by right|].
      left. cbn. rewrite Hb. set_solver.
  - intros r Hr. apply Hq. destruct Hs; cbn in *; set_solver.
Qed.

Lemma pool_inv_reachable limit p :
  rtc pool_step (processBatchRanges_start ranges limit c0) p -> exists done, pool_inv p done.
Proof.
  intros Hr. eapply (rtc_ind_r (fun p => exists done, pool_inv p done)); [| |exact Hr].
  - eexists. apply pool_inv_start.
  - intros y z _ [op Hs] [d Hd]. eexists. by eapply pool_inv_step.
Qed.

Lemma finished_outstanding p i done :
  pool_inv p done -> workers p <> [] -> finished p -> outstanding p i ->
  exists r, r ∈ failed p /\ covers r i.
Proof.
  intros Hinv Hne Hfin Ho. unfold finished in Hfin. rewrite Forall_forall in Hfin.
  assert (queue p = []) as Hq.
  { eapply inv_drained; [done|]. destruct (workers p) as [|w ws]; [done|].
    rewrite (Hfin w) by (by left). by left. }
  destruct Ho as [(r & Hr & _)|[(w & Hw & Hp)|Ho]]; [| |done].
  - rewrite Hq in Hr. set_solver.
  - by rewrite <- (Hfin w Hw) in Hp.
Qed.

Lemma step_workers_length p op p' : step p op p' -> length (workers p') = length (workers p).
Proof. destruct 1; cbn; rewrite !length_app; done. Qed.

Lemma reachable_workers_length limit p :
  rtc pool_step (processBatchRanges_start ranges limit c0) p -> length (workers p) = limit.
Proof.
  intros Hr. eapply (rtc_ind_r (fun p => length (workers p) = limit)); [| |exact Hr].
  - cbn. by rewrite length_replicate.
  - intros y z _ [op Hs] IH. by rewrite (step_workers_length _ _ _ Hs).
Qed.

(** A run that ends has stored every block of the ranges that no batch
    reported as failed covers, and changed nothing outside the ranges. *)
Lemma pool_complete_run limit p :
  0 < limit -> rtc pool_step (processBatchRanges_start ranges limit c0) p -> finished p ->
  forall i,
    ((exists r, r ∈ ranges /\ covers r i) -> ~ (exists r, r ∈ failed p /\ covers r i) ->
       forall b, chain i = Some b ->
       find (coll p) (Some i) =
         Some (block_doc (processBlock JSON_parse b) ∪ default ∅ (find c0 (Some i)))) /\
    (~ (exists r, r ∈ ranges /\ covers r i) \/ chain i = None ->
       find (coll p) (Some i) = find c0 (Some i)).
Proof.
  intros Hl Hr Hfin i. destruct (pool_inv_reachable _ _ Hr) as [done Hinv].
  pose proof (reachable_workers_length _ _ Hr) as Hlen.
  rewrite (inv_coll _ _ Hinv). cbn. split.
  - intros (r & Hin & Hcov) Hno b Hb. rewrite Hb.
    destruct (inv_all _ _ Hinv i r Hin Hcov) as [?|Ho]; [by eexists|by rewrite decide_True|].
    exfalso. apply Hno. eapply finished_outstanding; try done.
    by intros E; rewrite E in Hlen; cbn in Hlen; lia.
  - intros [Hno|Hno]; [|by rewrite Hno]. destruct (chain i); [|done].
    rewrite decide_False; [done|]. intros Hd. apply Hno. by eapply inv_done.
Qed.
End pool_correct.

(** ** Whole synchronisations *)

Section sync.
Context {C : Type} `{MongoCollection C}.
Context (JSON_parse : str -> option json).

Record sync_state := Sync { currentBlockNumber : Z; collection : C }.

(** The common body of the two synchronisations: scan with the answers of
    [get], then hand the ranges to the pool.  The outcome is the new state
    and either the error that left the scan or the batches reported as
    failed. *)
Inductive sync_body (get : Z -> Z -> result response)
    (answers : Z -> Z -> result response -> Prop) (st : sync_state)
    : sync_state -> result (list range) -> Prop :=
| sync_error fuel cur e :
    scan get fuel (currentBlockNumber st) [] = Some (cur, Throw e) ->
    sync_body get answers st (Sync cur (collection st)) (Throw e)
| sync_nothing fuel cur :
    scan get fuel (currentBlockNumber st) [] = Some (cur, Ok []) ->
    sync_body get answers st (Sync cur (collection st)) (Ok [])
| sync_batches fuel cur r rs p :
    scan get fuel (currentBlockNumber st) [] = Some (cur, Ok (r :: rs)) ->
    rtc (pool_step JSON_parse answers)
      (processBatchRanges_start (r :: rs) concurrencyLimit (collection st)) p ->
    finished p ->
    sync_body get answers st (Sync cur (coll p)) (Ok (failed p)).

(** [lastBlock && lastBlock.id ? lastBlock.id : 0] *)
Definition initial_block_number (c : C) : Z := default 0%Z (last_id c).

Definition fetchAndSyncInitialBlocks get answers (st : sync_state) : sync_state -> result (list range) -> Prop :=
  sync_body get answers (Sync (initial_block_number (collection st)) (collection st)).

(** Errors are emitted to the listeners, not thrown. *)
Definition fetchAndSyncNewBlocks get answers (st st' : sync_state) (emitted : list str) : Prop :=
  exists out, sync_body get answers st st' out /\
    emitted = match out with Throw e => [e] | Ok _ => [] end.
End sync.
Arguments sync_state C : clear implicits.

(** *** The scan *)

Lemma max_seen_ge cur bs b i : b ∈ bs -> id b = Some i -> (i <= max_seen cur bs)%Z.
Proof.
  unfold max_seen. intros Hb Hi. induction Hb as [b bs|b b' bs Hb IH]; cbn.
  - rewrite Hi. cbn. lia.
  - specialize (IH Hi). lia.
Qed.

Lemma max_seen_lower cur bs : (cur <= max_seen cur bs)%Z.
Proof. unfold max_seen. induction bs as [|b bs IH]; cbn; lia. Qed.

Lemma max_seen_upper cur bs m :
  (cur <= m)%Z -> (forall b, b ∈ bs -> (default 0 (id b) <= m)%Z) -> (max_seen cur bs <= m)%Z.
Proof.
  unfold max_seen. intros Hc Hb. induction bs as [|b bs IH]; cbn; [done|].
  apply Z.max_lub; [apply Hb; by left|apply IH; intros; apply Hb; by right].
Qed.

Section scan_facts.
Context (get : Z -> Z -> result response).

(** The ranges a scan collects all lie beyond the block number it started
    from, and the number never goes back. *)
Lemma scan_ranges fuel cur rs cur' out :
  scan get fuel cur rs = Some (cur', out) ->
  (cur <= cur')%Z /\
  forall rs', out = Ok rs' -> exists new, rs' = rs ++ new /\ Forall (fun r => (cur < r.1)%Z) new.
Proof.
  revert cur rs. induction fuel as [|fuel IH]; intros cur rs; cbn [scan]; [done|].
  intros Hs. destruct (get _ _) as [[[|b bs]|]|e]; simplify_eq.
  - split; [done|]. intros ? [= <-]. exists []. by rewrite app_nil_r.
  - apply IH in Hs as [Hle Hr]. pose proof (max_seen_lower cur (b :: bs)) as Hm.
    split; [lia|]. intros rs' Hrs. destruct (Hr _ Hrs) as (new & -> & Hf).
    exists ((cur + 1, cur + 1 + batchSize - 1)%Z :: new). split; [by rewrite <- app_assoc|].
    constructor; [cbn; lia|]. eapply Forall_impl; [exact Hf|]. intros r0 Hr0. simpl in Hr0 |- *. lia.
  - split; [done|]. intros ? [= <-]. exists []. by rewrite app_nil_r.
  - split; [done|]. by intros ? [=].
Qed.

(** The server keeps answering the same range: no amount of fuel ends the
    scan. *)
Lemma scan_stuck cur bs :
  get (cur + 1)%Z (cur + 1 + batchSize - 1)%Z = Ok (Array bs) -> bs <> [] ->
  max_seen cur bs = cur -> forall fuel rs, scan get fuel cur rs = None.
Proof.
  intros Hg Hne Hm fuel. induction fuel as [|fuel IH]; intros rs; cbn [scan]; [done|].
  rewrite Hg. destruct bs as [|b bs]; [done|]. rewrite Hm. apply IH.
Qed.

Context (chain : Z -> option block) (answers : Z -> Z -> result response -> Prop) (n : Z).
Context (Hserver : faithful chain answers).
Context (Hget : forall a b, answers a b (get a b)).
Context (Hchain : forall i, is_Some (chain i) <-> (1 <= i <= n)%Z).

Lemma get_array a b : (exists e, get a b = Throw e) \/ exists bs, get a b = Ok (Array bs) /\
  forall blk, blk ∈ bs <-> exists i, (a <= i <= b)%Z /\ chain i = Some blk.
Proof.
  specialize (Hget a b). destruct (get a b) as [[bs|]|]; [| |eauto].
  - right. exists bs. split; [done|]. by eapply answers_exact.
  - by eapply answers_array in Hget.
Qed.

Lemma max_seen_range cur bs :
  (0 <= cur < n)%Z ->
  (forall blk, blk ∈ bs <-> exists i, (cur + 1 <= i <= cur + batchSize)%Z /\ chain i = Some blk) ->
  bs <> [] /\ max_seen cur bs = Z.min (cur + batchSize) n.
Proof.
  intros Hc Hbs. set (m := Z.min (cur + batchSize) n). unfold batchSize in *.
  assert (is_Some (chain m)) as [bm Hm] by (apply Hchain; lia).
  assert (bm ∈ bs) as Hin by (apply Hbs; exists m; split; [lia|done]).
  split; [by intros ->; set_solver|]. apply Z.le_antisymm.
  - apply max_seen_upper; [lia|]. intros b Hb. apply Hbs in Hb as (i & Hi & Hci).
    rewrite (chain_id _ _ Hserver _ _ Hci). cbn.
    assert (1 <= i <= n)%Z by (apply Hchain; by eexists). lia.
  - eapply max_seen_ge; [done|]. by eapply chain_id.
Qed.

(** The scan returns: with the error of the request that failed, or at
    block [n] with ranges that cover every block beyond the start. *)
Lemma scan_complete fuel cur rs :
  (0 <= cur <= n)%Z -> (n - cur < Z.of_nat fuel)%Z ->
  exists cur' out, scan get fuel cur rs = Some (cur', out) /\
  forall rs', out = Ok rs' -> cur' = n /\
    exists new, rs' = rs ++ new /\ (new = [] <-> cur = n) /\
    forall i, (cur < i <= n)%Z -> exists r, r ∈ new /\ covers r i.
Proof.
  revert cur rs. induction fuel as [|fuel IH]; intros cur rs Hc Hf; [lia|]. cbn [scan].
  destruct (get_array (cur + 1) (cur + 1 + batchSize - 1)) as [[e ->]|(bs & -> & Hbs)].
  { eexists _, _. split; [done|]. by intros ? [=]. }
  replace (cur + 1 + batchSize - 1)%Z with (cur + batchSize)%Z in * by lia.
  destruct (decide (cur = n)) as [->|Hne].
  - destruct bs as [|b bs].
    + eexists _, _. split; [done|]. intros ? [= <-]. split; [done|].
      exists []. rewrite app_nil_r. split; [done|]. split; [done|lia].
    + destruct (proj1 (Hbs b)) as (i & Hi & Hci); [by left|].
      assert (1 <= i <= n)%Z by (apply Hchain; by eexists). lia.
  - destruct (max_seen_range cur bs) as [Hnil Hm]; [lia|done|].
    destruct bs as [|b bs]; [done|]. rewrite Hm. unfold batchSize in *.
    destruct (IH (Z.min (cur + 100) n) (rs ++ [(cur + 1, cur + 100)%Z])) as (cur' & out & -> & Hout);
      [lia|lia|].
    eexists _, _. split; [done|]. intros rs' ->.
    destruct (Hout _ eq_refl) as (-> & new & -> & Hnew & Hcov). split; [done|].
    exists ((cur + 1, cur + 100)%Z :: new). rewrite <- app_assoc. split; [done|].
    split; [split; [done|lia]|]. intros i Hi.
    destruct (decide (i <= cur + 100)%Z) as [Hle|Hgt].
    + exists (cur + 1, cur + 100)%Z. split; [by left|unfold covers; cbn; lia].
    + destruct (Hcov i) as (r & ? & ?); [lia|]. exists r. split; [by right|done].
Qed.
End scan_facts.

Lemma scan_more_fuel get fuel k cur rs x :
  scan get fuel cur rs = Some x -> scan get (fuel + k) cur rs = Some x.
Proof.
  revert cur rs. induction fuel as [|fuel IH]; intros cur rs; cbn [scan Nat.add]; [done|].
  repeat case_match; auto.
Qed.

Lemma scan_deterministic get f1 f2 cur rs x y :
  scan get f1 cur rs = Some x -> scan get f2 cur rs = Some y -> x = y.
Proof.
  intros H1%(scan_more_fuel _ _ f2) H2%(scan_more_fuel _ _ f1).
  rewrite Nat.add_comm in H2. congruence.
Qed.

(** A synchronisation whose scan failed throws, and has written nothing. *)
Lemma sync_scan_error {C} `{MongoCollection C} JSON_parse get answers (st st' : sync_state C) fuel cur e res :
  scan get fuel (currentBlockNumber st) [] = Some (cur, Throw e) ->
  sync_body JSON_parse get answers st st' res -> res = Throw e /\ st' = Sync cur (collection st).
Proof.
  intros Hs Hrun. destruct Hrun as [fuel' cur' e' Hs'|fuel' cur' Hs'|fuel' cur' r rs p Hs' _ _];
    pose proof (scan_deterministic _ _ _ _ _ _ _ Hs Hs'); by simplify_eq.
Qed.

(** *** A collection to run the model on *)

Abbreviation mongo := (gmap (option Z) (gmap str json)).
Definition mongo_ids (c : mongo) : list Z := omap Datatypes.id (elements (dom c)).

Lemma elem_of_mongo_ids (c : mongo) i : i ∈ mongo_ids c <-> is_Some (c !! Some i).
Proof.
  unfold mongo_ids. rewrite list_elem_of_omap. rewrite <- elem_of_dom. split.
  - intros (x & Hx & E). unfold Datatypes.id in E. subst. by apply elem_of_elements in Hx.
  - intros Hi. exists (Some i). split; [by apply elem_of_elements|done].
Qed.

Definition list_max (l : list Z) : option Z :=
  match l with [] => None | x :: l' => Some (foldr Z.max x l') end.

#[export, program] Instance mongo_collection : MongoCollection mongo := {|
  find := fun c i => c !! i;
  updateOne := fun c b => <[id b := block_doc b ∪ default ∅ (c !! id b)]> c;
  last_id := fun c => list_max (mongo_ids c);
|}.
Next Obligation. intros c b j. cbn. rewrite lookup_insert. by case_decide; subst. Qed.
Next Obligation.
  intros c i j Hl Hj. cbn in *. apply elem_of_mongo_ids in Hj.
  destruct (mongo_ids c) as [|x l]; cbn in Hl; [set_solver|]. injection Hl as <-.
  apply foldr_max_ge. by apply elem_of_cons in Hj.
Qed.
Next Obligation.
  intros c i Hl. cbn in *. apply elem_of_mongo_ids.
  destruct (mongo_ids c) as [|x l]; cbn in Hl; [done|]. injection Hl as <-.
  apply elem_of_cons. apply foldr_max_in.
Qed.
Next Obligation.
  intros c j Hl. cbn in *. destruct (c !! Some j) eqn:E; [|done].
  assert (j ∈ mongo_ids c) as Hj by (apply elem_of_mongo_ids; by eexists).
  destruct (mongo_ids c); [set_solver|done].
Qed.

Lemma find_beyond_last {C} `{MongoCollection C} (c : C) i :
  (initial_block_number c < i)%Z -> find c (Some i) = None.
Proof.
  unfold initial_block_number. intros Hi. destruct (last_id c) as [m|] eqn:El; cbn in Hi.
  - destruct (find c (Some i)) eqn:Ef; [|done].
    assert (i <= m)%Z by (eapply last_id_max; eauto). lia.
  - by apply last_id_none.
Qed.

(** ** The properties *)

(** C1: an initial synchronisation against a server that holds the blocks
    [1..n] and answers each request either with exactly the blocks of its
    range or with a failure, from a collection whose last block is at most
    [n].  It returns: the scan ends within [n - last + 1] requests, either
    because a request failed (then the synchronisation throws that error and
    the collection is unchanged) or at block [n]; in the latter case every
    schedule of the worker pool is finite and no reachable pool is stuck
    before all its workers are done.  However its workers are interleaved and
    whichever of their requests and upserts fail, when it has returned a
    list of failed batches, [currentBlockNumber] is [n], every new block
    outside the failed batches is stored as its processed document, and the
    older documents are untouched. *)
Theorem initial_sync_complete {C} `{MongoCollection C} JSON_parse get answers chain n (st : sync_state C)
    (Hserver : faithful chain answers)
    (Hget : forall a b, answers a b (get a b))
    (Hchain : forall i, is_Some (chain i) <-> (1 <= i <= n)%Z)
    (Hstart : (0 <= initial_block_number (collection st) <= n)%Z) :
  (exists cur out,
     scan get (S (Z.to_nat (n - initial_block_number (collection st))))
       (initial_block_number (collection st)) [] = Some (cur, out) /\
     match out with
     | Throw e => forall st' res, fetchAndSyncInitialBlocks JSON_parse get answers st st' res ->
         res = Throw e /\ st' = Sync cur (collection st)
     | Ok ranges => cur = n /\
         let start := processBatchRanges_start ranges concurrencyLimit (collection st) in
         Acc (flip (pool_step JSON_parse answers)) start /\
         forall p, rtc (pool_step JSON_parse answers) start p ->
           finished p \/ exists p', pool_step JSON_parse answers p p'
     end) /\
  forall st' failures, fetchAndSyncInitialBlocks JSON_parse get answers st st' (Ok failures) ->
    currentBlockNumber st' = n /\
    (forall i b, (initial_block_number (collection st) < i <= n)%Z -> chain i = Some b ->
       ~ (exists r, r ∈ failures /\ covers r i) ->
       find (collection st') (Some i) = Some (block_doc (processBlock JSON_parse b))) /\
    (forall i, (i <= initial_block_number (collection st))%Z ->
       find (collection st') (Some i) = find (collection st) (Some i)).
Proof.
  set (cur := initial_block_number (collection st)) in *.
  destruct (scan_complete get chain answers n Hserver Hget Hchain
    (S (Z.to_nat (n - cur))) cur []) as (cur' & out & Hscan & Hout); [lia|lia|]. split.
  - exists cur', out. split; [done|]. destruct out as [ranges|e].
    + split; [by eapply Hout|]. split; [apply pool_wf|]. intros p _. by apply pool_finished_or_steps; eauto.
    + intros st' res. exact (sync_scan_error JSON_parse get answers (Sync cur (collection st)) st' _ _ e res Hscan).
  - intros st' failures Hrun. remember (Ok failures) as res eqn:Eres.
    destruct Hrun as [|fuel cur1 Hs|fuel cur1 r rs p Hs Hp Hf]; [done|..];
      cbn [currentBlockNumber collection] in *; fold cur in Hs; simplify_eq;
      pose proof (scan_deterministic _ _ _ _ _ _ _ Hscan Hs) as E; injection E as <- ->;
      destruct (Hout _ eq_refl) as (-> & new & E & Hnil & Hcov); cbn in E; subst new; (split; [done|]).
    + assert (cur = n) by by apply Hnil. split; [|done]. intros. lia.
    + destruct (scan_ranges _ _ _ _ _ _ Hscan) as [_ Hr].
      destruct (Hr _ eq_refl) as (new' & E & Hall). cbn in E. subst. rewrite Forall_forall in Hall.
      assert (0 < concurrencyLimit) as Hl by (unfold concurrencyLimit; lia).
      split.
      * intros i b Hi Hb Hno.
        rewrite (proj1 (pool_complete_run _ _ chain Hserver _ _ _ _ Hl Hp Hf i) (Hcov i Hi) Hno b Hb).
        f_equal. rewrite find_beyond_last by lia. apply map_union_empty.
      * intros i Hi. apply (pool_complete_run _ _ chain Hserver _ _ _ _ Hl Hp Hf i).
        left. intros (r' & Hr' & Hc'). apply Hall in Hr'. unfold covers in Hc'. lia.
Qed.

(** A ledger of [n] blocks without transactions, and a server that serves
    it. *)
Definition demo_block (i : Z) : block := Block (Some i) None ∅.
Definition demo_chain (n : Z) (i : Z) : option block :=
  if ((1 <=? i) && (i <=? n))%Z then Some (demo_block i) else None.
Definition demo_get (n a b : Z) : result response :=
  Ok (Array (demo_block <$> filterb (fun i => (a <=? i) && (i <=? b))%Z (Z.of_nat <$> seq 1 (Z.to_nat n)))).
Definition demo_answers (n : Z) (a b : Z) (r : result response) : Prop := r = demo_get n a b.

Lemma demo_faithful n : (0 <= n)%Z -> faithful (demo_chain n) (demo_answers n).
Proof.
  intros Hn. constructor.
  - unfold demo_chain. intros i b. case_match; [|done]. by intros [= <-].
  - unfold demo_answers, demo_get. intros a b r [= ->]. done.
  - unfold demo_answers, demo_get, demo_chain. intros a b bs [= ->] blk.
    rewrite list_elem_of_fmap. split.
    + intros (i & -> & [(k & -> & Hk)%list_elem_of_fmap Hab]%elem_of_filterb).
      apply elem_of_seq in Hk. exists (Z.of_nat k). split_bools. split; [lia|].
      rewrite (proj2 (Z.leb_le 1 _)), (proj2 (Z.leb_le _ n)) by lia. done.
    + intros (i & Hi & Hc). case_match; [|done]. split_bools. injection Hc as <-.
      exists i. split; [done|]. apply elem_of_filterb. rewrite list_elem_of_fmap. split.
      * exists (Z.to_nat i). split; [lia|]. apply elem_of_seq. lia.
      * rewrite (proj2 (Z.leb_le a _)), (proj2 (Z.leb_le _ b)) by lia. done.
Qed.

Lemma demo_chain_dom n i : is_Some (demo_chain n i) <-> (1 <= i <= n)%Z.
Proof.
  unfold demo_chain. split.
  - intros [b Hb]. case_match; [|done]. split_bools. lia.
  - intros Hi. rewrite (proj2 (Z.leb_le 1 _)), (proj2 (Z.leb_le _ n)) by lia. by eexists.
Qed.

Lemma initial_sync_complete_witness :
  (exists ranges, scan (demo_get 250) 251 0 [] = Some (250%Z, Ok ranges) /\ length ranges = 3) /\
  forall st', fetchAndSyncInitialBlocks (fun _ => None) (demo_get 250) (demo_answers 250)
     (Sync 0 (∅ : mongo)) st' (Ok []) ->
     currentBlockNumber st' = 250%Z /\
     find (collection st') (Some 42%Z) = Some (block_doc (processBlock (fun _ => None) (demo_block 42))).
Proof.
  split; [eexists; split; vm_compute; reflexivity|]. intros st' Hst.
  destruct (initial_sync_complete (fun _ => None) (demo_get 250) (demo_answers 250) (demo_chain 250) 250
    (Sync 0 (∅ : mongo))) as [_ H2].
  - apply demo_faithful. lia.
  - done.
  - apply demo_chain_dom.
  - vm_compute. split; discriminate.
  - destruct (H2 st' [] Hst) as (Hcur & Hnew & _). split; [exact Hcur|].
    apply Hnew; [vm_compute; split; [reflexivity|discriminate]|reflexivity|].
    intros (r & Hr & _). inversion Hr.
Defined.

(** C18: [processBatchRanges] terminates under every interleaving of its
    workers and every pattern of failed requests and upserts: schedules are
    finite, and while a worker is not done some step is possible. *)
Theorem processBatchRanges_terminates {C} `{MongoCollection C} JSON_parse answers
    (Hanswer : forall a b, exists r, answers a b r) :
  well_founded (flip (pool_step (C := C) JSON_parse answers)) /\
  forall p, finished p \/ exists p', pool_step (C := C) JSON_parse answers p p'.
Proof.
  split; [apply pool_wf|]. intros p. by apply pool_finished_or_steps.
Qed.

Lemma processBatchRanges_terminates_witness :
  exists p', pool_step (C := mongo) (fun _ => None) (demo_answers 250)
    (processBatchRanges_start [(1%Z, 100%Z)] concurrencyLimit ∅) p'.
Proof.
  destruct (processBatchRanges_terminates (C := mongo) (fun _ => None) (demo_answers 250)
    (fun a b => ex_intro _ (demo_get 250 a b) eq_refl)) as [_ Hprogress].
  destruct (Hprogress (processBatchRanges_start [(1%Z, 100%Z)] concurrencyLimit ∅)) as [Hf|Hs]; [|exact Hs].
  inversion Hf. discriminate.
Defined.

(** When a request fails during the scan, the ranges collected so far are
    dropped but [currentBlockNumber] keeps its advance: nothing is written,
    and no range of any later scan covers a block up to that number, so the
    blocks seen before the failure are never stored. *)
Theorem scan_error_skips_blocks {C} `{MongoCollection C} JSON_parse get answers (st st' : sync_state C) e
    (Hrun : sync_body JSON_parse get answers st st' (Throw e)) :
  collection st' = collection st /\
  (currentBlockNumber st <= currentBlockNumber st')%Z /\
  forall get' fuel cur rs i,
    scan get' fuel (currentBlockNumber st') [] = Some (cur, Ok rs) ->
    (i <= currentBlockNumber st')%Z -> ~ exists r, r ∈ rs /\ covers r i.
Proof.
  remember (Throw e) as out eqn:Eout.
  destruct Hrun as [fuel cur e' Hs| |]; [|done..]. cbn.
  destruct (scan_ranges _ _ _ _ _ _ Hs) as [Hle _]. split; [done|]. split; [done|].
  intros get' fuel' cur' rs i Hs' Hi (r & Hr & Hc).
  destruct (scan_ranges _ _ _ _ _ _ Hs') as [_ Hr'].
  destruct (Hr' rs eq_refl) as (new & -> & Hall). rewrite Forall_forall in Hall.
  apply Hall in Hr. unfold covers in Hc. lia.
Qed.

(** A server that answers the first range and then fails. *)
Definition flaky_get (a b : Z) : result response :=
  if (a =? 1)%Z then demo_get 250 a b else Throw (js "ECONNRESET").

Lemma scan_error_skips_blocks_witness :
  exists st', sync_body (fun _ => None) flaky_get (demo_answers 250) (Sync 0 (∅ : mongo)) st'
      (Throw (js "ECONNRESET")) /\
    currentBlockNumber st' = 100%Z /\ collection st' = ∅ /\
    forall get' fuel cur rs, scan get' fuel 100 [] = Some (cur, Ok rs) ->
      ~ exists r, r ∈ rs /\ covers r 42.
Proof.
  assert (sync_body (fun _ => None) flaky_get (demo_answers 250) (Sync 0 (∅ : mongo))
    (Sync 100 ∅) (Throw (js "ECONNRESET"))) as Hrun.
  { apply (sync_error _ _ _ (Sync 0 ∅) 3). vm_compute. reflexivity. }
  eexists. split; [exact Hrun|].
  destruct (scan_error_skips_blocks (fun _ => None) flaky_get (demo_answers 250)
    (Sync 0 (∅ : mongo)) (Sync 100 ∅) (js "ECONNRESET") Hrun) as (H1 & _ & H3).
  split; [reflexivity|]. split; [exact H1|]. intros get' fuel cur rs Hs.
  apply (H3 get' fuel cur rs 42%Z Hs). vm_compute. discriminate.
Defined.

(** The scan never ends when the server answers the next range with
    blocks whose ids do not exceed [currentBlockNumber] (or have no id): no
    number of iterations leaves the loop. *)
Theorem scan_diverges get cur blocks
    (Hget : get (cur + 1)%Z (cur + 100)%Z = Ok (Array blocks))
    (Hne : blocks <> [])
    (Hids : forall b, b ∈ blocks -> (default 0 (id b) <= cur)%Z) :
  forall fuel rs, scan get fuel cur rs = None.
Proof.
  apply (scan_stuck get cur blocks); [|done|].
  - rewrite <- Hget. f_equal. unfold batchSize. lia.
  - apply Z.le_antisymm; [by apply max_seen_upper|apply max_seen_lower].
Qed.

Lemma scan_diverges_witness :
  scan (fun _ _ => Ok (Array [Block None None ∅])) 1000 0 [] = None.
Proof.
  apply (scan_diverges (fun _ _ => Ok (Array [Block None None ∅])) 0 [Block None None ∅]).
  - reflexivity.
  - discriminate.
  - intros b ->%list_elem_of_singleton. vm_compute. discriminate.
Defined.

(** Processing blocks parses each transaction value at most once: for a
    parser that never returns a string for bracketed text, processing twice
    is processing once. *)
Theorem processBlocks_idempotent JSON_parse blocks
    (Hparse : forall s v, looks_like_json s = true -> JSON_parse s = Some v -> forall t, v <> JStr t) :
  processBlocks JSON_parse (processBlocks JSON_parse blocks) = processBlocks JSON_parse blocks.
Proof.
  assert (forall t, processTransaction JSON_parse (processTransaction JSON_parse t) =
    processTransaction JSON_parse t) as Ht.
  { intros t. unfold processTransaction at 2 3. destruct t as [| | | | |o]; try done.
    destruct (map_get o (js "value")) as [v|] eqn:Ev; [|cbn [processTransaction]; by rewrite Ev].
    destruct v; cbn [processTransaction]; rewrite ?map_get_set_eq, ?map_set_set; try done.
    destruct (looks_like_json s) eqn:El.
    - destruct (JSON_parse s) as [w|] eqn:Ep; cbn [processTransaction].
      + rewrite map_get_set_eq. pose proof (Hparse s w El Ep) as Hw.
        destruct w as [| | |t| |]; rewrite ?map_set_set; try done. by destruct (Hw t).
      + by rewrite Ev, El, Ep.
    - cbn [processTransaction]. by rewrite map_get_set_eq, El, map_set_set. }
  unfold processBlocks. rewrite <- list_fmap_compose. apply list_fmap_ext. intros _ b _. cbn.
  unfold processBlock at 2 3. destruct (is_array (transactions b)) as [l|] eqn:Ea.
  - unfold processBlock. cbn. do 3 f_equal. rewrite <- list_fmap_compose.
    apply list_fmap_ext. intros _ t _. apply Ht.
  - unfold processBlock. by rewrite Ea.
Qed.

(** A parser that knows two texts. *)
Definition demo_parse (s : str) : option json :=
  if bool_decide (s = js "{}") then Some (JObj [])
  else if bool_decide (s = js "[1]") then Some (JArr [JNum (of_Z 1)]) else None.

Definition demo_tx (v : str) : json := JObj [(js "key", JStr (js "k")); (js "value", JStr v)].

Lemma processBlocks_idempotent_witness :
  processBlocks demo_parse [Block (Some 1%Z) (Some (JArr [demo_tx (js "[1]"); demo_tx (js "plain")])) ∅]
    = [Block (Some 1%Z) (Some (JArr [JObj [(js "key", JStr (js "k")); (js "value", JArr [JNum (of_Z 1)])];
                                     demo_tx (js "plain")])) ∅] /\
  forall blocks, processBlocks demo_parse (processBlocks demo_parse blocks) = processBlocks demo_parse blocks.
Proof.
  split; [vm_compute; reflexivity|]. intros blocks.
  apply (processBlocks_idempotent demo_parse blocks). intros s v _ Hp t ->.
  unfold demo_parse in Hp. repeat case_bool_decide; discriminate.
Defined.
