(* ===== verification/Connection.v ===== *)
(** * The WebSocket connection of the block cache

    The other half of [WebSocketMongoSync]
    (src/ecosystem/cache/resilient-node-cache/src/index.ts): the socket and
    its event handlers, the reconnection timer with exponential back-off, the
    periodic fetch and [close].  Each handler takes the state to a new state
    and the actions it performs; the event loop may run any handler that is
    enabled. *)

From S2P Require Import Prelude JsString JsArray JsNum Json.

(** [WebSocket.readyState] *)
Inductive readyState := CONNECTING | OPEN | CLOSING | CLOSED.
#[export] Instance readyState_dec : EqDecision readyState.
Proof. solve_decision. Defined.

Record conn := Conn {
  ws : option readyState;
  (** [close] has registered an ['open'] listener that closes the socket. *)
  closeOnOpen : bool;
  reconnectInterval : Z;
  reconnectAttempts : nat;
  isClosing : bool;
  (** Delays of the reconnection timeouts that have not fired. *)
  timeouts : list Z;
  (** The periodic fetch is running. *)
  fetchInterval : bool;
}.

Inductive action :=
| NewWebSocket
| Emit (event : str)
| FetchAndSyncNewBlocks
| SetTimeout (delay : Z)
| SetInterval
| ClearInterval
| CloseSocket
| CloseMongo
| Warn (message : str).

Inductive event :=
| WsOpen
| WsMessage (data : str)
| WsError
| WsClose
| Timeout
| Interval.

Definition with_ws (st : conn) (s : readyState) : conn :=
  Conn (Some s) (closeOnOpen st) (reconnectInterval st) (reconnectAttempts st)
    (isClosing st) (timeouts st) (fetchInterval st).

Definition connectWebSocket (st : conn) : conn * list action :=
  (Conn (Some CONNECTING) false (reconnectInterval st) (reconnectAttempts st)
     (isClosing st) (timeouts st) (fetchInterval st), [NewWebSocket]).

Definition startPeriodicFetch (st : conn) : conn * list action :=
  (Conn (ws st) (closeOnOpen st) (reconnectInterval st) (reconnectAttempts st)
     (isClosing st) (timeouts st) true, [SetInterval]).

Definition stopPeriodicFetch (st : conn) : conn * list action :=
  if fetchInterval st
  then (Conn (ws st) (closeOnOpen st) (reconnectInterval st) (reconnectAttempts st)
          (isClosing st) (timeouts st) false, [ClearInterval])
  else (st, []).

Definition attemptReconnection (st : conn) : conn * list action :=
  let delay := (reconnectInterval st * 2 ^ Z.of_nat (reconnectAttempts st))%Z in
  (Conn (ws st) (closeOnOpen st) (reconnectInterval st) (reconnectAttempts st)
     (isClosing st) (timeouts st ++ [delay]) (fetchInterval st), [SetTimeout delay]).

(** The ['open'] handlers: the one of [connectWebSocket], then the one
    [close] may have added. *)
Definition on_open (st : conn) : conn * list action :=
  let st' := Conn (Some (if closeOnOpen st then CLOSING else OPEN)) (closeOnOpen st)
    (reconnectInterval st) 0 (isClosing st) (timeouts st) (fetchInterval st) in
  (st', Emit (js "connected") :: if closeOnOpen st then [CloseSocket] else []).

Definition on_message (JSON_parse : str -> option json) (st : conn) (message : str)
    : conn * list action :=
  let unrecognized := (st, [Warn (js "Received unrecognized message:")]) in
  let dispatch (type : option json) :=
    match type with
    | Some (JStr t) =>
        if bool_decide (t = js "Update blocks") then (st, [FetchAndSyncNewBlocks])
        else unrecognized
    | _ => unrecognized
    end in
  match JSON_parse message with
  | Some JNull => (st, [Emit (js "error")])
  | Some v => dispatch (prop v (js "type"))
  | None => dispatch (Some (JStr message))
  end.

Definition on_error (st : conn) : conn * list action := (st, [Emit (js "error")]).

Definition on_close (st : conn) : conn * list action :=
  let st' := with_ws st CLOSED in
  if isClosing st' then (st', [Emit (js "disconnected")])
  else let '(st'', acts) := attemptReconnection st' in
       (st'', Emit (js "disconnected") :: acts).

(** The callback of the reconnection timeout. *)
Definition on_timeout (st : conn) : conn * list action :=
  connectWebSocket
    (Conn (ws st) (closeOnOpen st) (reconnectInterval st) (S (reconnectAttempts st))
       (isClosing st) (tail (timeouts st)) (fetchInterval st)).

Definition close (st : conn) : conn * list action :=
  let st1 := Conn (ws st) (closeOnOpen st) (reconnectInterval st) (reconnectAttempts st)
    true (timeouts st) (fetchInterval st) in
  let '(st2, acts2) :=
    match ws st1 with
    | Some CONNECTING =>
        (Conn (ws st1) true (reconnectInterval st1) (reconnectAttempts st1)
           (isClosing st1) (timeouts st1) (fetchInterval st1), [])
    | Some OPEN => (with_ws st1 CLOSING, [CloseSocket])
    | _ => (st1, [])
    end in
  let '(st3, acts3) := stopPeriodicFetch st2 in
  (st3, acts2 ++ acts3 ++ [CloseMongo; Emit (js "closed")]).

(** [initialize] once the initial blocks are synchronised. *)
Definition initialize (interval : Z) : conn * list action :=
  let '(st1, acts1) := startPeriodicFetch (Conn None false interval 0 false [] false) in
  let '(st2, acts2) := connectWebSocket st1 in
  (st2, acts1 ++ acts2).

(** ** The event loop *)

Section loop.
Context (JSON_parse : str -> option json).

Definition enabled (st : conn) (e : event) : bool :=
  match e with
  | WsOpen => bool_decide (ws st = Some CONNECTING)
  | WsMessage _ => bool_decide (ws st = Some OPEN)
  | WsError => bool_decide (ws st <> None /\ ws st <> Some CLOSED)
  | WsClose => bool_decide (ws st <> None /\ ws st <> Some CLOSED)
  | Timeout => bool_decide (timeouts st <> [])
  | Interval => fetchInterval st
  end.

Definition handle (st : conn) (e : event) : conn * list action :=
  match e with
  | WsOpen => on_open st
  | WsMessage data => on_message JSON_parse st data
  | WsError => on_error st
  | WsClose => on_close st
  | Timeout => on_timeout st
  | Interval => (st, [FetchAndSyncNewBlocks])
  end.

(** A run of the loop: the handlers of the events in order, or [None] when
    one of them is not enabled. *)
Fixpoint run (st : conn) (es : list event) : option (conn * list action) :=
  match es with
  | [] => Some (st, [])
  | e :: es' =>
      if enabled st e
      then let '(st1, acts1) := handle st e in
           match run st1 es' with
           | Some (st2, acts2) => Some (st2, acts1 ++ acts2)
           | None => None
           end
      else None
  end.

(** States reached from [initialize] by events and calls of [close]. *)
Inductive reachable (interval : Z) : conn -> Prop :=
| reach_init : reachable interval (initialize interval).1
| reach_event st e : reachable interval st -> enabled st e = true ->
    reachable interval (handle st e).1
| reach_close st : reachable interval st -> reachable interval (close st).1.

(** At most one reconnection is pending, and only while the socket is
    closed: two sockets are never live at once. *)
Definition one_socket (st : conn) : Prop :=
  length (timeouts st) <= 1 /\ (timeouts st <> [] -> ws st = Some CLOSED).

Lemma one_socket_handle st e :
  enabled st e = true -> one_socket st -> one_socket (handle st e).1.
Proof.
  intros He [Hl Hc]. unfold one_socket.
  destruct e; cbn [handle enabled] in *; split_bools.
  - unfold on_open. cbn. split; [done|]. intros Ht. rewrite Hc in He; done.
  - unfold on_message. repeat case_match; cbn; done.
  - done.
  - unfold on_close. cbn. destruct (timeouts st) as [|d t] eqn:Et.
    + destruct (isClosing st); cbn; rewrite ?Et; cbn; (split; [lia|done]).
    + rewrite Hc in He by done. naive_solver.
  - unfold on_timeout. cbn. destruct (timeouts st) as [|d [|]]; cbn in *; [done| |lia].
    split; [lia|done].
  - done.
Qed.

Lemma one_socket_close st : one_socket st -> one_socket (close st).1.
Proof.
  unfold one_socket, close, stopPeriodicFetch. intros [Hl Hc].
  destruct (ws st) as [[]|] eqn:Ew; cbn; destruct (fetchInterval st); cbn; rewrite ?Ew; (split; [done|naive_solver]).
Qed.

Lemma closing_quiet st e :
  enabled st e = true -> isClosing st = true -> timeouts st = [] ->
  isClosing (handle st e).1 = true /\ timeouts (handle st e).1 = [] /\
  NewWebSocket ∉ (handle st e).2.
Proof.
  intros He Hc Ht. destruct e; cbn [handle enabled] in *; split_bools.
  - unfold on_open. cbn. repeat split; [done..|]. destruct (closeOnOpen st); set_solver.
  - unfold on_message. repeat case_match; cbn; (repeat split; [done..|set_solver]).
  - cbn. repeat split; [done..|set_solver].
  - unfold on_close. cbn. rewrite Hc. cbn. repeat split; [done..|set_solver].
  - by rewrite Ht in He.
  - cbn. repeat split; [done..|set_solver].
Qed.

Lemma close_closing st : isClosing (close st).1 = true /\ timeouts (close st).1 = timeouts st.
Proof. unfold close, stopPeriodicFetch. repeat case_match; simplify_eq/=; done. Qed.
End loop.

(** ** The properties *)

(** At every moment of the client's life at most one reconnection timer
    is pending, and while one is pending the socket is closed. *)
Theorem connection_one_socket JSON_parse interval st
    (Hreach : reachable JSON_parse interval st) : one_socket st.
Proof.
  induction Hreach as [|st e _ IH He|st _ IH].
  - unfold one_socket. cbn. split; [lia|done].
  - by apply one_socket_handle.
  - by apply one_socket_close.
Qed.

Lemma connection_one_socket_witness :
  one_socket (handle (fun _ => None) (initialize 5000).1 WsClose).1.
Proof.
  apply (connection_one_socket (fun _ => None) 5000). apply reach_event; [apply reach_init|reflexivity].
Defined.

(** After [close], if no reconnection timer was pending, no sequence of
    events ever opens another socket. *)
Theorem close_is_final JSON_parse st es st' acts
    (Hidle : timeouts st = [])
    (Hrun : run JSON_parse (close st).1 es = Some (st', acts)) :
  NewWebSocket ∉ acts.
Proof.
  destruct (close_closing st) as [Hc Ht]. rewrite Hidle in Ht. revert st' acts Hrun Hc Ht.
  generalize (close st).1. induction es as [|e es IH]; intros s st' acts Hrun Hc Ht; cbn in Hrun.
  - simplify_eq. set_solver.
  - destruct (enabled s e) eqn:He; [|done].
    destruct (closing_quiet JSON_parse s e He Hc Ht) as (Hc' & Ht' & Hq).
    destruct (handle JSON_parse s e) as [s1 a1] eqn:Eh. cbn in *.
    destruct (run JSON_parse s1 es) as [[s2 a2]|] eqn:Er; [|done]. simplify_eq.
    apply not_elem_of_app. split; [done|]. by eapply IH.
Qed.

Lemma close_is_final_witness :
  NewWebSocket ∉ [Emit (js "connected"); CloseSocket; Emit (js "disconnected")].
Proof.
  apply (close_is_final (fun _ => None) (initialize 5000).1 [WsOpen; WsClose]
    (Conn (Some CLOSED) true 5000 0 true [] false)); reflexivity.
Defined.

(** [close] does not cancel a pending reconnection: if the timer fires
    afterwards the client opens a new socket, connects, and keeps fetching on
    messages although it was closed. *)
Theorem close_leaves_reconnection JSON_parse st
    (Hpending : timeouts st <> []) :
  exists st' acts, run JSON_parse (close st).1 [Timeout; WsOpen] = Some (st', acts) /\
    NewWebSocket ∈ acts /\ ws st' = Some OPEN /\ isClosing st' = true.
Proof.
  destruct (close_closing st) as [Hc Ht]. destruct (close st).1 as [w c i a k t f]. cbn in *. subst.
  rewrite bool_decide_eq_true_2 by done. cbn. eexists _, _. split; [reflexivity|].
  cbn. split; [by left|done].
Qed.

Lemma close_leaves_reconnection_witness :
  exists st' acts, run (fun _ => None) (close (handle (fun _ => None) (initialize 5000).1 WsClose).1).1
      [Timeout; WsOpen] = Some (st', acts) /\
    NewWebSocket ∈ acts /\ ws st' = Some OPEN /\ isClosing st' = true.
Proof.
  apply (close_leaves_reconnection (fun _ => None)). vm_compute. discriminate.
Defined.

(** A connection attempt that fails [k] times in a row. *)
Fixpoint failures (k : nat) : list event :=
  match k with O => [] | S k' => WsClose :: Timeout :: failures k' end.

Fixpoint backoff (interval : Z) (attempt k : nat) : list action :=
  match k with
  | O => []
  | S k' => Emit (js "disconnected") :: SetTimeout (interval * 2 ^ Z.of_nat attempt)%Z
            :: NewWebSocket :: backoff interval (S attempt) k'
  end.

Lemma failures_run JSON_parse k st :
  ws st = Some CONNECTING -> isClosing st = false -> timeouts st = [] ->
  exists st', run JSON_parse st (failures k) =
      Some (st', backoff (reconnectInterval st) (reconnectAttempts st) k) /\
    ws st' = Some CONNECTING /\ isClosing st' = false /\ timeouts st' = [] /\
    reconnectAttempts st' = reconnectAttempts st + k.
Proof.
  revert st. induction k as [|k IH]; intros st Hw Hc Ht.
  - exists st. by rewrite Nat.add_0_r.
  - destruct st as [w c i a cl t f]. cbn in *. subst. cbn.
    destruct (IH (Conn (Some CONNECTING) false i (S a) false [] f)) as (st' & Hr & ? & ? & ? & Ha); [done..|].
    cbn in Hr, Ha. rewrite Hr. exists st'. repeat split; try done. lia.
Qed.

(** Reconnection backs off exponentially: the j-th consecutive failure of
    a fresh client waits [interval * 2^j] milliseconds, and an ['open'] event
    starts again from attempt 0. *)
Theorem reconnect_backoff JSON_parse interval k :
  exists st', run JSON_parse (initialize interval).1 (failures k) = Some (st', backoff interval 0 k) /\
    reconnectAttempts st' = k /\ enabled st' WsOpen = true /\ reconnectAttempts (on_open st').1 = 0.
Proof.
  destruct (failures_run JSON_parse k (initialize interval).1) as (st' & Hr & Hw & _ & _ & Ha); [done..|].
  exists st'. split; [exact Hr|]. split; [done|]. split; [|done].
  cbn. by rewrite Hw.
Qed.
