(* ===== verification/Cache.v ===== *)
(** * The response cache

    [SimpleCache] of src/ecosystem/ai-tools/mcp/graphq-llm/src/utils/cache.ts:
    a [Map] from keys to entries with an expiry date.  The clock is an
    argument of each operation.  The specification is a cache that never
    purges anything; the implementation is shown to answer the same. *)

From S2P Require Import Prelude JsString JsArray.

Record CacheEntry (T : Type) := Entry { data : T; timestamp : Z; expiresAt : Z }.
Arguments Entry {T}. Arguments data {T}. Arguments timestamp {T}. Arguments expiresAt {T}.

Record SimpleCache (T : Type) := Cache {
  cache : jsmap str (CacheEntry T);
  defaultTTL : Z;
}.
Arguments Cache {T}. Arguments cache {T}. Arguments defaultTTL {T}.

Section cache.
Context {T O : Type} (JSON_stringify : O -> str).
Implicit Types (c : SimpleCache T) (now : Z).

Definition new_cache (ttl : option Z) : SimpleCache T := Cache [] (coalesce ttl 3600000%Z).

Definition generateKey (query : str) (options : option O) : str :=
  let optionsStr := match options with Some o => JSON_stringify o | None => [] end in
  query ++ js ":" ++ optionsStr.

Definition get now c (query : str) (options : option O) : SimpleCache T * option T :=
  let key := generateKey query options in
  match map_get (cache c) key with
  | None => (c, None)
  | Some entry =>
      if (expiresAt entry <? now)%Z
      then (Cache (map_delete (cache c) key) (defaultTTL c), None)
      else (c, Some (data entry))
  end.

(** [ttl || this.defaultTTL]: a zero [ttl] is falsy. *)
Definition ttl_or (ttl : option Z) (d : Z) : Z :=
  match ttl with Some t => if (t =? 0)%Z then d else t | None => d end.

Definition set now c (query : str) (d : T) (options : option O) (ttl : option Z) : SimpleCache T :=
  let key := generateKey query options in
  let expiresAt := (now + ttl_or ttl (defaultTTL c))%Z in
  Cache (map_set (cache c) key (Entry d now expiresAt)) (defaultTTL c).

Definition clearExpired now c : SimpleCache T :=
  Cache (filterb (fun e => negb (expiresAt e.2 <? now)%Z) (cache c)) (defaultTTL c).

Definition clear c : SimpleCache T := Cache [] (defaultTTL c).

Definition size c : nat := map_size (cache c).

(** ** Operations as a trace *)

Inductive op :=
| Get (query : str) (options : option O)
| Set_ (query : str) (d : T) (options : option O) (ttl : option Z)
| ClearExpired
| Clear.

(** One operation at a given time, with the value a [get] answers. *)
Definition apply now c (o : op) : SimpleCache T * option T :=
  match o with
  | Get q os => get now c q os
  | Set_ q d os ttl => (set now c q d os ttl, None)
  | ClearExpired => (clearExpired now c, None)
  | Clear => (clear c, None)
  end.

Fixpoint run c (tr : list (Z * op)) : list (option T) :=
  match tr with
  | [] => []
  | (now, o) :: tr' => let '(c', a) := apply now c o in a :: run c' tr'
  end.

(** ** Specification: the last value written, while it has not expired *)

Definition spec : Type := str -> option (CacheEntry T).

Definition spec_get now (s : spec) (k : str) : option T :=
  match s k with
  | Some e => if (expiresAt e <? now)%Z then None else Some (data e)
  | None => None
  end.

Definition spec_apply (ttl0 now : Z) (s : spec) (o : op) : spec * option T :=
  match o with
  | Get q os => (s, spec_get now s (generateKey q os))
  | Set_ q d os ttl =>
      (fun k => if decide (k = generateKey q os)
                then Some (Entry d now (now + ttl_or ttl ttl0)%Z) else s k, None)
  | ClearExpired => (s, None)
  | Clear => (fun _ => None, None)
  end.

Fixpoint spec_run (ttl0 : Z) (s : spec) (tr : list (Z * op)) : list (option T) :=
  match tr with
  | [] => []
  | (now, o) :: tr' => let '(s', a) := spec_apply ttl0 now s o in a :: spec_run ttl0 s' tr'
  end.

(** The implementation lacks only entries that have expired by [now]. *)
Record refines now c (s : spec) : Prop := {
  refines_wf : map_wf (cache c);
  refines_get k e : map_get (cache c) k = Some e -> s k = Some e;
  refines_missing k e : s k = Some e -> map_get (cache c) k = None -> (expiresAt e < now)%Z;
}.

Lemma refines_later now now' c s : (now <= now')%Z -> refines now c s -> refines now' c s.
Proof.
  intros Hle [H1 H2 H3]. constructor; [done..|]. intros k e Hk Hm.
  specialize (H3 k e Hk Hm). lia.
Qed.

Lemma refines_lookup now c s k : refines now c s ->
  match map_get (cache c) k with
  | Some e => if (expiresAt e <? now)%Z then None else Some (data e)
  | None => None
  end = spec_get now s k.
Proof.
  intros [_ H2 H3]. unfold spec_get. destruct (map_get (cache c) k) as [e|] eqn:E.
  - by rewrite (H2 k e E).
  - destruct (s k) as [e|] eqn:Es; [|done].
    specialize (H3 k e Es E). by rewrite (proj2 (Z.ltb_lt _ _) H3).
Qed.

Lemma refines_delete_expired now c s (f : str * CacheEntry T -> bool) :
  refines now c s ->
  (forall k e, map_get (cache c) k = Some e -> f (k, e) = false -> (expiresAt e < now)%Z) ->
  refines now (Cache (filterb f (cache c)) (defaultTTL c)) s.
Proof.
  intros [H1 H2 H3] Hf. constructor; cbn.
  - by apply map_keys_filter.
  - intros k e. rewrite map_get_filter by done.
    destruct (map_get (cache c) k) eqn:E; [|done]. destruct (f _); [|done].
    intros [= <-]. by apply H2.
  - intros k e Hk. rewrite map_get_filter by done.
    destruct (map_get (cache c) k) as [e'|] eqn:E; [|eauto].
    rewrite (H2 k e' E) in Hk. simplify_eq. destruct (f (k, e)) eqn:Ef; [done|]. eauto.
Qed.

Lemma apply_refines now c s o :
  refines now c s ->
  (apply now c o).2 = (spec_apply (defaultTTL c) now s o).2 /\
  defaultTTL (apply now c o).1 = defaultTTL c /\
  refines now (apply now c o).1 (spec_apply (defaultTTL c) now s o).1.
Proof.
  intros Hr. pose proof Hr as [H1 H2 H3]. destruct o as [q os|q d os ttl| |]; cbn.
  - unfold get. rewrite <- (refines_lookup now c s _ Hr).
    destruct (map_get (cache c) (generateKey q os)) as [e|] eqn:E; [|split_and!; done].
    destruct (expiresAt e <? now)%Z eqn:Ex; [|split_and!; done]. cbn. split_and!; [done..|].
    apply refines_delete_expired; [done|]. cbn. intros k e' Hk Hd. split_bools. subst.
    rewrite E in Hk. simplify_eq. lia.
  - split_and!; [done..|]. constructor; cbn.
    + by apply map_set_wf.
    + intros k e. case_decide as Ek; [subst; by rewrite map_get_set_eq|].
      rewrite map_get_set_ne by done. auto.
    + intros k e. case_decide as Ek; [subst; by rewrite map_get_set_eq|].
      rewrite map_get_set_ne by done. eauto.
  - split_and!; [done..|]. apply refines_delete_expired; [done|]. cbn.
    intros k e _ Hf. split_bools. lia.
  - split_and!; [done..|]. constructor; cbn; [constructor|done..].
Qed.

(** Timestamps of a trace do not go back. *)
Fixpoint ordered (t : Z) (tr : list (Z * op)) : Prop :=
  match tr with
  | [] => True
  | (now, _) :: tr' => (t <= now)%Z /\ ordered now tr'
  end.

Lemma run_refines tr now c s :
  refines now c s -> ordered now tr -> run c tr = spec_run (defaultTTL c) s tr.
Proof.
  revert now c s. induction tr as [|[t o] tr IH]; intros now c s Hr; [done|]. cbn [ordered run spec_run].
  intros [Hle Ho]. apply (refines_later now t) in Hr; [|done].
  destruct (apply_refines t c s o Hr) as (E1 & E2 & E3).
  destruct (apply t c o) as [c' a] eqn:Ea, (spec_apply (defaultTTL c) t s o) as [s' b] eqn:Es.
  cbn in *. subst a. f_equal. rewrite <- E2. by eapply IH.
Qed.
End cache.
Arguments op : clear implicits.

(** C3: refinement of the cache: over any sequence of operations at
    non-decreasing times, every [get] answers exactly the last value set
    under its key since the last [clear], while it has not expired; the lazy
    deletion in [get] and the purging in [clearExpired] are unobservable. *)
Theorem cache_refines_spec {T O} (JSON_stringify : O -> str) (ttl : option Z) (t0 : Z) (tr : list (Z * op T O))
    (Htime : ordered t0 tr) :
  run JSON_stringify (new_cache ttl) tr =
  spec_run JSON_stringify (coalesce ttl 3600000%Z) (fun _ => None) tr.
Proof.
  apply (run_refines JSON_stringify tr t0 (new_cache ttl) (fun _ => None)); [|done].
  constructor; [constructor|done..].
Qed.

Lemma cache_refines_spec_witness :
  run (fun o : str => o) (new_cache (Some 100%Z))
    [(0%Z, Set_ (js "q") 7 None None); (50%Z, Get (js "q") None); (60%Z, Get (js "q") (Some (js "{}")));
     (101%Z, Get (js "q") None); (102%Z, ClearExpired)] = [None; Some 7; None; None; None].
Proof.
  rewrite (cache_refines_spec (fun o : str => o) (Some 100%Z) 0
    [(0%Z, Set_ (js "q") 7 None None); (50%Z, Get (js "q") None); (60%Z, Get (js "q") (Some (js "{}")));
     (101%Z, Get (js "q") None); (102%Z, ClearExpired)]); [vm_compute; reflexivity|].
  vm_compute. repeat split; discriminate.
Defined.
