(* ===== verification/Chunking.v ===== *)
(** * Document chunking

    [ChunkingService] of
    src/ecosystem/ai-tools/mcp/graphq-llm/src/rag/chunking-service.ts, with
    the [LoadedDocument] it splits (document-loader.ts).  Sizes are in
    characters; [maxTokens] and [chunkOverlapTokens] are integers, so the
    division by [tokensPerChar = 0.25] is a multiplication by four. *)

From S2P Require Import Prelude JsString.

Inductive docType := Markdown | Text | JsonDoc | Schema | Api.
#[export] Instance docType_dec : EqDecision docType.
Proof. solve_decision. Defined.

Record LoadedDocument := Doc {
  doc_id : str;
  content : str;
  doc_source : str;
  doc_type : docType;
  filePath : option str;
  title : option str;
  doc_section : option str;
  doc_timestamp : option str;
}.

Inductive chunkType := CDocumentation | CSchema | CExample | CApi.
#[export] Instance chunkType_dec : EqDecision chunkType.
Proof. solve_decision. Defined.

Record DocumentChunk := Chunk {
  id : str;
  chunkText : str;
  source : str;
  chunkIndex : nat;
  documentId : str;
  section : option str;
  type : chunkType;
  startChar : Z;
  endChar : Z;
}.

Record ChunkingService := Chunker { maxChunkSize : Z; chunkOverlap : Z }.

Definition new_chunker (maxTokens chunkOverlapTokens : option Z) : ChunkingService :=
  Chunker (coalesce maxTokens 512 * 4)%Z (coalesce chunkOverlapTokens 50 * 4)%Z.

Definition mapDocumentTypeToChunkType (t : docType) : chunkType :=
  match t with
  | Schema => CSchema
  | Api => CApi
  | Markdown | Text | JsonDoc => CDocumentation
  end.

Definition maxIterations : nat := 10000.

Section by_size.
Context (cs : ChunkingService) (document : LoadedDocument).
Let len : Z := Z.of_nat (length (content document)).

(** The last break points before the look-ahead limit, those after
    [startIndex] only. *)
Definition breakPoints (startIndex endIndex : Z) : list Z :=
  let searchEnd := Z.min (endIndex + 50) len in
  filterb (fun bp => startIndex <? bp)%Z
    [lastIndexOf (content document) (jsn "|n|n") searchEnd;
     lastIndexOf (content document) (jsn "|n") searchEnd;
     lastIndexOf (content document) (js ". ") searchEnd;
     lastIndexOf (content document) (js " ") searchEnd].

(** [Math.max(...breakPoints)] of a non-empty list. *)
Definition bestBreak (bps : list Z) : option Z :=
  match bps with [] => None | b :: bs => Some (foldr Z.max b bs) end.

Definition chunkEnd (startIndex : Z) (index : nat) : Z :=
  let endIndex := Z.min (startIndex + maxChunkSize cs) len in
  if ((endIndex <? len)%Z && (0 <? index)%nat) then
    match bestBreak (breakPoints startIndex endIndex) with
    | Some b => if (2 * startIndex + maxChunkSize cs <? 2 * b)%Z then (b + 1)%Z else endIndex
    | None => endIndex
    end
  else endIndex.

Definition nextStart (startIndex endIndex : Z) : Z :=
  let next := (endIndex - chunkOverlap cs)%Z in
  if (next <=? startIndex)%Z then endIndex else next.

Definition mkChunk (startIndex endIndex : Z) (index : nat) (text : str) : DocumentChunk :=
  Chunk (doc_id document ++ js "_chunk_" ++ str_of_nat index) text (doc_source document) index
    (doc_id document) (doc_section document) (mapDocumentTypeToChunkType (doc_type document))
    startIndex endIndex.

(** The loop; [fuel] is [maxIterations] less the iterations done.  Returns
    the chunks and the start index it stopped at. *)
Fixpoint chunk_loop (fuel : nat) (startIndex : Z) (index : nat) : list DocumentChunk * Z :=
  match fuel with
  | O => ([], startIndex)
  | S fuel' =>
      if (startIndex <? len)%Z then
        let endIndex := chunkEnd startIndex index in
        let text := trim (slice (content document) startIndex endIndex) in
        let next := nextStart startIndex endIndex in
        if bool_decide (text = []) then chunk_loop fuel' next index
        else let '(rest, stop) := chunk_loop fuel' next (S index) in
             (mkChunk startIndex endIndex index text :: rest, stop)
      else ([], startIndex)
  end.

Definition chunkBySize : list DocumentChunk :=
  if bool_decide (trim (content document) = []) then []
  else (chunk_loop maxIterations 0 0).1.
End by_size.

(** ** Markdown sections: [/^(#{1,6}\s+.+)$/gm] *)

Definition is_line_end (c : ascii) : bool := (code c =? 10)%N || (code c =? 13)%N.

(** The last position from [k] down to [1] that [.] can match. *)
Fixpoint last_dot (ws : str) (k : nat) : option nat :=
  match k with
  | O => None
  | S k' => match ws !! k with
            | Some c => if is_line_end c then last_dot ws k' else Some k
            | None => last_dot ws k'
            end
  end.

(** Length of the match of [#{1,6}\s+.+$] at the head of [s].  The greedy
    [\s+] takes the whole run of white space; it gives some back only when
    the text ends there, so that [.+] has something to match. *)
Definition header_match (s : str) : option nat :=
  let h := run_length (fun c => bool_decide (c = "#"%char)) s in
  let s1 := drop h s in
  let w := run_length is_space s1 in
  if ((1 <=? h) && (h <=? 6) && (1 <=? w))%nat then
    let rest := drop w s1 in
    match rest with
    | _ :: _ => Some (h + w + run_length (fun c => negb (is_line_end c)) rest)
    | [] =>
        match last_dot s1 (w - 1) with
        | Some k => Some (h + k + run_length (fun c => negb (is_line_end c)) (drop k s1))
        | None => None
        end
    end
  else None.

(** [match[1].replace(/^#+\s+/, '').trim()] *)
Definition header_title (m : str) : str :=
  let s1 := drop (run_length (fun c => bool_decide (c = "#"%char)) m) m in
  trim (drop (run_length is_space s1) s1).

(** The [exec] loop: headers with their positions.  [bol] tells whether [^]
    matches here, [skip] how much of the last match is left. *)
Fixpoint headers_go (s : str) (pos : nat) (bol : bool) (skip : nat) : list (str * nat) :=
  match s with
  | [] => []
  | c :: s' =>
      match skip with
      | S k => headers_go s' (S pos) (is_line_end c) k
      | O =>
          match (if bol then header_match s else None) with
          | Some m => (header_title (take m s), pos)
                      :: headers_go s' (S pos) (is_line_end c) (m - 1)
          | None => headers_go s' (S pos) (is_line_end c) 0
          end
      end
  end.

Definition headers (s : str) : list (str * nat) := headers_go s 0 true 0.

Record markdownSection := Section_ { sec_title : str; sec_start : Z; sec_end : Z }.

(** Each section runs to the next header or to the end. *)
Fixpoint sections_of (hs : list (str * nat)) (len : Z) : list markdownSection :=
  match hs with
  | [] => []
  | (t, i) :: hs' =>
      Section_ t (Z.of_nat i)
        (match hs' with (_, j) :: _ => Z.of_nat j | [] => len end) :: sections_of hs' len
  end.

Section by_sections.
Context (cs : ChunkingService) (document : LoadedDocument).

Definition subDocument (sec : markdownSection) (index : nat) (text : str) : LoadedDocument :=
  Doc (doc_id document ++ js "_section_" ++ str_of_nat index) text (doc_source document)
    (doc_type document) (filePath document) (title document) (Some (sec_title sec))
    (doc_timestamp document).

Definition sectionChunks (index : nat) (sec : markdownSection) : list DocumentChunk :=
  let sectionText := trim (slice (content document) (sec_start sec) (sec_end sec)) in
  if (maxChunkSize cs <? Z.of_nat (length sectionText))%Z
  then chunkBySize cs (subDocument sec index sectionText)
  else [Chunk (doc_id document ++ js "_section_" ++ str_of_nat index) sectionText
          (doc_source document) index (doc_id document) (Some (sec_title sec))
          (mapDocumentTypeToChunkType (doc_type document)) (sec_start sec) (sec_end sec)].

Definition chunkBySections : list DocumentChunk :=
  if bool_decide (doc_type document = Markdown) then
    match sections_of (headers (content document)) (Z.of_nat (length (content document))) with
    | [] => chunkBySize cs document
    | secs => concat (imap sectionChunks secs)
    end
  else chunkBySize cs document.

Definition chunkDocument : list DocumentChunk :=
  if bool_decide (doc_type document = Markdown) then
    match chunkBySections with
    | [] => chunkBySize cs document
    | semanticChunks => semanticChunks
    end
  else chunkBySize cs document.
End by_sections.

(** No call throws, so the [catch] of the loop is never entered. *)
Definition chunkDocuments (cs : ChunkingService) (documents : list LoadedDocument) : list DocumentChunk :=
  concat (chunkDocument cs <$> documents).

(** ** Size-based chunking: bounds and coverage *)

Section by_size_facts.
Context (cs : ChunkingService) (document : LoadedDocument).
Local Abbreviation text := (content document).
Let len : Z := Z.of_nat (length text).
Context (Hmax : (0 < maxChunkSize cs)%Z) (Hoverlap : (0 <= chunkOverlap cs)%Z).

(** The progress every iteration makes before the end is reached. *)
Definition stride : Z := Z.max 1 (maxChunkSize cs / 2 - chunkOverlap cs).

Lemma breakPoints_bound a e bp :
  (0 <= e)%Z -> bp ∈ breakPoints document a e ->
  (a < bp)%Z /\ (bp <= e + 50)%Z /\ (bp < len)%Z.
Proof.
  intros He [Hin Hlt]%elem_of_filterb. split_bools. split; [done|].
  rewrite !elem_of_cons in Hin.
  assert (forall p, p <> [] -> let x := lastIndexOf text p (Z.min (e + 50) len) in
    (x <= e + 50)%Z /\ (x < len)%Z) as Hb.
  { intros p Hp x. split; [|by apply lastIndexOf_lt_length].
    unfold x. etrans; [apply lastIndexOf_le; unfold len; lia|lia]. }
  destruct Hin as [->|[->|[->|[->|Hn]]]]; [by apply Hb..|by apply elem_of_nil in Hn].
Qed.

Lemma chunkEnd_bounds a i :
  (0 <= a < len)%Z ->
  let e := chunkEnd cs document a i in
  (a < e <= len)%Z /\ (e <= a + maxChunkSize cs + 51)%Z /\
  (e = len \/ 2 * a + maxChunkSize cs < 2 * e)%Z.
Proof.
  intros Ha e. unfold e, chunkEnd. fold len.
  set (e0 := Z.min (a + maxChunkSize cs) len).
  assert (e0 = len \/ (e0 < len /\ e0 = a + maxChunkSize cs))%Z as He0 by (unfold e0; lia).
  destruct ((e0 <? len)%Z && (0 <? i)%nat) eqn:E; [|lia].
  destruct (bestBreak _) as [b|] eqn:Eb; [|lia].
  destruct (_ <? 2 * b)%Z eqn:Elt; [|lia]. split_bools.
  assert (b ∈ breakPoints document a e0) as Hb.
  { destruct (breakPoints document a e0) as [|x l]; [done|]. injection Eb as <-.
    apply elem_of_cons. apply foldr_max_in. }
  destruct (breakPoints_bound a e0 b) as (? & ? & ?); [lia|done|]. lia.
Qed.

Lemma nextStart_bounds a e :
  (a < e)%Z -> (a < nextStart cs a e <= e)%Z.
Proof. intros. unfold nextStart. case_match; split_bools; lia. Qed.

Lemma nextStart_stride a e :
  (a < e)%Z -> (2 * a + maxChunkSize cs < 2 * e)%Z -> (a + stride <= nextStart cs a e)%Z.
Proof.
  intros. pose proof (nextStart_bounds a e) as Hb. unfold stride, nextStart in *.
  assert (maxChunkSize cs / 2 <= e - a)%Z by (apply Z.div_le_upper_bound; lia).
  destruct (_ <=? a)%Z eqn:E; split_bools; lia.
Qed.

(** What the loop promises of each chunk it emits. *)
Record chunk_ok (c : DocumentChunk) : Prop := {
  ok_range : (0 <= startChar c < endChar c)%Z /\ (endChar c <= len)%Z;
  ok_text : chunkText c = trim (slice text (startChar c) (endChar c));
  ok_nonempty : chunkText c <> [];
  ok_size : (Z.of_nat (length (chunkText c)) <= maxChunkSize cs + 51)%Z;
}.

Lemma chunk_loop_ok fuel a i :
  (0 <= a)%Z -> Forall chunk_ok (chunk_loop cs document fuel a i).1.
Proof.
  revert a i. induction fuel as [|fuel IH]; intros a i Ha; cbn [chunk_loop]; [constructor|].
  fold len. destruct (a <? len)%Z eqn:E; [|constructor]. split_bools.
  destruct (chunkEnd_bounds a i) as (He1 & He2 & _); [lia|].
  set (e := chunkEnd cs document a i) in *.
  destruct (nextStart_bounds a e) as [Hn1 Hn2]; [lia|].
  case_bool_decide as Et; [apply IH; lia|].
  specialize (IH (nextStart cs a e) (S i) ltac:(lia)).
  destruct (chunk_loop cs document fuel (nextStart cs a e) (S i)) as [rest stop]. cbn in *.
  constructor; [|done]. constructor; cbn; [unfold len in *; lia|done|done|].
  pose proof (length_trim_le (slice text a e)).
  pose proof (length_slice text a e ltac:(lia) ltac:(unfold len in *; lia)). lia.
Qed.

Lemma chunk_loop_covers fuel a i p c :
  (0 <= a <= Z.of_nat p)%Z -> (len - a <= Z.of_nat fuel * stride)%Z ->
  text !! p = Some c -> is_space c = false ->
  exists ch, ch ∈ (chunk_loop cs document fuel a i).1 /\
    (startChar ch <= Z.of_nat p < endChar ch)%Z.
Proof.
  intros Ha Hf Hp Hc. assert (Z.of_nat p < len)%Z as Hlen.
  { apply lookup_lt_Some in Hp. unfold len. lia. }
  revert a i Ha Hf. induction fuel as [|fuel IH]; intros a i Ha Hf; [lia|]. cbn [chunk_loop].
  fold len. rewrite (proj2 (Z.ltb_lt a len)) by lia.
  destruct (chunkEnd_bounds a i) as (He1 & _ & He3); [lia|].
  set (e := chunkEnd cs document a i) in *.
  destruct (Z.lt_ge_cases (Z.of_nat p) e) as [Hlt|Hge].
  - rewrite bool_decide_eq_false_2.
    2:{ intros Et%trim_nil_spaces. rewrite Forall_lookup in Et.
        specialize (Et (p - Z.to_nat a) c). rewrite Et in Hc; [done|].
        rewrite lookup_slice; [done|lia..]. }
    destruct (chunk_loop cs document fuel _ _) as [rest stop].
    eexists. split; [by left|]. cbn. lia.
  - assert (a + stride <= nextStart cs a e)%Z as Hs by (apply nextStart_stride; lia).
    destruct (nextStart_bounds a e) as [Hn1 Hn2]; [lia|].
    assert (forall i', exists ch, ch ∈ (chunk_loop cs document fuel (nextStart cs a e) i').1 /\
      (startChar ch <= Z.of_nat p < endChar ch)%Z) as Hrest by (intros i'; apply IH; lia).
    case_bool_decide; [apply Hrest|]. destruct (Hrest (S i)) as (ch & Hin & Hch).
    destruct (chunk_loop cs document fuel _ _) as [rest stop].
    exists ch. split; [by right|done].
Qed.

Lemma chunk_loop_indices fuel a i :
  exists k, chunkIndex <$> (chunk_loop cs document fuel a i).1 = seq i k.
Proof.
  revert a i. induction fuel as [|fuel IH]; intros a i; cbn [chunk_loop]; [by exists 0|].
  case_match; [|by exists 0]. case_bool_decide; [apply IH|].
  specialize (IH (nextStart cs a (chunkEnd cs document a i)) (S i)).
  destruct (chunk_loop cs document fuel _ _) as [rest stop]. destruct IH as [k Hk].
  exists (S k). cbn in *. by rewrite Hk.
Qed.

Lemma chunk_loop_ids fuel a i c :
  c ∈ (chunk_loop cs document fuel a i).1 ->
  id c = doc_id document ++ js "_chunk_" ++ str_of_nat (chunkIndex c).
Proof.
  revert a i. induction fuel as [|fuel IH]; intros a i; cbn [chunk_loop]; [by intros ?%elem_of_nil|].
  case_match; [|by intros ?%elem_of_nil]. case_bool_decide; [apply IH|].
  specialize (IH (nextStart cs a (chunkEnd cs document a i)) (S i)).
  destruct (chunk_loop cs document fuel _ _) as [rest stop].
  intros [->|Hc]%elem_of_cons; [done|by apply IH].
Qed.
End by_size_facts.

(** ** Sections *)

Lemma headers_go_positions s pos bol skip t i :
  (t, i) ∈ headers_go s pos bol skip -> pos + skip <= i < pos + length s.
Proof.
  revert pos bol skip. induction s as [|c s IH]; intros pos bol skip; cbn [headers_go length].
  - by intros ?%elem_of_nil.
  - destruct skip as [|k]; [|intros H%IH; lia].
    destruct (if bol then header_match (c :: s) else None).
    + intros [[= -> ->]|H%IH]%elem_of_cons; lia.
    + intros H%IH. lia.
Qed.

Lemma headers_positions s t i : (t, i) ∈ headers s -> i < length s.
Proof. intros H%headers_go_positions. lia. Qed.

Lemma headers_go_sorted s pos bol skip :
  StronglySorted (fun h1 h2 => h1.2 < h2.2) (headers_go s pos bol skip).
Proof.
  revert pos bol skip. induction s as [|c s IH]; intros pos bol skip; cbn [headers_go]; [constructor|].
  destruct skip as [|k]; [|apply IH].
  destruct (if bol then header_match (c :: s) else None); [|apply IH].
  constructor; [apply IH|]. rewrite Forall_forall. intros [t i] H%headers_go_positions. cbn. lia.
Qed.

(** Sections tile the text from the first header on. *)
Lemma sections_of_cover hs len p :
  StronglySorted (fun h1 h2 : str * nat => h1.2 < h2.2) hs ->
  (Z.of_nat p < len)%Z ->
  match hs with
  | [] => True
  | (_, i0) :: _ => i0 <= p ->
      exists k sec, sections_of hs len !! k = Some sec /\ (sec_start sec <= Z.of_nat p < sec_end sec)%Z
  end.
Proof.
  intros Hs Hp. induction Hs as [|[t i] hs Hs IH Hall]; [done|]. intros Hi.
  destruct hs as [|[t' j] hs].
  - exists 0, (Section_ t (Z.of_nat i) len). cbn. split; [done|lia].
  - destruct (decide (p < j)) as [Hlt|Hge].
    + exists 0, (Section_ t (Z.of_nat i) (Z.of_nat j)). cbn. split; [done|lia].
    + destruct IH as (k & sec & Hk & Hsec); [lia|]. exists (S k), sec. by split.
Qed.

Lemma sections_of_start hs len sec :
  StronglySorted (fun h1 h2 : str * nat => h1.2 < h2.2) hs -> sec ∈ sections_of hs len ->
  match hs with
  | [] => False
  | (_, i0) :: _ => (Z.of_nat i0 <= sec_start sec)%Z
  end.
Proof.
  intros Hs Hin. induction Hs as [|[t i] hs Hs IH Hall]; [by apply elem_of_nil in Hin|].
  cbn in Hin. apply elem_of_cons in Hin as [->|Hin]; [cbn; lia|]. specialize (IH Hin).
  destruct hs as [|[t' j] hs]; [done|]. rewrite Forall_forall in Hall.
  specialize (Hall (t', j)). cbn in Hall. assert (i < j) by (apply Hall; by left). lia.
Qed.

(** [s] is a contiguous piece of [t]. *)
Definition piece_of (s t : str) : Prop := exists a b, t = a ++ s ++ b.

Lemma piece_of_trans s t u : piece_of s t -> piece_of t u -> piece_of s u.
Proof.
  intros (a & b & ->) (a' & b' & ->). exists (a' ++ a), (b ++ b'). by rewrite <- !app_assoc.
Qed.

Lemma trim_piece s : piece_of (trim s) s.
Proof. destruct (trim_split s) as (a & b & H & _). by exists a, b. Qed.

Lemma take_drop_piece (n m : nat) (s : str) : piece_of (take n (drop m s)) s.
Proof. exists (take m s), (drop n (drop m s)). by rewrite take_drop, take_drop. Qed.

Lemma slice_piece_from (s : str) (k a b : nat) :
  k <= a -> piece_of (take b (drop a s)) (drop k s).
Proof.
  intros H. replace (drop a s) with (drop (a - k) (drop k s)); [apply take_drop_piece|].
  rewrite drop_drop. f_equal. lia.
Qed.

Lemma chunk_loop_pieces cs document fuel a i c :
  c ∈ (chunk_loop cs document fuel a i).1 -> piece_of (chunkText c) (content document).
Proof.
  revert a i. induction fuel as [|fuel IH]; intros a i; cbn [chunk_loop]; [by intros ?%elem_of_nil|].
  case_match; [|by intros ?%elem_of_nil]. case_bool_decide; [apply IH|].
  specialize (IH (nextStart cs a (chunkEnd cs document a i)) (S i)).
  destruct (chunk_loop cs document fuel _ _) as [rest stop].
  intros [->|Hc]%elem_of_cons; [|by apply IH]. cbn.
  eapply piece_of_trans; [apply trim_piece|apply take_drop_piece].
Qed.

Lemma chunkBySize_pieces cs document c :
  c ∈ chunkBySize cs document -> piece_of (chunkText c) (content document).
Proof.
  unfold chunkBySize. case_bool_decide; [by intros ?%elem_of_nil|apply chunk_loop_pieces].
Qed.

(** ** The properties *)

(** C34: size-based chunking keeps all the text: when the document is not
    longer than the 10000 iterations can reach (at [stride] characters
    each), every character that is not white space lies in the range of some
    chunk. *)
Theorem chunkBySize_covers cs document p c
    (Hmax : (0 < maxChunkSize cs)%Z) (Hoverlap : (0 <= chunkOverlap cs)%Z)
    (Hlen : (Z.of_nat (length (content document)) <= Z.of_nat maxIterations * stride cs)%Z)
    (Hp : content document !! p = Some c) (Hc : is_space c = false) :
  exists ch, ch ∈ chunkBySize cs document /\ (startChar ch <= Z.of_nat p < endChar ch)%Z.
Proof.
  unfold chunkBySize. rewrite bool_decide_eq_false_2.
  - eapply chunk_loop_covers; [done..|lia|lia|done|done].
  - intros E%trim_nil_spaces. rewrite Forall_lookup in E. rewrite (E p c Hp) in Hc. done.
Qed.

Definition demo_doc (t : docType) (text : str) : LoadedDocument :=
  Doc (js "doc") text (js "doc.md") t None None None None.

Lemma chunkBySize_covers_witness :
  exists ch, ch ∈ chunkBySize (new_chunker None None) (demo_doc Text (js "hello world")) /\
    (startChar ch <= 6 < endChar ch)%Z.
Proof.
  apply (chunkBySize_covers (new_chunker None None) (demo_doc Text (js "hello world")) 6 "w"%char).
  - reflexivity.
  - vm_compute. discriminate.
  - vm_compute. discriminate.
  - reflexivity.
  - reflexivity.
Defined.

(** Every chunk of size-based chunking is a non-empty trimmed slice of
    the document, given by its [startChar] and [endChar], at most 51
    characters over [maxChunkSize]; chunks are numbered from 0 and their ids
    are distinct. *)
Theorem chunkBySize_chunks cs document
    (Hmax : (0 < maxChunkSize cs)%Z) (Hoverlap : (0 <= chunkOverlap cs)%Z) :
  Forall (chunk_ok cs document) (chunkBySize cs document) /\
  chunkIndex <$> chunkBySize cs document = seq 0 (length (chunkBySize cs document)) /\
  NoDup (id <$> chunkBySize cs document).
Proof.
  unfold chunkBySize. case_bool_decide as Et.
  - split_and!; [constructor|done|constructor].
  - destruct (chunk_loop_indices cs document maxIterations 0 0) as [k Hk].
    pose proof (chunk_loop_ids cs document maxIterations 0 0) as Hids.
    pose proof (chunk_loop_ok cs document Hmax Hoverlap maxIterations 0 0 ltac:(lia)) as Hok.
    destruct (chunk_loop cs document maxIterations 0 0) as [l stop]. cbn [fst] in *.
    assert (k = length l) as -> by (by rewrite <- (length_seq k 0), <- Hk, length_fmap).
    split_and!; [done|done|].
    assert (id <$> l = (fun i => doc_id document ++ js "_chunk_" ++ str_of_nat i) <$> (chunkIndex <$> l)) as ->.
    { rewrite <- list_fmap_compose. apply list_fmap_ext. intros i c Hc.
      apply Hids. by eapply list_elem_of_lookup_2. }
    rewrite Hk. apply NoDup_fmap; [|apply NoDup_seq].
    intros i j E%app_inv_head%app_inv_head. by apply str_of_nat_inj.
Qed.

Lemma chunkBySize_chunks_witness :
  Forall (chunk_ok (Chunker 8 2) (demo_doc Text (js "one two three four. five six seven")))
    (chunkBySize (Chunker 8 2) (demo_doc Text (js "one two three four. five six seven"))).
Proof.
  apply (chunkBySize_chunks (Chunker 8 2) (demo_doc Text (js "one two three four. five six seven")));
    vm_compute; (reflexivity || discriminate).
Defined.

(** Section-based chunking of a markdown document loses nothing after
    the first header: every such character lies in a section, and the chunks
    of that section either are one chunk with the whole trimmed section or
    the size-based chunks of it. *)
Theorem chunkBySections_covers cs document t i0 hs p
    (Hmd : doc_type document = Markdown)
    (Hheaders : headers (content document) = (t, i0) :: hs)
    (Hp : i0 <= p < length (content document)) :
  exists k sec, (sec_start sec <= Z.of_nat p < sec_end sec)%Z /\
    (forall c, c ∈ sectionChunks cs document k sec -> c ∈ chunkBySections cs document) /\
    let text := trim (slice (content document) (sec_start sec) (sec_end sec)) in
    ((exists c, sectionChunks cs document k sec = [c] /\ chunkText c = text) \/
     sectionChunks cs document k sec = chunkBySize cs (subDocument document sec k text)).
Proof.
  unfold chunkBySections. rewrite bool_decide_eq_true_2 by done. rewrite Hheaders.
  pose proof (headers_go_sorted (content document) 0 true 0) as Hs.
  fold (headers (content document)) in Hs. rewrite Hheaders in Hs.
  destruct (sections_of_cover _ (Z.of_nat (length (content document))) p Hs ltac:(lia) (proj1 Hp))
    as (k & sec & Hk & Hsec).
  exists k, sec. split; [done|]. split.
  - intros c Hc. destruct (sections_of _ _) as [|s0 ss] eqn:E; [done|].
    apply list_elem_of_In, in_concat. exists (sectionChunks cs document k sec).
    split; [|by apply list_elem_of_In]. apply list_elem_of_In, (list_elem_of_lookup_2 _ k).
    by rewrite list_lookup_imap, Hk.
  - cbn. unfold sectionChunks. case_match; [by right|left]. by eexists.
Qed.

Lemma chunkBySections_covers_witness :
  exists k sec, (sec_start sec <= 12 < sec_end sec)%Z /\
    forall c, c ∈ sectionChunks (new_chunker None None) (demo_doc Markdown (jsn "# A|nbody|n# B|nmore")) k sec ->
      c ∈ chunkBySections (new_chunker None None) (demo_doc Markdown (jsn "# A|nbody|n# B|nmore")).
Proof.
  destruct (chunkBySections_covers (new_chunker None None) (demo_doc Markdown (jsn "# A|nbody|n# B|nmore"))
    (js "A") 0 [(js "B", 9)] 12) as (k & sec & H1 & H2 & _).
  - reflexivity.
  - vm_compute. reflexivity.
  - vm_compute. lia.
  - exists k, sec. split; [exact H1|exact H2].
Defined.

(** Section-based chunking drops the text before the first header: every
    chunk's text is a piece of the document from the first header on. *)
Theorem chunkBySections_drops_preamble cs document t i0 hs c
    (Hmd : doc_type document = Markdown)
    (Hheaders : headers (content document) = (t, i0) :: hs)
    (Hc : c ∈ chunkBySections cs document) :
  piece_of (chunkText c) (drop i0 (content document)).
Proof.
  unfold chunkBySections in Hc. rewrite bool_decide_eq_true_2, Hheaders in Hc by done.
  pose proof (headers_go_sorted (content document) 0 true 0) as Hs.
  fold (headers (content document)) in Hs. rewrite Hheaders in Hs.
  destruct (sections_of _ _) as [|s0 ss] eqn:E; [done|]. rewrite <- E in Hc.
  apply list_elem_of_In, in_concat in Hc as (l & Hl & Hin).
  apply list_elem_of_In, list_elem_of_lookup in Hl as [k Hl].
  rewrite list_lookup_imap in Hl. apply fmap_Some in Hl as (sec & Hk & ->).
  apply list_elem_of_lookup_2, (sections_of_start _ _ _ Hs) in Hk. apply list_elem_of_In in Hin.
  set (text := trim (slice (content document) (sec_start sec) (sec_end sec))).
  assert (piece_of text (drop i0 (content document))) as Ht.
  { eapply piece_of_trans; [apply trim_piece|]. unfold slice. apply slice_piece_from.
    unfold slice_pos. pose proof (headers_positions (content document) t i0).
    rewrite Hheaders in H. specialize (H ltac:(by left)). case_match; split_bools; lia. }
  unfold sectionChunks in Hin. case_match.
  - eapply piece_of_trans; [|exact Ht]. by apply chunkBySize_pieces in Hin.
  - apply list_elem_of_singleton in Hin as ->. exact Ht.
Qed.

Lemma chunkBySections_drops_preamble_witness :
  (chunkText <$> chunkBySections (new_chunker None None) (demo_doc Markdown (jsn "Intro.|n# A|nbody")))
    = [jsn "# A|nbody"] /\
  forall c, c ∈ chunkBySections (new_chunker None None) (demo_doc Markdown (jsn "Intro.|n# A|nbody")) ->
    piece_of (chunkText c) (jsn "# A|nbody").
Proof.
  split; [vm_compute; reflexivity|]. intros c Hc.
  apply (chunkBySections_drops_preamble (new_chunker None None) (demo_doc Markdown (jsn "Intro.|n# A|nbody"))
    (js "A") 7 []); [reflexivity|vm_compute; reflexivity|exact Hc].
Defined.
