(* ===== verification/QueryAnalyzer.v ===== *)
(** * Static analysis of GraphQL queries

    [QueryAnalyzer] of
    src/ecosystem/ai-tools/mcp/graphq-llm/src/services/query-analyzer.ts.
    Counts are integers; the half-integer scores of the code are written
    doubled, which is exact in binary64 for any string length.  The
    similarity of [compareQueries] is a binary64 number. *)

From S2P Require Import Prelude JsString JsArray JsNum.

Inductive level := Low | Medium | High.
#[export] Instance level_dec : EqDecision level.
Proof. solve_decision. Defined.

Inductive opportunityType := FieldSelection | NestedDepth | Filtering | Pagination | Caching.
#[export] Instance opportunityType_dec : EqDecision opportunityType.
Proof. solve_decision. Defined.

Record OptimizationOpportunity := Opportunity {
  opp_type : opportunityType;
  description : str;
  severity : level;
  suggestion : str;
}.

Record ResourceEstimate := Estimate { executionTime : Z; memoryUsage : str }.

Record QueryAnalysis := Analysis {
  query : str;
  complexity : level;
  fieldCount : Z;
  depth : Z;
  opportunities : list OptimizationOpportunity;
  estimatedResourceUsage : ResourceEstimate;
}.

Inductive operationType := OpQuery | OpMutation | OpSubscription | OpUnknown.
#[export] Instance operationType_dec : EqDecision operationType.
Proof. solve_decision. Defined.

Record parsedQuery := Parsed { operation : operationType; fields : list str; nested : bool }.

(** ** The regular expressions *)

Definition is_brace (c : ascii) : bool := bool_decide (c = "{"%char).

(** Length of the match of [\w+\s*\{] at the head of [s].  A shorter [\w+]
    would have to be followed by a space or a brace, so the greedy run is the
    only candidate. *)
Definition field_match (s : str) : option nat :=
  let w := run_length is_word s in
  let s1 := drop w s in
  let b := run_length is_space s1 in
  match w, drop b s1 with
  | S _, c :: _ => if is_brace c then Some (w + b + 1) else None
  | _, _ => None
  end.

(** [query.match(/\w+\s*\{/g)] *)
Fixpoint field_matches (s : str) (skip : nat) : list str :=
  match s with
  | [] => []
  | _ :: s' =>
      match skip with
      | S k => field_matches s' k
      | O => match field_match s with
             | Some n => take n s :: field_matches s' (n - 1)
             | None => field_matches s' 0
             end
      end
  end.

(** [m.replace(/\s*\{/, '').trim()] for such a match: what precedes the
    first run of white space that a brace follows. *)
Definition field_name (m : str) : str := trim (take (run_length is_word m) m).

(** [(s.match(/\{/g) || []).length] *)
Definition count_braces (s : str) : nat := length (filterb is_brace s).

Definition parseQuery (query : str) : parsedQuery :=
  let trimmed := trim query in
  let operation :=
    if startsWith trimmed (js "query") || startsWith trimmed (js "{") then OpQuery
    else if startsWith trimmed (js "mutation") then OpMutation
    else if startsWith trimmed (js "subscription") then OpSubscription
    else OpUnknown in
  Parsed operation (field_name <$> field_matches query 0) (2 <? count_braces query)%nat.

Definition countFields (parsed : parsedQuery) : Z := Z.of_nat (length (fields parsed)).

Definition calculateDepth (parsed : parsedQuery) : Z :=
  if nested parsed
  then Z.min (Z.of_nat (count_braces (join (fields parsed) (js " ")))) 5
  else 1.

(** [score = fieldCount * 0.5 + depth * 2], doubled. *)
Definition assessComplexity (fieldCount depth : Z) : level :=
  let score2 := (fieldCount + depth * 4)%Z in
  if (score2 <? 10)%Z then Low else if (score2 <? 30)%Z then Medium else High.

(** [/\([^)]*\)/.test(s)]: some opening parenthesis is closed later. *)
Definition has_parens (s : str) : bool :=
  match indexOf s (js "(") with Some i => includes (drop i s) (js ")") | None => false end.

(** [/a|b|c/.test(s)] for literal alternatives. *)
Definition any_of (words : list str) (s : str) : bool := existsb (includes s) words.

Definition hasFilters (fields : list str) : bool :=
  let queryString := join fields (js " ") in
  has_parens queryString ||
  any_of [js "where"; js "filter"; js "id:"; js "limit"; js "offset"] (toLowerCase queryString).

Definition hasPagination (fields : list str) : bool :=
  let queryString := join fields (js " ") in
  any_of [js "limit"; js "offset"; js "first"; js "last"; js "after"; js "before"]
    (toLowerCase queryString).

Definition hasCacheDirectives (fields : list str) : bool :=
  any_of [js "@cache"; js "@cached"] (join fields (js " ")).

Definition identifyOpportunities (parsed : parsedQuery) (fieldCount depth : Z)
    : list OptimizationOpportunity :=
  (if (10 <? fieldCount)%Z then
     [Opportunity FieldSelection
        (js "Query selects " ++ str_of_Z fieldCount ++ js " fields. Consider selecting only needed fields.")
        (if (20 <? fieldCount)%Z then High else Medium)
        (js "Use field selection to fetch only required data")] else []) ++
  (if (3 <? depth)%Z then
     [Opportunity NestedDepth
        (js "Query has depth of " ++ str_of_Z depth ++ js ". Deep nesting can impact performance.")
        (if (4 <? depth)%Z then High else Medium)
        (js "Consider flattening the query structure or using separate queries")] else []) ++
  (if bool_decide (operation parsed = OpQuery) && negb (hasFilters (fields parsed)) then
     [Opportunity Filtering
        (js "Query lacks filtering. Consider adding filters to reduce result size.")
        Low (js "Add WHERE clauses or filters to limit results")] else []) ++
  (if (5 <? fieldCount)%Z && negb (hasPagination (fields parsed)) then
     [Opportunity Pagination
        (js "Large query without pagination. May return excessive data.")
        Medium (js "Implement pagination with limit/offset or cursor-based pagination")] else []) ++
  (if bool_decide (operation parsed = OpQuery) && negb (hasCacheDirectives (fields parsed)) then
     [Opportunity Caching (js "Query may benefit from caching.")
        Low (js "Consider adding cache directives for frequently accessed data")] else []).

(** [Math.round] of the time, scaled by 1, 1.5 or 3. *)
Definition estimateResourceUsage (complexity : level) (fieldCount depth : Z) : ResourceEstimate :=
  let time := (50 + fieldCount * 5 + depth * 20)%Z in
  Estimate
    (match complexity with
     | Low => time
     | Medium => (time * 3 + 1) / 2
     | High => time * 3
     end)%Z
    (match complexity with
     | Low => js "< 10MB"
     | Medium => js "10-50MB"
     | High => js "> 50MB"
     end).

Definition analyze (query : str) : QueryAnalysis :=
  let parsed := parseQuery query in
  let fieldCount := countFields parsed in
  let depth := calculateDepth parsed in
  let complexity := assessComplexity fieldCount depth in
  let opportunities := identifyOpportunities parsed fieldCount depth in
  Analysis query complexity fieldCount depth opportunities
    (estimateResourceUsage complexity fieldCount depth).

(** ** Comparing queries *)

(** [\w+(?=\s*\{|\s*\(|\s*:)] at the head of [s]: the length of the word. *)
Definition name_match (s : str) : option nat :=
  let w := run_length is_word s in
  let s1 := drop w s in
  match w, drop (run_length is_space s1) s1 with
  | S _, c :: _ =>
      if bool_decide (c ∈ ["{"%char; "("%char; ":"%char]) then Some w else None
  | _, _ => None
  end.

Fixpoint name_matches (s : str) (skip : nat) : list str :=
  match s with
  | [] => []
  | _ :: s' =>
      match skip with
      | S k => name_matches s' k
      | O => match name_match s with
             | Some n => take n s :: name_matches s' (n - 1)
             | None => name_matches s' 0
             end
      end
  end.

(** [new Set(l)], without its order: [size] is the number of elements. *)
Definition set_of (l : list str) : gset str := list_to_set l.

Definition compareQueries (query1 query2 : str) : num :=
  let analysis1 := analyze query1 in
  let analysis2 := analyze query2 in
  let fields1 := set_of (name_matches (query analysis1) 0) in
  let fields2 := set_of (name_matches (query analysis2) 0) in
  let intersection := fields1 ∩ fields2 in
  let union := fields1 ∪ fields2 in
  let similarity :=
    nadd nzero (nmul (ndiv (of_Z (Z.of_nat (base.size intersection))) (of_Z (Z.of_nat (base.size union)))) (dec 1 2)) in
  let similarity :=
    if bool_decide (complexity analysis1 = complexity analysis2)
    then nadd similarity (dec 3 10) else similarity in
  let depthDiff := Z.abs (depth analysis1 - depth analysis2) in
  let similarity :=
    nadd similarity (nmul (nsub none (ndiv (of_Z depthDiff) (of_Z 5))) (dec 2 10)) in
  nmin similarity none.

(** ** Field counting against a reference

    A one-pass automaton: [pending] says that a word, possibly followed by
    white space, has just been read; a brace then counts a field. *)

Fixpoint count_selections (pending : bool) (s : str) : nat :=
  match s with
  | [] => 0
  | c :: s' =>
      if is_word c then count_selections true s'
      else if is_space c then count_selections pending s'
      else if is_brace c && pending then S (count_selections false s')
      else count_selections false s'
  end.

Lemma count_selections_words a t :
  Forall (fun c => is_word c = true) a ->
  forall pending, a <> [] -> count_selections pending (a ++ t) = count_selections true t.
Proof.
  induction 1 as [|c a Hc Ha IH]; intros pending Hne; [done|]. cbn. rewrite Hc.
  destruct a as [|d a]; [done|]. by apply IH.
Qed.

Lemma char_classes c :
  (is_word c = true -> is_space c = false /\ is_brace c = false) /\
  (is_space c = true -> is_brace c = false).
Proof. destruct c as [[] [] [] [] [] [] [] []]; vm_compute; auto. Qed.

Lemma word_not_space c : is_word c = true -> is_space c = false.
Proof. apply char_classes. Qed.

Lemma space_not_word c : is_space c = true -> is_word c = false.
Proof.
  intros Hs. destruct (is_word c) eqn:E; [|done]. apply char_classes in E as [E _]. congruence.
Qed.

Lemma count_selections_spaces a t pending :
  Forall (fun c => is_space c = true) a ->
  count_selections pending (a ++ t) = count_selections pending t.
Proof.
  induction 1 as [|c a Hc Ha IH]; [done|]. cbn. by rewrite (space_not_word c Hc), Hc.
Qed.

Lemma field_matches_skip s n : field_matches s n = field_matches (drop n s) 0.
Proof. revert n. induction s as [|c s IH]; intros [|n]; cbn; auto. Qed.

(** How a match is decided at the head of a word. *)
Lemma field_match_at a b r :
  a <> [] -> Forall (fun c => is_word c = true) a -> Forall (fun c => is_space c = true) b ->
  match r with [] => True | c :: _ => is_space c = false end ->
  (b = [] -> match r with [] => True | c :: _ => is_word c = false end) ->
  field_match (a ++ b ++ r) =
    match r with
    | c :: _ => if is_brace c then Some (length a + length b + 1) else None
    | [] => None
    end.
Proof.
  intros Hne Ha Hb Hr Hbr. unfold field_match.
  rewrite run_length_app; [|done|].
  2:{ destruct b as [|c b]; [by apply Hbr|]. inversion Hb. by apply space_not_word. }
  rewrite drop_app_length, run_length_app, drop_app_length by done.
  destruct a; [done|]. cbn. by destruct r.
Qed.

Lemma field_match_not_word c s : is_word c = false -> field_match (c :: s) = None.
Proof. intros H. unfold field_match. cbn. by rewrite H. Qed.

Lemma field_matches_spaces a t :
  Forall (fun c => is_word c = false) a -> field_matches (a ++ t) 0 = field_matches t 0.
Proof.
  induction 1 as [|c a Hc Ha IH]; [done|]. cbn [app field_matches]. by rewrite field_match_not_word.
Qed.

(** Words without a brace after them give no match. *)
Lemma field_matches_words a b r :
  Forall (fun c => is_word c = true) a -> Forall (fun c => is_space c = true) b ->
  match r with [] => True | c :: _ => is_space c = false /\ is_brace c = false end ->
  (b = [] -> match r with [] => True | c :: _ => is_word c = false end) ->
  field_matches (a ++ b ++ r) 0 = field_matches r 0.
Proof.
  intros Ha Hb Hr Hbr. induction Ha as [|c a Hc Ha IH].
  - apply (field_matches_spaces b). eapply Forall_impl; [exact Hb|]. apply space_not_word.
  - change ((c :: a) ++ b ++ r) with (c :: (a ++ b ++ r)). cbn [field_matches].
    change (c :: a ++ b ++ r) with ((c :: a) ++ b ++ r).
    rewrite field_match_at; [|done|by constructor|done|by destruct r; naive_solver|done].
    destruct r as [|d r]; [exact IH|]. destruct Hr as [_ ->]. exact IH.
Qed.

Lemma field_matches_count n s :
  length s <= n -> length (field_matches s 0) = count_selections false s.
Proof.
  revert s. induction n as [|n IH]; intros s Hn; [by destruct s; cbn in Hn; [|lia]|].
  destruct s as [|c s]; [done|]. destruct (is_word c) eqn:Hc.
  2:{ cbn [field_matches count_selections]. rewrite field_match_not_word, Hc, andb_false_r by done.
      destruct (is_space c); apply IH; cbn in Hn; lia. }
  destruct (run_length_split is_word (c :: s)) as (a & s1 & Es & _ & Ha & Hs1).
  destruct (run_length_split is_space s1) as (b & r & -> & _ & Hb & Hr).
  assert (a <> []) as Hne. { intros ->. cbn in Es. destruct b; cbn in Es; subst; cbn in Hs1; congruence. }
  assert (b = [] -> match r with [] => True | c :: _ => is_word c = false end) as Hbr by by intros ->.
  rewrite Es in Hn |- *. rewrite !length_app in Hn.
  assert (0 < length a) by (destruct a; [done|cbn; lia]).
  rewrite (count_selections_words a) by done. rewrite count_selections_spaces by done.
  destruct r as [|d r].
  { rewrite app_nil_r. rewrite <- (app_nil_r b), field_matches_words; auto. }
  destruct (is_brace d) eqn:Hd.
  - destruct a as [|x a]; [done|]. cbn [app field_matches].
    change (x :: a ++ b ++ d :: r) with ((x :: a) ++ b ++ (d :: r)).
    rewrite field_match_at, Hd by done. cbn [length]. rewrite field_matches_skip.
    replace (S (length a) + length b + 1 - 1) with (length a + (length b + 1)) by lia.
    rewrite <- drop_drop, drop_app_length, <- drop_drop, drop_app_length. cbn.
    rewrite Hr, Hd. cbn.
    assert (is_word d = false) as -> by (destruct (is_word d) eqn:E; [apply char_classes in E; naive_solver congruence|done]).
    f_equal. apply IH. cbn in *. lia.
  - rewrite field_matches_words, IH by (auto || (cbn in *; lia)). cbn [count_selections].
    by rewrite Hr, Hd.
Qed.

(** ** The properties *)

(** C38: the regular expression that extracts fields counts exactly the
    braces that a word (and white space) precedes: [fieldCount] is the result
    of a one-pass automaton over the query. *)
Theorem fieldCount_automaton q :
  fieldCount (analyze q) = Z.of_nat (count_selections false q).
Proof.
  cbn. unfold countFields. cbn. by rewrite length_fmap, (field_matches_count (length q)).
Qed.

Lemma field_matches_head s skip m :
  m ∈ field_matches s skip -> exists s' n, field_match s' = Some n /\ m = take n s'.
Proof.
  revert skip. induction s as [|c s IH]; intros skip Hm; cbn [field_matches] in Hm; [set_solver|].
  destruct skip as [|k]; [|by eapply IH].
  destruct (field_match (c :: s)) as [n|] eqn:E; [|by eapply IH].
  apply elem_of_cons in Hm as [->|Hm]; [by exists (c :: s), n|by eapply IH].
Qed.

Lemma trim_words a : Forall (fun c => is_word c = true) a -> trim a = a.
Proof.
  intros Ha. unfold trim, trimEnd.
  assert (forall l, Forall (fun c => is_word c = true) l -> trimStart l = l) as E.
  { intros l [|c l' Hc _]; [done|]. cbn. by rewrite word_not_space. }
  rewrite (E a Ha), E, rev_involutive; [done|]. by apply List.Forall_rev.
Qed.

Lemma parseQuery_fields_words q f :
  f ∈ fields (parseQuery q) -> f <> [] /\ Forall (fun c => is_word c = true) f.
Proof.
  cbn. intros (m & -> & Hm)%list_elem_of_fmap.
  apply field_matches_head in Hm as (s & n & Hn & ->).
  destruct (run_length_split is_word s) as (a & s1 & -> & Ha & Hw & Hs1).
  destruct (run_length_split is_space s1) as (b & r & -> & _ & Hb & Hr).
  assert (a <> []) as Hne. { intros ->. cbn [app length] in *. unfold field_match in Hn. by rewrite <- Ha in Hn. }
  rewrite field_match_at in Hn by (done || by intros ->).
  destruct r as [|d r]; [done|]. destruct (is_brace d) eqn:Hd; [|done]. injection Hn as <-.
  unfold field_name. rewrite <- Nat.add_assoc, take_app_add.
  rewrite run_length_app; [|done|].
  2:{ destruct b as [|x b]; cbn.
      - destruct (is_word d) eqn:E; [apply char_classes in E; naive_solver congruence|done].
      - inversion Hb. by apply space_not_word. }
  rewrite take_app_length, trim_words by done. done.
Qed.

Lemma count_braces_zero s : Forall (fun c => is_brace c = false) s -> count_braces s = 0.
Proof. induction 1 as [|c s Hc _ IH]; [done|]. unfold count_braces in *. cbn. by rewrite Hc. Qed.

(** The joined field names consist of word characters and spaces. *)
Lemma joined_fields_chars q P :
  P " "%char -> (forall c, is_word c = true -> P c) ->
  Forall P (join (fields (parseQuery q)) (js " ")).
Proof.
  intros Hsp Hw. pose proof (parseQuery_fields_words q) as Hf.
  induction (fields (parseQuery q)) as [|f l IH]; [constructor|].
  assert (Forall P f) as Hfw.
  { eapply Forall_impl; [apply (Hf f); by left|]. done. }
  destruct l as [|g l]; [done|]. rewrite join_cons by done.
  rewrite !Forall_app. split_and!; [done|by constructor|].
  apply IH. intros h Hh. apply Hf. by right.
Qed.

(** The reported depth ignores the nesting of the query: it is 0 for
    every query with more than two opening braces and 1 for the others, so
    the [nested_depth] opportunity is never reported. *)
Theorem analyze_depth q :
  depth (analyze q) = (if (2 <? count_braces q)%nat then 0 else 1)%Z /\
  forall o, o ∈ opportunities (analyze q) -> opp_type o <> NestedDepth.
Proof.
  assert (calculateDepth (parseQuery q) = if (2 <? count_braces q)%nat then 0 else 1)%Z as E.
  { unfold calculateDepth. change (nested (parseQuery q)) with (2 <? count_braces q)%nat.
    case_match; [|done]. rewrite count_braces_zero; [done|].
    apply joined_fields_chars; [done|]. intros c Hc. by destruct (proj1 (char_classes c) Hc). }
  split; [exact E|]. cbn [analyze opportunities]. unfold identifyOpportunities. rewrite E. intros o Ho.
  assert ((3 <? (if (2 <? count_braces q)%nat then 0 else 1))%Z = false) as E3
    by by destruct (2 <? count_braces q)%nat.
  rewrite E3 in Ho.
  rewrite !elem_of_app in Ho.
  repeat match goal with
  | H : _ \/ _ |- _ => destruct H
  | H : o ∈ (if ?b then _ else _) |- _ => destruct b
  | H : o ∈ [_] |- _ => apply list_elem_of_singleton in H as ->; discriminate
  | H : o ∈ [] |- _ => by apply elem_of_nil in H
  end.
Qed.

(** The similarity of two queries does not depend on their order. *)
Lemma compareQueries_sym q1 q2 : compareQueries q1 q2 = compareQueries q2 q1.
Proof.
  unfold compareQueries.
  rewrite (comm_L (∩) (set_of (name_matches (query (analyze q1)) 0))).
  rewrite (comm_L (∪) (set_of (name_matches (query (analyze q1)) 0))).
  rewrite (bool_decide_ext _ (complexity (analyze q2) = complexity (analyze q1))) by done.
  by replace (Z.abs (depth (analyze q1) - depth (analyze q2)))
    with (Z.abs (depth (analyze q2) - depth (analyze q1))) by lia.
Qed.

(** Two queries without any name followed by a brace, a parenthesis or a
    colon have similarity NaN, whether or not they are equal. *)
Theorem compareQueries_nan q1 q2
    (H1 : name_matches q1 0 = []) (H2 : name_matches q2 0 = []) :
  compareQueries q1 q2 = SpecFloat.S754_nan.
Proof.
  unfold compareQueries. cbn [analyze query]. rewrite H1, H2.
  unfold set_of. cbn [list_to_set]. rewrite (intersection_empty_l_L ∅), (union_empty_l_L ∅), size_empty.
  by case_match.
Qed.

Lemma compareQueries_nan_witness :
  compareQueries (js "{ a }") (js "{ a }") = SpecFloat.S754_nan.
Proof. apply (compareQueries_nan (js "{ a }") (js "{ a }")); reflexivity. Defined.
