(* ===== verification/GraphqlClient.v ===== *)
(** * The GraphQL client

    [ResilientDBClient] of
    src/ecosystem/ai-tools/mcp/graphq-llm/src/resilientdb/client.ts with the
    schema types of types/index.ts: executing a query, introspection and its
    translation to a [SchemaContext].  graphql-request's [client.request] is a
    parameter; the answer to the introspection query has the shape the source
    declares, with [None] for a property that is absent or null. *)

From S2P Require Import Prelude JsString JsArray JsNum Json.

Record GraphQLQuery := GQuery {
  g_query : str;
  variables : option json;
  operationName : option str;
}.

(** ** The introspection answer *)

Record typeRef := TypeRef { ref_name : option str; ref_kind : option str }.
Record rawArg := RawArg {
  ra_name : str;
  ra_type : option typeRef;
  ra_description : option str;
  ra_defaultValue : option json;
}.
Record rawField := RawField {
  rf_name : str;
  rf_description : option str;
  rf_type : option typeRef;
  rf_args : option (list rawArg);
}.
(** A field of a type may lack its name. *)
Record rawTypeField := RawTypeField {
  rt_name : option str;
  rt_type : option typeRef;
  rt_description : option str;
}.
Record rawType := RawType {
  r_name : option str;
  r_kind : option str;
  r_description : option str;
  r_fields : option (list rawTypeField);
}.
(** [queryType] and [mutationType] with their [fields]. *)
Record rawSchema := RawSchema {
  queryType : option (option (list rawField));
  mutationType : option (option (list rawField));
  rawTypes : option (list rawType);
}.

(** ** The schema context *)

Record GraphQLArgument := Argument {
  a_name : str;
  a_type : str;
  a_description : option str;
  a_defaultValue : option json;
}.
Record GraphQLField := Field {
  f_name : str;
  f_type : str;
  f_description : option str;
  f_args : option (list GraphQLArgument);
}.
Record GraphQLType := GType {
  t_name : str;
  t_kind : str;
  t_description : option str;
  t_fields : list GraphQLField;
}.
Record SchemaContext := Schema {
  schema : str;
  types : list GraphQLType;
  queries : list GraphQLField;
  mutations : list GraphQLField;
}.

(** [t?.name || t?.kind || ''] *)
Definition typeName (t : option typeRef) : str :=
  match t with
  | Some r => str_or (ref_name r) (str_or (ref_kind r) [])
  | None => []
  end.

Definition argument (a : rawArg) : GraphQLArgument :=
  Argument (ra_name a) (typeName (ra_type a)) (ra_description a) (ra_defaultValue a).

Definition operation (f : rawField) : GraphQLField :=
  Field (rf_name f) (typeName (rf_type f)) (rf_description f) (option_map (map argument) (rf_args f)).

Definition typeField (f : rawTypeField) : GraphQLField :=
  Field (str_or (rt_name f) []) (typeName (rt_type f)) (rt_description f) None.

Definition gtype (t : rawType) : GraphQLType :=
  GType (str_or (r_name t) []) (str_or (r_kind t) []) (r_description t)
    (typeField <$> coalesce (r_fields t) []).

Definition introspectionQuery : str := js "
      query IntrospectionQuery {
        __schema {
          queryType {
            name
            fields {
              name
              description
              type {
                name
                kind
              }
              args {
                name
                type {
                  name
                  kind
                }
                description
                defaultValue
              }
            }
          }
          mutationType {
            name
            fields {
              name
              description
              type {
                name
                kind
              }
              args {
                name
                type {
                  name
                  kind
                }
                description
                defaultValue
              }
            }
          }
          types {
            name
            kind
            description
            fields {
              name
              type {
                name
                kind
              }
              description
            }
          }
        }
      }
    ".

Section client.
(** [client.request(query, variables, headers)] and, for the introspection
    query, the [__schema] of its answer. *)
Context (request : str -> option json -> jsmap str str -> result (option json)).
Context (requestSchema : str -> result (option rawSchema)).
Context (JSON_stringify : rawSchema -> str).
Context (endpoint : str).

Definition executeQuery (q : GraphQLQuery) : result (option json) :=
  let headers :=
    match operationName q with Some (c :: n) => [(js "X-Operation-Name", c :: n)] | _ => [] end in
  match request (g_query q) (Some (coalesce (variables q) (JObj []))) headers with
  | Ok response => Ok response
  | Throw e => Throw (js "Failed to execute GraphQL query: " ++ e)
  end.

Definition schemaContext (s : rawSchema) : SchemaContext :=
  Schema (JSON_stringify s)
    (gtype <$> coalesce (rawTypes s) [])
    (operation <$> coalesce (coalesce (queryType s) None) [])
    (operation <$> coalesce (coalesce (mutationType s) None) []).

Definition introspectSchema : result SchemaContext :=
  match requestSchema introspectionQuery with
  | Ok (Some s) => Ok (schemaContext s)
  | Ok None =>
      Throw (js "Failed to introspect schema: Cannot read properties of undefined (reading 'types')")
  | Throw e => Throw (js "Failed to introspect schema: " ++ e)
  end.

Definition validateQuery (query : str) : bool * option (list str) :=
  match request query (Some (JObj [])) [] with
  | Ok _ => (true, None)
  | Throw e => (false, Some [e])
  end.

Record connection := Connected {
  connected : bool;
  c_endpoint : str;
  c_error : option str;
  responseTime : option Z;
}.

Definition checkConnection (startTime now : Z) : connection :=
  match request (js "{ __typename }") None [] with
  | Ok _ => Connected true endpoint None (Some (now - startTime)%Z)
  | Throw e => Connected false endpoint (Some e) None
  end.
End client.
