(* ===== verification/Nexus.v ===== *)
(** * The Nexus integration

    [NexusIntegration] of
    src/ecosystem/ai-tools/mcp/graphq-llm/src/nexus/integration.ts: the
    prompts, the calls with their fall-backs, and the extraction of an
    analysis or a suggestion from the text of the answer.  The service is the
    parameter [fetch]; a streamed body is the text it decodes to. *)

From Stdlib Require Import SpecFloat.
From S2P Require Import Prelude JsString JsArray JsNum Json Http QueryAnalyzer GraphqlClient.

Record QueryAnalysis := Analysis {
  an_query : str;
  an_explanation : str;
  an_complexity : level;
  an_recommendations : list str;
  estimatedEfficiency : Z;
}.

Record QuerySuggestion := QSuggestion {
  s_query : str;
  s_explanation : str;
  confidence : num;
}.

(** ** Regular expressions *)

Definition colon_or_space (c : ascii) : bool := bool_decide (c = ":"%char) || is_space c.

(** [/word[:\s]+/i] at the head: what follows the longest run.  A shorter
    run is not needed by the patterns below unless they say so. *)
Definition after_label (word s : str) : option str :=
  if is_prefix word (toLowerCase s) then
    let rest := drop (length word) s in
    match run_length colon_or_space rest with
    | O => None
    | n => Some (drop n rest)
    end
  else None.

(** [(.*?)(?:\n|$)] at the head: the rest of the line, if it is ended by a
    newline or by the end of the text. *)
Definition line_at (t : str) : option str :=
  let n := run_length (fun c => negb (line_end c)) t in
  match drop n t with
  | [] => Some (take n t)
  | c :: _ => if bool_decide (c = newline) then Some (take n t) else None
  end.

(** The separators give back characters from the right until the line
    matches. *)
Fixpoint line_after (n : nat) (rest : str) : option str :=
  match n with
  | O => None
  | S n' => match line_at (drop n rest) with Some l => Some l | None => line_after n' rest end
  end.

(** [/explanation[:\s]+(.*?)(?:\n|$)/i] *)
Definition explanation_at (s : str) : option str :=
  if is_prefix (js "explanation") (toLowerCase s) then
    let rest := drop 11 s in line_after (run_length colon_or_space rest) rest
  else None.

Definition digit_value (c : ascii) : Z := Z.of_N (code c) - 48.
(** [parseInt(s, 10)] for a string of digits. *)
Definition digits_value (s : str) : Z := foldl (fun n c => 10 * n + digit_value c)%Z 0%Z s.

(** [/efficiency[:\s]+(\d+)/i], as a number. *)
Definition efficiency_at (s : str) : option Z :=
  match after_label (js "efficiency") s with
  | Some t =>
      match run_length is_digit t with O => None | n => Some (digits_value (take n t)) end
  | None => None
  end.

(** The binary64 number nearest to [n / 10^k]. *)
Definition decimal (n : Z) (k : nat) : num :=
  match n with
  | Zpos p => SFdiv prec emax (S754_finite false p 0) (S754_finite false (Z.to_pos (10 ^ Z.of_nat k)) 0)
  | _ => nzero
  end.

(** [parseFloat] on a string of digits and dots: the longest prefix that is
    a decimal literal. *)
Definition parseFloat (s : str) : num :=
  let whole := take (run_length is_digit s) s in
  let frac :=
    match drop (length whole) s with
    | "."%char :: t => take (run_length is_digit t) t
    | _ => []
    end in
  match whole ++ frac with
  | [] => S754_nan
  | ds => decimal (digits_value ds) (length frac)
  end.

(** [/confidence[:\s]+([\d.]+)/i], as a number. *)
Definition confidence_at (s : str) : option num :=
  match after_label (js "confidence") s with
  | Some t =>
      match run_length (fun c => is_digit c || bool_decide (c = "."%char)) t with
      | O => None
      | n => Some (parseFloat (take n t))
      end
  | None => None
  end.

Definition fence : str := js "```graphql" ++ nl.
Definition unfence : str := nl ++ js "```".

(** The group of [/```graphql\n([\s\S]*?)\n```/]. *)
Definition fenced_at (s : str) : option str :=
  if is_prefix fence s then
    let t := drop (length fence) s in
    match indexOf t unfence with Some i => Some (take i t) | None => None end
  else None.

(** ** Prompts *)

Definition schemaPart (schema : option str) : str :=
  match schema with
  | Some (c :: s) => jsn "Schema Context:|n" ++ substring (c :: s) 0 1000 ++ jsn "...|n|n"
  | _ => []
  end.

Definition buildAnalysisPrompt (q : GraphQLQuery) (schema : option str) : str :=
  jsn "Analyze this GraphQL query for ResilientDB:|n|n" ++
  jsn "Query:|n```graphql|n" ++ g_query q ++ jsn "|n```|n|n" ++
  match operationName q with
  | Some (c :: n) => js "Operation Name: " ++ (c :: n) ++ nl ++ nl
  | _ => []
  end ++
  schemaPart schema ++
  jsn "Please provide:|n" ++
  jsn "1. An explanation of what this query does|n" ++
  jsn "2. The complexity level (low/medium/high)|n" ++
  jsn "3. Recommendations for optimization|n" ++
  jsn "4. Estimated efficiency (0-100)|n".

Definition buildSuggestionPrompt (q : GraphQLQuery) (schema : option str) : str :=
  jsn "Suggest optimizations for this ResilientDB GraphQL query:|n|n" ++
  jsn "Current Query:|n```graphql|n" ++ g_query q ++ jsn "|n```|n|n" ++
  schemaPart schema ++
  jsn "Please provide:|n" ++
  jsn "1. An optimized version of this query|n" ++
  jsn "2. Explanation of the optimizations|n" ++
  jsn "3. Confidence level (0-1) for the suggestions|n".

(** ** Reading the answer *)

Definition extractExplanation (text : str) : str :=
  match first_match explanation_at text with
  | Some line => trim line
  | None => str_or (head (split text (nl ++ nl))) (substring text 0 200)
  end.

Definition extractComplexity (text : str) : level :=
  let lowerText := toLowerCase text in
  if includes lowerText (js "low complexity") || includes lowerText (js "simple") then Low
  else if includes lowerText (js "high complexity") || includes lowerText (js "complex") then High
  else Medium.

(** [/^[\d\-*•]\s+/]: what follows the marker.  The bullet is not among the
    characters U+0000-U+00FF. *)
Definition after_marker (s : str) : option str :=
  match s with
  | c :: t =>
      if is_digit c || bool_decide (c = "-"%char) || bool_decide (c = "*"%char)
      then match run_length is_space t with O => None | n => Some (drop n t) end
      else None
  | [] => None
  end.

Definition recommendation (line : str) : option str :=
  let trimmed := trim line in
  if bool_decide (is_Some (after_marker trimmed)) || startsWith trimmed (js "Recommendation") then
    let rec := coalesce (after_marker trimmed) trimmed in
    let rec := coalesce (after_label (js "recommendation") rec) rec in
    if (10 <? length rec)%nat then Some rec else None
  else None.

Definition extractRecommendations (text : str) : list str := omap recommendation (split text nl).

Definition extractEfficiency (text : str) : Z :=
  let by_complexity :=
    match extractComplexity text with Low => 80 | High => 40 | Medium => 60 end%Z in
  match first_match efficiency_at text with
  | Some score => if ((0 <=? score) && (score <=? 100))%Z then score else by_complexity
  | None => by_complexity
  end.

(** [nexusResponse.response || nexusResponse.text || '']; the string methods
    called on it throw for any other value. *)
Definition responseText (data : json) : result str :=
  match get_prop (Some data) (js "response") with
  | Throw e => Throw e
  | Ok r =>
      match js_or r (js_or (prop data (js "text")) (Some (JStr []))) with
      | Some (JStr s) => Ok s
      | _ => Throw (js "responseText.match is not a function")
      end
  end.

Definition default_recommendations : list str :=
  [js "Review query structure"; js "Check field selection"; js "Consider adding filters if needed"].

Definition parseNexusResponse (q : GraphQLQuery) (data : json) : result QueryAnalysis :=
  match responseText data with
  | Throw e => Throw e
  | Ok text =>
      let recommendations := extractRecommendations text in
      Ok (Analysis (g_query q)
            (str_or (Some (extractExplanation text)) (js "Query analysis from Nexus LLM"))
            (extractComplexity text)
            (match recommendations with [] => default_recommendations | _ => recommendations end)
            (if (extractEfficiency text =? 0)%Z then 50 else extractEfficiency text))
  end.

Definition parseSuggestionResponse (q : GraphQLQuery) (data : json) : result (list QuerySuggestion) :=
  match responseText data with
  | Throw e => Throw e
  | Ok text =>
      let optimizedQuery := match first_match fenced_at text with Some g => trim g | None => g_query q end in
      let confidence := coalesce (first_match confidence_at text) (dec 7 10) in
      Ok [QSuggestion optimizedQuery
            (str_or (Some (extractExplanation text)) (js "Optimized query suggestion from Nexus"))
            (nmin (nmax confidence nzero) none)]
  end.

Definition getStubAnalysis (q : GraphQLQuery) : QueryAnalysis :=
  Analysis (g_query q) (js "Query analysis will be available when Nexus is configured and running.") Medium
    [js "Configure NEXUS_API_URL to enable Nexus integration";
     js "Ensure Nexus is running on the configured URL";
     js "Check query syntax manually for now"] 50.

Definition getStubSuggestions (q : GraphQLQuery) : list QuerySuggestion :=
  [QSuggestion (g_query q) (js "Query suggestions will be available when Nexus is configured.") (dec 1 2)].

(** ** Calls *)

(** An answer of the service: its status, content type, and its body read as
    JSON or as text. *)
Record nexusAnswer := Answer {
  n_status : Z;
  n_contentType : option str;
  n_json : result json;
  n_text : result str;
}.

Section integration.
Context (JSON_parse : str -> result json).
(** [JSON.stringify] of the request: its query and session. *)
Context (requestBody : str -> str -> str).
Context (fetch : request -> result nexusAnswer).
Context (apiUrl : str) (apiKey : option str) (now : Z).

Definition enabled : bool := negb (bool_decide (apiUrl = [])).

Definition text_as_json (text : result str) : result json :=
  match text with
  | Throw e => Throw e
  | Ok s =>
      match JSON_parse s with
      | Ok data => Ok data
      | Throw _ => Ok (JObj [(js "response", JStr s); (js "text", JStr s)])
      end
  end.

(** The body of a successful answer; a failed one throws.  The streaming and
    the fall-back branch both read the text. *)
Definition readAnswer (a : nexusAnswer) : result json :=
  if ((200 <=? n_status a) && (n_status a <=? 299))%Z then
    if includes (coalesce (n_contentType a) []) (js "application/json") then n_json a
    else text_as_json (n_text a)
  else Throw (js "Nexus API error: " ++ str_of_Z (n_status a)).

Definition ask (base : jsmap str str) (session prompt : str) : result json :=
  match fetch (Request (js "POST") (apiUrl ++ js "/api/research/chat") (auth_headers base apiKey)
                 (Some (requestBody prompt (session ++ str_of_Z now)))) with
  | Throw e => Throw e
  | Ok a => readAnswer a
  end.

Definition analyzeQuery (q : GraphQLQuery) (schema : option str) : QueryAnalysis :=
  if enabled then
    match ask json_headers (js "graphq-llm-") (buildAnalysisPrompt q schema) with
    | Throw _ => getStubAnalysis q
    | Ok data =>
        match parseNexusResponse q data with Ok r => r | Throw _ => getStubAnalysis q end
    end
  else getStubAnalysis q.

Definition getSuggestions (q : GraphQLQuery) (schema : option str) : list QuerySuggestion :=
  if enabled then
    match ask (json_headers ++ [(js "Accept", js "application/json")]) (js "graphq-llm-suggestions-")
            (buildSuggestionPrompt q schema) with
    | Throw _ => getStubSuggestions q
    | Ok data =>
        match parseSuggestionResponse q data with Ok r => r | Throw _ => getStubSuggestions q end
    end
  else getStubSuggestions q.

Record nexusConnection := NConnection { n_connected : bool; n_apiUrl : str; n_error : option str }.

(** [status] is the status line of an error: [HTTP 404: Not Found]. *)
Definition checkConnection (statusLine : nexusAnswer -> str) : nexusConnection :=
  if enabled then
    match fetch (Request (js "GET") (apiUrl ++ js "/api/research/documents") (auth_headers [] apiKey) None) with
    | Ok a =>
        if ((200 <=? n_status a) && (n_status a <=? 299))%Z
        then NConnection true apiUrl None
        else NConnection false apiUrl (Some (js "HTTP " ++ statusLine a))
    | Throw e => NConnection false apiUrl (Some e)
    end
  else NConnection false apiUrl (Some (js "Nexus API URL not configured")).
End integration.

(** ** Lemmas *)

Lemma clamp_unit x :
  let c := nmin (nmax x nzero) none in
  is_nan c = true \/ (nle nzero c = true /\ nle c none = true).
Proof.
  cbn zeta. destruct (is_nan x) eqn:Ex.
  { left. unfold nmax. rewrite Ex. by vm_compute. }
  right. assert (num_ok (nmax x nzero) /\ nle nzero (nmax x nzero) = true) as [Hok Hge].
  { unfold nmax. rewrite Ex. cbn [orb]. destruct (is_nan nzero) eqn:E0; [by vm_compute in E0|].
    destruct (nlt x nzero) eqn:El; [by vm_compute|]. split; [done|]. by rewrite nle_nlt, El. }
  unfold nmin. rewrite Hok. cbn [orb]. destruct (is_nan none) eqn:E1; [by vm_compute in E1|].
  destruct (nlt none (nmax x nzero)) eqn:El; [by vm_compute|]. split; [done|]. by rewrite nle_nlt, El.
Qed.

Lemma first_match_app {A} (f : str -> option A) a s r :
  f s = Some r -> (forall a1 a2, a = a1 ++ a2 -> a2 <> [] -> f (a2 ++ s) = None) ->
  first_match f (a ++ s) = Some r.
Proof.
  intros Hs. induction a as [|c a IH]; intros Ha.
  - destruct s; cbn in *; by rewrite Hs.
  - pose proof (Ha [] (c :: a) eq_refl ltac:(done)) as Hc. cbn in Hc |- *. rewrite Hc.
    apply IH. intros a1 a2 -> Hne. by apply (Ha (c :: a1)).
Qed.

(** A text includes a word whose lower case it includes. *)
Lemma includes_trans s p q : includes s p = true -> includes p q = true -> includes s q = true.
Proof.
  rewrite !includes_spec. intros (a & b & ->) (c & d & ->). exists (a ++ c), (d ++ b). by simplify_list_eq.
Qed.

Lemma extractEfficiency_range text : (0 <= extractEfficiency text <= 100)%Z.
Proof.
  unfold extractEfficiency. split_matches; split_bools; lia.
Qed.

(** The first two characters of a text survive [trim] if they are no white
    space. *)
Lemma trim_keeps c d t :
  is_space c = false -> is_space d = false -> exists u, trim (c :: d :: t) = c :: d :: u.
Proof.
  intros Hc Hd. destruct (trim_split (c :: d :: t)) as (w1 & w2 & E & H1 & H2).
  destruct w1 as [|x w1].
  - destruct (trim (c :: d :: t)) as [|x [|y u]] eqn:Et; cbn in E.
    + destruct w2 as [|x w2]; simplify_eq. inversion H2. congruence.
    + destruct w2 as [|y w2]; simplify_eq. inversion H2. congruence.
    + simplify_eq. by exists u.
  - simplify_eq/=. inversion H1. congruence.
Qed.

Lemma digit_not_space d : is_digit d = true -> is_space d = false.
Proof. destruct d as [[] [] [] [] [] [] [] []]; vm_compute; done. Qed.

(** An item of a numbered list as people write it: a digit, a full stop, and
    the text. *)
Lemma recommendation_numbered d t : is_digit d = true -> recommendation (d :: "."%char :: t) = None.
Proof.
  intros Hd. unfold recommendation.
  destruct (trim_keeps d "." t) as [u ->]; [by apply digit_not_space|done|].
  replace (after_marker (d :: "."%char :: u)) with (@None str) by (unfold after_marker; by rewrite Hd).
  replace (startsWith (d :: "."%char :: u) (js "Recommendation")) with false; [done|].
  cbn. case_bool_decide; [|done]. by subst.
Qed.

Lemma fenced_first pre q post :
  indexOf (pre ++ fence ++ q ++ unfence ++ post) fence = Some (length pre) ->
  indexOf (q ++ unfence ++ post) unfence = Some (length q) ->
  first_match fenced_at (pre ++ fence ++ q ++ unfence ++ post) = Some q.
Proof.
  intros Hpre Hq. apply first_match_app.
  - unfold fenced_at. rewrite (proj2 (is_prefix_spec _ _)) by eauto.
    rewrite drop_app_length, Hq. by rewrite take_app_length.
  - intros a1 a2 -> Hne. unfold fenced_at. destruct (is_prefix fence _) eqn:E; [|done]. exfalso.
    apply is_prefix_spec in E as [t Et]. rewrite <- app_assoc, Et in Hpre.
    apply indexOf_first in Hpre. rewrite length_app in Hpre. destruct a2; cbn in *; [done|lia].
Qed.

(** ** The properties *)

(** Whatever Nexus answers or fails to answer, an analysis is returned
    whose efficiency is between 1 and 100 and which has a recommendation, and
    the one suggestion returned has a confidence between 0 and 1 or NaN. *)
Theorem nexus_ranges JSON_parse requestBody fetch apiUrl apiKey now q schema :
  let a := analyzeQuery JSON_parse requestBody fetch apiUrl apiKey now q schema in
  let l := getSuggestions JSON_parse requestBody fetch apiUrl apiKey now q schema in
  an_query a = g_query q /\ (1 <= estimatedEfficiency a <= 100)%Z /\ an_recommendations a <> [] /\
  exists s, l = [s] /\
    (is_nan (confidence s) = true \/ (nle nzero (confidence s) = true /\ nle (confidence s) none = true)).
Proof.
  intros a l.
  assert (an_query a = g_query q /\ (1 <= estimatedEfficiency a <= 100)%Z /\ an_recommendations a <> [])
    as (Hq & He & Hr).
  { assert (forall data r, parseNexusResponse q data = Ok r ->
      an_query r = g_query q /\ (1 <= estimatedEfficiency r <= 100)%Z /\ an_recommendations r <> []) as Hp.
    { intros data r. unfold parseNexusResponse. destruct (responseText data) as [text|]; [|done].
      intros [= <-]. cbn. pose proof (extractEfficiency_range text). split_and!; [done| | |].
      1, 2: destruct (_ =? 0)%Z eqn:E; split_bools; lia.
      by destruct (extractRecommendations text). }
    unfold a, analyzeQuery.
    repeat case_match; try (by eapply Hp); (split_and!; [done|cbn; lia..|done]). }
  split; [done|]. split; [done|]. split; [done|].
  unfold l, getSuggestions. split_matches; try (eexists; split; [done|right; by vm_compute]).
  match goal with H : parseSuggestionResponse _ _ = Ok _ |- _ => revert H end.
  unfold parseSuggestionResponse. destruct (responseText _) as [text|]; [|done]. intros [= <-].
  eexists. split; [done|]. apply clamp_unit.
Qed.

(** A query that Nexus returns in a fenced block is the suggested query:
    when the answer has its first fence before [query] and the fence closes
    after it, the suggestion is [query], trimmed. *)
Theorem suggestion_fenced q pre query post
    (Hopen : indexOf (pre ++ fence ++ query ++ unfence ++ post) fence = Some (length pre))
    (Hclose : indexOf (query ++ unfence ++ post) unfence = Some (length query)) :
  result_map (fmap s_query)
    (parseSuggestionResponse q (JObj [(js "response", JStr (pre ++ fence ++ query ++ unfence ++ post))])) =
  Ok [trim query].
Proof.
  unfold parseSuggestionResponse.
  assert (responseText (JObj [(js "response", JStr (pre ++ fence ++ query ++ unfence ++ post))]) =
    Ok (pre ++ fence ++ query ++ unfence ++ post)) as ->.
  { unfold responseText. cbn. by destruct pre. }
  rewrite fenced_first by done. reflexivity.
Qed.

Lemma suggestion_fenced_witness :
  result_map (fmap s_query)
    (parseSuggestionResponse (GQuery (js "{ a { b } }") None None)
       (JObj [(js "response", JStr (jsn "Try:|n" ++ fence ++ js "{ a }" ++ unfence ++ js " instead"))])) =
  Ok [js "{ a }"].
Proof.
  apply (suggestion_fenced (GQuery (js "{ a { b } }") None None) (jsn "Try:|n") (js "{ a }") (js " instead"));
    vm_compute; reflexivity.
Defined.

(** An answer that mentions the word complexity is never read as of medium
    complexity, although the prompt asks for the complexity level. *)
Theorem complexity_never_medium text
    (Hword : includes (toLowerCase text) (js "complexity") = true) :
  extractComplexity text <> Medium.
Proof.
  unfold extractComplexity. destruct (_ || _) eqn:E1; [done|].
  rewrite (includes_trans (toLowerCase text) (js "complexity") (js "complex")) by done.
  by rewrite orb_true_r.
Qed.

Lemma complexity_never_medium_witness : extractComplexity (js "Complexity: medium") <> Medium.
Proof. apply complexity_never_medium. vm_compute. reflexivity. Defined.
