(* ===== verification/ResLens.v ===== *)
(** * The ResLens client

    [ResLensClient] of src/ecosystem/ai-tools/mcp/graphq-llm/src/reslens/client.ts
    with [QueryExecutionMetrics] (types/index.ts): metrics are kept locally
    and sent to the ResLens middleware when it is configured; reads ask the
    middleware first and fall back to the local copy.  The middleware is the
    parameter [fetch]. *)

From S2P Require Import Prelude JsString JsArray JsNum Http.

Record ResourceUsage := Usage { cpu : option num; memory : option num; network : option num }.

(** A [Date] is its time in milliseconds. *)
Record QueryExecutionMetrics := Metrics {
  queryId : str;
  query : str;
  executionTime : num;
  timestamp : option Z;
  success : bool;
  error : option str;
  resultSize : option Z;
  cacheHit : option bool;
  resourceUsage : option ResourceUsage;
}.

(** [Partial<QueryExecutionMetrics>]: [None] is an absent property. *)
Record PartialMetrics := Partial {
  p_queryId : option str;
  p_query : option str;
  p_executionTime : option num;
  p_timestamp : option Z;
  p_success : option bool;
  p_error : option str;
  p_resultSize : option Z;
  p_cacheHit : option bool;
  p_resourceUsage : option ResourceUsage;
}.

Definition or_else {A} (x y : option A) : option A := match x with Some _ => x | None => y end.

(** [{...m, ...p}] *)
Definition spread (m : QueryExecutionMetrics) (p : PartialMetrics) : QueryExecutionMetrics :=
  Metrics (coalesce (p_queryId p) (queryId m)) (coalesce (p_query p) (query m))
    (coalesce (p_executionTime p) (executionTime m)) (or_else (p_timestamp p) (timestamp m))
    (coalesce (p_success p) (success m)) (or_else (p_error p) (error m))
    (or_else (p_resultSize p) (resultSize m)) (or_else (p_cacheHit p) (cacheHit m))
    (or_else (p_resourceUsage p) (resourceUsage m)).

(** The middleware's JSON for one execution: the timestamp is a string. *)
Record apiMetrics := ApiMetrics { api_metrics : QueryExecutionMetrics; api_timestamp : option str }.

Record ResLensClient := Client {
  metricsStorage : jsmap str QueryExecutionMetrics;
  recentQueries : list QueryExecutionMetrics;
  apiUrl : option str;
  apiKey : option str;
}.

Definition new_client (apiUrl apiKey : option str) : ResLensClient := Client [] [] apiUrl apiKey.

(** [this.useApi && this.apiUrl] *)
Definition api (c : ResLensClient) : option str :=
  match apiUrl c with Some (x :: u) => Some (x :: u) | _ => None end.

Definition with_timestamp (m : QueryExecutionMetrics) (t : option Z) : QueryExecutionMetrics :=
  Metrics (queryId m) (query m) (executionTime m) t (success m) (error m) (resultSize m)
    (cacheHit m) (resourceUsage m).

Section client.
Context (JSON_stringify : QueryExecutionMetrics -> str).
Context (parseDate : str -> Z).
(** [new URL(base)] with one search parameter, as a string. *)
Context (urlWithParam : str -> str -> str -> result str).
(** The endpoints for one execution ([None]: the body is [null]) and for
    lists ([None]: the body is not an array), and the health check. *)
Context (fetchOne : request -> result (response (option apiMetrics))).
Context (fetchList : request -> result (response (option (list apiMetrics)))).
Context (fetchHealth : request -> result (response unit)).
Context (now : Z).
Implicit Type c : ResLensClient.

(** The new client, the metrics returned, and the request sent.  A failed
    request is only reported on the console. *)
Definition captureMetrics c (id q : str) (time : num) (ok : bool) (additionalData : option PartialMetrics)
    : ResLensClient * QueryExecutionMetrics * list request :=
  let base := Metrics id q time (Some now) ok None None None None in
  let metrics := match additionalData with Some p => spread base p | None => base end in
  let recent := metrics :: recentQueries c in
  let recent := if (100 <? length recent)%nat then take 100 recent else recent in
  let c' := Client (map_set (metricsStorage c) id metrics) recent (apiUrl c) (apiKey c) in
  (c', metrics,
   match api c with
   | Some u => [Request (js "POST") (u ++ js "/api/metrics") (auth_headers json_headers (apiKey c))
                  (Some (JSON_stringify metrics))]
   | None => []
   end).

Definition getMetrics c (id : str) : option QueryExecutionMetrics :=
  let local := map_get (metricsStorage c) id in
  match api c with
  | Some u =>
      match fetchOne (Request (js "GET") (u ++ js "/api/metrics/query/" ++ id) (auth_headers [] (apiKey c)) None) with
      | Ok response =>
          if ok response then
            match payload response with
            | Ok (Some m) =>
                Some (match api_timestamp m with
                      | Some (x :: t) => with_timestamp (api_metrics m) (Some (parseDate (x :: t)))
                      | _ => api_metrics m
                      end)
            | _ => local
            end
          else if (status response =? 404)%Z then None else local
      | Throw _ => local
      end
  | None => local
  end.

(** The metrics of a list response, their timestamps made dates. *)
Definition dated (m : apiMetrics) : QueryExecutionMetrics :=
  with_timestamp (api_metrics m)
    (Some (match api_timestamp m with Some (x :: t) => parseDate (x :: t) | _ => now end)).

(** The common body of the two list queries: the middleware's answer, or
    [None] when the local copy is to be used. *)
Definition apiList c (path param value : str) : option (list QueryExecutionMetrics) :=
  match api c with
  | Some u =>
      match urlWithParam (u ++ path) param value with
      | Ok url =>
          match fetchList (Request (js "GET") url (auth_headers [] (apiKey c)) None) with
          | Ok response =>
              if ok response then
                match payload response with
                | Ok (Some l) => Some (dated <$> l)
                | Ok None => Some []
                | Throw _ => None
                end
              else None
          | Throw _ => None
          end
      | Throw _ => None
      end
  | None => None
  end.

Definition getQueryStats c (queryPattern : str) : list QueryExecutionMetrics :=
  match apiList c (js "/api/stats/query") (js "pattern") queryPattern with
  | Some l => l
  | None => filterb (fun m => includes (query m) queryPattern) (map_values (metricsStorage c))
  end.

Definition getRecentQueries c (limit : Z) : list QueryExecutionMetrics :=
  match apiList c (js "/api/metrics/recent") (js "limit") (str_of_Z limit) with
  | Some l => l
  | None => slice (recentQueries c) 0 limit
  end.

Definition healthCheck c : bool :=
  match api c with
  | Some u =>
      match fetchHealth (Request (js "GET") (u ++ js "/api/health") (auth_headers [] (apiKey c)) None) with
      | Ok response => ok response
      | Throw _ => false
      end
  | None => true
  end.

Definition clearStorage c : ResLensClient := Client [] [] (apiUrl c) (apiKey c).

Definition getAllMetrics c : list QueryExecutionMetrics := map_values (metricsStorage c).
End client.

(** ** Histories of captures

    The arguments of the calls to [captureMetrics], the oldest first. *)

Record capture := Capture {
  at_time : Z;
  c_id : str;
  c_query : str;
  c_time : num;
  c_ok : bool;
  c_data : option PartialMetrics;
}.

Section history.
Context (JSON_stringify : QueryExecutionMetrics -> str).

Definition capture_one (c : ResLensClient) (x : capture) : ResLensClient :=
  (captureMetrics JSON_stringify (at_time x) c (c_id x) (c_query x) (c_time x) (c_ok x) (c_data x)).1.1.

Definition metrics_of (x : capture) : QueryExecutionMetrics :=
  (captureMetrics JSON_stringify (at_time x) (new_client None None) (c_id x) (c_query x) (c_time x)
     (c_ok x) (c_data x)).1.2.

Lemma capture_one_recent c x : recentQueries (capture_one c x) = take 100 (metrics_of x :: recentQueries c).
Proof.
  unfold capture_one, captureMetrics, metrics_of. cbn [fst snd recentQueries].
  destruct (100 <? _)%nat eqn:E; [done|]. apply Nat.ltb_ge in E. by rewrite take_ge.
Qed.

Lemma captures_recent c h :
  recentQueries c = take 100 (recentQueries c) ->
  recentQueries (foldl capture_one c h) = take 100 (rev (metrics_of <$> h) ++ recentQueries c).
Proof.
  revert c. induction h as [|x h IH]; intros c Hc; [done|]. cbn [foldl fmap list_fmap rev].
  rewrite IH, capture_one_recent.
  - rewrite <- app_assoc. cbn [app]. generalize (rev (metrics_of <$> h)) as l. intros l.
    rewrite !take_app, take_take. f_equal. f_equal. lia.
  - by rewrite capture_one_recent, take_take.
Qed.

(** The last capture under an id. *)
Definition last_capture (h : list capture) (id : str) : option QueryExecutionMetrics :=
  metrics_of <$> List.find (fun x => bool_decide (c_id x = id)) (rev h).

Lemma captures_storage c h id :
  map_get (metricsStorage (foldl capture_one c h)) id =
    or_else (last_capture h id) (map_get (metricsStorage c) id).
Proof.
  unfold last_capture. induction h as [|x h IH] using rev_ind; [done|].
  rewrite foldl_app, rev_app_distr. cbn [foldl rev app List.find].
  change (metricsStorage (capture_one (foldl capture_one c h) x))
    with (map_set (metricsStorage (foldl capture_one c h)) (c_id x) (metrics_of x)).
  case_bool_decide as E; cbn.
  - subst. by rewrite map_get_set_eq.
  - by rewrite map_get_set_ne.
Qed.
End history.

Lemma captures_wf JSON_stringify c h :
  map_wf (metricsStorage c) -> map_wf (metricsStorage (foldl (capture_one JSON_stringify) c h)).
Proof. revert c. induction h as [|x h IH]; intros c Hc; [done|]. apply IH. by apply map_set_wf. Qed.

(** Without a middleware the client stays without one, and answers the last
    capture. *)
Lemma captures_api JSON_stringify key h : api (foldl (capture_one JSON_stringify) (new_client None key) h) = None.
Proof.
  rewrite <- (rev_involutive h). induction (rev h) as [|x l IH]; [done|]. cbn [rev]. by rewrite foldl_app.
Qed.

Lemma captures_local JSON_stringify key h id :
  map_get (metricsStorage (foldl (capture_one JSON_stringify) (new_client None key) h)) id =
  last_capture JSON_stringify h id.
Proof. rewrite captures_storage. cbn. by destruct (last_capture _ _ _). Qed.

Lemma captures_getMetrics JSON_stringify parseDate fetchOne key h id :
  getMetrics parseDate fetchOne (foldl (capture_one JSON_stringify) (new_client None key) h) id =
  last_capture JSON_stringify h id.
Proof. unfold getMetrics. rewrite captures_api. apply captures_local. Qed.

(** ** The properties *)

(** Without a middleware the client is faithful to the history of
    captures: [getMetrics] answers the last execution captured under the id,
    [getQueryStats] exactly the last executions whose query contains the
    pattern, and [getRecentQueries] the newest executions first, 100 at
    most. *)
Theorem reslens_local_history JSON_stringify parseDate urlWithParam fetchOne fetchList now key h
    (id pattern : str) (limit : nat) :
  let c := foldl (capture_one JSON_stringify) (new_client None key) h in
  getMetrics parseDate fetchOne c id = last_capture JSON_stringify h id /\
  (forall m, m ∈ getQueryStats parseDate urlWithParam fetchList now c pattern <->
     includes (query m) pattern = true /\ exists id', last_capture JSON_stringify h id' = Some m) /\
  getRecentQueries parseDate urlWithParam fetchList now c (Z.of_nat limit) =
    take limit (take 100 (rev (metrics_of JSON_stringify <$> h))).
Proof.
  intros c.
  assert (api c = None) as Hapi by apply captures_api.
  assert (forall i, map_get (metricsStorage c) i = last_capture JSON_stringify h i) as Hget
    by (intros i; apply captures_local).
  split_and!.
  - apply captures_getMetrics.
  - intros m. unfold getQueryStats, apiList. rewrite Hapi, elem_of_filterb, elem_of_map_values.
    + setoid_rewrite Hget. naive_solver.
    + apply captures_wf. constructor.
  - unfold getRecentQueries, apiList. rewrite Hapi, slice_0, Nat2Z.id by lia. f_equal.
    unfold c. rewrite captures_recent by done. by rewrite app_nil_r.
Qed.

(** A middleware that is down or failing: every request is rejected or gets
    a status outside 2xx and 404. *)
Definition failing {B} (fetch : request -> result (response B)) : Prop :=
  forall r resp, fetch r = Ok resp -> ok resp = false /\ status resp <> 404%Z.

(** While the middleware fails, every read answers what a client without
    a middleware answers. *)
Theorem reslens_fallback parseDate urlWithParam fetchOne fetchList now c id pattern limit
    (Hone : failing fetchOne) (Hlist : failing fetchList) :
  let local := Client (metricsStorage c) (recentQueries c) None (apiKey c) in
  getMetrics parseDate fetchOne c id = getMetrics parseDate fetchOne local id /\
  getQueryStats parseDate urlWithParam fetchList now c pattern =
    getQueryStats parseDate urlWithParam fetchList now local pattern /\
  getRecentQueries parseDate urlWithParam fetchList now c limit =
    getRecentQueries parseDate urlWithParam fetchList now local limit.
Proof.
  assert (forall path param value, apiList parseDate urlWithParam fetchList now c path param value = None) as E.
  { intros. unfold apiList. destruct (api c); [|done]. destruct (urlWithParam _ _ _); [|done].
    destruct (fetchList _) as [r|] eqn:Ef; [|done]. by apply Hlist in Ef as [-> _]. }
  split_and!.
  - unfold getMetrics. cbn. destruct (api c); [|done]. destruct (fetchOne _) as [r|] eqn:Ef; [|done].
    apply Hone in Ef as [-> H404]. by rewrite (proj2 (Z.eqb_neq _ _)).
  - unfold getQueryStats. by rewrite E.
  - unfold getRecentQueries. by rewrite E.
Qed.

Lemma reslens_fallback_witness :
  getRecentQueries (fun _ => 0%Z) (fun u _ _ => Ok u) (fun _ => Ok (Response 503 (Throw (js "no body")))) 7
    (capture_one (fun _ => []) (new_client (Some (js "http://lens")) None)
       (Capture 5 (js "q1") (js "{ a }") (of_Z 12) true None)) 10
  = [Metrics (js "q1") (js "{ a }") (of_Z 12) (Some 5%Z) true None None None None].
Proof.
  destruct (reslens_fallback (fun _ => 0%Z) (fun u _ _ => Ok u)
    (fun _ => Throw (js "ECONNREFUSED")) (fun _ => Ok (Response 503 (Throw (js "no body")))) 7
    (capture_one (fun _ => []) (new_client (Some (js "http://lens")) None)
       (Capture 5 (js "q1") (js "{ a }") (of_Z 12) true None)) (js "q1") (js "a") 10) as (_ & _ & ->).
  - discriminate.
  - intros r resp [= <-]. split; [reflexivity|discriminate].
  - vm_compute. reflexivity.
Defined.
