(* ===== verification/LiveStats.v ===== *)
(** * Live statistics

    [LiveStatsService] of
    src/ecosystem/ai-tools/mcp/graphq-llm/src/services/live-stats-service.ts:
    the statistics computed by [poll], and the polling state machine.  A
    call of [startPolling] suspends twice (health check, first poll); other
    calls may run in between, so the calls under way are part of the state,
    as are the timers the event loop holds. *)

From stdpp Require Import sorting.
From S2P Require Import Prelude JsString JsArray JsNum Http ResLens.

Record LiveStats := Stats {
  systemMetrics : option ResourceUsage;
  recent : option (list QueryExecutionMetrics);
  avgExecutionTime : option num;
  throughput : option num;
  cacheHitRatio : option num;
  lastUpdated : Z;
}.

Record LiveStatsOptions := Options {
  enabled : bool;
  pollEvery : Z;
  maxRecentQueries : Z;
  queryPattern : str;
}.

Record PartialOptions := POptions {
  o_enabled : option bool;
  o_pollInterval : option Z;
  o_maxRecentQueries : option Z;
  o_queryPattern : option str;
}.

(** ** Statistics *)

Definition nsum (l : list num) : num := foldl nadd nzero l.
Definition of_nat (n : nat) : num := of_Z (Z.of_nat n).

(** [Math.round(x * 10) / 10] *)
Definition round1 (x : num) : num := ndiv (nround (nmul x (of_Z 10))) (of_Z 10).

(** Queries with a timestamp, the oldest first; the key is [getTime()]. *)
Definition timestamps (queries : list QueryExecutionMetrics) : list Z := omap timestamp queries.

Definition calculateThroughput (queries : list QueryExecutionMetrics) : option num :=
  if (length queries <? 2)%nat then None
  else
    let sorted := sort_asc (timestamps queries) in
    match sorted with
    | first :: _ :: _ =>
        let last := List.last sorted first in
        let timeSpan := ndiv (of_Z (last - first)) (of_Z 1000) in
        if nle timeSpan nzero then None
        else Some (round1 (ndiv (of_nat (length sorted)) timeSpan))
    | _ => None
    end.

Definition calculateCacheHitRatio (queries : list QueryExecutionMetrics) : option num :=
  match queries with
  | [] => None
  | _ =>
      let cacheHits := length (filterb (fun q => bool_decide (cacheHit q = Some true)) queries) in
      Some (ndiv (nround (nmul (nmul (ndiv (of_nat cacheHits) (of_nat (length queries))) (of_Z 100)) (of_Z 10)))
              (of_Z 10))
  end.

(** [x || 0] *)
Definition or_zero (x : option num) : num :=
  match x with Some n => if truthy_num n then n else nzero | None => nzero end.

Definition extractSystemMetrics (queries : list QueryExecutionMetrics) : option ResourceUsage :=
  match omap resourceUsage queries with
  | [] => None
  | usages =>
      let n := of_nat (length usages) in
      let avg (f : ResourceUsage -> option num) := ndiv (nsum ((fun u => or_zero (f u)) <$> usages)) n in
      Some (Usage (Some (round1 (avg cpu))) (Some (round1 (avg memory))) (Some (round1 (avg network))))
  end.

(** What [poll] stores after [getRecentQueries] answered. *)
Definition poll_stats (opts : LiveStatsOptions) (recentQueries : list QueryExecutionMetrics) (now : Z)
    : LiveStats :=
  let filteredQueries :=
    if bool_decide (queryPattern opts = []) then recentQueries
    else filterb (fun q => includes (ResLens.query q) (queryPattern opts)) recentQueries in
  let avg :=
    match filteredQueries with
    | [] => None
    | _ => Some (ndiv (nsum (executionTime <$> filteredQueries)) (of_nat (length filteredQueries)))
    end in
  Stats (extractSystemMetrics filteredQueries)
    (Some (slice filteredQueries 0 (maxRecentQueries opts)))
    (match avg with Some a => if truthy_num a then Some (nround a) else None | None => None end)
    (calculateThroughput filteredQueries) (calculateCacheHitRatio filteredQueries) now.

(** ** Polling *)

(** Where a call of [startPolling] is suspended. *)
Inductive starting := AwaitHealth | AwaitPoll.

Record LiveStatsService := Service {
  cachedStats : LiveStats;
  options : LiveStatsOptions;
  isPolling : bool;
  (** [this.pollInterval], a timer handle *)
  pollInterval : option nat;
  (** the timers the event loop holds, the next handle, the calls of
      [startPolling] under way *)
  timers : list nat;
  next_timer : nat;
  starts : list starting;
}.

Definition new_service (o : PartialOptions) (liveMode : bool) (envInterval now : Z) : LiveStatsService :=
  Service (Stats None None None None None now)
    (Options (coalesce (o_enabled o) liveMode)
       (coalesce (o_pollInterval o) (if (envInterval =? 0)%Z then 5000%Z else envInterval))
       (coalesce (o_maxRecentQueries o) 50%Z) (coalesce (o_queryPattern o) []))
    false None [] 0 [].

Definition with_starts (s : LiveStatsService) (l : list starting) : LiveStatsService :=
  Service (cachedStats s) (options s) (isPolling s) (pollInterval s) (timers s) (next_timer s) l.

Definition with_stats (s : LiveStatsService) (st : option LiveStats) : LiveStatsService :=
  Service (coalesce st (cachedStats s)) (options s) (isPolling s) (pollInterval s) (timers s)
    (next_timer s) (starts s).

(** [startPolling] up to its first [await]. *)
Definition startPolling (s : LiveStatsService) : LiveStatsService :=
  if isPolling s then s
  else if enabled (options s) then with_starts s (starts s ++ [AwaitHealth]) else s.

(** The rest of the [i]-th pending call: after the health check, and after
    the first poll ([None]: the poll failed and kept the old statistics). *)
Definition health_answer (s : LiveStatsService) (i : nat) (isAvailable : bool) : LiveStatsService :=
  if isAvailable
  then Service (cachedStats s) (options s) true (pollInterval s) (timers s) (next_timer s)
         (<[i := AwaitPoll]> (starts s))
  else with_starts s (delete i (starts s)).

Definition first_poll_done (s : LiveStatsService) (i : nat) (st : option LiveStats) : LiveStatsService :=
  Service (coalesce st (cachedStats s)) (options s) (isPolling s) (Some (next_timer s))
    (timers s ++ [next_timer s]) (S (next_timer s)) (delete i (starts s)).

Definition stopPolling (s : LiveStatsService) : LiveStatsService :=
  Service (cachedStats s) (options s) false None
    (match pollInterval s with Some h => filterb (fun x => negb (x =? h)%nat) (timers s) | None => timers s end)
    (next_timer s) (starts s).

Definition merge_options (o : LiveStatsOptions) (p : PartialOptions) : LiveStatsOptions :=
  Options (coalesce (o_enabled p) (enabled o)) (coalesce (o_pollInterval p) (pollEvery o))
    (coalesce (o_maxRecentQueries p) (maxRecentQueries o)) (coalesce (o_queryPattern p) (queryPattern o)).

Definition updateOptions (s : LiveStatsService) (p : PartialOptions) : LiveStatsService :=
  let wasPolling := isPolling s in
  let s1 := if wasPolling then stopPolling s else s in
  let s2 := Service (cachedStats s1) (merge_options (options s1) p) (isPolling s1) (pollInterval s1)
    (timers s1) (next_timer s1) (starts s1) in
  if wasPolling && enabled (options s2) then startPolling s2 else s2.

Definition isAvailable (s : LiveStatsService) : bool := isPolling s && enabled (options s).

Definition getLiveStats (s : LiveStatsService) : LiveStats := cachedStats s.

(** [getRecentQueries]: the answer of the client, filtered by a non-empty
    pattern. *)
Definition getRecentMatching (queries : list QueryExecutionMetrics) (pattern : option str)
    : list QueryExecutionMetrics :=
  match pattern with
  | Some (c :: p) => filterb (fun q => includes (ResLens.query q) (c :: p)) queries
  | _ => queries
  end.

(** ** The event loop *)

Inductive event :=
| Start
| Health (i : nat) (isAvailable : bool)
| FirstPoll (i : nat) (st : option LiveStats)
| Tick (h : nat) (st : option LiveStats)
| Stop
| Update (p : PartialOptions).

(** [None]: the event cannot happen in this state. *)
Definition handle (s : LiveStatsService) (e : event) : option LiveStatsService :=
  match e with
  | Start => Some (startPolling s)
  | Health i b => match starts s !! i with Some AwaitHealth => Some (health_answer s i b) | _ => None end
  | FirstPoll i st => match starts s !! i with Some AwaitPoll => Some (first_poll_done s i st) | _ => None end
  | Tick h st => if bool_decide (h ∈ timers s) then Some (with_stats s st) else None
  | Stop => Some (stopPolling s)
  | Update p => Some (updateOptions s p)
  end.

Fixpoint run (s : LiveStatsService) (es : list event) : option LiveStatsService :=
  match es with
  | [] => Some s
  | e :: es' => match handle s e with Some s' => run s' es' | None => None end
  end.

(** ** Throughput *)

Lemma sort_asc_unique l1 l2 : l1 ≡ₚ l2 -> sort_asc l1 = sort_asc l2.
Proof.
  intros Hp. apply (StronglySorted_unique Z.le); [apply sort_asc_sorted..|].
  unfold sort_asc. by rewrite !sort_by_perm.
Qed.

(** ** The invariant of the polling machine *)

(** Between two timers and calls that do not overlap: at most one call of
    [startPolling] is under way, and the only timer is [pollInterval]. *)
Definition polling_ok (s : LiveStatsService) : Prop :=
  match starts s with
  | [] => timers s = option_list (pollInterval s) /\ isPolling s = bool_decide (is_Some (pollInterval s))
  | [AwaitHealth] => timers s = [] /\ pollInterval s = None /\ isPolling s = false
  | [AwaitPoll] => timers s = [] /\ pollInterval s = None /\ isPolling s = true
  | _ => False
  end.

(** Calls of the public operations wait for a pending [startPolling]. *)
Definition sequential (s : LiveStatsService) (e : event) : bool :=
  match e with
  | Start | Stop | Update _ => bool_decide (length (starts s) = 0)
  | _ => true
  end.

Fixpoint run_sequential (s : LiveStatsService) (es : list event) : option LiveStatsService :=
  match es with
  | [] => Some s
  | e :: es' =>
      if sequential s e
      then match handle s e with Some s' => run_sequential s' es' | None => None end
      else None
  end.

Lemma startPolling_ok s : polling_ok s -> starts s = [] -> polling_ok (startPolling s).
Proof.
  intros H E. unfold startPolling. destruct (isPolling s) eqn:Ei; [done|].
  case_match; [|done]. unfold polling_ok in *. cbn. rewrite E in *. cbn. destruct H as [Ht Hp].
  rewrite Ei in Hp. destruct (pollInterval s); [discriminate|]. done.
Qed.

Lemma stopPolling_ok s : polling_ok s -> starts s = [] ->
  polling_ok (stopPolling s) /\ timers (stopPolling s) = [] /\ pollInterval (stopPolling s) = None /\
  isPolling (stopPolling s) = false.
Proof.
  unfold polling_ok, stopPolling. intros H E. rewrite E in H. destruct H as [Ht _]. cbn. rewrite E, Ht.
  destruct (pollInterval s) as [h|]; cbn; [rewrite Nat.eqb_refl|]; done.
Qed.

Lemma handle_ok s e s' : polling_ok s -> sequential s e = true -> handle s e = Some s' -> polling_ok s'.
Proof.
  intros Hs Hseq Hh. destruct e as [|i b|i st|h st| |p]; cbn [handle sequential] in *.
  - apply bool_decide_eq_true, nil_length_inv in Hseq. injection Hh as <-. by apply startPolling_ok.
  - unfold polling_ok in Hs. destruct (starts s) as [|[] [|]] eqn:E; try done; destruct i as [|i]; try done.
    cbn in Hh. injection Hh as <-. unfold polling_ok, health_answer. destruct b; cbn; rewrite E; cbn; [naive_solver|].
    destruct Hs as (-> & -> & ->). done.
  - unfold polling_ok in Hs. destruct (starts s) as [|[] [|]] eqn:E; try done; destruct i as [|i]; try done.
    cbn in Hh. injection Hh as <-. unfold polling_ok. cbn. rewrite E. cbn.
    destruct Hs as (-> & _ & ->). done.
  - case_bool_decide; [|done]. injection Hh as <-. exact Hs.
  - apply bool_decide_eq_true, nil_length_inv in Hseq. injection Hh as <-. by apply stopPolling_ok.
  - apply bool_decide_eq_true, nil_length_inv in Hseq. injection Hh as <-. unfold updateOptions.
    set (s1 := if isPolling s then stopPolling s else s).
    assert (polling_ok s1 /\ starts s1 = []) as [H1 E1].
    { unfold s1. destruct (isPolling s); [|done]. split; [by apply stopPolling_ok|done]. }
    case_match; [apply startPolling_ok|]; done.
Qed.

(** A timer that [pollInterval] does not name is never cleared. *)
Definition orphan (h : nat) (s : LiveStatsService) : Prop :=
  h ∈ timers s /\ pollInterval s <> Some h /\ h < next_timer s.

Lemma stopPolling_orphan h s : orphan h s -> orphan h (stopPolling s).
Proof.
  unfold orphan, stopPolling. cbn. intros (Ht & Hp & Hn). split_and!; [|done|done].
  destruct (pollInterval s) as [h'|]; [|done]. apply elem_of_filterb. split; [done|].
  apply negb_true_iff, Nat.eqb_neq. congruence.
Qed.

Lemma startPolling_orphan h s : orphan h s -> orphan h (startPolling s).
Proof. unfold startPolling. by repeat case_match. Qed.

Lemma handle_orphan h s e s' : orphan h s -> handle s e = Some s' -> orphan h s'.
Proof.
  intros Hs Hh. destruct e as [|i b|i st|t st| |p]; cbn [handle] in Hh;
    repeat (case_match; try done); injection Hh as <-.
  - by apply startPolling_orphan.
  - unfold health_answer. by case_match.
  - destruct Hs as (Ht & Hp & Hn). unfold orphan, first_poll_done. cbn. split_and!; [set_solver|naive_solver lia|lia].
  - exact Hs.
  - by apply stopPolling_orphan.
  - unfold updateOptions.
    destruct (isPolling s); cbn [andb]; [|exact Hs].
    apply stopPolling_orphan in Hs. case_match; [apply startPolling_orphan|]; exact Hs.
Qed.

Lemma run_orphan h s es s' : orphan h s -> run s es = Some s' -> orphan h s'.
Proof.
  revert s. induction es as [|e es IH]; intros s Hs Hr; cbn in Hr; [by simplify_eq|].
  destruct (handle s e) as [s1|] eqn:E; [|done]. eapply IH; [|exact Hr]. by eapply handle_orphan.
Qed.

Lemma run_app s es1 es2 :
  run s (es1 ++ es2) = match run s es1 with Some s1 => run s1 es2 | None => None end.
Proof. revert s. induction es1 as [|e es1 IH]; intros s; cbn; [done|]. case_match; auto. Qed.

(** ** The properties *)

(** The throughput of a set of executions does not depend on the order in
    which they are given. *)
Theorem calculateThroughput_perm l1 l2 (Hperm : l1 ≡ₚ l2) :
  calculateThroughput l1 = calculateThroughput l2.
Proof.
  unfold calculateThroughput. rewrite (Permutation_length Hperm).
  by rewrite (sort_asc_unique (timestamps l1) (timestamps l2)) by (by apply omap_Permutation).
Qed.

Definition sample (t : Z) : QueryExecutionMetrics :=
  Metrics (js "id") (js "{ a }") (of_Z 10) (Some t) true None None None None.

Lemma calculateThroughput_perm_witness :
  calculateThroughput [sample 3000; sample 1000; sample 2000] = Some (dec 15 10).
Proof.
  rewrite (calculateThroughput_perm _ [sample 1000; sample 2000; sample 3000]).
  - vm_compute. reflexivity.
  - apply (Permutation_cons_append [sample 1000; sample 2000] (sample 3000)).
Defined.

(** As long as no public call is made while a [startPolling] is under way,
    the service holds at most one timer, the one [pollInterval] names, it is
    polling exactly when there is one, and [stopPolling] clears it. *)
Theorem polling_sequential o live interval now es s
    (Hrun : run_sequential (new_service o live interval now) es = Some s) :
  polling_ok s /\ length (timers s) <= 1 /\
  (starts s = [] -> timers (stopPolling s) = [] /\ isPolling (stopPolling s) = false).
Proof.
  assert (polling_ok s) as Hok.
  { assert (polling_ok (new_service o live interval now)) as H0 by done.
    revert H0 Hrun. generalize (new_service o live interval now). induction es as [|e es IH]; intros s0 H0 Hrun.
    - cbn in Hrun. by simplify_eq.
    - cbn in Hrun. destruct (sequential s0 e) eqn:E1; [|done]. destruct (handle s0 e) as [s1|] eqn:E2; [|done].
      apply (IH s1); [|done]. by eapply handle_ok. }
  split_and!; [done| |].
  - unfold polling_ok in Hok. split_matches; destruct Hok as [-> _]; cbn; try lia.
    by destruct (pollInterval s); cbn; lia.
  - intros E. apply stopPolling_ok in Hok as (_ & ? & _ & ?); done.
Qed.

Definition no_options : PartialOptions := POptions (Some true) None None None.

Lemma polling_sequential_witness :
  exists s, run_sequential (new_service no_options false 0 0) [Start; Health 0 true; FirstPoll 0 None; Tick 0 None]
    = Some s /\ length (timers s) <= 1 /\ isPolling s = true.
Proof.
  eexists. split; [reflexivity|].
  destruct (polling_sequential no_options false 0 0 [Start; Health 0 true; FirstPoll 0 None; Tick 0 None] _ eq_refl)
    as (_ & H & _).
  split; [exact H|reflexivity].
Defined.

(** [stopPolling] while the first poll of a [startPolling] is under way, then
    a new [startPolling]. *)
Definition stop_during_start : list event := [Start; Health 0 true; Stop; FirstPoll 0 None].
Definition restart : list event := [Start; Health 0 true; FirstPoll 0 None].

(** [stopPolling] during the first poll of [startPolling] does not stop
    it: a timer is then running although the service says it is not polling,
    and after the next [startPolling] no sequence of calls ever clears that
    timer. *)
Theorem stop_during_start_leaks o live interval now
    (Henabled : enabled (options (new_service o live interval now)) = true) :
  (exists s, run (new_service o live interval now) stop_during_start = Some s /\
     isPolling s = false /\ timers s = [0]) /\
  forall es s', run (new_service o live interval now) (stop_during_start ++ restart ++ es) = Some s' ->
    0 ∈ timers s'.
Proof.
  set (s0 := new_service o live interval now) in *.
  assert (exists s1, run s0 (stop_during_start ++ restart) = Some s1 /\ orphan 0 s1) as (s1 & H1 & Ho).
  { unfold stop_during_start, restart. cbn. unfold startPolling at 2. cbn in Henabled |- *. rewrite Henabled. cbn.
    unfold startPolling. cbn. rewrite Henabled. cbn. eexists. split; [reflexivity|]. unfold orphan. cbn.
    split_and!; [by left|done|lia]. }
  split.
  - unfold stop_during_start. cbn. unfold startPolling. cbn in Henabled |- *. rewrite Henabled. cbn.
    by eexists.
  - intros es s' Hr. rewrite app_assoc, run_app, H1 in Hr. by apply run_orphan with (h := 0) in Hr as [? _].
Qed.

Lemma stop_during_start_leaks_witness :
  exists s, run (new_service no_options false 0 0) stop_during_start = Some s /\
     isPolling s = false /\ timers s = [0].
Proof. apply (stop_during_start_leaks no_options false 0 0). reflexivity. Defined.
