(* ===== verification/Pipeline.v ===== *)
(** * The data pipeline

    [DataPipeline] of
    src/ecosystem/ai-tools/mcp/graphq-llm/src/pipeline/data-pipeline.ts: running
    a query with its metrics captured, and the schema kept for five minutes.
    The code is in a monad over the pipeline's state and a tick that counts
    the readings of the clock and the calls of the GraphQL service, so that
    each may give another answer; calls of the pipeline run one after the
    other. *)

From S2P Require Import Prelude JsString JsArray JsNum Json Http ResLens LiveStats GraphqlClient Nexus.

Record DataPipeline := Pipeline {
  resLensClient : ResLensClient;
  liveStatsService : LiveStatsService;
  schemaCache : option SchemaContext;
  schemaCacheExpiry : option Z;
}.

Record PipelineData := PData {
  d_query : GraphQLQuery;
  d_metrics : option QueryExecutionMetrics;
  d_schemaContext : SchemaContext;
  d_timestamp : Z;
}.

(** The state of the pipeline, the tick, and the requests sent to ResLens. *)
Record world := World { pipe : DataPipeline; tick : nat; sent : list request }.

(** ** The monad *)

Definition M (A : Type) : Type := world -> world * result A.

#[export] Instance M_ret : MRet M := fun A a w => (w, Ok a).
#[export] Instance M_bind : MBind M := fun A B k c w =>
  match c w with
  | (w', Ok a) => k a w'
  | (w', Throw e) => (w', Throw e)
  end.

Definition throw {A} (e : str) : M A := fun w => (w, Throw e).
Definition catch {A} (c : M A) (handler : str -> M A) : M A := fun w =>
  match c w with
  | (w', Ok a) => (w', Ok a)
  | (w', Throw e) => handler e w'
  end.
Definition this : M DataPipeline := fun w => (w, Ok (pipe w)).

(** A call of an outside service, which answers by the tick. *)
Definition call {A} (service : nat -> result A) : M A :=
  fun w => (World (pipe w) (S (tick w)) (sent w), service (tick w)).

Section pipeline.
Context (clock : nat -> Z).
(** [Math.random().toString(36).substring(2, 9)] *)
Context (random : nat -> str).
(** The GraphQL service. *)
Context (request : nat -> str -> option json -> jsmap str str -> result (option json)).
Context (requestSchema : nat -> str -> result (option rawSchema)).
Context (stringifySchema : rawSchema -> str) (stringifyResult : json -> str).
Context (stringifyMetrics : QueryExecutionMetrics -> str).

Definition Date_now : M Z := call (fun k => Ok (clock k)).

Definition generateQueryId : M str :=
  t ← Date_now;
  r ← call (fun k => Ok (random k));
  mret (js "query_" ++ str_of_Z t ++ js "_" ++ r).

(** The length of the serialised result; [JSON.stringify(undefined)] has
    none. *)
Definition estimateResultSize (r : option json) : M Z :=
  match r with
  | Some v => mret (Z.of_nat (length (stringifyResult v)))
  | None => throw (js "Cannot read properties of undefined (reading 'length')")
  end.

Definition cacheTTL : Z := 5 * 60 * 1000.

(** The introspection at a tick. *)
Definition introspected (k : nat) : result SchemaContext :=
  introspectSchema (requestSchema k) stringifySchema.

Definition set_schema (s : SchemaContext) (expiry : Z) : M unit := fun w =>
  (World (Pipeline (resLensClient (pipe w)) (liveStatsService (pipe w)) (Some s) (Some expiry))
     (tick w) (sent w), Ok tt).

Definition refreshSchema : M SchemaContext :=
  s ← call introspected;
  now ← Date_now;
  _ ← set_schema s (now + cacheTTL)%Z;
  mret s.

Definition getSchemaContext (forceRefresh : bool) : M SchemaContext :=
  p ← this;
  match forceRefresh, schemaCache p, schemaCacheExpiry p with
  | false, Some s, Some expiry =>
      now ← Date_now;
      if (now <? expiry)%Z then mret s else refreshSchema
  | _, _, _ => refreshSchema
  end.

(** [this.resLensClient.captureMetrics(...)] *)
Definition capture_at (now : Z) (id q : str) (time : num) (ok : bool) (data : PartialMetrics)
    : M QueryExecutionMetrics := fun w =>
  let '(c, m, reqs) :=
    captureMetrics stringifyMetrics now (resLensClient (pipe w)) id q time ok (Some data) in
  (World (Pipeline c (liveStatsService (pipe w)) (schemaCache (pipe w)) (schemaCacheExpiry (pipe w)))
     (tick w) (sent w ++ reqs), Ok m).

Definition capture (id q : str) (time : num) (ok : bool) (data : PartialMetrics)
    : M QueryExecutionMetrics :=
  now ← Date_now; capture_at now id q time ok data.

Definition with_size (n : Z) : PartialMetrics := Partial None None None None None None (Some n) None None.
Definition with_error (e : str) : PartialMetrics := Partial None None None None None (Some e) None None None.

(** The body of the [try] block, and the [catch] block. *)
Definition attempt (q : GraphQLQuery) (captureMetrics : bool) (startTime : Z) (queryId : str)
    : M PipelineData :=
  schemaContext ← getSchemaContext false;
  result ← call (fun k => executeQuery (request k) q);
  t ← Date_now;
  metrics ← (if captureMetrics then
               n ← estimateResultSize result;
               m ← capture queryId (g_query q) (of_Z (t - startTime)) true (with_size n);
               mret (Some m)
             else mret None);
  now ← Date_now;
  mret (PData q metrics schemaContext now).

Definition onError (q : GraphQLQuery) (captureMetrics : bool) (startTime : Z) (queryId e : str)
    : M PipelineData :=
  t ← Date_now;
  _ ← (if captureMetrics then
         m ← capture queryId (g_query q) (of_Z (t - startTime)) false (with_error e); mret tt
       else mret tt);
  throw e.

Definition processQuery (q : GraphQLQuery) (captureMetrics : bool) : M PipelineData :=
  startTime ← Date_now;
  queryId ← generateQueryId;
  catch (attempt q captureMetrics startTime queryId) (onError q captureMetrics startTime queryId).

(** ** The other operations *)

Definition getQueryMetrics parseDate fetchOne (p : DataPipeline) (queryId : str) : option QueryExecutionMetrics :=
  ResLens.getMetrics parseDate fetchOne (resLensClient p) queryId.

Definition getQueryStatistics parseDate urlWithParam fetchList (now : Z) (p : DataPipeline) (queryPattern : str)
    : list QueryExecutionMetrics :=
  ResLens.getQueryStats parseDate urlWithParam fetchList now (resLensClient p) queryPattern.

Record health := Health { h_resilientdb : bool; h_reslens : bool; h_liveStats : bool; h_nexus : bool }.

(** The health checks of ResLens and of Nexus are those of ResLens.v and
    Nexus.v; the live statistics ask ResLens again. *)
Definition healthCheck (fetchHealth : nat -> Http.request -> result (response unit))
    (nexus : nat -> nexusConnection) : M health :=
  p ← this;
  reslens ← call (fun k => Ok (ResLens.healthCheck (fetchHealth k) (resLensClient p)));
  live ← call (fun k => Ok (ResLens.healthCheck (fetchHealth k) (resLensClient p)));
  nexus ← call (fun k => Ok (n_connected (nexus k)));
  resilientdb ← catch (_ ← call introspected; mret true) (fun _ => mret false);
  mret (Health resilientdb reslens live nexus).

Definition with_live (p : DataPipeline) (s : LiveStatsService) : DataPipeline :=
  Pipeline (resLensClient p) s (schemaCache p) (schemaCacheExpiry p).

Definition startLiveStats (p : DataPipeline) : DataPipeline := with_live p (startPolling (liveStatsService p)).
Definition stopLiveStats (p : DataPipeline) : DataPipeline := with_live p (stopPolling (liveStatsService p)).
Definition getLiveStats (p : DataPipeline) : LiveStats := LiveStats.getLiveStats (liveStatsService p).

(** ** Effects of the operations *)

(** The cached schema is the answer of an introspection, and its expiry five
    minutes after the reading of the clock that followed. *)
Definition cached_ok (w : world) : Prop :=
  forall s e, schemaCache (pipe w) = Some s -> schemaCacheExpiry (pipe w) = Some e ->
  exists j, S j < tick w /\ introspected j = Ok s /\ e = (clock (S j) + cacheTTL)%Z.

(** What a step leaves alone, and the invariant. *)
Record quiet (w w' : world) : Prop := {
  q_client : resLensClient (pipe w') = resLensClient (pipe w);
  q_sent : sent w' = sent w;
  q_tick : tick w <= tick w';
  q_cached : cached_ok w -> cached_ok w';
}.

Lemma quiet_tick w : quiet w (World (pipe w) (S (tick w)) (sent w)).
Proof.
  split; cbn; [done|done|lia|]. intros H s e Hs He. destruct (H s e Hs He) as (j & ? & ? & ?).
  exists j. split_and!; [cbn; lia|done|done].
Qed.

Lemma quiet_trans w1 w2 w3 : quiet w1 w2 -> quiet w2 w3 -> quiet w1 w3.
Proof. intros [] []. split; [congruence|congruence|lia|auto]. Qed.

Lemma refreshSchema_spec w :
  quiet w (refreshSchema w).1 /\ (refreshSchema w).2 = introspected (tick w).
Proof.
  cbv [refreshSchema mbind M_bind mret M_ret call Date_now set_schema]. cbn.
  destruct (introspected (tick w)) as [s|e] eqn:E; cbn; [|split; [apply quiet_tick|done]].
  split; [|done]. split; cbn; [done|done|lia|].
  intros _ s' e' [= <-] [= <-]. exists (tick w). split_and!; [cbn; lia|done|done].
Qed.

Lemma getSchemaContext_quiet force w : quiet w (getSchemaContext force w).1.
Proof.
  cbv [getSchemaContext mbind M_bind mret M_ret this]. cbn [fst].
  destruct force; [apply refreshSchema_spec|].
  destruct (schemaCache (pipe w)) as [s|]; [|apply refreshSchema_spec].
  destruct (schemaCacheExpiry (pipe w)) as [e|]; [|apply refreshSchema_spec].
  cbv [Date_now call]. cbn [fst].
  destruct (_ <? _)%Z; cbn [fst]; [apply quiet_tick|].
  eapply quiet_trans; [apply quiet_tick|apply refreshSchema_spec].
Qed.

(** What [capture] does is one more capture in the client's history. *)
Lemma capture_spec id q time ok data w :
  let x := Capture (clock (tick w)) id q time ok (Some data) in
  let w' := (capture id q time ok data w).1 in
  (capture id q time ok data w).2 = Ok (metrics_of stringifyMetrics x) /\
  resLensClient (pipe w') = capture_one stringifyMetrics (resLensClient (pipe w)) x /\
  tick w' = S (tick w) /\
  schemaCache (pipe w') = schemaCache (pipe w) /\ schemaCacheExpiry (pipe w') = schemaCacheExpiry (pipe w).
Proof. done. Qed.

(** The same for a client and the metrics it was given. *)
Definition recorded (c c' : ResLensClient) (m : QueryExecutionMetrics) : Prop :=
  recentQueries c' = take 100 (m :: recentQueries c) /\ map_get (metricsStorage c') (queryId m) = Some m.

Lemma capture_one_recorded c x :
  p_queryId <$> c_data x = Some None -> recorded c (capture_one stringifyMetrics c x) (metrics_of stringifyMetrics x).
Proof.
  intros Hid. split; [apply capture_one_recent|].
  unfold capture_one, metrics_of, captureMetrics. destruct (c_data x) as [p|]; [|done].
  cbn in Hid. injection Hid as Hid. cbn. rewrite Hid. cbn. apply map_get_set_eq.
Qed.

(** The metrics captured for a call that started at [start] and gave [r]. *)
Record accounts (q : GraphQLQuery) (start : Z) (r : result PipelineData) (m : QueryExecutionMetrics) : Prop := {
  a_query : ResLens.query m = g_query q;
  a_success : success m = is_ok r;
  a_error : error m = match r with Throw e => Some e | Ok _ => None end;
  a_time : exists k, executionTime m = of_Z (clock k - start);
  a_result : forall d, r = Ok d -> d_metrics d = Some m /\
    exists k v, executeQuery (request k) q = Ok (Some v) /\
      resultSize m = Some (Z.of_nat (length (stringifyResult v)));
}.

(** The handler of [processQuery]: one failed execution is captured. *)
Lemma onError_accounts q start id e w :
  let h := onError q true start id e w in
  h.2 = Throw e /\
  exists m, recorded (resLensClient (pipe w)) (resLensClient (pipe h.1)) m /\ accounts q start (Throw e) m.
Proof.
  intros h. split; [done|].
  set (x := Capture (clock (S (tick w))) id (g_query q) (of_Z (clock (tick w) - start)) false (Some (with_error e))).
  exists (metrics_of stringifyMetrics x). split.
  - change (resLensClient (pipe h.1)) with (capture_one stringifyMetrics (resLensClient (pipe w)) x).
    by apply capture_one_recorded.
  - split; cbn; [done|done|done|by eexists|done].
Qed.

(** The body: a success is captured, a failure leaves the client alone. *)
Lemma attempt_accounts q start id w :
  let a := attempt q true start id w in
  if is_ok a.2
  then exists m, recorded (resLensClient (pipe w)) (resLensClient (pipe a.1)) m /\ accounts q start a.2 m
  else resLensClient (pipe a.1) = resLensClient (pipe w).
Proof.
  intros a. subst a. unfold attempt. cbv [mbind M_bind]. cbn beta iota.
  pose proof (q_client _ _ (getSchemaContext_quiet false w)) as Hq.
  destruct (getSchemaContext false w) as [w1 [s|e]]; cbn [fst snd] in *; [|exact Hq].
  cbv [call]. destruct (executeQuery (request (tick w1)) q) as [[v|]|e] eqn:Er; cbn; [|exact Hq..].
  set (x := Capture (clock (S (S (tick w1)))) id (g_query q) (of_Z (clock (S (tick w1)) - start)) true
    (Some (with_size (Z.of_nat (length (stringifyResult v)))))).
  exists (metrics_of stringifyMetrics x). split.
  - rewrite <- Hq.
    change (recorded (resLensClient (pipe w1)) (capture_one stringifyMetrics (resLensClient (pipe w1)) x)
      (metrics_of stringifyMetrics x)).
    by apply capture_one_recorded.
  - split; cbn; [done|done|done|by eexists|]. intros d [= <-]. cbn. split; [done|]. by eexists _, v.
Qed.

(** ** Reachable states *)

Definition new_pipeline (c : ResLensClient) (l : LiveStatsService) : DataPipeline := Pipeline c l None None.

Inductive reachable : world -> Prop :=
| reach_new c l k : reachable (World (new_pipeline c l) k [])
| reach_process q b w : reachable w -> reachable (processQuery q b w).1
| reach_schema force w : reachable w -> reachable (getSchemaContext force w).1
| reach_health f n w : reachable w -> reachable (healthCheck f n w).1
| reach_live e w l : reachable w -> LiveStats.handle (liveStatsService (pipe w)) e = Some l ->
    reachable (World (with_live (pipe w) l) (tick w) (sent w)).

(** Steps that keep the invariant of the cache. *)
Definition keeps (w w' : world) : Prop := cached_ok w -> cached_ok w'.

Lemma keeps_cache w w' :
  schemaCache (pipe w') = schemaCache (pipe w) -> schemaCacheExpiry (pipe w') = schemaCacheExpiry (pipe w) ->
  tick w <= tick w' -> keeps w w'.
Proof.
  intros E1 E2 Ht H s e. rewrite E1, E2. intros Hs He. destruct (H s e Hs He) as (j & ? & ? & ?).
  exists j. split_and!; [lia|done|done].
Qed.

Lemma attempt_keeps q b start id w : keeps w (attempt q b start id w).1.
Proof.
  unfold attempt. cbv [mbind M_bind]. cbn beta iota.
  pose proof (q_cached _ _ (getSchemaContext_quiet false w)) as Hq.
  destruct (getSchemaContext false w) as [w1 [s|e]]; cbn [fst snd] in *; [|exact Hq].
  intros H. specialize (Hq H). revert Hq. cbv [call].
  destruct (executeQuery (request (tick w1)) q) as [[v|]|e], b; apply keeps_cache; cbn; first [done|lia|repeat constructor].
Qed.

Lemma processQuery_keeps q b w : keeps w (processQuery q b w).1.
Proof.
  cbv [processQuery mbind M_bind generateQueryId Date_now call mret M_ret catch]. cbn [fst snd tick pipe sent].
  set (w3 := World (pipe w) (S (S (S (tick w)))) (sent w)).
  intros H. assert (cached_ok w3) as H3 by (revert H; apply keeps_cache; cbn; done || lia).
  pose proof (attempt_keeps q b (clock (tick w))
    (js "query_" ++ str_of_Z (clock (S (tick w))) ++ js "_" ++ random (S (S (tick w)))) w3 H3) as Ha.
  destruct (attempt _ _ _ _ w3) as [w4 [d|e]]; cbn [fst snd] in *; [done|].
  revert Ha. destruct b; apply keeps_cache; cbn; first [done|lia|repeat constructor].
Qed.

Lemma reachable_cached w : reachable w -> cached_ok w.
Proof.
  induction 1 as [c l k|q b w _ IH|force w _ IH|f n w _ IH|e w l _ IH He].
  - by intros s e.
  - by apply processQuery_keeps.
  - by apply (q_cached _ _ (getSchemaContext_quiet force w)).
  - revert IH. cbv [healthCheck mbind M_bind catch call this]. cbn [fst snd tick pipe sent].
    destruct (introspected _); apply keeps_cache; cbn; done || lia.
  - revert IH. apply keeps_cache; cbn; done || lia.
Qed.
End pipeline.

(** ** The properties *)

(** C29: a query run with metrics adds exactly one execution to the ResLens
    history, whatever the GraphQL service answers: it has the query's text,
    it is a success exactly when the call returns (and then it is the one
    returned, with the size of a result the service gave), an error with the
    message thrown otherwise, and its time is counted from the start of the
    call. *)
Theorem processQuery_accounts clock random request requestSchema stringifySchema stringifyResult
    stringifyMetrics q w :
  let run := processQuery clock random request requestSchema stringifySchema stringifyResult
               stringifyMetrics q true w in
  exists m, recorded (resLensClient (pipe w)) (resLensClient (pipe run.1)) m /\
    accounts clock request stringifyResult q (clock (tick w)) run.2 m.
Proof.
  cbv [processQuery mbind M_bind generateQueryId Date_now call mret M_ret catch]. cbn [fst snd tick pipe sent].
  set (id := js "query_" ++ _). set (w3 := World (pipe w) (S (S (S (tick w)))) (sent w)).
  pose proof (attempt_accounts clock request requestSchema stringifySchema stringifyResult stringifyMetrics
    q (clock (tick w)) id w3) as Ha.
  cbn zeta in Ha. destruct (attempt _ _ _ _ _ _ _ _ _ _ w3) as [w4 [d|e]]; cbn [fst snd is_ok] in *; [exact Ha|].
  destruct (onError_accounts clock request stringifyResult stringifyMetrics q (clock (tick w)) id e w4)
    as [E (m & Hm & Hr)].
  exists m. rewrite E. change (resLensClient (pipe w)) with (resLensClient (pipe w3)). by rewrite <- Ha.
Qed.

(** In every state the pipeline can reach, the schema [getSchemaContext]
    answers is what one introspection gave, either one made by this call or,
    when no refresh is forced, one whose answer came less than five minutes
    ago; a failed introspection leaves the cached schema and its expiry as
    they were. *)
Theorem schema_fresh clock random request requestSchema stringifySchema stringifyResult stringifyMetrics
    force w
    (Hreach : reachable clock random request requestSchema stringifySchema stringifyResult stringifyMetrics w) :
  let run := getSchemaContext clock requestSchema stringifySchema force w in
  match run.2 with
  | Ok s =>
      exists j, introspected requestSchema stringifySchema j = Ok s /\ S j < tick run.1 /\
        (tick w <= j \/ force = false /\ (clock (tick w) < clock (S j) + 300000)%Z)
  | Throw _ =>
      schemaCache (pipe run.1) = schemaCache (pipe w) /\ schemaCacheExpiry (pipe run.1) = schemaCacheExpiry (pipe w)
  end.
Proof.
  apply reachable_cached in Hreach. revert Hreach.
  assert (forall w0, tick w <= tick w0 -> pipe w0 = pipe w ->
    let run := refreshSchema clock requestSchema stringifySchema w0 in
    match run.2 with
    | Ok s => exists j, introspected requestSchema stringifySchema j = Ok s /\ S j < tick run.1 /\
        (tick w <= j \/ force = false /\ (clock (tick w) < clock (S j) + 300000)%Z)
    | Throw _ => schemaCache (pipe run.1) = schemaCache (pipe w) /\
        schemaCacheExpiry (pipe run.1) = schemaCacheExpiry (pipe w)
    end) as Hrefresh.
  { intros w0 Ht Hp. cbv [refreshSchema mbind M_bind mret M_ret call Date_now set_schema]. cbn.
    destruct (introspected requestSchema stringifySchema (tick w0)) as [s|e] eqn:E; cbn; [|by rewrite Hp].
    exists (tick w0). split_and!; [done|lia|by left]. }
  intros Hok. cbv [getSchemaContext mbind M_bind mret M_ret this]. cbn [fst snd].
  destruct force; [by apply Hrefresh|].
  destruct (schemaCache (pipe w)) as [s|] eqn:Es; [|by apply Hrefresh].
  destruct (schemaCacheExpiry (pipe w)) as [e|] eqn:Ee; [|by apply Hrefresh].
  cbv [Date_now call]. cbn [fst snd].
  destruct (_ <? _)%Z eqn:El; cbn [fst snd tick]; [|apply Hrefresh; cbn; done || lia].
  destruct (Hok s e Es Ee) as (j & ? & ? & ->). exists j. split_bools. unfold cacheTTL in *.
  split_and!; [done|lia|right; split; [done|lia]].
Qed.

Definition demo_schema (k : nat) (q : str) : result (option rawSchema) :=
  if (k =? 0)%nat then Ok (Some (RawSchema None None None)) else Throw (js "down").

Lemma schema_fresh_witness :
  exists s, (getSchemaContext (fun k => Z.of_nat k) demo_schema (fun _ => []) false
    (getSchemaContext (fun k => Z.of_nat k) demo_schema (fun _ => []) false
       (World (new_pipeline (new_client None None) (LiveStats.new_service (POptions None None None None) false 0 0)) 0 [])).1).2 = Ok s.
Proof.
  pose proof (schema_fresh (fun k => Z.of_nat k) (fun _ => []) (fun _ _ _ _ => Throw []) demo_schema (fun _ => [])
    (fun _ => []) (fun _ => []) false
    (getSchemaContext (fun k => Z.of_nat k) demo_schema (fun _ => []) false
       (World (new_pipeline (new_client None None) (LiveStats.new_service (POptions None None None None) false 0 0)) 0 [])).1
    (reach_schema _ _ _ _ _ _ _ _ _ (reach_new _ _ _ _ _ _ _ _ _ _))) as H.
  cbn zeta in H. destruct (getSchemaContext _ _ _ _ _).2 as [s|e] eqn:E; [by exists s|].
  exfalso. vm_compute in E. discriminate.
Defined.
