(* ===== verification/Efficiency.v ===== *)
(** * Efficiency estimation

    [EfficiencyEstimator] of
    src/ecosystem/ai-tools/mcp/graphq-llm/src/services/efficiency-estimator.ts:
    execution time, resources, score, confidence and category of a query from
    its analysis and the similar executions ResLens knows.  Times and
    similarities are binary64 numbers, counts and scores integers. *)

From S2P Require Import Prelude JsString JsArray JsNum Http ResLens QueryAnalyzer.

Record SimilarQuery := Similar { sq_query : str; sq_executionTime : num; similarity : num }.

Inductive category := Excellent | Good | Moderate | Poor | Critical.
#[export] Instance category_dec : EqDecision category.
Proof. solve_decision. Defined.

Record EstimatedUsage := EUsage { e_cpu : num; e_memory : Z; e_network : Z }.

Record EfficiencyEstimate := EEstimate {
  estimatedExecutionTime : num;
  estimatedUsage : EstimatedUsage;
  efficiencyScore : Z;
  confidence : num;
  similarQueries : option (list SimilarQuery);
  performanceCategory : category;
  recommendations : option (list str);
}.

(** ** Patterns *)

(** [(?:query|mutation|subscription)\s+(\w+)] at the head, ignoring case. *)
Definition operation_at (s : str) : option str :=
  let after (k : str) :=
    if is_prefix k (toLowerCase s) then
      let s1 := drop (length k) s in
      let w := run_length is_space s1 in
      let s2 := drop w s1 in
      let n := run_length is_word s2 in
      if (0 <? w)%nat && (0 <? n)%nat then Some (take n s2) else None
    else None in
  or_else (after (js "query")) (or_else (after (js "mutation")) (after (js "subscription"))).

(** [\{?\s*(\w+)] at the head. *)
Definition field_at (s : str) : option str :=
  let s1 := match s with c :: s' => if is_brace c then s' else s | [] => [] end in
  let s2 := drop (run_length is_space s1) s1 in
  let n := run_length is_word s2 in
  if (0 <? n)%nat then Some (take n s2) else None.

(** The leftmost match of a pattern. *)
Fixpoint first_match (f : str -> option str) (s : str) : option str :=
  match f s with
  | Some m => Some m
  | None => match s with [] => None | _ :: s' => first_match f s' end
  end.

Definition extractQueryPattern (query : str) : str :=
  match first_match operation_at query with
  | Some name => name
  | None => match first_match field_at query with
            | Some name => name
            | None => substring query 0 50
            end
  end.

(** ** Similarity *)

Definition words (query : str) : gset str :=
  set_of (split_ws (trim (collapse_ws (toLowerCase query) false))).

Definition calculateQuerySimilarity (query1 query2 : str) : num :=
  let intersection := words query1 ∩ words query2 in
  let union := words query1 ∪ words query2 in
  ndiv (of_Z (Z.of_nat (base.size intersection))) (of_Z (Z.of_nat (base.size union))).

Definition rankSimilar (query : str) (metrics : list QueryExecutionMetrics) : list SimilarQuery :=
  take 5
    (sort_desc similarity
       (filterb (fun sq => nle (dec 3 10) (similarity sq))
          ((fun m => Similar (ResLens.query m) (ResLens.executionTime m)
                       (calculateQuerySimilarity query (ResLens.query m))) <$> metrics))).

(** ** Estimates *)

Definition baseTime (a : QueryAnalysis) : Z :=
  (fieldCount a * 10 + depth a * 20 +
  match complexity a with High => 50 | Medium => 25 | Low => 0 end)%Z.

Definition estimateExecutionTime (a : QueryAnalysis) (similar : list SimilarQuery) : num :=
  let base := of_Z (baseTime a) in
  match similar with
  | [] => nround base
  | _ =>
      let totalSimilarity := foldl (fun sum sq => nadd sum (similarity sq)) nzero similar in
      let weightedTime := foldl (fun sum sq => nadd sum (nmul (sq_executionTime sq) (similarity sq))) nzero similar in
      if nlt nzero totalSimilarity then
        let avgSimilarTime := ndiv weightedTime totalSimilarity in
        nround (nadd (nmul avgSimilarTime (dec 7 10)) (nmul base (dec 3 10)))
      else nround base
  end.

Definition estimateUsage (a : QueryAnalysis) (executionTime : num) : EstimatedUsage :=
  EUsage
    (nround (nmin (of_Z 100) (nadd (of_Z (fieldCount a * 2)) (ndiv executionTime (of_Z 10)))))
    (fieldCount a * 5 + depth a * 10)%Z
    (fieldCount a * 2)%Z.

Local Open Scope Z_scope.
Definition calculateEfficiencyScore (a : QueryAnalysis) (executionTime : num) (usage : EstimatedUsage) : Z :=
  let gt (x : num) (n : Z) := nlt (of_Z n) x in
  let time :=
    if gt executionTime 1000 then 30 else if gt executionTime 500 then 20
    else if gt executionTime 200 then 10 else 0 in
  let cpu :=
    if truthy_num (e_cpu usage) && gt (e_cpu usage) 80 then 15
    else if truthy_num (e_cpu usage) && gt (e_cpu usage) 50 then 10 else 0 in
  let memory := if 100 <? e_memory usage then 15 else if 50 <? e_memory usage then 10 else 0 in
  let fields := if 30 <? fieldCount a then 20 else if 15 <? fieldCount a then 10 else 0 in
  let nesting := if 5 <? depth a then 20 else if 3 <? depth a then 10 else 0 in
  let level := match complexity a with High => 15 | Medium => 10 | Low => 0 end in
  let opportunities := Z.min 20 (Z.of_nat (length (opportunities a)) * 5) in
  let score := 100 - time - cpu - memory - fields - nesting - level - opportunities in
  Z.max 0 (Z.min 100 score).

Local Close Scope Z_scope.

Definition calculateConfidence (a : QueryAnalysis) (similar : list SimilarQuery) (useLiveStats : bool) : num :=
  let c := dec 5 10 in
  let c := match similar with [] => c | _ => nadd c (dec 3 10) end in
  let c := if ((fieldCount a <? 10) && (depth a <? 3))%Z then nadd c (dec 1 10) else c in
  let c := if useLiveStats then nadd c (dec 1 10) else c in
  nmin none c.

Definition determinePerformanceCategory (score : Z) (executionTime : num) : category :=
  if (80 <=? score)%Z && nlt executionTime (of_Z 200) then Excellent
  else if (60 <=? score)%Z && nlt executionTime (of_Z 500) then Good
  else if (40 <=? score)%Z && nlt executionTime (of_Z 1000) then Moderate
  else if (20 <=? score)%Z then Poor
  else Critical.

Definition generateRecommendations (a : QueryAnalysis) (score : Z) (executionTime : num) : list str :=
  (if (score <? 60)%Z then [js "Consider optimizing this query to improve performance"] else []) ++
  (if nlt (of_Z 1000) executionTime
   then [js "Query execution time is high - consider adding filters or pagination"] else []) ++
  (if (20 <? fieldCount a)%Z then [js "Reduce the number of fields requested (over-fetching)"] else []) ++
  (if (5 <? depth a)%Z then [js "Reduce query depth to avoid N+1 problems"] else []) ++
  take 3 (description <$> opportunities a).

Definition non_empty {A} (l : list A) : option (list A) := match l with [] => None | _ => Some l end.

(** [getQueryStats] is the ResLens client; its failure is only reported. *)
Definition estimateEfficiency (getQueryStats : str -> result (list QueryExecutionMetrics))
    (query : str) (includeSimilarQueries useLiveStats : bool) : EfficiencyEstimate :=
  let analysis := analyze query in
  let similar :=
    if includeSimilarQueries then
      match getQueryStats (extractQueryPattern query) with
      | Ok similarMetrics => rankSimilar query similarMetrics
      | Throw _ => []
      end
    else [] in
  let time := estimateExecutionTime analysis similar in
  let usage := estimateUsage analysis time in
  let score := calculateEfficiencyScore analysis time usage in
  EEstimate time usage score (calculateConfidence analysis similar useLiveStats) (non_empty similar)
    (determinePerformanceCategory score time)
    (non_empty (generateRecommendations analysis score time)).

Definition checkAvailability (health : bool) : bool * bool := (health, true).

(** ** Lemmas *)

Lemma rankSimilar_candidates q ms :
  Forall (fun sq => num_ok (similarity sq))
    (filterb (fun sq => nle (dec 3 10) (similarity sq))
       ((fun m => Similar (ResLens.query m) (ResLens.executionTime m)
                    (calculateQuerySimilarity q (ResLens.query m))) <$> ms)).
Proof. apply Forall_forall. intros sq [_ H]%elem_of_filterb. by eapply nle_ok_r. Qed.

(** A threshold passed by the smaller of two numbers is passed by the
    larger. *)
Lemma threshold_mono n t1 t2 :
  num_ok t1 -> num_ok t2 -> nlt t2 t1 = false ->
  nlt (of_Z n) t1 = true -> num_ok (of_Z n) -> nlt (of_Z n) t2 = true.
Proof.
  intros H1 H2 Hle Hlt Hn. apply not_false_is_true. intros E.
  pose proof (nle_trans t1 t2 (of_Z n) H1 H2 Hn Hle E). congruence.
Qed.

Lemma below_mono n t1 t2 :
  num_ok t1 -> num_ok t2 -> nlt t2 t1 = false ->
  nlt t2 (of_Z n) = true -> num_ok (of_Z n) -> nlt t1 (of_Z n) = true.
Proof.
  intros H1 H2 Hle Hlt Hn. apply not_false_is_true. intros E.
  pose proof (nle_trans (of_Z n) t1 t2 Hn H1 H2 E Hle). congruence.
Qed.

(** Position in the order excellent, good, moderate, poor, critical. *)
Definition rank (c : category) : nat :=
  match c with Excellent => 0 | Good => 1 | Moderate => 2 | Poor => 3 | Critical => 4 end.

Lemma category_mono s1 s2 t1 t2 :
  num_ok t1 -> num_ok t2 -> nlt t2 t1 = false -> (s2 <= s1)%Z ->
  rank (determinePerformanceCategory s1 t1) <= rank (determinePerformanceCategory s2 t2).
Proof.
  intros H1 H2 Hle Hs. unfold determinePerformanceCategory.
  pose proof (fun n => below_mono n t1 t2 H1 H2 Hle) as B.
  specialize (B 200%Z) as B2. specialize (B 500%Z) as B5. specialize (B 1000%Z) as B10.
  destruct (nlt t2 (of_Z 200)); [rewrite B2 by done|]; clear B2;
  (destruct (nlt t2 (of_Z 500)); [rewrite B5 by done|]; clear B5);
  (destruct (nlt t2 (of_Z 1000)); [rewrite B10 by done|]; clear B10);
  rewrite ?andb_true_r, ?andb_false_r;
  repeat match goal with |- context [if ?b then _ else _] => destruct b eqn:?; cbn [rank] end;
  split_bools; lia.
Qed.

(** ** The properties *)

(** The similar queries of an estimate are the best matches ResLens
    knows: at most five, each one of the reported executions with similarity
    at least 0.3, in descending order, and no execution left out is more
    similar than one that is listed (none is left out while there is
    room). *)
Theorem rankSimilar_best q ms :
  let l := rankSimilar q ms in
  let mk := fun m => Similar (ResLens.query m) (ResLens.executionTime m)
                       (calculateQuerySimilarity q (ResLens.query m)) in
  length l <= 5 /\ StronglySorted (ranked similarity) l /\
  (forall sq, sq ∈ l -> nle (dec 3 10) (similarity sq) = true /\ exists m, m ∈ ms /\ sq = mk m) /\
  (forall m, m ∈ ms -> nle (dec 3 10) (similarity (mk m)) = true -> mk m ∉ l ->
     length l = 5 /\ forall sq, sq ∈ l -> ranked similarity sq (mk m)).
Proof.
  intros l mk. pose proof (rankSimilar_candidates q ms) as Hok. fold mk in Hok.
  unfold l, rankSimilar. fold mk. set (cands := filterb _ _) in *.
  split_and!.
  - rewrite length_take. lia.
  - by apply StronglySorted_take, sort_desc_sorted.
  - intros sq Hsq. apply elem_of_take_sub, elem_of_sort_desc, elem_of_filterb in Hsq as [Hm Hs].
    apply list_elem_of_fmap in Hm as (m & -> & Hm).
    split; [done|]. by exists m.
  - intros m Hm Hs Hout.
    assert (mk m ∈ sort_desc similarity cands) as Hin.
    { apply elem_of_sort_desc, elem_of_filterb. split; [|done]. apply list_elem_of_fmap. by exists m. }
    rewrite <- (take_drop 5) in Hin. apply elem_of_app in Hin as [?|Hin]; [done|].
    split.
    + assert (0 < length (drop 5 (sort_desc similarity cands))) by (destruct (drop _ _); [set_solver|cbn; lia]).
      rewrite length_drop in H. rewrite length_take. lia.
    + intros sq Hsq. by eapply sort_desc_take_best.
Qed.

(** A slower execution never gets a better grade: for the same analysis
    and resource usage, a longer time gives a score that is not higher and a
    category that is not better. *)
Theorem slower_is_not_better a usage t1 t2
    (H1 : num_ok t1) (H2 : num_ok t2) (Hle : nlt t2 t1 = false) :
  let s1 := calculateEfficiencyScore a t1 usage in
  let s2 := calculateEfficiencyScore a t2 usage in
  (s2 <= s1)%Z /\
  rank (determinePerformanceCategory s1 t1) <= rank (determinePerformanceCategory s2 t2).
Proof.
  intros s1 s2. assert (s2 <= s1)%Z as Hs; [|split; [done|by apply category_mono]].
  unfold s1, s2, calculateEfficiencyScore.
  pose proof (fun n => threshold_mono n t1 t2 H1 H2 Hle) as T.
  pose proof (T 200%Z) as T2. pose proof (T 500%Z) as T5. pose proof (T 1000%Z) as T10.
  destruct (nlt (of_Z 200) t1); [rewrite T2 by done|]; clear T2;
  (destruct (nlt (of_Z 500) t1); [rewrite T5 by done|]; clear T5);
  (destruct (nlt (of_Z 1000) t1); [rewrite T10 by done|]; clear T10 T);
  repeat case_match; lia.
Qed.

Lemma slower_is_not_better_witness :
  rank (determinePerformanceCategory
    (calculateEfficiencyScore (analyze (js "{ a { b } }")) (of_Z 100) (EUsage (of_Z 5) 10 2)) (of_Z 100)) <=
  rank (determinePerformanceCategory
    (calculateEfficiencyScore (analyze (js "{ a { b } }")) (of_Z 700) (EUsage (of_Z 5) 10 2)) (of_Z 700)).
Proof.
  apply (slower_is_not_better (analyze (js "{ a { b } }")) (EUsage (of_Z 5) 10 2) (of_Z 100) (of_Z 700));
    reflexivity.
Defined.

(** An estimate is within its documented ranges: the score is in
    [0, 100], the confidence between 0.5 and 1, there are at most seven
    recommendations, and a failing ResLens client gives the estimate made
    without similar queries. *)
Theorem estimateEfficiency_ranges stats q sim live :
  let e := estimateEfficiency stats q sim live in
  (0 <= efficiencyScore e <= 100)%Z /\
  nle (dec 5 10) (confidence e) = true /\ nle (confidence e) none = true /\
  (forall l, recommendations e = Some l -> length l <= 7) /\
  (forall m, stats (extractQueryPattern q) = Throw m -> e = estimateEfficiency stats q false live).
Proof.
  intros e. unfold e, estimateEfficiency. cbn [efficiencyScore confidence recommendations].
  set (similar := if sim then _ else _). set (a := analyze q).
  split_and!.
  - unfold calculateEfficiencyScore. lia.
  - unfold calculateEfficiencyScore. lia.
  - unfold calculateConfidence. destruct similar, ((fieldCount a <? 10) && (depth a <? 3))%Z, live; reflexivity.
  - unfold calculateConfidence. destruct similar, ((fieldCount a <? 10) && (depth a <? 3))%Z, live; reflexivity.
  - intros l Hl. unfold non_empty in Hl. destruct (generateRecommendations _ _ _) as [|x r] eqn:E; [done|].
    injection Hl as <-. rewrite <- E. unfold generateRecommendations. rewrite !length_app.
    rewrite length_take. generalize (length (description <$> opportunities a)). intros n.
    repeat case_match; cbn [length]; lia.
  - intros m Hm. subst similar. rewrite Hm. by destruct sim.
Qed.
