(* ===== verification/KvStore.v ===== *)
(** * The HTTP wrapper of the key-value service

    [ResilientDBHTTPWrapper] of
    src/ecosystem/ai-tools/mcp/graphq-llm/src/resilientdb/http-wrapper.ts: the
    request handler over the module-level [store].  A request is its method,
    the pathname its URL parses to, and its body.  The store is a plain
    object: its own properties, and the prototype it inherits from, which is
    [Object.prototype] until a commit under [__proto__] replaces it by the
    committed object or array.  Array-index keys of ten digits or more are
    outside the model in the order of listings. *)

From S2P Require Import Prelude JsString JsArray JsNum Json Http.

(** [const store: KVStore = {}]: [proto = None] is [Object.prototype]. *)
Record KVStore := KvObject { own : jsmap str json; proto : option json }.
Definition empty_store : KVStore := KvObject [] None.

(** The methods every object, and every array, inherits. *)
Definition object_methods : list str :=
  js <$> ["constructor"; "__defineGetter__"; "__defineSetter__"; "hasOwnProperty"; "__lookupGetter__";
    "__lookupSetter__"; "isPrototypeOf"; "propertyIsEnumerable"; "toString"; "valueOf"; "toLocaleString"]%string.
Definition array_methods : list str :=
  js <$> ["at"; "concat"; "copyWithin"; "fill"; "find"; "findIndex"; "findLast"; "findLastIndex";
    "lastIndexOf"; "pop"; "push"; "reverse"; "shift"; "unshift"; "slice"; "sort"; "splice"; "includes";
    "indexOf"; "join"; "keys"; "entries"; "values"; "forEach"; "filter"; "flat"; "flatMap"; "map";
    "every"; "some"; "reduce"; "reduceRight"; "toReversed"; "toSorted"; "toSpliced"; "with"]%string.
Definition proto_name : str := js "__proto__".

(** What a property lookup finds. *)
Inductive found := Value (v : json) | Method | Undefined.

(** A property of the prototype a commit installed, below which only
    [Object.prototype] follows. *)
Definition proto_prop (p : option json) (key : str) : found :=
  match p with
  | Some (JObj o) => match map_get o key with Some v => Value v | None => Undefined end
  | Some (JArr l) =>
      if bool_decide (key = js "length") then Value (JNum (of_Z (Z.of_nat (length l))))
      else match list_find (fun i => key = str_of_Z (Z.of_nat i)) (seq 0 (length l)) with
           | Some (i, _) => match l !! i with Some v => Value v | None => Undefined end
           | None => if bool_decide (key ∈ array_methods) then Method else Undefined
           end
  | _ => Undefined
  end.

(** [store[key]] *)
Definition read (store : KVStore) (key : str) : found :=
  match map_get (own store) key with
  | Some v => Value v
  | None =>
      match proto_prop (proto store) key with
      | Undefined =>
          if bool_decide (key = proto_name) then Value (coalesce (proto store) (JObj []))
          else if bool_decide (key ∈ object_methods) then Method else Undefined
      | f => f
      end
  end.

(** [store[key] = value]: an own property, but the name [__proto__] reaches
    the setter of [Object.prototype] (unless a property of that name comes
    before it), which takes objects and ignores other values. *)
Definition assign (store : KVStore) (key : str) (value : json) : KVStore :=
  if bool_decide (key = proto_name) && negb (bool_decide (is_Some (map_get (own store) key)))
     && (match proto_prop (proto store) key with Undefined => true | _ => false end)
  then match value with
       | JObj _ | JArr _ => KvObject (own store) (Some value)
       | _ => store
       end
  else KvObject (map_set (own store) key value) (proto store).

Section wrapper.
(** [JSON.parse], and the property key of a value that is not a string,
    which throws for an object that hides [toString]. *)
Context (JSON_parse : str -> result json).
Context (toKey : json -> result str).

Definition key_of (v : json) : result str := match v with JStr s => Ok s | _ => toKey v end.

Definition error_body (message : str) : json := JObj [(js "error", JStr message)].

Definition prefix : str := js "/v1/transactions/".

(** The commit branch; a [Throw] ends in the [catch]. *)
Definition commit (store : KVStore) (body : str) : result (KVStore * response json) :=
  match JSON_parse body with
  | Throw e => Throw e
  | Ok data =>
      match get_prop (Some data) (js "id") with
      | Throw e => Throw e
      | Ok id =>
          match id, prop data (js "value") with
          | Some k, Some v =>
              if truthy (Some k) && truthy (Some v)
              then match key_of k with
                   | Throw e => Throw e
                   | Ok key => Ok (assign store key v,
                       Response 200 (Ok (JObj [(js "id", k); (js "success", JBool true)])))
                   end
              else Ok (store, Response 400 (Ok (error_body (js "Missing id or value"))))
          | _, _ => Ok (store, Response 400 (Ok (error_body (js "Missing id or value"))))
          end
      end
  end.

(** [JSON.stringify] drops a member whose value is a function. *)
Definition get_transaction (store : KVStore) (key : str) : response json :=
  if bool_decide (key = []) || bool_decide (key = js "test")
  then Response 200 (Ok (JArr (JStr <$> object_keys (own store))))
  else match read store key with
       | Undefined => Response 404 (Ok (error_body (js "Not found")))
       | Method => Response 200 (Ok (JObj [(js "id", JStr key)]))
       | Value value => Response 200 (Ok (JObj [(js "id", JStr key); (js "value", value)]))
       end.

Definition handleRequest (store : KVStore) (method pathname body : str) : KVStore * response json :=
  if bool_decide (method = js "OPTIONS") then (store, Response 200 (Throw (js "Unexpected end of JSON input")))
  else if bool_decide (method = js "POST") && bool_decide (pathname = js "/v1/transactions/commit") then
    match commit store body with
    | Ok r => r
    | Throw e => (store, Response 500 (Ok (error_body e)))
    end
  else if bool_decide (method = js "GET") && startsWith pathname prefix then
    (store, get_transaction store (replace_first pathname prefix []))
  else if bool_decide (method = js "GET") && bool_decide (pathname = js "/v1/transactions") then
    (store, Response 200 (Ok (JArr ((fun key => JObj [(js "id", JStr key)]) <$> object_keys (own store)))))
  else (store, Response 404 (Ok (error_body (js "Not found")))).

Definition getValue (store : KVStore) (key : str) : found := read store key.
Definition getAllKeys (store : KVStore) : list str := object_keys (own store).

(** ** Sequences of requests *)

Record kv_request := KvRequest { r_method : str; r_pathname : str; r_body : str }.

Definition serve (store : KVStore) (r : kv_request) : KVStore :=
  (handleRequest store (r_method r) (r_pathname r) (r_body r)).1.

(** The binding a request commits, read off the request alone. *)
Definition committed (r : kv_request) : option (str * json) :=
  if bool_decide (r_method r = js "POST") && bool_decide (r_pathname r = js "/v1/transactions/commit") then
    match JSON_parse (r_body r) with
    | Ok data =>
        match prop data (js "id"), prop data (js "value") with
        | Some k, Some v =>
            if truthy (Some k) && truthy (Some v)
            then match key_of k with Ok key => Some (key, v) | Throw _ => None end else None
        | _, _ => None
        end
    | Throw _ => None
    end
  else None.

(** The abstract store: the last value committed under each key. *)
Definition spec_store (rs : list kv_request) : gmap str json :=
  foldl (fun m r => match committed r with Some (k, v) => <[k := v]> m | None => m end) ∅ rs.

Lemma serve_committed store r :
  serve store r = match committed r with Some (k, v) => assign store k v | None => store end.
Proof.
  unfold serve, handleRequest, committed.
  destruct (bool_decide (r_method r = js "OPTIONS")) eqn:Eo.
  { apply bool_decide_eq_true in Eo. by rewrite Eo. }
  match goal with |- context [if ?b then match commit _ _ with _ => _ end else _] => destruct b eqn:Ep end;
    [|by repeat case_match].
  unfold commit. destruct (JSON_parse (r_body r)) as [data|]; [|done].
  destruct data as [| | | | |o]; try done. cbn [get_prop prop].
  destruct (map_get o (js "id")) as [k|], (map_get o (js "value")) as [v|]; try done.
  destruct (truthy (Some k) && truthy (Some v)); [|done]. by destruct (key_of k).
Qed.

Lemma assign_own store k v : k <> proto_name -> assign store k v = KvObject (map_set (own store) k v) (proto store).
Proof. intros Hk. unfold assign. by rewrite bool_decide_eq_false_2. Qed.

Lemma assign_own_ne store k k' v : k' <> k -> map_get (own (assign store k' v)) k = map_get (own store) k.
Proof.
  intros Hne. unfold assign. repeat case_match; cbn [own]; try done; by apply map_get_set_ne.
Qed.

(** Requests that do not commit under [k] leave its own property alone. *)
Lemma serve_all_other rs k store :
  Forall (fun r => forall v, committed r <> Some (k, v)) rs ->
  map_get (own (foldl serve store rs)) k = map_get (own store) k.
Proof.
  intros Hrs. revert store. induction Hrs as [|r rs Hr _ IH]; intros store; [done|].
  cbn [foldl]. rewrite IH, serve_committed. destruct (committed r) as [[k' v]|]; [|done].
  apply assign_own_ne. intros ->. by apply (Hr v).
Qed.

(** No request replaces the prototype. *)
Definition keeps_proto (r : kv_request) : Prop := forall v, committed r <> Some (proto_name, v).

Lemma serve_all rs k :
  Forall keeps_proto rs ->
  map_get (own (foldl serve empty_store rs)) k = spec_store rs !! k /\
  proto (foldl serve empty_store rs) = None.
Proof.
  unfold spec_store. induction rs as [|r rs IH] using rev_ind; [done|].
  intros [Hrs [Hr _]%Forall_cons]%Forall_app. destruct (IH Hrs) as [Hk Hp].
  rewrite !foldl_app. cbn. rewrite serve_committed.
  destruct (committed r) as [[k' v]|] eqn:Ec; [|done].
  rewrite assign_own; [|intros ->; by apply (Hr v)]. cbn [own proto]. split; [|done].
  destruct (decide (k' = k)) as [->|Hne].
  - by rewrite map_get_set_eq, lookup_insert_eq.
  - by rewrite map_get_set_ne, lookup_insert_ne.
Qed.

Lemma replace_prefix k : replace_first (prefix ++ k) prefix [] = k.
Proof.
  unfold replace_first. destruct (indexOf (prefix ++ k) prefix) as [i|] eqn:E.
  - assert (indexOf (prefix ++ k) prefix = Some 0) as E0.
    { assert (is_prefix prefix (prefix ++ k) = true) as Hp by (apply is_prefix_spec; by exists k).
      destruct (prefix ++ k) eqn:Es; cbn [indexOf]; by rewrite Hp. }
    rewrite E0 in E. injection E as <-. done.
  - exfalso. assert (is_prefix prefix (prefix ++ k) = true) as Hp by (apply is_prefix_spec; by exists k).
    destruct (prefix ++ k) eqn:Es; cbn [indexOf] in E; by rewrite Hp in E.
Qed.

Lemma handleRequest_get store k :
  handleRequest store (js "GET") (prefix ++ k) [] = (store, get_transaction store k).
Proof.
  assert (startsWith (prefix ++ k) prefix = true) as Hs by (apply startsWith_spec; by exists k).
  unfold handleRequest. rewrite Hs, replace_prefix. reflexivity.
Qed.
End wrapper.

(** ** The properties *)

(** C4: the handler implements a key-value store.  After any sequence of
    requests none of which commits under the name [__proto__], a GET whose
    pathname is [/v1/transactions/k], for [k] not empty and not [test],
    leaves the store alone and answers 200 with the last value committed
    under [k]; where nothing was committed under [k] it answers 404, except
    that the names every object inherits are found: 200 with no value for
    the methods of [Object.prototype] and with an empty object for
    [__proto__].  The listing has exactly the committed keys. *)
Theorem kv_refines_map JSON_parse toKey rs k
    (Hk : k <> [] /\ k <> js "test")
    (Hproto : Forall (keeps_proto JSON_parse toKey) rs) :
  let store := foldl (serve JSON_parse toKey) empty_store rs in
  handleRequest JSON_parse toKey store (js "GET") (prefix ++ k) [] =
    (store, match spec_store JSON_parse toKey rs !! k with
            | Some v => Response 200 (Ok (JObj [(js "id", JStr k); (js "value", v)]))
            | None =>
                if bool_decide (k = proto_name)
                then Response 200 (Ok (JObj [(js "id", JStr k); (js "value", JObj [])]))
                else if bool_decide (k ∈ object_methods)
                then Response 200 (Ok (JObj [(js "id", JStr k)]))
                else Response 404 (Ok (error_body (js "Not found")))
            end) /\
  (forall k', k' ∈ getAllKeys store <-> is_Some (spec_store JSON_parse toKey rs !! k')).
Proof.
  intros store. destruct (serve_all JSON_parse toKey rs k Hproto) as [Hs Hp]. fold store in Hs, Hp. split.
  - rewrite handleRequest_get. unfold get_transaction, read.
    rewrite !bool_decide_eq_false_2 by apply Hk. cbn [orb]. rewrite Hs, Hp.
    destruct (spec_store JSON_parse toKey rs !! k); [done|]. cbn [proto_prop].
    destruct (bool_decide (k = proto_name)); [done|]. by destruct (bool_decide (k ∈ object_methods)).
  - intros k'. unfold getAllKeys, store.
    by rewrite elem_of_object_keys, elem_of_map_keys, (proj1 (serve_all JSON_parse toKey rs k' Hproto)).
Qed.

(** A parser for one commit body. *)
Definition demo_body : str := js "{a:1}".
Definition demo_parse (s : str) : result json :=
  if bool_decide (s = demo_body)
  then Ok (JObj [(js "id", JStr (js "a")); (js "value", JNum (of_Z 1))]) else Throw (js "Unexpected token").
Definition demo_commit : kv_request := KvRequest (js "POST") (js "/v1/transactions/commit") demo_body.

Lemma kv_refines_map_witness :
  (handleRequest demo_parse (fun _ => Ok []) (foldl (serve demo_parse (fun _ => Ok [])) empty_store [demo_commit])
     (js "GET") (prefix ++ js "a") []).2
  = Response 200 (Ok (JObj [(js "id", JStr (js "a")); (js "value", JNum (of_Z 1))])).
Proof.
  destruct (kv_refines_map demo_parse (fun _ => Ok []) [demo_commit] (js "a")) as [-> _].
  - split; discriminate.
  - constructor; [|constructor]. intros v E. vm_compute in E. discriminate E.
  - vm_compute. reflexivity.
Defined.

(** An inherited name is found in a store that never held anything. *)
Example inherited_name_found JSON_parse toKey :
  (handleRequest JSON_parse toKey empty_store (js "GET") (prefix ++ js "constructor") []).2 =
    Response 200 (Ok (JObj [(js "id", JStr (js "constructor"))])).
Proof. reflexivity. Qed.

(** A commit of an object under [__proto__] is answered as a success and
    never listed, while each of its members is then read as if it had been
    committed. *)
Lemma proto_commit_pollutes JSON_parse toKey body o k v
    (Hbody : JSON_parse body = Ok (JObj [(js "id", JStr proto_name); (js "value", JObj o)]))
    (Hk : k <> [] /\ k <> js "test") (Hv : map_get o k = Some v) :
  let store := (handleRequest JSON_parse toKey empty_store (js "POST") (js "/v1/transactions/commit") body).1 in
  getAllKeys store = [] /\
  (handleRequest JSON_parse toKey store (js "GET") (prefix ++ k) []).2 =
    Response 200 (Ok (JObj [(js "id", JStr k); (js "value", v)])).
Proof.
  assert ((handleRequest JSON_parse toKey empty_store (js "POST") (js "/v1/transactions/commit") body).1 =
    KvObject [] (Some (JObj o))) as ->.
  { unfold handleRequest, commit. rewrite Hbody. reflexivity. }
  split; [done|]. rewrite handleRequest_get. unfold get_transaction, read.
  rewrite !bool_decide_eq_false_2 by apply Hk. cbn. by rewrite Hv.
Qed.

(** The key [test] is shadowed by the listing endpoint: whatever is
    committed under it, reading it answers the list of keys. *)
Lemma kv_test_key_unreadable JSON_parse toKey store v :
  handleRequest JSON_parse toKey (assign store (js "test") v) (js "GET") (prefix ++ js "test") [] =
    (assign store (js "test") v,
     Response 200 (Ok (JArr (JStr <$> object_keys (map_set (own store) (js "test") v))))).
Proof. by rewrite handleRequest_get. Qed.
