(* ===== verification/VectorStore.v ===== *)
(** * The vector store

    [ResilientDBVectorStore] of
    src/ecosystem/ai-tools/mcp/graphq-llm/src/rag/resilientdb-vector-store.ts:
    storing chunks through the key-value HTTP interface, reading them back
    through a sequence of GraphQL queries with the HTTP interface as the last
    resort, and similarity search.  GraphQL, the HTTP interface, the clock
    and the random suffix are parameters.  The member [chunkIndexId] is never
    assigned, so the branch of [getAllChunks] that reads an index is dead and
    left out.  The property types of the stored JSON are those the interface
    declares: an asset whose text or source is not a string or whose embedding
    is not an array of numbers is skipped like one that lacks them. *)

From S2P Require Import Prelude JsString JsArray JsNum Json Http.

Record DocumentChunk := VChunk {
  id : str;
  chunkText : str;
  embedding : list num;
  source : str;
  chunkIndex : num;
  documentId : str;
  section : option str;
  type : str;
  timestamp : option str;
}.

(** What of the introspected schema is used: the names. *)
Record SchemaContext := Schema { queries : list str; mutations : list str }.

Record VectorStore := Store {
  schemaCache : option SchemaContext;
  mutationName : option str;
  queryName : option str;
}.

Definition new_store : VectorStore := Store None None None.

(** ** Discovery *)

Definition possibleMutations : list str :=
  [js "posttransaction"; js "createtransaction"; js "createasset"; js "addtransaction"; js "addasset"].

Definition possibleQueries : list str :=
  [js "transactions"; js "gettransactions"; js "alltransactions"; js "assets"; js "getassets";
   js "allassets"; js "querytransactions"; js "gettransaction"].

(** The first preferred name the schema has, as the schema spells it. *)
Fixpoint first_available (possible names : list str) : option str :=
  match possible with
  | [] => None
  | p :: possible' =>
      match List.find (fun n => bool_decide (toLowerCase n = p)) names with
      | Some actual => Some actual
      | None => first_available possible' names
      end
  end.

(** Truthiness of an optional name. *)
Definition named (n : option str) : bool := match n with Some (_ :: _) => true | _ => false end.

Definition or_keep {A} (new old : option A) : option A := match new with Some _ => new | None => old end.

(** A failed introspection is reported on the console and leaves the names
    as they were. *)
Definition discoverSchema (introspect : result SchemaContext) (vs : VectorStore) : VectorStore :=
  if bool_decide (is_Some (schemaCache vs)) && named (mutationName vs) && named (queryName vs) then vs
  else match introspect with
       | Ok schema =>
           Store (Some schema)
             (or_keep (first_available possibleMutations (mutations schema)) (mutationName vs))
             (or_keep (first_available possibleQueries (queries schema)) (queryName vs))
       | Throw _ => vs
       end.

(** ** Storing *)

(** [s.replace(/:\d+$/, '')] *)
Definition strip_port (s : str) : str :=
  let n := run_length is_digit (rev s) in
  match n, drop n (rev s) with
  | S _, ":"%char :: r => rev r
  | _, _ => s
  end.

Definition kvBase (graphqlUrl : str) : str :=
  let base := replace_first graphqlUrl (js "/graphql") [] in
  if includes base (js ":5001") then replace_first base (js ":5001") (js ":18001")
  else if includes base (js ":18000") then replace_first base (js ":18000") (js ":18001")
  else if negb (includes base (js ":18001")) then strip_port base ++ js ":18001"
  else base.

(** The argument of [storeChunk]; [metadata] has the properties present. *)
Record newChunk := NewChunk {
  n_chunkText : str;
  n_embedding : list num;
  n_source : str;
  n_chunkIndex : Z;
  n_metadata : jsmap str json;
}.

Section store.
Context (JSON_stringify : json -> str).
Context (graphqlUrl : str).
Context (fetch : request -> result (response json)) (text : response json -> result str).

(** [Date.now()], the seven random characters, [new Date().toISOString()] *)
Definition make_id (now : Z) (random : str) (chunk : newChunk) : str :=
  js "chunk_" ++ str_of_Z now ++ js "_" ++ str_of_Z (n_chunkIndex chunk) ++ js "_" ++ random.

Definition chunk_data (chunkId iso : str) (chunk : newChunk) : json :=
  JObj [(js "id", JStr chunkId);
        (js "type", JStr (js "DocumentChunk"));
        (js "chunkText", JStr (n_chunkText chunk));
        (js "embedding", JArr (JNum <$> n_embedding chunk));
        (js "source", JStr (n_source chunk));
        (js "chunkIndex", JNum (of_Z (n_chunkIndex chunk)));
        (js "metadata", JObj (map_set (n_metadata chunk) (js "timestamp") (JStr iso)))].

Definition store_request (chunkId iso : str) (chunk : newChunk) : request :=
  Request (js "POST") (kvBase graphqlUrl ++ js "/v1/transactions/commit") json_headers
    (Some (JSON_stringify (JObj [(js "id", JStr chunkId); (js "value", chunk_data chunkId iso chunk)]))).

(** The body of the [try]. *)
Definition post_chunk (chunkId iso : str) (chunk : newChunk) : result str :=
  match fetch (store_request chunkId iso chunk) with
  | Throw e => Throw e
  | Ok response =>
      if ok response then
        match payload response with
        | Throw e => Throw e
        | Ok result =>
            match get_prop (Some result) (js "id") with
            | Throw e => Throw e
            | Ok i => Ok (str_or (as_str i) chunkId)
            end
        end
      else match text response with
           | Throw e => Throw e
           | Ok errorText => Throw (js "HTTP " ++ str_of_Z (status response) ++ js ": " ++ errorText)
           end
  end.

Definition storeChunk (introspect : result SchemaContext) (now : Z) (random iso : str)
    (vs : VectorStore) (chunk : newChunk) : VectorStore * result str :=
  let vs' := discoverSchema introspect vs in
  (vs',
   match post_chunk (make_id now random chunk) iso chunk with
   | Ok i => Ok i
   | Throw errorMsg =>
       Throw (jsn "Failed to store chunk in ResilientDB via HTTP API.|nHTTP Error: " ++ errorMsg ++
              jsn "|nPlease verify ResilientDB KV service is running and accessible at " ++
              replace_first (replace_first graphqlUrl (js "/graphql") []) (js ":5001") (js ":18000"))
   end).
End store.

(** ** Reading through the HTTP interface *)

Record kvTransaction := KvTx { tx_id : str; tx_value : json; tx_timestamp : option str }.

Section http.
Context (toString : json -> str).
(** [axios.get(url)] resolves to the response data or rejects. *)
Context (axiosGet : str -> result json).

Definition list_ids (data : json) : list str :=
  match data with
  | JArr items =>
      (fun item => match item with
                   | JStr s => s
                   | JObj o => match map_get o (js "id") with
                               | Some (JStr s) => s
                               | Some v => toString v
                               | None => toString item
                               end
                   | _ => toString item
                   end) <$> items
  | JObj o => object_keys o
  | _ => []
  end.

(** [data.value || data] and the like, for a response that is an object. *)
Definition detail (i : str) (answer : result json) : option kvTransaction :=
  match answer with
  | Ok (JObj _ as data) | Ok (JArr _ as data) =>
      Some (KvTx (prop_str (Some data) (js "id") i)
              (match js_or (prop data (js "value")) (Some data) with Some v => v | None => data end)
              (as_str (prop data (js "timestamp"))))
  | _ => None
  end.

Definition getAllTransactionsViaHTTP (host : result (str * str)) : result (list kvTransaction) :=
  let fail e := Throw (js "Failed to retrieve transactions via HTTP API: " ++ e) in
  match host with
  | Throw e => fail e
  | Ok (protocol, hostname) =>
      let baseUrl := protocol ++ js "//" ++ hostname ++ js ":18001" in
      match axiosGet (baseUrl ++ js "/v1/transactions") with
      | Throw e => fail e
      | Ok data =>
          Ok (omap (fun i => detail i (axiosGet (baseUrl ++ js "/v1/transactions/" ++ i)))
                (take 1000 (list_ids data)))
      end
  end.
End http.

(** ** Assets and chunks *)

Definition is_document_chunk (asset : json) : bool :=
  match prop asset (js "type") with Some (JStr t) => bool_decide (t = js "DocumentChunk") | _ => false end.

(** A chunk from an asset that has text, embedding and source; identifier
    and timestamp default to those of the transaction. *)
Definition asset_chunk (asset : json) (txId : str) (txTimestamp : option str) : option DocumentChunk :=
  match as_str (prop asset (js "chunkText")), as_nums (prop asset (js "embedding")),
        as_str (prop asset (js "source")) with
  | Some (c :: t), Some e, Some (d :: s) =>
      let metadata := prop asset (js "metadata") in
      Some (VChunk (prop_str (Some asset) (js "id") txId) (c :: t) e (d :: s)
              (match prop asset (js "chunkIndex") with Some (JNum n) => n | _ => nzero end)
              (prop_str metadata (js "documentId") [])
              (as_str (opt_prop metadata (js "section")))
              (prop_str metadata (js "type") (js "documentation"))
              (match as_str (opt_prop metadata (js "timestamp")) with
               | Some (x :: ts) => Some (x :: ts)
               | _ => txTimestamp
               end))
  | _, _, _ => None
  end.

(** ** The queries *)

Definition getAllQuery : str :=
  jsn "|n            query GetAllChunks($limit: Int) {|n              getAllTransactions(limit: $limit) {|n                id|n                asset|n              }|n            }|n          ".

Definition pattern1Query (query : str) : str :=
  jsn "|n            query GetDocumentChunks($limit: Int, $type: String) {|n              " ++ query ++
  jsn "(limit: $limit, filter: { assetType: $type }) {|n                id|n                timestamp|n                asset {|n                  id|n                  type|n                  chunkText|n                  embedding|n                  source|n                  chunkIndex|n                  metadata|n                }|n              }|n            }|n          ".

Definition pattern2Query (query : str) : str :=
  jsn "|n            query GetDocumentChunks($limit: Int) {|n              " ++ query ++
  jsn "(limit: $limit) {|n                id|n                timestamp|n                asset|n              }|n            }|n          ".

Definition transactionsQuery : str :=
  jsn "|n          query GetDocumentChunks($limit: Int, $type: String) {|n            transactions(limit: $limit, filter: { assetType: $type }) {|n              id|n              timestamp|n              asset {|n                id|n                type|n                chunkText|n                embedding|n                source|n                chunkIndex|n                metadata|n              }|n            }|n          }|n        ".

Definition assetsQuery : str :=
  jsn "|n          query GetAssets($limit: Int, $type: String) {|n            assets(limit: $limit, type: $type) {|n              id|n              type|n              chunkText|n              embedding|n              source|n              chunkIndex|n              metadata|n            }|n          }|n        ".

Definition allTransactionsQuery : str :=
  jsn "|n          query GetAllTransactions($limit: Int) {|n            allTransactions(limit: $limit) {|n              id|n              timestamp|n              asset|n            }|n          }|n        ".


Section read.
Context (JSON_parse : str -> result json).

(** One transaction of a GraphQL answer: a chunk, nothing, or an exception
    that abandons the query. *)
Definition graphql_chunk (transaction : json) : result (option DocumentChunk) :=
  match get_prop (Some transaction) (js "asset") with
  | Throw e => Throw e
  | Ok a =>
      match (match a with
             | Some (JStr s) => match JSON_parse s with Ok v => Ok (Some v) | Throw e => Throw e end
             | _ => Ok a
             end) with
      | Throw e => Throw e
      | Ok (Some asset) =>
          Ok (if is_document_chunk asset
              then asset_chunk asset (prop_str (Some transaction) (js "id") [])
                     (as_str (prop transaction (js "timestamp")))
              else None)
      | Ok None => Ok None
      end
  end.

Fixpoint graphql_chunks (transactions : list json) : result (list DocumentChunk) :=
  match transactions with
  | [] => Ok []
  | t :: ts =>
      match graphql_chunk t with
      | Throw e => Throw e
      | Ok c =>
          match graphql_chunks ts with
          | Throw e => Throw e
          | Ok cs => Ok (match c with Some c => c :: cs | None => cs end)
          end
      end
  end.

(** [Object.values(result).find(Array.isArray)] *)
Definition first_array (answer : json) : result (option (list json)) :=
  match answer with
  | JNull => Throw (js "Cannot convert undefined or null to object")
  | JObj o => Ok (list_find (fun v => is_Some (is_array (Some v))) (map_values o) ≫= fun iv => is_array (Some iv.2))
  | JArr l => Ok (list_find (fun v => is_Some (is_array (Some v))) l ≫= fun iv => is_array (Some iv.2))
  | _ => Ok None
  end.

Record gqlQuery := Gql { q_name : str; q_query : str; q_variables : jsmap str json }.

Definition allQueries (queryName : option str) (limit : Z) : list gqlQuery :=
  let lim := [(js "limit", JNum (of_Z limit))] in
  let lim_type := lim ++ [(js "type", JStr (js "DocumentChunk"))] in
  (match queryName with
   | Some (c :: q) =>
       [Gql (js "getAllTransactions (new)") getAllQuery lim;
        Gql ((c :: q) ++ js " (pattern 1)") (pattern1Query (c :: q)) lim_type;
        Gql ((c :: q) ++ js " (pattern 2)") (pattern2Query (c :: q)) lim]
   | _ => []
   end) ++
  [Gql (js "transactions (fallback)") transactionsQuery lim_type;
   Gql (js "assets (fallback)") assetsQuery lim_type;
   Gql (js "allTransactions (fallback)") allTransactionsQuery lim].

(** Trying the queries in order: the chunks of the first that answers an
    array without an exception, or the errors collected. *)
Fixpoint try_queries (executeQuery : gqlQuery -> result json) (qs : list gqlQuery) (errors : list str)
    : list DocumentChunk + list str :=
  match qs with
  | [] => inr errors
  | q :: qs' =>
      let failed e := try_queries executeQuery qs' (errors ++ [q_name q ++ js ": " ++ e]) in
      match executeQuery q with
      | Throw e => failed e
      | Ok r =>
          match first_array r with
          | Throw e => failed e
          | Ok None => try_queries executeQuery qs' errors
          | Ok (Some transactions) =>
              match graphql_chunks transactions with
              | Throw e => failed e
              | Ok chunks => inl chunks
              end
          end
      end
  end.

(** The asset of a transaction read over HTTP. *)
Definition http_asset (t : kvTransaction) : option json :=
  match tx_value t with
  | JStr s =>
      match JSON_parse s with
      | Ok (JObj o) => Some (JObj o)
      | Ok (JArr l) => Some (JArr l)
      | Ok _ => Some (JObj [(js "value", JStr s)])
      | Throw _ => None
      end
  | JObj o => Some (JObj o)
  | JArr l => Some (JArr l)
  | _ => None
  end.

Definition http_chunk (t : kvTransaction) : option DocumentChunk :=
  match http_asset t with
  | Some asset => if is_document_chunk asset then asset_chunk asset (tx_id t) (tx_timestamp t) else None
  | None => None
  end.

Definition getAllChunks (introspect : result SchemaContext) (executeQuery : gqlQuery -> result json)
    (viaHTTP : result (list kvTransaction)) (limit : Z) (vs : VectorStore)
    : VectorStore * result (list DocumentChunk) :=
  let vs' := discoverSchema introspect vs in
  let qs := allQueries (queryName vs') limit in
  (vs',
   match try_queries executeQuery qs [] with
   | inl chunks => Ok (slice chunks 0 limit)
   | inr errors =>
       match viaHTTP with
       | Ok transactions => Ok (slice (omap http_chunk transactions) 0 limit)
       | Throw e =>
           Throw (js "Failed to retrieve chunks from ResilientDB. Tried " ++ str_of_nat (length qs) ++
                  jsn " GraphQL query patterns and HTTP REST API.|nGraphQL Errors: " ++
                  join (take 3 errors) (js "; ") ++
                  (if (3 <? length errors)%nat then js "..." else []) ++
                  jsn "|nHTTP Error: " ++ e ++
                  jsn "|nPlease verify your ResilientDB is accessible and contains document chunks. Available queries: " ++
                  str_or (match schemaCache vs' with
                          | Some sc => Some (join (queries sc) (js ", "))
                          | None => None
                          end) (js "unknown"))
       end
   end).
End read.

(** ** Similarity search *)

Definition dot (a b : list num) : num :=
  foldl (fun acc xy => nadd acc (nmul xy.1 xy.2)) nzero (zip a b).

Definition cosineSimilarity (a b : list num) : result num :=
  if bool_decide (length a <> length b) then Throw (js "Vectors must have same length")
  else
    let denominator := nmul (nsqrt (dot a a)) (nsqrt (dot b b)) in
    if neq denominator nzero then Ok nzero else Ok (ndiv (dot a b) denominator).

(** A missing or empty filter matches everything. *)
Definition matches (filter : option str) (v : str) : bool :=
  match filter with Some (c :: f) => bool_decide (v = c :: f) | _ => true end.

Record searchFilters := Filters { f_source : option str; f_type : option str }.

Definition passes (filters : option searchFilters) (chunk : DocumentChunk) : bool :=
  match filters with
  | Some f => matches (f_source f) (source chunk) && matches (f_type f) (type chunk)
  | None => true
  end.

(** [map] with a callback that may throw. *)
Fixpoint map_throw {A B} (f : A -> result B) (l : list A) : result (list B) :=
  match l with
  | [] => Ok []
  | x :: l' =>
      match f x with
      | Throw e => Throw e
      | Ok y => match map_throw f l' with Ok ys => Ok (y :: ys) | Throw e => Throw e end
      end
  end.

Definition scored (queryEmbedding : list num) (chunk : DocumentChunk) : result (DocumentChunk * num) :=
  match cosineSimilarity queryEmbedding (embedding chunk) with
  | Ok s => Ok (chunk, s)
  | Throw e => Throw e
  end.

(** [allChunks] is the answer of [getAllChunks()]. *)
Definition searchSimilar (allChunks : result (list DocumentChunk)) (queryEmbedding : list num) (limit : Z)
    (filters : option searchFilters) : result (list DocumentChunk) :=
  match allChunks with
  | Throw e => Throw e
  | Ok chunks =>
      match map_throw (scored queryEmbedding) (filterb (passes filters) chunks) with
      | Throw e => Throw e
      | Ok similarities => Ok (slice (sort_desc snd similarities) 0 limit).*1
      end
  end.

Definition healthCheck (allChunks : result (list DocumentChunk)) : bool := is_ok allChunks.

Definition getChunksByMetadata (allChunks : result (list DocumentChunk)) (source_ type_ documentId_ : option str)
    : result (list DocumentChunk) :=
  result_map (filterb (fun c => matches source_ (source c) && matches type_ (type c)
                                && matches documentId_ (documentId c))) allChunks.

Definition deleteChunk (chunkId : str) : result unit := Throw (js "Not yet implemented").

Definition getChunkCount (allChunks : result (list DocumentChunk)) : result nat :=
  result_map length allChunks.

(** ** Lemmas *)

Lemma map_throw_Ok {A B} (f : A -> result B) l ys :
  map_throw f l = Ok ys -> Forall2 (fun x y => f x = Ok y) l ys.
Proof.
  revert ys. induction l as [|x l IH]; intros ys H; cbn in H; [by injection H as <-|].
  destruct (f x) as [y|] eqn:E; [|done]. destruct (map_throw f l) as [zs|]; [|done].
  injection H as <-. constructor; [done|by apply IH].
Qed.

Lemma map_throw_total {A B} (f : A -> result B) (g : A -> B) l :
  (forall x, x ∈ l -> f x = Ok (g x)) -> map_throw f l = Ok (g <$> l).
Proof.
  induction l as [|x l IH]; intros H; [done|]. cbn. rewrite H by by left.
  by rewrite IH by (intros; apply H; by right).
Qed.

Lemma map_throw_Throw {A B} (f : A -> result B) l x e :
  x ∈ l -> f x = Throw e -> exists e', map_throw f l = Throw e'.
Proof.
  induction 1 as [x l|x y l _ IH]; intros E; cbn.
  - rewrite E. by eexists.
  - destruct (f y); [|by eexists]. destruct (IH E) as [e' ->]. by eexists.
Qed.

Definition similarity (q : list num) (c : DocumentChunk) : num :=
  match cosineSimilarity q (embedding c) with Ok s => s | Throw _ => nzero end.

Lemma scored_similarity q c :
  length (embedding c) = length q -> scored q c = Ok (c, similarity q c).
Proof.
  intros H. unfold scored, similarity, cosineSimilarity. rewrite bool_decide_eq_false_2 by (intros []; congruence).
  by destruct (neq _ _).
Qed.

(** Every chunk that passes can be compared with the query embedding. *)
Definition comparable (chunks : list DocumentChunk) (filters : option searchFilters) (q : list num) : Prop :=
  forall c, c ∈ chunks -> passes filters c = true ->
    length (embedding c) = length q /\ num_ok (similarity q c).

(** [l] are the [n] candidates most similar to [q], [rest] the others. *)
Definition nearest (q : list num) (n : nat) (candidates l rest : list DocumentChunk) : Prop :=
  l ++ rest ≡ₚ candidates /\ length l = n `min` length candidates /\
  StronglySorted (ranked (similarity q)) l /\
  (forall c c', c ∈ l -> c' ∈ rest -> ranked (similarity q) c c').

Lemma searchSimilar_nearest chunks q (limit : nat) filters :
  comparable chunks filters q ->
  exists l rest,
    searchSimilar (Ok chunks) q (Z.of_nat limit) filters = Ok l /\
    nearest q limit (filterb (passes filters) chunks) l rest.
Proof.
  intros Hcmp. set (cands := filterb (passes filters) chunks).
  assert (map_throw (scored q) cands = Ok ((fun c => (c, similarity q c)) <$> cands)) as E.
  { apply map_throw_total. intros c [Hc Hp]%elem_of_filterb. apply scored_similarity. by apply Hcmp. }
  set (pairs := (fun c => (c, similarity q c)) <$> cands) in *.
  assert (Forall (fun x => num_ok x.2) pairs) as Hok.
  { apply Forall_fmap, Forall_forall. intros c [Hc Hp]%elem_of_filterb. by apply Hcmp. }
  assert (forall x, x ∈ sort_desc snd pairs -> x.2 = similarity q x.1) as Hpair.
  { intros x Hx%elem_of_sort_desc. by apply list_elem_of_fmap in Hx as (c & -> & _). }
  pose proof (sort_desc_sorted snd pairs Hok) as Hs. pose proof (sort_desc_perm snd pairs) as Hp.
  set (sorted := sort_desc snd pairs) in *.
  exists (take limit sorted).*1, (drop limit sorted).*1. unfold nearest. split_and!.
  - unfold searchSimilar. fold cands. rewrite E. fold sorted. by rewrite slice_0, Nat2Z.id by lia.
  - rewrite <- fmap_app, take_drop, Hp. unfold pairs. rewrite <- list_fmap_compose.
    by rewrite (list_fmap_ext (fst ∘ (fun c => (c, similarity q c))) Datatypes.id), list_fmap_id by done.
  - rewrite length_fmap, length_take. f_equal. rewrite (Permutation_length Hp). apply length_fmap.
  - apply StronglySorted_fmap. apply StronglySorted_take with (n := limit) in Hs.
    assert (forall x, x ∈ take limit sorted -> x.2 = similarity q x.1) as Ht by eauto with resdb.
    revert Hs Ht. generalize (take limit sorted). intros l Hs Ht. induction Hs as [|x l Hs IH Hx]; constructor.
    + apply IH. intros y Hy. apply Ht. by right.
    + rewrite Forall_forall in Hx |- *. intros y Hy. specialize (Hx y Hy). unfold ranked in *.
      by rewrite <- !Ht by (by left || by right).
  - intros c c' (x & -> & Hx)%list_elem_of_fmap (y & -> & Hy)%list_elem_of_fmap.
    pose proof (StronglySorted_take_drop _ _ _ _ _ Hs Hx Hy) as Hr. unfold ranked in *.
    rewrite !Hpair in Hr; [done| |]; rewrite <- (take_drop limit sorted), elem_of_app; tauto.
Qed.

(** ** The interface to retrieval

    What a client of the store may rely on: a search over the stored chunks
    returns the nearest ones. *)

Class SimilarityIndex (index : list DocumentChunk)
    (search : list num -> Z -> option searchFilters -> result (list DocumentChunk)) := {
  search_nearest q (limit : nat) filters :
    comparable index filters q ->
    exists l rest, search q (Z.of_nat limit) filters = Ok l /\
      nearest q limit (filterb (passes filters) index) l rest;
}.

#[export] Instance vector_store_index chunks : SimilarityIndex chunks (searchSimilar (Ok chunks)).
Proof. constructor. intros q limit filters. apply searchSimilar_nearest. Qed.

(** ** The properties *)


Definition demo_chunk (name : string) (e : list Z) : DocumentChunk :=
  VChunk (js name) (js "text") (of_Z <$> e) (js "doc.md") nzero [] None (js "documentation") None.


(** One matching chunk whose embedding has another length makes the whole
    search fail. *)
Theorem searchSimilar_wrong_length chunks q limit filters c
    (Hc : c ∈ chunks) (Hp : passes filters c = true) (Hlen : length (embedding c) <> length q) :
  searchSimilar (Ok chunks) q limit filters = Throw (js "Vectors must have same length").
Proof.
  assert (forall d e, scored q d = Throw e -> e = js "Vectors must have same length") as Hmsg.
  { intros d e. unfold scored, cosineSimilarity. case_bool_decide; [congruence|]. by destruct (neq _ _). }
  assert (forall l e, map_throw (scored q) l = Throw e -> e = js "Vectors must have same length") as Hmsgs.
  { induction l as [|d l IH]; intros e; cbn; [done|]. destruct (scored q d) eqn:E.
    - destruct (map_throw _ l); [done|]. intros [= <-]. by apply IH.
    - intros [= <-]. by eapply Hmsg. }
  assert (scored q c = Throw (js "Vectors must have same length")) as Ec.
  { unfold scored, cosineSimilarity. by rewrite bool_decide_eq_true_2 by congruence. }
  destruct (map_throw_Throw (scored q) (filterb (passes filters) chunks) c _ ltac:(by apply elem_of_filterb) Ec)
    as [e He].
  unfold searchSimilar. rewrite He. f_equal. by eapply Hmsgs.
Qed.

Lemma searchSimilar_wrong_length_witness :
  searchSimilar (Ok [demo_chunk "a" [1; 2]; demo_chunk "b" [1]]%Z) [of_Z 1; of_Z 0] 5 None
    = Throw (js "Vectors must have same length").
Proof.
  apply (searchSimilar_wrong_length [demo_chunk "a" [1; 2]; demo_chunk "b" [1]]%Z [of_Z 1; of_Z 0] 5 None
    (demo_chunk "b" [1]%Z)).
  - right. left.
  - reflexivity.
  - discriminate.
Defined.
