(* ===== verification/StoreRoundtrip.v ===== *)
(** * Vector store and key-value wrapper together

    The client of VectorStore.v run against the server of KvStore.v: a chunk
    that was stored is found again.  The server is reached at the base URL
    the client derives; the path of a request is what follows the base
    (identifiers consist of characters that URLs leave alone).  Response
    bodies travel as JSON values; the request body goes through
    [JSON.stringify] and [JSON.parse]. *)

From S2P Require Import Prelude JsString JsArray JsNum Json Http KvStore VectorStore.

Section network.
Context (JSON_parse : str -> result json) (toKey : json -> result str).
Context (base : str).

(** The server at [base]. *)
Definition route (store : KVStore) (r : request) : KVStore * response json :=
  if startsWith (url r) base
  then handleRequest JSON_parse toKey store (method r) (drop (length base) (url r)) (coalesce (body r) [])
  else (store, Response 404 (Throw (js "no route"))).

(** [axios.get] rejects on a status outside 2xx. *)
Definition axios_get (store : KVStore) (u : str) : result json :=
  let r := (route store (Request (js "GET") u [] None)).2 in
  if ok r then payload r else Throw (js "Request failed with status code " ++ str_of_Z (status r)).

Lemma route_base store m path hs b :
  route store (Request m (base ++ path) hs b) =
    handleRequest JSON_parse toKey store m path (coalesce b []).
Proof.
  unfold route. cbn [url method body].
  rewrite (proj2 (startsWith_spec _ _)) by (by exists path). by rewrite drop_app_length.
Qed.

Lemma axios_get_list store :
  axios_get store (base ++ js "/v1/transactions") =
    Ok (JArr ((fun key => JObj [(js "id", JStr key)]) <$> object_keys (own store))).
Proof. unfold axios_get. by rewrite route_base. Qed.

Lemma axios_get_key store k v :
  k <> [] -> k <> js "test" -> map_get (own store) k = Some v ->
  axios_get store (base ++ js "/v1/transactions/" ++ k) =
    Ok (JObj [(js "id", JStr k); (js "value", v)]).
Proof.
  intros Hne Ht Hk. unfold axios_get. rewrite route_base. cbn [coalesce].
  change (js "/v1/transactions/") with prefix. rewrite handleRequest_get. cbn [snd].
  unfold get_transaction, read. rewrite !bool_decide_eq_false_2 by done. cbn [orb]. by rewrite Hk.
Qed.
End network.

Lemma list_ids_keys toString (ks : list str) :
  list_ids toString (JArr ((fun key => JObj [(js "id", JStr key)]) <$> ks)) = ks.
Proof.
  cbn [list_ids]. rewrite <- list_fmap_compose. induction ks as [|k ks IH]; [done|].
  cbn [fmap list_fmap]. f_equal. exact IH.
Qed.

Lemma as_nums_JNum (l : list num) : as_nums (Some (JArr (JNum <$> l))) = Some l.
Proof. cbn. induction l as [|x l IH]; [done|]. cbn. cbn in IH. by rewrite IH. Qed.

Lemma length_omap_le {A B} (f : A -> option B) (l : list A) : length (omap f l) <= length l.
Proof. induction l as [|x l IH]; cbn; [lia|]. destruct (f x); cbn; lia. Qed.

Lemma elem_of_omap_intro {A B} (f : A -> option B) (l : list A) x y : x ∈ l -> f x = Some y -> y ∈ omap f l.
Proof. intros Hx E. apply list_elem_of_omap. eauto. Qed.

(** The chunk a stored asset reads back as. *)
Definition stored_chunk (chunkId iso : str) (chunk : newChunk) : VectorStore.DocumentChunk :=
  let meta := Some (JObj (n_metadata chunk)) in
  VChunk chunkId (n_chunkText chunk) (n_embedding chunk) (n_source chunk) (of_Z (n_chunkIndex chunk))
    (prop_str meta (js "documentId") []) (as_str (opt_prop meta (js "section")))
    (prop_str meta (js "type") (js "documentation")) (Some iso).

Lemma str_or_ne (s d : str) : s <> [] -> str_or (Some s) d = s.
Proof. by destruct s. Qed.

Lemma chunk_data_props chunkId iso chunk :
  let asset := chunk_data chunkId iso chunk in
  prop asset (js "type") = Some (JStr (js "DocumentChunk")) /\
  prop asset (js "id") = Some (JStr chunkId) /\
  prop asset (js "chunkText") = Some (JStr (n_chunkText chunk)) /\
  prop asset (js "embedding") = Some (JArr (JNum <$> n_embedding chunk)) /\
  prop asset (js "source") = Some (JStr (n_source chunk)) /\
  prop asset (js "chunkIndex") = Some (JNum (of_Z (n_chunkIndex chunk))) /\
  prop asset (js "metadata") = Some (JObj (map_set (n_metadata chunk) (js "timestamp") (JStr iso))).
Proof. repeat split. Qed.

Lemma chunk_data_reads_back JSON_parse chunkId iso chunk ts :
  chunkId <> [] -> iso <> [] -> n_chunkText chunk <> [] -> n_source chunk <> [] ->
  http_chunk JSON_parse (KvTx chunkId (chunk_data chunkId iso chunk) ts)
    = Some (stored_chunk chunkId iso chunk).
Proof.
  intros Hid Hiso Ht Hs.
  destruct (chunk_data_props chunkId iso chunk) as (E1 & E2 & E3 & E4 & E5 & E6 & E7).
  unfold http_chunk. change (http_asset _ _) with (Some (chunk_data chunkId iso chunk)).
  cbn [tx_id tx_timestamp]. unfold is_document_chunk. rewrite E1, bool_decide_eq_true_2 by done.
  unfold asset_chunk, prop_str, opt_prop. rewrite E2, E3, E4, E5, E6, E7, as_nums_JNum.
  cbn [as_str]. destruct (n_chunkText chunk) as [|c t] eqn:Et; [done|].
  destruct (n_source chunk) as [|d r] eqn:Er; [done|].
  unfold stored_chunk, prop_str, opt_prop. cbn [prop]. rewrite Et, Er, str_or_ne by done.
  rewrite map_get_set_eq, !map_get_set_ne by done. cbn [as_str]. by destruct iso.
Qed.

(** ** The properties *)

(** C2: a stored chunk can be read back.  [storeChunk] against the key-value
    wrapper answers the new identifier; and after any further requests to
    the wrapper, none of which commits under that identifier, a
    [getAllChunks] for which every GraphQL query fails (so that the chunks
    are read over HTTP) returns a list with that chunk in it: identifier,
    text, embedding, source, index and metadata.  The conditions are that the
    text and the source are not empty, that the store has at most 1000
    entries at the time of the read and not more than the limit of the call,
    and that [JSON.parse] inverts [JSON.stringify] on the request body. *)
Theorem store_then_read JSON_parse JSON_stringify toString toKey text introspect executeQuery graphqlUrl
    protocol host store vs vs2 now random iso chunk (limit : nat) rs
    (Hbase : kvBase graphqlUrl = protocol ++ js "//" ++ host ++ js ":18001")
    (Hjson : let i := make_id now random chunk in
       let v := JObj [(js "id", JStr i); (js "value", chunk_data i iso chunk)] in
       JSON_parse (JSON_stringify v) = Ok v)
    (Hdown : forall q, exists e, executeQuery q = Throw e)
    (Hchunk : n_chunkText chunk <> [] /\ n_source chunk <> [] /\ iso <> [])
    (Hothers : Forall (fun r => forall v, committed JSON_parse toKey r <> Some (make_id now random chunk, v)) rs) :
  let chunkId := make_id now random chunk in
  let server := route JSON_parse toKey (kvBase graphqlUrl) in
  let posted := server store (store_request JSON_stringify graphqlUrl chunkId iso chunk) in
  let later := foldl (serve JSON_parse toKey) posted.1 rs in
  (storeChunk JSON_stringify graphqlUrl (fun r => Ok (server store r).2) text introspect now random iso vs chunk).2
    = Ok chunkId /\
  (length (own later) <= 1000 /\ length (own later) <= limit ->
   exists chunks,
    (getAllChunks JSON_parse introspect executeQuery
       (getAllTransactionsViaHTTP toString (axios_get JSON_parse toKey (kvBase graphqlUrl) later)
          (Ok (protocol, host))) (Z.of_nat limit) vs2).2 = Ok chunks /\
    stored_chunk chunkId iso chunk ∈ chunks).
Proof.
  intros chunkId server posted later. destruct Hchunk as (Ht & Hs & Hi).
  cbn zeta in Hjson. fold chunkId in Hjson, Hothers.
  assert (posted = (KvObject (map_set (own store) chunkId (chunk_data chunkId iso chunk)) (proto store),
    Response 200 (Ok (JObj [(js "id", JStr chunkId); (js "success", JBool true)])))) as Ep.
  { unfold posted, server, store_request. rewrite route_base. cbn [coalesce].
    unfold handleRequest, commit. rewrite Hjson. reflexivity. }
  split.
  - unfold storeChunk, post_chunk. fold chunkId. cbn [snd]. fold posted. rewrite Ep. cbn [snd]. reflexivity.
  - intros Hroom.
    assert (map_get (own later) chunkId = Some (chunk_data chunkId iso chunk)) as Es.
    { unfold later. rewrite (serve_all_other _ _ _ _ _ Hothers), Ep. apply map_get_set_eq. }
    pose proof (length_object_keys (own later)) as Hkeys.
    unfold getAllChunks. cbn [snd].
    assert (forall qs errs, exists errs', try_queries JSON_parse executeQuery qs errs = inr errs') as Hq.
    { induction qs as [|q qs IH]; intros errs; cbn; [by eexists|]. destruct (Hdown q) as [e ->]. apply IH. }
    destruct (Hq (allQueries (queryName (discoverSchema introspect vs2)) (Z.of_nat limit)) []) as [errs ->].
    unfold getAllTransactionsViaHTTP. rewrite <- Hbase, axios_get_list, list_ids_keys, take_ge by lia.
    eexists. split; [reflexivity|]. rewrite slice_0, Nat2Z.id by lia. rewrite take_ge.
    2:{ etransitivity; [apply length_omap_le|]. etransitivity; [apply length_omap_le|]. lia. }
    apply elem_of_omap_intro with (x := KvTx chunkId (chunk_data chunkId iso chunk) None).
    2:{ apply chunk_data_reads_back; done. }
    apply elem_of_omap_intro with (x := chunkId).
    + apply elem_of_object_keys, elem_of_map_keys. rewrite Es. by eexists.
    + rewrite (axios_get_key _ _ _ _ _ (chunk_data chunkId iso chunk)); [reflexivity|done|done|done].
Qed.

Definition demo_new : newChunk :=
  NewChunk (js "hello") [of_Z 1; of_Z 2] (js "doc.md") 0 [(js "documentId", JStr (js "d1"))].

(** A serialiser that knows one value. *)
Definition demo_value : json :=
  JObj [(js "id", JStr (make_id 7 (js "abc") demo_new));
        (js "value", chunk_data (make_id 7 (js "abc") demo_new) (js "2025") demo_new)].

(** A request that lists the keys. *)
Definition demo_list : kv_request := KvRequest (js "GET") (js "/v1/transactions") [].

Lemma store_then_read_witness :
  let server := route (fun _ => Ok demo_value) (fun _ => Ok []) (js "http://localhost:18001") in
  let posted := server empty_store
    (store_request (fun _ => js "x") (js "http://localhost:5001/graphql")
       (make_id 7 (js "abc") demo_new) (js "2025") demo_new) in
  exists chunks,
    (getAllChunks (fun _ => Ok demo_value) (Throw []) (fun _ => Throw (js "down"))
       (getAllTransactionsViaHTTP (fun _ => [])
          (axios_get (fun _ => Ok demo_value) (fun _ => Ok []) (js "http://localhost:18001")
             (foldl (serve (fun _ => Ok demo_value) (fun _ => Ok [])) posted.1 [demo_list]))
          (Ok (js "http:", js "localhost"))) 10 new_store).2 = Ok chunks /\
    stored_chunk (make_id 7 (js "abc") demo_new) (js "2025") demo_new ∈ chunks.
Proof.
  cbn zeta.
  apply (store_then_read (fun _ => Ok demo_value) (fun _ => js "x") (fun _ => []) (fun _ => Ok []) (fun _ => Ok [])
    (Throw []) (fun _ => Throw (js "down")) (js "http://localhost:5001/graphql") (js "http:") (js "localhost")
    empty_store new_store new_store 7 (js "abc") (js "2025") demo_new 10 [demo_list]).
  - vm_compute. reflexivity.
  - reflexivity.
  - intros q. by eexists.
  - split_and!; discriminate.
  - constructor; [|constructor]. intros v E. vm_compute in E. discriminate E.
  - vm_compute. lia.
Defined.
