(* ===== verification/Retrieval.v ===== *)
(** * Retrieval

    [RetrievalService] of
    src/ecosystem/ai-tools/mcp/graphq-llm/src/rag/retrieval-service.ts, over
    an embedding function and a similarity search given as arguments; the
    theorems use the search only through its interface [SimilarityIndex]. *)

From S2P Require Import Prelude JsString JsArray JsNum Json Http VectorStore.

Local Open Scope js_scope.

Record RetrievalOptions := ROptions {
  r_limit : option Z;
  r_minSimilarity : option num;
  r_source : option str;
  r_type : option str;
  r_includeScores : option bool;
}.

Record RetrievalResult := RResult {
  chunks : list DocumentChunk;
  scores : option (list num);
  queryEmbedding : list num;
}.

(** Line by line the [cosineSimilarity] of the vector store. *)
Definition computeSimilarity (a b : list num) : result num :=
  if bool_decide (length a <> length b) then Throw (js "Vectors must have same length")
  else
    let dotProduct := dot a b in
    let normA := dot a a in
    let normB := dot b b in
    let denominator := nmul (nsqrt normA) (nsqrt normB) in
    if neq denominator nzero then Ok nzero else Ok (ndiv dotProduct denominator).

Section retrieval.
Context (generateEmbedding : str -> result (list num)).
Context (search : list num -> Z -> option searchFilters -> result (list DocumentChunk)).

(** The loop that keeps the chunks above the threshold, with their scores. *)
Fixpoint above (q : list num) (minSimilarity : num) (l : list DocumentChunk)
    : result (list (DocumentChunk * num)) :=
  match l with
  | [] => Ok []
  | c :: l' =>
      try! s <- computeSimilarity q (embedding c);
      try! rest <- above q minSimilarity l';
      Ok (if nle minSimilarity s then (c, s) :: rest else rest)
  end.

Definition retrieve (query : str) (options : RetrievalOptions) : result RetrievalResult :=
  let limit := coalesce (r_limit options) 10%Z in
  let minSimilarity := coalesce (r_minSimilarity options) (dec 3 10) in
  let includeScores := coalesce (r_includeScores options) false in
  try! queryEmbedding <- generateEmbedding query;
  try! found <- search queryEmbedding (limit * 2)%Z (Some (Filters (r_source options) (r_type options)));
  try! filteredResults <- above queryEmbedding minSimilarity found;
  let topResults := slice (sort_desc snd filteredResults) 0 limit in
  Ok (RResult topResults.*1 (if includeScores then Some topResults.*2 else None) queryEmbedding).

(** The results of the queries one after the other. *)
Fixpoint retrieve_all (queries : list str) (options : RetrievalOptions) : result (list (DocumentChunk * num)) :=
  match queries with
  | [] => Ok []
  | q :: queries' =>
      try! r <- retrieve q options;
      try! rest <- retrieve_all queries' options;
      Ok (zip (chunks r) (coalesce (scores r) []) ++ rest)
  end.

(** [chunkMap]: one entry per chunk id, the best score. *)
Definition keep_best (m : jsmap str (DocumentChunk * num)) (r : DocumentChunk * num)
    : jsmap str (DocumentChunk * num) :=
  match map_get m (id r.1) with
  | Some existing => if nlt existing.2 r.2 then map_set m (id r.1) r else m
  | None => map_set m (id r.1) r
  end.

Definition dedupe (results : list (DocumentChunk * num)) : jsmap str (DocumentChunk * num) :=
  foldl keep_best [] results.

Definition retrieveMultiple (queries : list str) (options : RetrievalOptions) : result RetrievalResult :=
  let limit := coalesce (r_limit options) 10%Z in
  let includeScores := coalesce (r_includeScores options) false in
  try! allResults <- retrieve_all queries
         (ROptions (Some (limit * 2)%Z) (r_minSimilarity options) (r_source options) (r_type options) (Some true));
  let sortedResults := slice (sort_desc snd (map_values (dedupe allResults))) 0 limit in
  try! e <- generateEmbedding (join queries (js " "));
  Ok (RResult sortedResults.*1 (if includeScores then Some sortedResults.*2 else None) e).

Definition retrieveSchemaContext (query : str) (options : RetrievalOptions) : result RetrievalResult :=
  retrieve query (ROptions (r_limit options) (Some (coalesce (r_minSimilarity options) (dec 25 100)))
                    (r_source options) (Some (js "schema")) (r_includeScores options)).

Definition retrieveDocumentationContext (query : str) (options : RetrievalOptions) : result RetrievalResult :=
  retrieve query (ROptions (r_limit options) (Some (coalesce (r_minSimilarity options) (dec 3 10)))
                    (r_source options) (r_type options) (r_includeScores options)).

Definition checkAvailability (vectorStoreHealth : result bool) : bool * bool :=
  match vectorStoreHealth, generateEmbedding (js "test") with
  | Ok v, Ok e => (v, (0 <? length e)%nat)
  | _, _ => (false, false)
  end.
End retrieval.

(** ** Lemmas *)

Lemma computeSimilarity_ok q c :
  length (embedding c) = length q -> computeSimilarity q (embedding c) = Ok (similarity q c).
Proof.
  intros H. unfold similarity, computeSimilarity, cosineSimilarity.
  rewrite bool_decide_eq_false_2 by (intros []; congruence). by destruct (neq _ _).
Qed.

Lemma above_ok q m l :
  (forall c, c ∈ l -> length (embedding c) = length q) ->
  above q m l = Ok ((fun c => (c, similarity q c)) <$> filterb (fun c => nle m (similarity q c)) l).
Proof.
  induction l as [|c l IH]; intros H; [done|]. cbn [above].
  rewrite computeSimilarity_ok by (apply H; by left). rewrite IH by (intros; apply H; by right).
  unfold filterb. cbn. by destruct (nle m (similarity q c)).
Qed.

Lemma filterb_sorted {A} (R : A -> A -> Prop) f l : StronglySorted R l -> StronglySorted R (filterb f l).
Proof.
  induction 1 as [|x l Hs IH Hx]; [constructor|]. unfold filterb in *. cbn. destruct (f x); [|done].
  constructor; [done|]. rewrite Forall_forall in Hx |- *. intros y Hy. apply Hx.
  apply list_elem_of_In, filter_In in Hy as [Hy _]. by apply list_elem_of_In.
Qed.

(** The chunks kept from a nearest-first list are already in order. *)
Lemma kept_sorted q m l :
  StronglySorted (ranked (similarity q)) l ->
  sort_desc snd ((fun c => (c, similarity q c)) <$> filterb (fun c => nle m (similarity q c)) l) =
    (fun c => (c, similarity q c)) <$> filterb (fun c => nle m (similarity q c)) l.
Proof. intros Hs. apply sort_desc_id, StronglySorted_fmap. by apply filterb_sorted. Qed.

Definition limit_of (options : RetrievalOptions) : Z := coalesce (r_limit options) 10%Z.
Definition threshold (options : RetrievalOptions) : num := coalesce (r_minSimilarity options) (dec 3 10).
Definition filters_of (options : RetrievalOptions) : option searchFilters :=
  Some (Filters (r_source options) (r_type options)).

Lemma fst_pairs {A B} (f : A -> B) (l : list A) : ((fun c => (c, f c)) <$> l).*1 = l.
Proof. rewrite <- list_fmap_compose. apply list_fmap_id. Qed.

Lemma snd_pairs {A B} (f : A -> B) (l : list A) : ((fun c => (c, f c)) <$> l).*2 = f <$> l.
Proof. by rewrite <- list_fmap_compose. Qed.

(** *** Deduplication *)

Definition map_best (results : list (DocumentChunk * num)) (m : jsmap str (DocumentChunk * num)) : Prop :=
  map_wf m /\
  (forall k r, map_get m k = Some r -> id r.1 = k /\ r ∈ results) /\
  (forall r, r ∈ results -> exists b, map_get m (id r.1) = Some b /\ nlt b.2 r.2 = false).

Lemma keep_best_ok results m r :
  (forall x, x ∈ results -> num_ok x.2) -> num_ok r.2 ->
  map_best results m -> map_best (results ++ [r]) (keep_best m r).
Proof.
  intros Hall Hr (Hwf & Hm & Hbest). unfold keep_best.
  assert (forall m', m' = map_set m (id r.1) r ->
    (forall b, map_get m (id r.1) = Some b -> nlt b.2 r.2 = true) -> map_best (results ++ [r]) m') as Hset.
  { intros m' -> Hb. split_and!; [by apply map_set_wf| |].
    - intros k x Hx. destruct (decide (id r.1 = k)) as [<-|Hne].
      + rewrite map_get_set_eq in Hx. injection Hx as <-. split; [done|]. set_solver.
      + rewrite map_get_set_ne in Hx by done. destruct (Hm k x Hx). set_solver.
    - intros x [Hx| ->%list_elem_of_singleton]%elem_of_app.
      + destruct (Hbest x Hx) as (b & Eb & Hle). destruct (decide (id r.1 = id x.1)) as [E|Hne].
        * exists r. rewrite <- E, map_get_set_eq. split; [done|].
          rewrite <- E in Eb. pose proof (Hb b Eb) as Hlt.
          apply (nle_trans x.2 b.2 r.2); [by apply Hall| |done|done|by apply nlt_asym].
          apply Hall. by destruct (Hm _ b Eb).
        * exists b. by rewrite map_get_set_ne.
      + exists r. rewrite map_get_set_eq. split; [done|apply nlt_irrefl]. }
  destruct (map_get m (id r.1)) as [b|] eqn:Eb; [|by apply Hset].
  destruct (nlt b.2 r.2) eqn:El; [by apply Hset; [|congruence]|].
  split_and!; [done|set_solver|]. intros x [Hx| ->%list_elem_of_singleton]%elem_of_app; [by apply Hbest|].
  by exists b.
Qed.

Lemma dedupe_ok results : (forall x, x ∈ results -> num_ok x.2) -> map_best results (dedupe results).
Proof.
  unfold dedupe. induction results as [|r results IH] using rev_ind; intros Hok.
  - split_and!; [constructor|done|set_solver].
  - rewrite foldl_app. cbn. apply keep_best_ok; [set_solver..|]. apply IH. set_solver.
Qed.

Lemma map_best_ids results m : map_best results m -> NoDup ((fun r => id r.1) <$> map_values m).
Proof.
  intros (Hwf & Hm & _). unfold map_wf, map_keys in Hwf. unfold map_values.
  rewrite <- list_fmap_compose. erewrite list_fmap_ext; [exact Hwf|].
  intros i [k r] Hi. cbn. apply list_elem_of_lookup_2, elem_of_map_get in Hi; [|done]. by apply Hm in Hi as [? _].
Qed.

Lemma NoDup_take_ids {A B} (f : A -> B) (n : nat) l : NoDup (f <$> l) -> NoDup (f <$> take n l).
Proof.
  intros H. rewrite <- (take_drop n l), fmap_app in H. by apply NoDup_app in H as [? _].
Qed.

(** ** The properties *)

Section against_interface.
Context (index : list DocumentChunk) (search : list num -> Z -> option searchFilters -> result (list DocumentChunk)).
Context `{!SimilarityIndex index search}.

(** What [retrieve] computes over a correct index. *)
Lemma retrieve_compute generateEmbedding query options q (limit : nat) :
  generateEmbedding query = Ok q -> limit_of options = Z.of_nat limit ->
  comparable index (filters_of options) q ->
  exists l rest,
    nearest q (limit * 2) (filterb (passes (filters_of options)) index) l rest /\
    let kept := filterb (fun c => nle (threshold options) (similarity q c)) l in
    retrieve generateEmbedding search query options =
      Ok (RResult (take limit kept)
            (if coalesce (r_includeScores options) false then Some (similarity q <$> take limit kept) else None) q).
Proof.
  intros Hq Hlimit Hcmp.
  destruct (search_nearest q (limit * 2) (filters_of options) Hcmp) as (l & rest & Hsearch & Hn).
  exists l, rest. split; [done|]. cbn zeta. destruct Hn as (Hperm & _ & Hsorted & _).
  unfold retrieve. fold (limit_of options). fold (threshold options). rewrite Hlimit, Hq.
  fold (filters_of options). replace (Z.of_nat limit * 2)%Z with (Z.of_nat (limit * 2)) by lia.
  rewrite Hsearch, above_ok.
  - rewrite kept_sorted, slice_0, Nat2Z.id, <- fmap_take, fst_pairs, snd_pairs by (done || lia). done.
  - intros c Hc. assert (c ∈ filterb (passes (filters_of options)) index) as [Hin Hp]%elem_of_filterb.
    { rewrite <- Hperm, elem_of_app. by left. }
    by apply (Hcmp c Hin Hp).
Qed.
End against_interface.

(** C14: over any similarity index that keeps the contract of the vector store,
    when the query has an embedding and every indexed chunk that passes the
    filters has an embedding of that length and a similarity that is not NaN,
    [retrieve] returns the best answers there are: at most [limit] stored
    chunks that pass the filters and reach the threshold, in descending
    similarity, with their scores; and a chunk that passes, reaches the
    threshold and is not returned is no more similar than any that is, the
    answer then being full. *)
Theorem retrieve_best index search `{!SimilarityIndex index search}
    generateEmbedding query options q (limit : nat)
    (Hq : generateEmbedding query = Ok q) (Hlimit : limit_of options = Z.of_nat limit)
    (Hcmp : comparable index (filters_of options) q) :
  exists r, retrieve generateEmbedding search query options = Ok r /\
    length (chunks r) <= limit /\ StronglySorted (ranked (similarity q)) (chunks r) /\
    (forall l, scores r = Some l -> l = similarity q <$> chunks r) /\
    (forall c, c ∈ chunks r -> c ∈ index /\ passes (filters_of options) c = true /\
       nle (threshold options) (similarity q c) = true) /\
    (forall c, c ∈ index -> passes (filters_of options) c = true ->
       nle (threshold options) (similarity q c) = true -> c ∉ chunks r ->
       length (chunks r) = limit /\ forall c', c' ∈ chunks r -> ranked (similarity q) c' c).
Proof.
  destruct (retrieve_compute index search generateEmbedding query options q limit Hq Hlimit Hcmp)
    as (l & rest & (Hperm & Hlen & Hsorted & Hbest) & Hrun).
  set (kept := filterb (fun c => nle (threshold options) (similarity q c)) l) in Hrun. cbn zeta in Hrun.
  assert (forall c, c ∈ l \/ c ∈ rest <-> c ∈ index /\ passes (filters_of options) c = true) as Hin.
  { intros c. by rewrite <- elem_of_app, Hperm, elem_of_filterb. }
  assert (StronglySorted (ranked (similarity q)) kept) as Hks by by apply filterb_sorted.
  eexists. split; [exact Hrun|]. cbn [chunks scores]. split_and!.
  - rewrite length_take. lia.
  - by apply StronglySorted_take.
  - intros sc. by destruct (coalesce _ _); [intros [= <-]|].
  - intros c Hc%elem_of_take_sub. apply elem_of_filterb in Hc as [Hc Hm].
    destruct (proj1 (Hin c) ltac:(by left)) as [??]. done.
  - intros c Hc Hp Hm Hout. destruct (proj2 (Hin c) (conj Hc Hp)) as [Hl|Hr].
    + assert (c ∈ drop limit kept) as Hd.
      { assert (c ∈ kept) as Hk by by apply elem_of_filterb.
        rewrite <- (take_drop limit kept) in Hk. by apply elem_of_app in Hk as [?|?]. }
      split.
      * assert (0 < length (drop limit kept)) by (destruct (drop _ _); [set_solver|cbn; lia]).
        rewrite length_drop in *. rewrite length_take. lia.
      * intros c' Hc'. by eapply StronglySorted_take_drop.
    + assert (kept = l) as ->.
      { apply filterb_all. intros c' Hc'. destruct (proj1 (Hin c') ltac:(by left)) as [Hi' Hp'].
        apply (nle_ranked _ (similarity q c)); [by apply (Hcmp c' Hi' Hp')|done|].
        by apply (Hbest c' c). }
      assert (length l = limit * 2) as Hfull.
      { rewrite <- Hperm, length_app in Hlen. destruct rest; [set_solver|]. cbn in Hlen. lia. }
      split; [rewrite length_take; lia|]. intros c' Hc'%elem_of_take_sub. by apply Hbest.
Qed.

Definition demo_index : list DocumentChunk := [demo_chunk "a" [0; 1]; demo_chunk "b" [1; 0]; demo_chunk "c" [1; 1]]%Z.
Definition demo_options : RetrievalOptions := ROptions (Some 1%Z) None None None None.

Lemma retrieve_best_witness :
  exists r, retrieve (fun _ => Ok [of_Z 1; of_Z 0]) (searchSimilar (Ok demo_index)) (js "q") demo_options = Ok r /\
    length (chunks r) <= 1.
Proof.
  destruct (retrieve_best demo_index (searchSimilar (Ok demo_index)) (fun _ => Ok [of_Z 1; of_Z 0])
    (js "q") demo_options [of_Z 1; of_Z 0] 1) as (r & H1 & H2 & _).
  - reflexivity.
  - reflexivity.
  - intros c Hc _. repeat (apply elem_of_cons in Hc as [->|Hc]; [vm_compute; split; reflexivity|]).
    by apply elem_of_nil in Hc.
  - exists r. split; [exact H1|exact H2].
Defined.

(** [retrieveMultiple] merges the answers to several queries: no chunk id
    twice, at most [limit] results in descending score, each a result of one
    of the queries with the best score its id got, and an id left out got no
    better score than any returned one. *)
Theorem retrieveMultiple_merges generateEmbedding search queries options r (limit : nat) all
    (Hlimit : limit_of options = Z.of_nat limit)
    (Hall : retrieve_all generateEmbedding search queries
       (ROptions (Some (limit_of options * 2)%Z) (r_minSimilarity options) (r_source options) (r_type options)
          (Some true)) = Ok all)
    (Hnan : forall x, x ∈ all -> num_ok x.2)
    (Hrun : retrieveMultiple generateEmbedding search queries options = Ok r) :
  exists results,
    chunks r = results.*1 /\ length results <= limit /\ NoDup (id <$> chunks r) /\
    StronglySorted (ranked snd) results /\
    (forall x, x ∈ results -> x ∈ all /\ forall y, y ∈ all -> id y.1 = id x.1 -> nlt x.2 y.2 = false) /\
    (forall y, y ∈ all -> (forall x, x ∈ results -> id x.1 <> id y.1) ->
       length results = limit /\ forall x, x ∈ results -> nlt x.2 y.2 = false).
Proof.
  unfold retrieveMultiple in Hrun. fold (limit_of options) in Hrun. rewrite Hall in Hrun.
  destruct (generateEmbedding _) as [e|]; [|done]. injection Hrun as <-.
  pose proof (dedupe_ok all Hnan) as Hd. pose proof Hd as (Hwf & Hm & Hb).
  set (vals := map_values (dedupe all)) in *. rewrite Hlimit, slice_0, Nat2Z.id by lia.
  assert (forall x, x ∈ vals -> x ∈ all /\ map_get (dedupe all) (id x.1) = Some x) as Hv.
  { intros x [k Hk]%elem_of_map_values; [|done]. destruct (Hm k x Hk) as [<- ?]. done. }
  assert (Forall (fun x => num_ok x.2) vals) as Hok by (apply Forall_forall; intros x Hx; apply Hnan; by apply Hv).
  assert (forall x, x ∈ vals -> forall y, y ∈ all -> id y.1 = id x.1 -> nlt x.2 y.2 = false) as Hmax.
  { intros x Hx y Hy E. destruct (Hb y Hy) as (b & Eb & Hle). rewrite E, (proj2 (Hv x Hx)) in Eb. by injection Eb as <-. }
  exists (take limit (sort_desc snd vals)). cbn [chunks]. split_and!.
  - done.
  - rewrite length_take. lia.
  - rewrite <- list_fmap_compose. apply NoDup_take_ids. unfold compose. rewrite sort_desc_perm.
    by eapply map_best_ids.
  - by apply StronglySorted_take, sort_desc_sorted.
  - intros x Hx%elem_of_take_sub%elem_of_sort_desc. split; [by apply Hv|by apply Hmax].
  - intros y Hy Hout. destruct (Hb y Hy) as (b & Eb & Hle).
    assert (b ∈ vals) as Hbv by (apply elem_of_map_values; [done|by eexists]).
    assert (b ∈ drop limit (sort_desc snd vals)) as Hdrop.
    { apply (elem_of_sort_desc snd) in Hbv. rewrite <- (take_drop limit) in Hbv.
      apply elem_of_app in Hbv as [Hx|?]; [|done]. exfalso. apply (Hout b Hx). by apply Hm in Eb as [? _]. }
    split.
    + assert (0 < length (drop limit (sort_desc snd vals))) by (destruct (drop _ _); [set_solver|cbn; lia]).
      rewrite length_drop in *. rewrite length_take. lia.
    + intros x Hx. pose proof (sort_desc_take_best snd limit vals x b Hok Hx Hdrop) as Hr. unfold ranked in Hr.
      apply (nle_trans y.2 b.2 x.2); [by apply Hnan| | |done|done].
      * apply Hnan. by destruct (Hm _ _ Eb).
      * apply Hnan, Hv. by apply elem_of_take_sub, elem_of_sort_desc in Hx.
Qed.

Definition demo_embed (_ : str) : result (list num) := Ok [of_Z 1; of_Z 0].
Definition demo_all : list (DocumentChunk * num) :=
  Eval vm_compute in
    match retrieve_all demo_embed (searchSimilar (Ok demo_index)) [js "x"; js "y"]
            (ROptions (Some 2%Z) None None None (Some true)) with Ok a => a | Throw _ => [] end.

Definition demo_result : RetrievalResult :=
  Eval vm_compute in
    match retrieveMultiple demo_embed (searchSimilar (Ok demo_index)) [js "x"; js "y"] demo_options with
    | Ok r => r
    | Throw _ => RResult [] None []
    end.

Lemma retrieveMultiple_merges_witness :
  exists results : list (DocumentChunk * num), chunks demo_result = results.*1 /\ length results <= 1.
Proof.
  destruct (retrieveMultiple_merges demo_embed (searchSimilar (Ok demo_index)) [js "x"; js "y"] demo_options
    demo_result 1 demo_all) as (results & H1 & H2 & _).
  - reflexivity.
  - vm_compute. reflexivity.
  - intros x Hx. repeat (apply elem_of_cons in Hx as [->|Hx]; [reflexivity|]). by apply elem_of_nil in Hx.
  - vm_compute. reflexivity.
  - exists results. split; [exact H1|exact H2].
Defined.
