(* ===== verification/ContextFormatter.v ===== *)
(** * Formatting context for prompts

    [ContextFormatter] of
    src/ecosystem/ai-tools/mcp/graphq-llm/src/rag/context-formatter.ts.  A
    token is a quarter of a character; budgets are integers, and lengths are
    compared in characters, which is exact. *)

From S2P Require Import Prelude JsString JsArray JsNum Json VectorStore.

Inductive formatStyle := Compact | Detailed | MarkdownStyle.

Record FormatOptions := FOptions {
  f_maxTokens : option Z;
  f_includeMetadata : option bool;
  f_includeScores : option bool;
  f_format : option formatStyle;
  f_separator : option str;
}.

Definition getSourceName (source : str) : str :=
  str_or (last (split source (js "/"))) source.

Definition percent (score : num) (digits : nat) : str := toFixed (nmul score (of_Z 100)) digits ++ js "%".

Definition formatChunk (chunk : DocumentChunk) (score : option num) (includeMetadata includeScores : bool)
    (format : formatStyle) : str :=
  let shown := if includeScores then score else None in
  let section := match section chunk with Some (c :: s) => Some (c :: s) | _ => None end in
  if includeMetadata then
    match format with
    | MarkdownStyle =>
        js "## " ++ getSourceName (source chunk) ++ jsn "|n|n" ++
        (match section with Some s => js "**Section:** " ++ s ++ jsn "|n|n" | None => [] end) ++
        (match shown with Some x => js "**Relevance:** " ++ percent x 1 ++ jsn "|n|n" | None => [] end) ++
        chunkText chunk
    | Detailed =>
        js "[Source: " ++ getSourceName (source chunk) ++
        (match section with Some s => js " | Section: " ++ s | None => [] end) ++
        (match shown with Some x => js " | Relevance: " ++ percent x 1 | None => [] end) ++
        jsn "]|n|n" ++ chunkText chunk
    | Compact =>
        match shown with
        | Some x => js "[Relevance: " ++ percent x 0 ++ js "] " ++ chunkText chunk
        | None => chunkText chunk
        end
    end
  else chunkText chunk.

(** The loop: the formatted chunks while they fit; [used] is
    [currentLength], in characters. *)
Fixpoint fitting (budget used : Z) (pieces : list str) : list str :=
  match pieces with
  | [] => []
  | p :: pieces' =>
      if (budget <? used + Z.of_nat (length p))%Z then []
      else p :: fitting budget (used + Z.of_nat (length p)) pieces'
  end.

Definition pieces (chunks : list DocumentChunk) (scores : option (list num)) (options : FormatOptions) : list str :=
  imap (fun i c =>
          formatChunk c (coalesce scores [] !! i) (coalesce (f_includeMetadata options) true)
            (coalesce (f_includeScores options) false) (coalesce (f_format options) Detailed)) chunks.

Definition maxChars (options : FormatOptions) : Z := (coalesce (f_maxTokens options) 4000 * 4)%Z.
Definition separator (options : FormatOptions) : str := coalesce (f_separator options) (jsn "|n|n---|n|n").

Definition format (chunks : list DocumentChunk) (scores : option (list num)) (options : FormatOptions) : str :=
  join (fitting (maxChars options) 0 (pieces chunks scores options)) (separator options).

Definition formatForExplanation (chunks : list DocumentChunk) (scores : option (list num)) (options : FormatOptions)
    : str :=
  jsn "Relevant Documentation Context:|n|n" ++
  format chunks scores
    (FOptions (f_maxTokens options) (Some true) (Some false) (Some Detailed) (f_separator options)).

Definition prioritize (chunks : list DocumentChunk) : list DocumentChunk :=
  filterb (fun c => bool_decide (type c = js "schema")) chunks ++
  filterb (fun c => bool_decide (type c = js "example")) chunks ++
  filterb (fun c => bool_decide (type c = js "documentation") || bool_decide (type c = js "api")) chunks.

(** [Math.floor(maxTokens / 2)] chunks, 10 when [maxTokens] is 0 or absent. *)
Definition formatForOptimization (chunks : list DocumentChunk) (scores : option (list num)) (options : FormatOptions)
    : str :=
  let count := match f_maxTokens options with
               | Some m => if (m =? 0)%Z then 10%Z else (m / 2)%Z
               | None => 10%Z
               end in
  jsn "Optimization References:|n|n" ++
  format (slice (prioritize chunks) 0 count) scores
    (FOptions (f_maxTokens options) (Some false) (f_includeScores options) (Some Compact) (f_separator options)).

Definition formatCombined (docChunks schemaChunks : list DocumentChunk) (options : FormatOptions) : str :=
  let maxTokens := coalesce (f_maxTokens options) 4000%Z in
  let style := coalesce (f_format options) Detailed in
  let docTokens := to_Z (nmul (of_Z maxTokens) (dec 6 10)) in
  let schemaTokens := to_Z (nmul (of_Z maxTokens) (dec 4 10)) in
  let part chunks tokens :=
    format chunks None
      (FOptions (Some tokens) (f_includeMetadata options) (f_includeScores options) (Some style)
         (f_separator options)) in
  jsn "Documentation:|n|n" ++ part docChunks docTokens ++ jsn "|n|n" ++ repeat "="%char 50 ++
  jsn "|n|nSchema Information:|n|n" ++ part schemaChunks schemaTokens.

(** [Math.ceil(text.length / 4)] *)
Definition estimateTokens (text : str) : Z := ((Z.of_nat (length text) + 3) / 4)%Z.

Definition truncateToTokens (text : str) (maxTokens : Z) : str :=
  if (estimateTokens text <=? maxTokens)%Z then text
  else substring text 0 (maxTokens * 4) ++ js "...".

(** ** Lemmas *)

Definition total (l : list str) : nat := sum_list (length <$> l).

Lemma fitting_spec budget used l :
  exists k, fitting budget used l = take k l /\ k <= length l /\
    ((used <= budget)%Z -> (used + Z.of_nat (total (take k l)) <= budget)%Z) /\
    (k < length l -> (budget < used + Z.of_nat (total (take (S k) l)))%Z).
Proof.
  unfold total. revert used. induction l as [|p l IH]; intros used; cbn [fitting].
  - exists 0. cbn. split_and!; [done|done|lia|lia].
  - destruct (budget <? used + Z.of_nat (length p))%Z eqn:E; split_bools.
    + exists 0. cbn. split_and!; [done|lia|lia|rewrite take_0; cbn; lia].
    + destruct (IH (used + Z.of_nat (length p))%Z) as (k & -> & Hk & Hfit & Hmore).
      exists (S k). cbn [take length fmap list_fmap sum_list]. split_and!; [done|lia| |].
      * intros _. specialize (Hfit E). cbn. lia.
      * intros Hlt. specialize (Hmore ltac:(lia)). cbn in *. lia.
Qed.

(** ** The properties *)

(** The context keeps to its budget: it joins the longest prefix of the
    formatted chunks whose characters fit four times [maxTokens]; only the
    separators come on top. *)
Theorem format_within_budget chunks scores options
    (Hbudget : (0 <= maxChars options)%Z) :
  let ps := pieces chunks scores options in
  exists k, format chunks scores options = join (take k ps) (separator options) /\
    (Z.of_nat (total (take k ps)) <= maxChars options)%Z /\
    (k < length chunks -> (maxChars options < Z.of_nat (total (take (S k) ps)))%Z) /\
    (Z.of_nat (length (format chunks scores options))
       <= maxChars options + Z.of_nat ((k - 1) * length (separator options)))%Z.
Proof.
  intros ps. destruct (fitting_spec (maxChars options) 0 ps) as (k & Hk & Hlen & Hfit & Hmore).
  exists k. unfold format. fold ps. rewrite Hk. specialize (Hfit Hbudget). split_and!.
  - done.
  - lia.
  - assert (length ps = length chunks) as E by apply length_imap. rewrite E in Hmore.
    intros H. specialize (Hmore H). lia.
  - rewrite length_join. rewrite length_take. unfold total in Hfit.
    assert ((k `min` length ps - 1) * length (separator options) <= (k - 1) * length (separator options))
      by (apply Nat.mul_le_mono_r; lia).
    lia.
Qed.

Definition demo_format : FormatOptions := FOptions (Some 4%Z) (Some false) None None None.

Lemma format_within_budget_witness :
  exists k, format [demo_chunk "a" []; demo_chunk "b" []; demo_chunk "c" []] None demo_format =
      join (take k [js "text"; js "text"; js "text"]) (jsn "|n|n---|n|n") /\
    (Z.of_nat (total (take k [js "text"; js "text"; js "text"])) <= 16)%Z.
Proof.
  destruct (format_within_budget [demo_chunk "a" []; demo_chunk "b" []; demo_chunk "c" []] None demo_format)
    as (k & H1 & H2 & _).
  - vm_compute. discriminate.
  - exists k. split; [exact H1|exact H2].
Defined.

(** [truncateToTokens] leaves a text that fits alone and cuts a longer one
    to its first [4 * maxTokens] characters followed by an ellipsis. *)
Theorem truncateToTokens_bounds text maxTokens (Hmax : (0 <= maxTokens)%Z) :
  (Z.of_nat (length text) <= 4 * maxTokens -> truncateToTokens text maxTokens = text)%Z /\
  (4 * maxTokens < Z.of_nat (length text) ->
     truncateToTokens text maxTokens = take (Z.to_nat (4 * maxTokens)) text ++ js "..." /\
     Z.of_nat (length (truncateToTokens text maxTokens)) = 4 * maxTokens + 3)%Z.
Proof.
  unfold truncateToTokens, estimateTokens. split; intros H.
  - rewrite (proj2 (Z.leb_le _ _)); [done|]. apply Z.lt_succ_r, Z.div_lt_upper_bound; lia.
  - rewrite (proj2 (Z.leb_gt _ _)) by (apply Z.lt_le_trans with (m := (maxTokens + 1)%Z); [lia|];
      apply Z.div_le_lower_bound; lia).
    rewrite substring_prefix, (Z.mul_comm maxTokens) by lia. split; [done|].
    rewrite length_app, length_take. cbn [js length]. cbn. lia.
Qed.

Lemma truncateToTokens_bounds_witness :
  truncateToTokens (js "abcdefghij") 2 = js "abcdefgh...".
Proof.
  destruct (truncateToTokens_bounds (js "abcdefghij") 2) as [_ H].
  - lia.
  - destruct H as [-> _]; [cbn; lia|]. reflexivity.
Defined.
