(* ===== verification/Embedding.v ===== *)
(** * Embeddings

    [EmbeddingService] and [fetchEmbeddingDirect] of
    src/ecosystem/ai-tools/mcp/graphq-llm/src/rag/embedding-service.ts.  The
    local model, the Hugging Face SDK and its HTTP endpoint are parameters. *)

From S2P Require Import Prelude JsString JsArray JsNum Json Http.

Local Open Scope js_scope.

Inductive provider := HuggingFace | Local.

Record EmbeddingService := Embedder { model : str; dimension : Z; kind : provider }.

Definition new_embedder (p : provider) : EmbeddingService :=
  Embedder (js "sentence-transformers/all-MiniLM-L6-v2") 384 p.

(** The client of the SDK is always created for this provider. *)
Definition isAvailable (_ : EmbeddingService) : bool := true.
Definition getDimension (s : EmbeddingService) : Z := dimension s.
Definition getModel (s : EmbeddingService) : str := model s.
Definition getProvider (s : EmbeddingService) : provider := kind s.
Definition setModel (s : EmbeddingService) (m : str) (d : Z) : EmbeddingService := Embedder m d (kind s).

(** A row of a response read as [number[]]. *)
Definition row (v : json) : list num := default [] (as_nums (Some v)).

Section direct.
Context (JSON_stringify : json -> str).
Context (fetch : request -> result (response json)) (text : response json -> result str).
Context (apiKey : option str).

Definition fetchEmbeddingDirect (model : str) (inputs : json) : result (list (list num)) :=
  let r := Request (js "POST") (js "https://router.huggingface.co/hf-inference/models/" ++ model)
             (auth_headers json_headers apiKey)
             (Some (JSON_stringify (JObj [(js "inputs", inputs)]))) in
  try! response <- fetch r;
  if negb (ok response) then
    try! errorText <- text response;
    Throw (if (status response =? 429)%Z then js "Rate limit exceeded: " ++ errorText
           else if ((status response =? 401) || (status response =? 403))%Z
           then js "Authentication failed: " ++ errorText
           else if (status response =? 503)%Z then js "Model is loading, please wait: " ++ errorText
           else js "HTTP " ++ str_of_Z (status response) ++ js ": " ++ errorText)
  else
    try! data <- payload response;
    match data with
    | JArr (JArr l :: rows) => Ok (row <$> JArr l :: rows)
    | JArr (JNum n :: rows) => Ok [row data]
    | _ => Throw (js "Invalid response format from Hugging Face API")
    end.
End direct.

Section service.
Context (s : EmbeddingService).
(** The local pipeline on one text; [hfClient.featureExtraction] and the
    direct request on one text or several. *)
Context (generateEmbeddingLocal : str -> result (list num)).
Context (featureExtraction : json -> result json).
Context (direct : json -> result (list (list num))).

Definition needs_direct (errorMsg : str) : bool :=
  includes errorMsg (js "Inference Providers") || includes errorMsg (js "permissions").

(** The SDK's answer for one text. *)
Definition single_response (response : json) : result (list num) :=
  match response with
  | JArr [] => Throw (js "No embedding returned")
  | JArr (JNum _ :: _) => Ok (row response)
  | JArr (JArr l :: _) => Ok (row (JArr l))
  | _ => Throw (js "Invalid response format")
  end.

(** The inner [try]: SDK first, direct request on a permission problem. *)
Definition hf_attempt (text : str) : result (list num) :=
  match (try! r <- featureExtraction (JStr text); single_response r) with
  | Ok e => Ok e
  | Throw sdkError =>
      if needs_direct sdkError then
        try! embeddings <- direct (JStr text);
        match embeddings with
        | (x :: e) :: _ => Ok (x :: e)
        | _ => Throw sdkError
        end
      else Throw sdkError
  end.

Definition generateEmbeddingHuggingFace (text : str) : result (list num) :=
  match hf_attempt text with
  | Ok e => Ok e
  | Throw errorMsg =>
      if includes errorMsg (js "rate limit") || includes errorMsg (js "429") then
        Throw (js "Hugging Face rate limit reached. Set HUGGINGFACE_API_KEY for higher limits. Original error: " ++ errorMsg)
      else if includes errorMsg (js "401") || includes errorMsg (js "Unauthorized") then
        Throw (js "Hugging Face authentication failed. Check your HUGGINGFACE_API_KEY. Original error: " ++ errorMsg)
      else
        Throw (js "Failed to generate embedding with Hugging Face: " ++ errorMsg ++ js ". " ++
               js "Note: Public API may be rate-limited. Consider setting HUGGINGFACE_API_KEY for better reliability.")
  end.

Definition generateEmbedding (text : str) : result (list num) :=
  if bool_decide (trim text = []) then Throw (js "Text cannot be empty")
  else match kind s with
       | Local => generateEmbeddingLocal (trim text)
       | HuggingFace => generateEmbeddingHuggingFace (trim text)
       end.

(** ** Batches *)

(** Texts with their positions, trimmed, the empty ones left out. *)
Definition validTexts (texts : list str) : list (nat * str) :=
  filterb (fun it => negb (bool_decide (it.2 = []))) (imap (fun i t => (i, trim t)) texts).

(** [slice(i, i + batchSize)] for [i = 0, batchSize, ...]; as many
    iterations as there are texts are enough for a positive [batchSize]. *)
Fixpoint batches {A} (fuel batchSize : nat) (l : list A) : list (list A) :=
  match fuel with
  | O => []
  | S fuel' => match l with [] => [] | _ => take batchSize l :: batches fuel' batchSize (drop batchSize l) end
  end.

Definition batch_row (v : json) : list num :=
  match v with JArr l => row (JArr l) | JNum n => [n] | _ => [] end.

Definition batch_embeddings (batchTexts : list str) : result (list (list num)) :=
  let inputs := JArr (JStr <$> batchTexts) in
  match (try! response <- featureExtraction inputs;
         match response with
         | JArr rows => Ok (batch_row <$> rows)
         | _ => Throw (js "Invalid batch response format")
         end) with
  | Ok e => Ok e
  | Throw sdkError => if needs_direct sdkError then direct inputs else Throw sdkError
  end.

(** The array under construction ([None] is [null]) and the errors. *)
Definition work : Type := list (option (list num)) * list str.

(** [batch.forEach]: a missing or empty row becomes []. *)
Definition place (embs : list (list num)) (arr : list (option (list num))) (batch : list (nat * str))
    : list (option (list num)) :=
  foldl (fun arr (jit : nat * (nat * str)) => <[jit.2.1 := Some (default [] (embs !! jit.1))]> arr) arr (imap pair batch).

Definition hf_batch (w : work) (number : nat) (batch : list (nat * str)) : work :=
  match batch_embeddings batch.*2 with
  | Ok embs => (place embs w.1 batch, w.2)
  | Throw e => (w.1, w.2 ++ [js "Batch " ++ str_of_nat (S number) ++ js ": " ++ e])
  end.

Definition local_item (w : work) (it : nat * str) : work :=
  match generateEmbeddingLocal it.2 with
  | Ok e => (<[it.1 := Some e]> w.1, w.2)
  | Throw e =>
      (<[it.1 := Some []]> w.1,
       w.2 ++ [js "Local embedding failed for chunk " ++ str_of_nat (S it.1) ++ js ": " ++ e])
  end.

Fixpoint hf_loop (w : work) (number : nat) (bs : list (list (nat * str))) : work :=
  match bs with [] => w | b :: bs' => hf_loop (hf_batch w number b) (S number) bs' end.

Definition ceil_div (a b : nat) : nat := (a + b - 1) / b.

Definition generateEmbeddings (texts : list str) (batchSize : nat) : result (list (list num)) :=
  match texts with
  | [] => Ok []
  | _ =>
      let valid := validTexts texts in
      match valid with
      | [] => Throw (js "No valid texts provided")
      | _ =>
          let start : work := (replicate (length texts) None, []) in
          let '(embeddings, errors) :=
            match kind s with
            | Local => foldl local_item start valid
            | HuggingFace => hf_loop start 0 (batches (length valid) batchSize valid)
            end in
          if (0 <? length errors)%nat && (length errors =? ceil_div (length valid) batchSize)%nat
          then Throw (js "All batches failed: " ++ join errors (js "; "))
          else Ok (default [] <$> embeddings)
      end
  end.
End service.

(** ** Lemmas *)

Lemma concat_batches {A} fuel (n : nat) (l : list A) :
  0 < n -> length l <= fuel -> concat (batches fuel n l) = l.
Proof.
  intros Hn. revert l. induction fuel as [|fuel IH]; intros l Hl; cbn.
  - by destruct l; [|cbn in Hl; lia].
  - destruct l as [|x l]; [done|]. cbn [concat]. rewrite IH; [apply take_drop|].
    rewrite length_drop. cbn [length] in *. lia.
Qed.

Lemma foldl_via {A B C} (f : A -> C -> A) (h : B -> C) (a : A) (l : list B) :
  foldl (fun a x => f a (h x)) a l = foldl f a (h <$> l).
Proof. revert a. induction l as [|x l IH]; intros a; cbn; auto. Qed.

Lemma foldl_eq_on {A B} (f g : A -> B -> A) (a : A) (l : list B) :
  (forall a x, x ∈ l -> f a x = g a x) -> foldl f a l = foldl g a l.
Proof.
  revert a. induction l as [|x l IH]; intros a H; cbn; [done|].
  rewrite H by by left. apply IH. intros. apply H. by right.
Qed.

(** Writing the value [f it] at the position of each item. *)
Definition write_all (f : nat * str -> list num) (arr : list (option (list num))) (items : list (nat * str)) :=
  foldl (fun arr it => <[it.1 := Some (f it)]> arr) arr items.

Lemma place_write f arr batch : place ((f ∘ snd) <$> batch) arr batch = write_all (f ∘ snd) arr batch.
Proof.
  unfold place, write_all.
  rewrite (foldl_eq_on _ (fun arr jit => <[jit.2.1 := Some ((f ∘ snd) jit.2)]> arr)).
  - rewrite (foldl_via (fun arr it => <[it.1 := Some ((f ∘ snd) it)]> arr) snd). f_equal.
    apply list_eq. intros j. rewrite list_lookup_fmap, list_lookup_imap. by destruct (batch !! j).
  - intros arr' [j it] Hj. apply list_elem_of_lookup in Hj as [k Hk]. rewrite list_lookup_imap in Hk.
    apply fmap_Some in Hk as (it' & Hk & [= -> ->]). cbn. by rewrite list_lookup_fmap, Hk.
Qed.

Lemma length_write_all f arr items : length (write_all f arr items) = length arr.
Proof. unfold write_all. revert arr. induction items as [|it items IH]; intros arr; cbn; [done|]. by rewrite IH, length_insert. Qed.

Lemma lookup_write_all f arr items i :
  NoDup items.*1 -> (forall it, it ∈ items -> it.1 < length arr) ->
  write_all f arr items !! i =
    match List.find (fun it => (it.1 =? i)%nat) items with Some it => Some (Some (f it)) | None => arr !! i end.
Proof.
  unfold write_all. revert arr. induction items as [|it items IH]; intros arr Hnd Hlt; [done|]. cbn.
  apply NoDup_cons in Hnd as [Hni Hnd]. rewrite IH; [|done|].
  2:{ intros it' Hit'. rewrite length_insert. apply Hlt. by right. }
  destruct (Nat.eqb_spec it.1 i) as [<-|Hne].
  - destruct (List.find _ items) as [it'|] eqn:E.
    + apply find_some in E as [Hin He%Nat.eqb_eq]. destruct Hni. rewrite <- He.
      apply list_elem_of_fmap. exists it'. split; [done|by apply list_elem_of_In].
    + apply list_lookup_insert_eq, Hlt. by left.
  - destruct (List.find _ items); [done|]. by apply list_lookup_insert_ne.
Qed.

Lemma elem_of_validTexts texts i t :
  (i, t) ∈ validTexts texts <-> t <> [] /\ exists s, texts !! i = Some s /\ t = trim s.
Proof.
  unfold validTexts. rewrite elem_of_filterb, negb_true_iff, bool_decide_eq_false. cbn.
  rewrite list_elem_of_lookup. setoid_rewrite list_lookup_imap. split.
  - intros [[k Hk] Ht]. apply fmap_Some in Hk as (s & Hs & [= -> ->]). split; [done|]. by exists s.
  - intros [Ht (s & Hs & ->)]. split; [|done]. exists i. by rewrite Hs.
Qed.

Lemma validTexts_NoDup texts : NoDup (validTexts texts).*1.
Proof.
  unfold validTexts. set (l := imap _ texts).
  assert (NoDup l.*1) as H.
  { unfold l. assert ((imap (fun i t => (i, trim t)) texts).*1 = seq 0 (length texts)) as ->; [|apply NoDup_seq].
    apply list_eq. intros i. rewrite list_lookup_fmap, list_lookup_imap.
    destruct (texts !! i) eqn:E; cbn.
    - apply lookup_lt_Some in E. by rewrite lookup_seq_lt by lia.
    - apply lookup_ge_None in E. by rewrite lookup_seq_ge by lia. }
  clearbody l. induction l as [|x l IH]; [constructor|]. cbn in H. apply NoDup_cons in H as [Hx Hl].
  unfold filterb in *. cbn. destruct (negb _); [|by apply IH]. cbn. apply NoDup_cons. split; [|by apply IH].
  contradict Hx. apply list_elem_of_fmap in Hx as (y & Hy & Hin). apply list_elem_of_fmap. exists y. split; [done|].
  apply list_elem_of_In, filter_In in Hin as [? _]. by apply list_elem_of_In.
Qed.

(** The whole array once every valid text got the value [f]. *)
Lemma write_all_texts (f : str -> list num) texts :
  default [] <$> write_all (f ∘ snd) (replicate (length texts) None) (validTexts texts) =
    (fun t => if bool_decide (trim t = []) then [] else f (trim t)) <$> texts.
Proof.
  apply list_eq. intros i. rewrite !list_lookup_fmap, lookup_write_all.
  2:{ apply validTexts_NoDup. }
  2:{ intros [j t] Hin. apply elem_of_validTexts in Hin as [_ (s & Hs & _)].
      rewrite length_replicate. by eapply lookup_lt_Some. }
  destruct (List.find _ _) as [[j t]|] eqn:E.
  - apply find_some in E as [Hin He%Nat.eqb_eq]. cbn in He. subst j. apply list_elem_of_In, elem_of_validTexts in Hin as [Ht (s & -> & ->)].
    cbn. by rewrite bool_decide_eq_false_2.
  - pose proof (find_none _ _ E) as Hn. destruct (texts !! i) as [s|] eqn:Es; cbn.
    + rewrite lookup_replicate_2 by (by eapply lookup_lt_Some). cbn. case_bool_decide as Et; [done|].
      exfalso. specialize (Hn (i, trim s)). cbn in Hn. rewrite Nat.eqb_refl in Hn. discriminate Hn.
      apply list_elem_of_In, elem_of_validTexts. split; [done|]. by exists s.
    + apply lookup_ge_None in Es. assert (replicate (length texts) (@None (list num)) !! i = None) as ->; [|done].
      apply lookup_ge_None. by rewrite length_replicate.
Qed.

Lemma batch_row_nums (l : list num) : batch_row (JArr (JNum <$> l)) = l.
Proof.
  unfold batch_row, row. cbn. assert (mapM as_num (JNum <$> l) = Some l) as ->; [|done].
  induction l as [|x l IH]; [done|]. cbn. cbn in IH. by rewrite IH.
Qed.

(** A service that embeds every text of a batch with [f]. *)
Definition embeds_with (f : str -> list num) (featureExtraction : json -> result json) : Prop :=
  forall ts, ts <> [] ->
    featureExtraction (JArr (JStr <$> ts)) = Ok (JArr ((fun t => JArr (JNum <$> f t)) <$> ts)).

Lemma batch_embeddings_with f featureExtraction direct (batch : list (nat * str)) :
  embeds_with f featureExtraction -> batch <> [] ->
  batch_embeddings featureExtraction direct batch.*2 = Ok ((f ∘ snd) <$> batch).
Proof.
  intros Hf Hne. unfold batch_embeddings. rewrite Hf by (by destruct batch). do 2 f_equal.
  rewrite <- !list_fmap_compose. apply list_fmap_ext. intros _ it _. apply batch_row_nums.
Qed.

Lemma hf_loop_with f featureExtraction direct w number bs :
  embeds_with f featureExtraction -> Forall (fun b => b <> []) bs ->
  hf_loop featureExtraction direct w number bs = (write_all (f ∘ snd) w.1 (concat bs), w.2).
Proof.
  intros Hf Hbs. revert w number. induction Hbs as [|b bs Hb _ IH]; intros w number; cbn; [by destruct w|].
  rewrite IH. unfold hf_batch. rewrite (batch_embeddings_with f) by done. cbn.
  rewrite place_write. unfold write_all. by rewrite <- foldl_app.
Qed.

Lemma batches_ne {A} fuel (n : nat) (l : list A) : 0 < n -> Forall (fun b => b <> []) (batches fuel n l).
Proof.
  intros Hn. revert l. induction fuel as [|fuel IH]; intros l; cbn; [constructor|].
  destruct l as [|x l]; [constructor|]. constructor; [by destruct n; [lia|]|apply IH].
Qed.

(** The texts the local model fails on. *)
Definition failures (generateEmbeddingLocal : str -> result (list num)) (texts : list str) : nat :=
  length (filterb (fun it => negb (is_ok (generateEmbeddingLocal it.2))) (validTexts texts)).

Definition local_value (generateEmbeddingLocal : str -> result (list num)) (t : str) : list num :=
  match generateEmbeddingLocal t with Ok e => e | Throw _ => [] end.

Lemma local_items generateEmbeddingLocal w items :
  (foldl (local_item generateEmbeddingLocal) w items).1 =
    write_all (local_value generateEmbeddingLocal ∘ snd) w.1 items /\
  length (foldl (local_item generateEmbeddingLocal) w items).2 =
    length w.2 + length (filterb (fun it => negb (is_ok (generateEmbeddingLocal it.2))) items).
Proof.
  revert w. induction items as [|it items IH]; intros w; cbn; [split; [done|lia]|].
  destruct (IH (local_item generateEmbeddingLocal w it)) as [-> ->].
  unfold local_item, local_value, write_all, filterb. cbn.
  destruct (generateEmbeddingLocal it.2) eqn:E; cbn; rewrite ?E; (split; [done|]); rewrite ?length_app; cbn; lia.
Qed.

(** ** The properties *)

(** Batching never misplaces an embedding: against a service that embeds
    each text with [f], [generateEmbeddings] returns, for every batch size, a
    list as long as its input with [f] of the trimmed text at each position
    and an empty vector for a blank one. *)
Theorem generateEmbeddings_aligned model dim generateEmbeddingLocal featureExtraction direct f texts batchSize
    (Hf : embeds_with f featureExtraction) (Hbatch : 0 < batchSize)
    (Hsome : exists t, t ∈ texts /\ trim t <> []) :
  generateEmbeddings (Embedder model dim HuggingFace) generateEmbeddingLocal featureExtraction direct texts batchSize =
    Ok ((fun t => if bool_decide (trim t = []) then [] else f (trim t)) <$> texts).
Proof.
  destruct Hsome as (t & Ht & Hne). unfold generateEmbeddings.
  destruct texts as [|t0 ts] eqn:Etexts; [set_solver|]. rewrite <- Etexts in *. clear Etexts.
  destruct (validTexts texts) as [|v vs] eqn:Ev.
  { exfalso. apply list_elem_of_lookup in Ht as [i Hi].
    assert ((i, trim t) ∈ validTexts texts) as H by (apply elem_of_validTexts; eauto). rewrite Ev in H. set_solver. }
  rewrite <- Ev. cbn [kind]. rewrite (hf_loop_with f) by (done || by apply batches_ne).
  rewrite concat_batches by done. cbn. by rewrite write_all_texts.
Qed.

Lemma generateEmbeddings_aligned_witness :
  generateEmbeddings (new_embedder HuggingFace) (fun _ => Throw [])
    (fun v => match v with
              | JArr l => Ok (JArr ((fun t => match t with JStr s => JArr [JNum (of_Z (Z.of_nat (length s)))] | _ => JNull end) <$> l))
              | _ => Throw []
              end) (fun _ => Throw [])
    [js "a"; js "  "; js "bcd"] 1 = Ok [[of_Z 1]; []; [of_Z 3]].
Proof.
  unfold new_embedder. rewrite (generateEmbeddings_aligned _ _ _ _ _ (fun s => [of_Z (Z.of_nat (length s))])).
  - vm_compute. reflexivity.
  - intros ts _. cbn. do 2 f_equal. by rewrite <- list_fmap_compose.
  - lia.
  - exists (js "a"). split; [left|discriminate].
Defined.

(** With the local model the test for "all batches failed" compares the
    number of failed texts with the number of batches: the call throws
    exactly when the two are equal and positive (so one failure among at most
    [batchSize] texts discards all the others), and otherwise returns, with
    empty vectors for the failed texts. *)
Theorem generateEmbeddings_local_failures model dim generateEmbeddingLocal featureExtraction direct texts batchSize
    (Hsome : validTexts texts <> []) :
  let n := failures generateEmbeddingLocal texts in
  let r := generateEmbeddings (Embedder model dim Local) generateEmbeddingLocal featureExtraction direct texts batchSize in
  if (0 <? n)%nat && (n =? ceil_div (length (validTexts texts)) batchSize)%nat
  then is_ok r = false
  else r = Ok ((fun t => if bool_decide (trim t = []) then [] else local_value generateEmbeddingLocal (trim t)) <$> texts).
Proof.
  cbn zeta. unfold generateEmbeddings.
  destruct texts as [|t0 ts] eqn:Etexts; [done|]. rewrite <- Etexts in *. clear Etexts.
  destruct (validTexts texts) as [|v vs] eqn:Ev; [done|]. rewrite <- Ev in *. cbn [kind].
  destruct (local_items generateEmbeddingLocal (replicate (length texts) None, []) (validTexts texts)) as [E1 E2].
  destruct (foldl _ _ _) as [arr errors]. cbn in E1.
  set (n := failures generateEmbeddingLocal texts).
  assert (length errors = n) as En by exact E2. subst arr. rewrite En.
  destruct ((0 <? n)%nat && (n =? ceil_div (length (validTexts texts)) batchSize)%nat); [done|].
  by rewrite write_all_texts.
Qed.

Lemma generateEmbeddings_local_failures_witness :
  is_ok (generateEmbeddings (new_embedder Local)
    (fun t => if bool_decide (t = js "bad") then Throw (js "oom") else Ok [of_Z 1]) (fun _ => Throw []) (fun _ => Throw [])
    [js "a"; js "bad"; js "c"] 10) = false.
Proof.
  exact (generateEmbeddings_local_failures (js "sentence-transformers/all-MiniLM-L6-v2") 384
    (fun t => if bool_decide (t = js "bad") then Throw (js "oom") else Ok [of_Z 1]) (fun _ => Throw []) (fun _ => Throw [])
    [js "a"; js "bad"; js "c"] 10 ltac:(discriminate)).
Defined.
