(* ===== verification/Loader.v ===== *)
(** * The document loader

    [DocumentLoader] of
    src/ecosystem/ai-tools/mcp/graphq-llm/src/rag/document-loader.ts.  The file
    system is a tree below the path that is loaded; a file that cannot be read
    and a directory that cannot be listed are part of it.  Paths are absolute
    and normalised, so [path.resolve] leaves them alone and [path.join] puts a
    slash between its arguments. *)

From S2P Require Import Prelude JsString JsArray Chunking.

Inductive node :=
| FileNode (read : result str)
| DirNode (entries : result (list (str * node)))
| OtherNode.

(** ** Paths *)

Definition slash : str := js "/".

(** [path.basename(p)] *)
Definition basename (p : str) : str := default [] (last (split p slash)).

(** [path.extname(p)]: from the last dot of the last component on, unless
    the dot is its first character. *)
Definition extname (p : str) : str :=
  let base := basename p in
  if bool_decide (base = js "..") then []
  else match last_index_upto base (js ".") (length base) with
       | Some (S n) => drop (S n) base
       | _ => []
       end.

(** [path.basename(p, ext)] *)
Definition basenameWithout (p ext : str) : str :=
  let base := basename p in
  if endsWith base ext then take (length base - length ext) base else base.

Definition joinPath (dir name : str) : str := dir ++ slash ++ name.

(** [s.replace(/[^a-zA-Z0-9]/g, '_')] *)
Definition sanitize (s : str) : str :=
  (fun c => if is_digit c || between 65 90 c || between 97 122 c then c else "_"%char) <$> s.

(** ** Files *)

Definition typeOf (ext : str) : docType :=
  if bool_decide (ext = js ".md") || bool_decide (ext = js ".markdown") then Markdown
  else if bool_decide (ext = js ".json") then JsonDoc else Text.

(** [now] and [iso] are the two readings of the clock; [None]: there is
    nothing at the path. *)
Definition loadFile (now : Z) (iso : str) (fullPath : str) (n : option node) : result LoadedDocument :=
  match n with
  | None => Throw (js "File not found: " ++ fullPath)
  | Some (FileNode (Ok text)) =>
      let ext := toLowerCase (extname fullPath) in
      let fileName := basenameWithout fullPath ext in
      Ok (Doc (js "doc_" ++ str_of_Z now ++ js "_" ++ sanitize fileName) text fullPath (typeOf ext)
            (Some fullPath) (Some fileName) None (Some iso))
  | Some (FileNode (Throw e)) => Throw e
  | Some _ => Throw (js "Path is not a file: " ++ fullPath)
  end.

(** ** Directories *)

Record LoadOptions := LoadOpts {
  recursive : option bool;
  extensions : option (list str);
  exclude : option (list str);
}.

Definition default_extensions : list str := [js ".md"; js ".txt"; js ".json"].
Definition default_exclude : list str := [js "node_modules"; js ".git"; js "dist"; js "build"].

Section listing.
Context (recurse : bool) (exts excluded : list str).

Definition skipped (p : str) : bool := existsb (includes p) excluded.

(** The files below a directory with their nodes; what cannot be listed has
    none. *)
Fixpoint getAllFiles (dirPath : str) (n : node) : list (str * node) :=
  match n with
  | DirNode (Ok entries) =>
      (fix go (l : list (str * node)) : list (str * node) :=
         match l with
         | [] => []
         | (name, e) :: l' =>
             let fullPath := joinPath dirPath name in
             (if skipped fullPath then []
              else match e with
                   | DirNode _ => if recurse then getAllFiles fullPath e else []
                   | FileNode _ => if bool_decide (toLowerCase (extname name) ∈ exts) then [(fullPath, e)] else []
                   | OtherNode => []
                   end) ++ go l'
         end) entries
  | _ => []
  end.
End listing.

(** The clock is read for each file. *)
Definition loadDirectory (now : nat -> Z) (iso : nat -> str) (fullPath : str) (n : option node) (options : LoadOptions)
    : result (list LoadedDocument) :=
  match n with
  | None => Throw (js "Directory not found: " ++ fullPath)
  | Some (DirNode entries) =>
      let files :=
        getAllFiles (coalesce (recursive options) true) (coalesce (extensions options) default_extensions)
          (coalesce (exclude options) default_exclude) fullPath (DirNode entries) in
      Ok (omap (fun d => match d with Ok x => Some x | Throw _ => None end)
            (imap (fun i f => loadFile (now i) (iso i) f.1 (Some f.2)) files))
  | Some _ => Throw (js "Path is not a directory: " ++ fullPath)
  end.

Definition loadSchema (iso schemaContent : str) (schemaId : option str) : LoadedDocument :=
  Doc (coalesce schemaId (js "graphql_schema")) schemaContent (js "graphql_introspection") Schema None
    (Some (js "GraphQL Schema")) None (Some iso).

Definition loadAPIDocumentation (iso apiContent apiId : str) (title : option str) : LoadedDocument :=
  Doc apiId apiContent (js "api_documentation") Api None
    (Some (match title with Some (c :: t) => c :: t | _ => apiId end)) None (Some iso).

(** ** Specification *)

(** [below dir n p f]: [f] is a file at path [p] below the directory [n] at
    [dir], none of whose path below [dir] is excluded, and whose name has one
    of the extensions. *)
Inductive below (recurse : bool) (exts excluded : list str) : str -> node -> str -> node -> Prop :=
| below_file dir entries name read :
    (name, FileNode read) ∈ entries ->
    skipped excluded (joinPath dir name) = false ->
    toLowerCase (extname name) ∈ exts ->
    below recurse exts excluded dir (DirNode (Ok entries)) (joinPath dir name) (FileNode read)
| below_dir dir entries name sub p f :
    recurse = true ->
    (name, sub) ∈ entries ->
    skipped excluded (joinPath dir name) = false ->
    below recurse exts excluded (joinPath dir name) sub p f ->
    below recurse exts excluded dir (DirNode (Ok entries)) p f.

(** Induction on trees, through the lists of entries. *)
Fixpoint node_tree_ind (P : node -> Prop)
    (Hfile : forall r, P (FileNode r)) (Hother : P OtherNode) (Hunread : forall e, P (DirNode (Throw e)))
    (Hdir : forall entries, Forall (fun e => P e.2) entries -> P (DirNode (Ok entries))) (n : node) : P n :=
  match n with
  | FileNode r => Hfile r
  | OtherNode => Hother
  | DirNode (Throw e) => Hunread e
  | DirNode (Ok entries) =>
      Hdir entries
        ((fix go (l : list (str * node)) : Forall (fun e => P e.2) l :=
            match l with
            | [] => List.Forall_nil _
            | e :: l' => List.Forall_cons _ e l' (node_tree_ind P Hfile Hother Hunread Hdir e.2) (go l')
            end) entries)
  end.

(** The files an entry contributes. *)
Definition entry_files (recurse : bool) (exts excluded : list str) (dir : str) (e : str * node) : list (str * node) :=
  let fullPath := joinPath dir e.1 in
  if skipped excluded fullPath then []
  else match e.2 with
       | DirNode _ => if recurse then getAllFiles recurse exts excluded fullPath e.2 else []
       | FileNode _ => if bool_decide (toLowerCase (extname e.1) ∈ exts) then [(fullPath, e.2)] else []
       | OtherNode => []
       end.

Lemma getAllFiles_entries recurse exts excluded dir entries :
  getAllFiles recurse exts excluded dir (DirNode (Ok entries)) =
  entries ≫= entry_files recurse exts excluded dir.
Proof.
  cbn. induction entries as [|[name e] l IH]; [done|]. cbn. f_equal. exact IH.
Qed.

Lemma getAllFiles_spec recurse exts excluded n dir p f :
  (p, f) ∈ getAllFiles recurse exts excluded dir n <-> below recurse exts excluded dir n p f.
Proof.
  revert dir p f. induction n as [r| |e|entries IH] using node_tree_ind; intros dir p f.
  1-3: cbn; split; [set_solver|intros H; inversion H].
  rewrite getAllFiles_entries, list_elem_of_bind. rewrite Forall_forall in IH. split.
  - intros ([name e] & He & Hin). unfold entry_files in He. cbn [fst snd] in He.
    destruct (skipped _ _) eqn:Hs; [set_solver|].
    destruct e as [r|r|]; [| |set_solver].
    + case_bool_decide; [|set_solver]. apply list_elem_of_singleton in He. simplify_eq. by apply below_file.
    + destruct recurse eqn:Hr; [|set_solver]. eapply below_dir; eauto. by apply (IH (name, DirNode r)).
  - intros H. inversion H as [? ? name r Hin Hs Hx|? ? name sub ? ? Hr Hin Hs Hb]; subst.
    + exists (name, FileNode r). split; [|done]. unfold entry_files. cbn [fst snd]. rewrite Hs.
      rewrite bool_decide_eq_true_2 by done. by apply list_elem_of_singleton.
    + exists (name, sub). split; [|done]. unfold entry_files. cbn [fst snd]. rewrite Hs.
      assert (exists r, sub = DirNode r) as [r ->] by (inversion Hb; eauto).
      by apply (IH (name, DirNode r)).
Qed.

(** ** The properties *)

(** Loading a directory gives exactly the documents of the readable files
    below it that have one of the extensions and no excluded word in their
    path from the directory on; a file or directory that cannot be read does
    not stop the others. *)
Theorem loadDirectory_complete now iso fullPath entries options d :
  let files := below (coalesce (recursive options) true) (coalesce (extensions options) default_extensions)
                 (coalesce (exclude options) default_exclude) fullPath (DirNode entries) in
  exists docs, loadDirectory now iso fullPath (Some (DirNode entries)) options = Ok docs /\
    (d ∈ docs -> exists p text, files p (FileNode (Ok text)) /\ doc_source d = p /\ content d = text) /\
    (forall p text, files p (FileNode (Ok text)) -> exists d', d' ∈ docs /\ doc_source d' = p /\ content d' = text).
Proof.
  intros files. eexists. split; [reflexivity|]. split.
  - rewrite list_elem_of_omap. intros (r & Hr & Hd). destruct r as [x|]; simplify_eq.
    apply elem_of_lookup_imap in Hr as (i & [p n] & E & Hi). cbn in E.
    apply list_elem_of_lookup_2, getAllFiles_spec in Hi.
    destruct n as [[text|]| |]; cbn in E; simplify_eq. by exists p, text.
  - intros p text Hf. apply getAllFiles_spec, list_elem_of_lookup in Hf as [i Hi].
    destruct (loadFile (now i) (iso i) p (Some (FileNode (Ok text)))) as [d'|] eqn:E; [|done].
    exists d'. split; [|by injection E as <-].
    rewrite list_elem_of_omap. exists (Ok d'). split; [|done]. rewrite <- E.
    apply elem_of_lookup_imap. by exists i, (p, FileNode (Ok text)).
Qed.

(** An excluded word is looked for in the whole path, also in the part
    above the directory that is loaded: a directory whose own path contains
    such a word (for instance a project called distribution) gives no
    document at all. *)
Theorem excluded_root_loads_nothing now iso fullPath entries options word
    (Hword : word ∈ coalesce (exclude options) default_exclude)
    (Hroot : includes fullPath word = true) :
  loadDirectory now iso fullPath (Some (DirNode entries)) options = Ok [].
Proof.
  unfold loadDirectory. set (files := getAllFiles _ _ _ _ _).
  assert (files = []) as ->; [|done].
  destruct files as [|[p f] l] eqn:E; [done|exfalso].
  assert ((p, f) ∈ getAllFiles (coalesce (recursive options) true) (coalesce (extensions options) default_extensions)
     (coalesce (exclude options) default_exclude) fullPath (DirNode entries)) as Hin by (fold files; rewrite E; by left).
  assert (forall name, skipped (coalesce (exclude options) default_exclude) (joinPath fullPath name) = true) as Hs.
  { intros name. apply existsb_exists. exists word. split; [by apply list_elem_of_In|].
    apply includes_spec in Hroot as (a & b & ->). apply includes_spec. exists a, (b ++ slash ++ name).
    unfold joinPath. by rewrite <- !app_assoc. }
  apply getAllFiles_spec in Hin. inversion Hin; subst; congruence.
Qed.

Lemma excluded_root_loads_nothing_witness :
  loadDirectory (fun _ => 0%Z) (fun _ => []) (js "/srv/distribution")
    (Some (DirNode (Ok [(js "README.md", FileNode (Ok (js "hello")))]))) (LoadOpts None None None) = Ok [].
Proof.
  apply (excluded_root_loads_nothing _ _ _ _ _ (js "dist")).
  - cbn. right. right. by left.
  - vm_compute. reflexivity.
Defined.
