(* ===== verification/Ingestion.v ===== *)
(** * Ingestion

    [IngestionPipeline] of
    src/ecosystem/ai-tools/mcp/graphq-llm/src/rag/ingestion-pipeline.ts: chunk,
    embed in batches, store, and account for every chunk in the progress
    record.  The loader, the embedding service, the vector store and the
    schema client are parameters; the embedding service and the store are
    asked per batch and attempt, so they may answer differently each time.
    The progress callback is a parameter too: it is called inside the [try] of
    a batch, so that its exceptions are taken for failures of the batch.
    Delays have no effect on the result. *)

From S2P Require Import Prelude JsString JsArray JsNum Json Chunking VectorStore Embedding.

Record IngestionProgress := Progress {
  totalDocuments : nat;
  processedDocuments : nat;
  totalChunks : nat;
  processedChunks : nat;
  embeddedChunks : nat;
  storedChunks : nat;
  errors : list (str * str);
}.

Definition new_progress (documents : nat) : IngestionProgress := Progress documents 0 0 0 0 0 [].

Abbreviation dchunk := Chunking.DocumentChunk.

(** [storedChunks++; embeddedChunks++], [errors.push], [processedChunks++] *)
Definition stored_one (p : IngestionProgress) : IngestionProgress :=
  Progress (totalDocuments p) (processedDocuments p) (totalChunks p) (processedChunks p)
    (S (embeddedChunks p)) (S (storedChunks p)) (errors p).
Definition add_error (p : IngestionProgress) (documentId error : str) : IngestionProgress :=
  Progress (totalDocuments p) (processedDocuments p) (totalChunks p) (processedChunks p)
    (embeddedChunks p) (storedChunks p) (errors p ++ [(documentId, error)]).
Definition processed_one (p : IngestionProgress) : IngestionProgress :=
  Progress (totalDocuments p) (processedDocuments p) (totalChunks p) (S (processedChunks p))
    (embeddedChunks p) (storedChunks p) (errors p).
Definition with_totalChunks (p : IngestionProgress) (n : nat) : IngestionProgress :=
  Progress (totalDocuments p) (processedDocuments p) n (processedChunks p)
    (embeddedChunks p) (storedChunks p) (errors p).
Definition with_totalDocuments (p : IngestionProgress) (n : nat) : IngestionProgress :=
  Progress n (processedDocuments p) (totalChunks p) (processedChunks p)
    (embeddedChunks p) (storedChunks p) (errors p).
Definition with_processedDocuments (p : IngestionProgress) (n : nat) : IngestionProgress :=
  Progress (totalDocuments p) n (totalChunks p) (processedChunks p)
    (embeddedChunks p) (storedChunks p) (errors p).

Definition isRateLimit (errorMsg : str) : bool :=
  includes errorMsg (js "rate limit") || includes errorMsg (js "429") || includes errorMsg (js "HTTP error").

Section pipeline.
(** Batch number, attempt, texts; and batch number, attempt, chunk,
    embedding. *)
Context (generateEmbeddings : nat -> nat -> list str -> result (list (list num))).
Context (storeChunk : nat -> nat -> dchunk -> list num -> result str).

(** One chunk of a batch whose embeddings are there. *)
Definition store_one (b attempt : nat) (p : IngestionProgress) (ce : dchunk * list num) : IngestionProgress :=
  processed_one
    (match ce.2 with
     | [] => p
     | e => match storeChunk b attempt ce.1 e with
            | Ok _ => stored_one p
            | Throw msg => add_error p (Chunking.documentId ce.1) msg
            end
     end).

(** [options.onProgress], when there is one. *)
Context (onProgress : option (IngestionProgress -> result unit)).

Definition report (p : IngestionProgress) : result unit :=
  match onProgress with Some f => f p | None => Ok tt end.

Fixpoint store_all (b attempt : nat) (l : list (dchunk * list num)) (p : IngestionProgress)
    : IngestionProgress * result unit :=
  match l with
  | [] => (p, Ok tt)
  | ce :: l' =>
      let p := store_one b attempt p ce in
      match report p with
      | Ok _ => store_all b attempt l' p
      | Throw e => (p, Throw e)
      end
  end.

(** A missing embedding ([undefined]) is like an empty one. *)
Definition store_batch (b attempt : nat) (batch : list dchunk) (embeddings : list (list num))
    (p : IngestionProgress) : IngestionProgress * result unit :=
  store_all b attempt (imap (fun j c => (c, default [] (embeddings !! j))) batch) p.

Definition fail_batch (batch : list dchunk) (msg : str) (p : IngestionProgress) : IngestionProgress :=
  foldl (fun p c => processed_one (add_error p (Chunking.documentId c) msg)) p batch.

(** The body of a [try]: an exception keeps what was counted before it. *)
Definition attempt_batch (b attempt : nat) (batch : list dchunk) (p : IngestionProgress)
    : IngestionProgress * result unit :=
  match generateEmbeddings b attempt (Chunking.chunkText <$> batch) with
  | Ok embeddings => store_batch b attempt batch embeddings p
  | Throw errorMsg => (p, Throw errorMsg)
  end.

(** A batch is tried once more after an error that looks like a rate
    limit. *)
Definition ingest_batch (b : nat) (batch : list dchunk) (p : IngestionProgress) : IngestionProgress :=
  match attempt_batch b 0 batch p with
  | (p, Ok _) => p
  | (p, Throw errorMsg) =>
      if isRateLimit errorMsg then
        match attempt_batch b 1 batch p with
        | (p, Ok _) => p
        | (p, Throw retryErrorMsg) => fail_batch batch retryErrorMsg p
        end
      else fail_batch batch errorMsg p
  end.

Fixpoint ingest_batches (b : nat) (bs : list (list dchunk)) (p : IngestionProgress) : IngestionProgress :=
  match bs with [] => p | batch :: bs' => ingest_batches (S b) bs' (ingest_batch b batch p) end.

(** [options.batchSize || 10], at most 10. *)
Definition embeddingBatchSize (batchSize : option nat) : nat :=
  Nat.min (match batchSize with Some (S n) => S n | _ => 10 end) 10.

Definition ingestDocuments (cs : ChunkingService) (documents : list LoadedDocument)
    (progress : option IngestionProgress) (batchSize : option nat) : IngestionProgress :=
  let p := coalesce progress (new_progress (length documents)) in
  let allChunks := chunkDocuments cs documents in
  let p := with_totalChunks p (length allChunks) in
  match allChunks with
  | [] => p
  | _ =>
      let p := ingest_batches 0 (batches (length allChunks) (embeddingBatchSize batchSize) allChunks) p in
      with_processedDocuments p (length documents)
  end.

Definition ingestDirectory (cs : ChunkingService) (loaded : result (list LoadedDocument)) (batchSize : option nat)
    : IngestionProgress :=
  let p := new_progress 0 in
  match loaded with
  | Throw msg => add_error p (js "directory_load") msg
  | Ok documents =>
      let p := with_totalDocuments p (length documents) in
      match documents with
      | [] => p
      | _ => ingestDocuments cs documents (Some p) batchSize
      end
  end.

End pipeline.

(** [schemaDoc] is the introspected schema loaded as a document; there is no
    callback. *)
Definition ingestSchema generateEmbeddings storeChunk (cs : ChunkingService) (schemaDoc : result LoadedDocument)
    : IngestionProgress :=
  let p := new_progress 1 in
  match schemaDoc with
  | Ok d => ingestDocuments generateEmbeddings storeChunk None cs [d] (Some p) None
  | Throw msg => add_error p (js "graphql_schema") msg
  end.

Definition checkAvailability (embeddingAvailable introspects : bool) : bool * bool * str :=
  let missing :=
    (if embeddingAvailable then []
     else [js "Embedding Service (Hugging Face - optional API key for better rate limits)"]) ++
    (if introspects then [] else [js "Vector Store (needs ResilientDB connection)"]) in
  (embeddingAvailable, introspects,
   match missing with [] => js "All services available" | _ => js "Missing: " ++ join missing (js ", ") end).

(** ** Statistics *)

Record IngestionStats := IStats {
  s_totalChunks : nat;
  chunksByType : jsmap str nat;
  chunksBySource : jsmap str nat;
}.

(** [counts[k] = (counts[k] || 0) + 1] *)
Definition count (counts : jsmap str nat) (k : str) : jsmap str nat :=
  map_set counts k (S (default 0 (map_get counts k))).

Definition or_unknown (s : str) : str := str_or (Some s) (js "unknown").

Definition getStats (allChunks : result (list VectorStore.DocumentChunk)) : IngestionStats :=
  match allChunks with
  | Ok chunks =>
      IStats (length chunks)
        (foldl (fun m c => count m (or_unknown (VectorStore.type c))) [] chunks)
        (foldl (fun m c => count m (or_unknown (VectorStore.source c))) [] chunks)
  | Throw _ => IStats 0 [] []
  end.

(** ** Lemmas *)

(** What a stretch of the run adds: [n] chunks processed, [s] stored, and at
    most one error per chunk that was not stored. *)
Definition advances (p p' : IngestionProgress) (n : nat) : Prop :=
  totalDocuments p' = totalDocuments p /\ totalChunks p' = totalChunks p /\
  processedDocuments p' = processedDocuments p /\
  processedChunks p' = processedChunks p + n /\
  embeddedChunks p' - embeddedChunks p = storedChunks p' - storedChunks p /\
  storedChunks p <= storedChunks p' /\ embeddedChunks p <= embeddedChunks p' /\
  exists new, errors p' = errors p ++ new /\ length new + (storedChunks p' - storedChunks p) <= n.

Lemma advances_refl p : advances p p 0.
Proof. unfold advances. split_and!; try lia; try done. exists []. rewrite app_nil_r. split; [done|]. cbn. lia. Qed.

Lemma advances_trans p1 p2 p3 n m : advances p1 p2 n -> advances p2 p3 m -> advances p1 p3 (n + m).
Proof.
  intros (? & ? & ? & ? & ? & ? & ? & e1 & E1 & ?) (? & ? & ? & ? & ? & ? & ? & e2 & E2 & ?).
  unfold advances. split_and!; try lia; try congruence. exists (e1 ++ e2). rewrite E2, E1, app_assoc.
  split; [done|]. rewrite length_app. lia.
Qed.

Lemma foldl_advances {X} (f : IngestionProgress -> X -> IngestionProgress) p (l : list X) :
  (forall p x, advances p (f p x) 1) -> advances p (foldl f p l) (length l).
Proof.
  intros Hf. revert p. induction l as [|x l IH]; intros p; cbn; [apply advances_refl|].
  apply (advances_trans _ (f p x) _ 1); auto.
Qed.

Ltac one_step new := unfold advances; cbn; split_and!; try lia; exists new; rewrite ?app_nil_r; (split; [done|]); cbn; lia.

Lemma store_one_advances store b a p ce : advances p (store_one store b a p ce) 1.
Proof.
  unfold store_one. destruct ce.2 as [|x e].
  - one_step (@nil (str * str)).
  - destruct (store b a ce.1 (x :: e)) as [i|msg].
    + one_step (@nil (str * str)).
    + one_step [(Chunking.documentId ce.1, msg)].
Qed.

(** A callback that never throws. *)
Definition quiet (onProgress : option (IngestionProgress -> result unit)) : Prop :=
  forall p, report onProgress p = Ok tt.

Lemma store_all_quiet store onProgress b a l p : quiet onProgress ->
  store_all store onProgress b a l p = (foldl (store_one store b a) p l, Ok tt).
Proof.
  intros Hq. revert p. induction l as [|ce l IH]; intros p; [done|]. cbn [store_all foldl]. by rewrite Hq, IH.
Qed.

(** A batch with such a callback. *)
Lemma ingest_batch_quiet gen store onProgress b batch p : quiet onProgress ->
  ingest_batch gen store onProgress b batch p =
    let stored a embs := foldl (store_one store b a) p (imap (fun j c => (c, default [] (embs !! j))) batch) in
    match gen b 0 (Chunking.chunkText <$> batch) with
    | Ok embs => stored 0 embs
    | Throw e =>
        if isRateLimit e then
          match gen b 1 (Chunking.chunkText <$> batch) with
          | Ok embs => stored 1 embs
          | Throw e' => fail_batch batch e' p
          end
        else fail_batch batch e p
    end.
Proof.
  intros Hq. unfold ingest_batch, attempt_batch, store_batch.
  destruct (gen b 0 _); [by rewrite store_all_quiet|]. destruct (isRateLimit _); [|done].
  destruct (gen b 1 _); [by rewrite store_all_quiet|done].
Qed.

Lemma ingest_batch_advances gen store onProgress b batch p : quiet onProgress ->
  advances p (ingest_batch gen store onProgress b batch p) (length batch).
Proof.
  intros Hq. rewrite ingest_batch_quiet by done. cbn zeta.
  assert (forall a (embs : list (list num)), advances p
    (foldl (store_one store b a) p (imap (fun j c => (c, default [] (embs !! j))) batch)) (length batch)) as Hs.
  { intros a embs. rewrite <- (length_imap (fun j c => (c, default [] (embs !! j))) batch).
    apply foldl_advances. apply store_one_advances. }
  assert (forall msg, advances p (fail_batch batch msg p) (length batch)) as Hf.
  { intros msg. apply foldl_advances. intros q c. one_step [(Chunking.documentId c, msg)]. }
  repeat case_match; auto.
Qed.

Lemma ingest_batches_advances gen store onProgress b bs p : quiet onProgress ->
  advances p (ingest_batches gen store onProgress b bs p) (length (concat bs)).
Proof.
  intros Hq. revert b p. induction bs as [|batch bs IH]; intros b p; cbn; [apply advances_refl|].
  rewrite length_app. eapply advances_trans; [by apply ingest_batch_advances|apply IH].
Qed.

Lemma embeddingBatchSize_pos n : 0 < embeddingBatchSize n.
Proof. unfold embeddingBatchSize. repeat case_match; lia. Qed.

(** Services that embed and store everything. *)
Definition all_well (gen : nat -> nat -> list str -> result (list (list num)))
    (store : nat -> nat -> dchunk -> list num -> result str) : Prop :=
  (forall b a ts, exists es, gen b a ts = Ok es /\ length es = length ts /\ Forall (fun e => e <> []) es) /\
  (forall b a c e, exists i, store b a c e = Ok i).

Lemma store_batch_well gen store b batch es p :
  all_well gen store -> length es = length batch -> Forall (fun e => e <> []) es ->
  let p' := foldl (store_one store b 0) p (imap (fun j c => (c, default [] (es !! j))) batch) in
  storedChunks p' = storedChunks p + length batch /\ errors p' = errors p.
Proof.
  intros [_ Hstore] Hlen Hes. cbn zeta.
  assert (forall ce, ce ∈ imap (fun j c => (c, default [] (es !! j))) batch -> ce.2 <> []) as Hne.
  { intros ce [j Hj]%list_elem_of_lookup. rewrite list_lookup_imap in Hj.
    apply fmap_Some in Hj as (c & Hc & ->). cbn. apply lookup_lt_Some in Hc. rewrite <- Hlen in Hc.
    apply lookup_lt_is_Some in Hc as [e He]. rewrite He. cbn. by eapply Forall_lookup_1 in Hes. }
  rewrite <- (length_imap (fun j c => (c, default [] (es !! j))) batch).
  clear Hlen. revert Hne p. generalize (imap (fun j c => (c, default [] (es !! j))) batch).
  induction l as [|ce l IH]; intros Hne p; cbn; [split; [lia|done]|].
  destruct (IH (fun x Hx => Hne x ltac:(by right)) (store_one store b 0 p ce)) as [E1 E2].
  rewrite E1, E2. unfold store_one. pose proof (Hne ce ltac:(by left)) as Hce.
  destruct ce.2 as [|x e] eqn:Ee; [done|]. destruct (Hstore b 0 ce.1 (x :: e)) as [i ->]. cbn. split; [lia|done].
Qed.

Lemma ingest_batches_well gen store onProgress b bs p :
  quiet onProgress -> all_well gen store ->
  storedChunks (ingest_batches gen store onProgress b bs p) = storedChunks p + length (concat bs) /\
  errors (ingest_batches gen store onProgress b bs p) = errors p.
Proof.
  intros Hq Hw. revert b p. induction bs as [|batch bs IH]; intros b p; cbn; [split; [lia|done]|].
  destruct (proj1 Hw b 0 (Chunking.chunkText <$> batch)) as (es & Hes & Hlen & Hne).
  rewrite length_fmap in Hlen.
  destruct (store_batch_well gen store b batch es p Hw Hlen Hne) as [E1 E2].
  destruct (IH (S b) (ingest_batch gen store onProgress b batch p)) as [-> ->].
  rewrite ingest_batch_quiet by done. cbn zeta. rewrite Hes, E1, E2, length_app. split; [lia|done].
Qed.

(** ** The properties *)

(** C30: ingestion accounts for every chunk: whatever the embedding service
    and the store answer, each chunk of the documents is processed exactly
    once (also when its batch is retried), stored and embedded counts agree,
    and stored chunks and reported errors together do not exceed the chunks;
    when both services work, everything is stored and nothing reported.  The
    progress callback, if there is one, does not throw. *)
Theorem ingestDocuments_accounts gen store onProgress cs documents batchSize
    (Hne : chunkDocuments cs documents <> []) (Hq : quiet onProgress) :
  let p := ingestDocuments gen store onProgress cs documents None batchSize in
  let n := length (chunkDocuments cs documents) in
  totalDocuments p = length documents /\ processedDocuments p = length documents /\
  totalChunks p = n /\ processedChunks p = n /\
  embeddedChunks p = storedChunks p /\ storedChunks p + length (errors p) <= n /\
  (all_well gen store -> storedChunks p = n /\ errors p = []).
Proof.
  cbn zeta. unfold ingestDocuments. cbn [coalesce].
  destruct (chunkDocuments cs documents) as [|c l] eqn:E; [done|]. rewrite <- E in *.
  set (p0 := with_totalChunks _ _).
  pose proof (ingest_batches_advances gen store onProgress 0
    (batches (length (chunkDocuments cs documents)) (embeddingBatchSize batchSize) (chunkDocuments cs documents)) p0 Hq) as Ha.
  pose proof (ingest_batches_well gen store onProgress 0
    (batches (length (chunkDocuments cs documents)) (embeddingBatchSize batchSize) (chunkDocuments cs documents)) p0 Hq) as Hw.
  rewrite concat_batches in Ha, Hw by (done || apply embeddingBatchSize_pos).
  destruct Ha as (H1 & H2 & H3 & H4 & H5 & H6 & H7 & new & H8 & H9). cbn [app p0 errors] in H8.
  cbn in *. rewrite H8. cbn. split_and!; try lia. intros Hall. destruct (Hw Hall) as [-> He].
  split; [done|]. by rewrite <- H8.
Qed.

Lemma ingestDocuments_accounts_witness :
  storedChunks (ingestDocuments (fun _ _ ts => Ok ((fun _ => [of_Z 1]) <$> ts)) (fun _ _ _ _ => Ok (js "id"))
    (Some (fun _ => Ok tt)) (new_chunker None None) [demo_doc Text (js "hello"); demo_doc Text (js "world")] None None) = 2.
Proof.
  destruct (ingestDocuments_accounts (fun _ _ ts => Ok ((fun _ => [of_Z 1]) <$> ts)) (fun _ _ _ _ => Ok (js "id"))
    (Some (fun _ => Ok tt)) (new_chunker None None) [demo_doc Text (js "hello"); demo_doc Text (js "world")] None)
    as (_ & _ & _ & _ & _ & _ & H).
  - vm_compute. discriminate.
  - intros p. reflexivity.
  - destruct H as [-> _]; [|vm_compute; reflexivity]. split.
    + intros b a ts. eexists. split; [reflexivity|]. rewrite length_fmap. split; [done|].
      apply Forall_fmap, Forall_forall. intros x _. discriminate.
    + intros. by eexists.
Defined.

(** The rate-limit message of the direct embedding request starts with a
    capital letter and does not mention the status, so it is not recognised
    and the batch is not retried. *)
Lemma direct_rate_limit_not_retried :
  isRateLimit (js "All batches failed: Batch 1: Rate limit exceeded: Too Many Requests") = false.
Proof. reflexivity. Qed.

(** A callback that throws makes the batch a failure: its chunk is stored,
    counted twice and reported as an error. *)
Example throwing_callback_counts_twice :
  let p := ingestDocuments (fun _ _ ts => Ok ((fun _ => [of_Z 1]) <$> ts)) (fun _ _ _ _ => Ok (js "id"))
    (Some (fun _ => Throw (js "gone"))) (new_chunker None None) [demo_doc Text (js "hello")] None None in
  totalChunks p = 1 /\ processedChunks p = 2 /\ storedChunks p = 1 /\ length (errors p) = 1.
Proof. by vm_compute. Qed.
