(* ===== verification/Prompts.v ===== *)
(** * Prompts

    The prompt templates of
    src/ecosystem/ai-tools/mcp/graphq-llm/src/llm/prompts.ts.  [showNum] is the
    conversion of a number in a template literal. *)

From S2P Require Import Prelude JsString JsArray JsNum Json.

Record liveStats := LStats {
  ls_executionTime : option num;
  ls_resourceUsage : option str;
  ls_queryComplexity : option str;
  ls_throughput : option num;
}.

Record ExplanationPromptContext := EContext {
  e_query : str;
  e_documentationContext : str;
  e_schemaContext : option str;
  e_liveStats : option liveStats;
}.

Record similarQuery := SQuery { s_query : str; s_executionTime : num; s_description : str }.

Record OptimizationPromptContext := OContext {
  o_query : str;
  o_documentationContext : str;
  o_schemaContext : option str;
  o_similarQueries : option (list similarQuery);
}.

Definition EXPLANATION_SYSTEM_PROMPT : str :=
  jsn "You are an expert GraphQL tutor for ResilientDB. Your role is to help developers understand GraphQL queries by providing clear, accurate, and helpful explanations.|n|nGuidelines:|n- Explain what the query does in simple terms|n- Break down complex queries into understandable parts|n- Reference relevant documentation when available|n- Use examples when helpful|n- Provide comprehensive, detailed explanations (especially when detailed mode is requested)|n- Include context about how each field works and what data it returns|n- Explain the relationship between different parts of the query|n- If the query has issues, point them out constructively|n- Reference schema information when explaining fields and types|n- When providing detailed explanations, be thorough and cover all aspects of the query".

Definition OPTIMIZATION_SYSTEM_PROMPT : str :=
  jsn "You are an expert GraphQL query optimizer for ResilientDB. Your role is to analyze queries and suggest improvements for better performance and efficiency.|n|nGuidelines:|n- Identify performance bottlenecks|n- Suggest more efficient query patterns|n- Reference documentation for best practices|n- Compare with similar queries when available|n- Provide actionable recommendations|n- Explain why optimizations improve performance|n- Consider query complexity and resource usage".

(** Text that is there when the string is truthy. *)
Definition when_str (s : option str) (f : str -> str) : str :=
  match s with Some (c :: t) => f (c :: t) | _ => [] end.

Definition when_num (n : option num) (f : num -> str) : str :=
  match n with Some x => if truthy_num x then f x else [] | None => [] end.

Definition graphql_block (query : str) : str := jsn "```graphql|n" ++ query ++ jsn "|n```|n|n".

Section prompts.
Context (showNum : num -> str).

Definition formatExplanationPrompt (c : ExplanationPromptContext) : str :=
  jsn "Explain the following GraphQL query for ResilientDB:|n|n" ++ graphql_block (e_query c) ++
  when_str (Some (e_documentationContext c)) (fun d => jsn "Relevant Documentation:|n" ++ d ++ jsn "|n|n") ++
  when_str (e_schemaContext c) (fun s => jsn "Schema Information:|n" ++ s ++ jsn "|n|n") ++
  (match e_liveStats c with
   | Some l =>
       jsn "Query Performance Metrics:|n" ++
       when_num (ls_executionTime l) (fun t => js "- Execution Time: " ++ showNum t ++ jsn "ms|n") ++
       when_str (ls_resourceUsage l) (fun r => js "- Resource Usage: " ++ r ++ nl) ++
       when_str (ls_queryComplexity l) (fun q => js "- Query Complexity: " ++ q ++ nl) ++ nl
   | None => []
   end) ++
  js "Please provide a clear explanation of what this query does, how it works, and any important considerations.".

Definition similar_entry (index : nat) (sq : similarQuery) : str :=
  str_of_nat (S index) ++ js ". Query: `" ++ substring (s_query sq) 0 100 ++
  (if (100 <? length (s_query sq))%nat then js "..." else []) ++ jsn "`|n" ++
  js "   Execution Time: " ++ showNum (s_executionTime sq) ++ jsn "ms|n" ++
  js "   Description: " ++ s_description sq ++ jsn "|n|n".

Definition formatOptimizationPrompt (c : OptimizationPromptContext) : str :=
  jsn "Analyze and optimize the following GraphQL query for ResilientDB:|n|n" ++ graphql_block (o_query c) ++
  when_str (Some (o_documentationContext c)) (fun d => jsn "Optimization References:|n" ++ d ++ jsn "|n|n") ++
  when_str (o_schemaContext c) (fun s => jsn "Schema Information:|n" ++ s ++ jsn "|n|n") ++
  (match o_similarQueries c with
   | Some (q :: qs) => jsn "Similar Queries for Comparison:|n|n" ++ concat (imap similar_entry (q :: qs))
   | _ => []
   end) ++
  jsn "Please analyze this query and provide:|n" ++
  jsn "1. Performance issues identified|n" ++
  jsn "2. Specific optimization recommendations|n" ++
  jsn "3. Expected performance improvements|n" ++
  js "4. An optimized version of the query (if applicable)".

Definition formatContextForLLM (documentationContext : str) (schemaContext : option str) : str :=
  jsn "Documentation Context:|n|n" ++ documentationContext ++
  when_str schemaContext (fun s =>
    jsn "|n|n" ++ repeat "="%char 50 ++ jsn "|n|n" ++ jsn "Schema Context:|n|n" ++ s).

Definition formatLiveStatsForLLM (l : liveStats) : str :=
  let parts :=
    (match ls_executionTime l with Some t => [js "Execution Time: " ++ showNum t ++ js "ms"] | None => [] end) ++
    (match ls_resourceUsage l with Some (c :: r) => [js "Resource Usage: " ++ c :: r] | _ => [] end) ++
    (match ls_queryComplexity l with Some (c :: q) => [js "Query Complexity: " ++ c :: q] | _ => [] end) ++
    (match ls_throughput l with Some t => [js "Throughput: " ++ showNum t ++ js " queries/sec"] | None => [] end) in
  match parts with [] => js "No metrics available" | _ => join parts (js " | ") end.
End prompts.

Definition formatQuickExplanationPrompt (query : str) (context : option str) : str :=
  jsn "Briefly explain this GraphQL query:|n|n" ++ graphql_block query ++
  when_str context (fun c => js "Context: " ++ c ++ jsn "|n|n") ++
  js "Provide a concise explanation (2-3 sentences).".

Definition formatDetailedExplanationPrompt (query documentationContext : str) (schemaContext : option str) : str :=
  jsn "Provide a comprehensive, detailed explanation of this GraphQL query. Be thorough and cover all aspects:|n|n" ++
  graphql_block query ++
  jsn "Documentation:|n" ++ documentationContext ++ jsn "|n|n" ++
  when_str schemaContext (fun s => jsn "Schema:|n" ++ s ++ jsn "|n|n") ++
  jsn "Provide a detailed explanation covering:|n" ++
  jsn "1. What the query does (overview and purpose)|n" ++
  jsn "2. How each field/operation works (detailed breakdown of each field)|n" ++
  jsn "3. Expected results (what data will be returned and in what format)|n" ++
  jsn "4. Common use cases (when and why you would use this query)|n" ++
  jsn "5. Potential issues or considerations (edge cases, performance, limitations)|n" ++
  jsn "6. Additional context from the documentation (relevant details, examples, best practices)|n|n" ++
  js "Be comprehensive and detailed in your explanation.".
