(* ===== verification/LlmClient.v ===== *)
(** * The language-model client

    [LLMClient] of src/ecosystem/ai-tools/mcp/graphq-llm/src/llm/llm-client.ts
    with its configuration (config/llm.ts): one interface over five kinds of
    provider.  The SDKs, the HTTP endpoint of Hugging Face and the local
    pipeline are parameters.  An [async] call never throws: it returns a
    promise, which is represented by the result it settles to. *)

From S2P Require Import Prelude JsString JsArray JsNum Json Http.

Inductive role := System | User | Assistant.
#[export] Instance role_dec : EqDecision role.
Proof. solve_decision. Defined.

Record LLMMessage := Message { m_role : role; content : str }.

Record usage := Usage { promptTokens : option Z; completionTokens : option Z; totalTokens : option Z }.
Record LLMResponse := LResponse { r_content : str; r_model : str; r_usage : option usage }.

Record LLMOptions := LOptions {
  temperature : option num;
  maxTokens : option Z;
  liveStats : option json;
}.

Inductive llmProvider := Deepseek | Openai | Anthropic | HuggingFace | LocalModel | Gemini.
#[export] Instance llmProvider_dec : EqDecision llmProvider.
Proof. solve_decision. Defined.

(** ** Configuration *)

Record environment := Environment {
  LLM_PROVIDER : llmProvider;
  LLM_API_KEY : option str;
  LLM_MODEL : str;
  LLM_ENABLE_LIVE_STATS : bool;
  HUGGINGFACE_API_KEY : option str;
}.

Record LLMConfig := Config {
  c_provider : llmProvider;
  c_apiKey : option str;
  c_model : str;
  c_enableLiveStats : bool;
}.

(** Neither undefined nor empty. *)
Definition given (k : option str) : bool := match k with Some (_ :: _) => true | _ => false end.

Definition getLLMConfig (env : environment) : LLMConfig :=
  let apiKey :=
    if bool_decide (LLM_PROVIDER env = HuggingFace) && negb (given (LLM_API_KEY env)) && given (HUGGINGFACE_API_KEY env)
    then HUGGINGFACE_API_KEY env else LLM_API_KEY env in
  Config (LLM_PROVIDER env) apiKey
    (str_or (Some (LLM_MODEL env))
       match LLM_PROVIDER env with
       | HuggingFace => js "meta-llama/Meta-Llama-3-8B-Instruct"
       | LocalModel => js "Xenova/distilgpt2"
       | Gemini => js "gemini-2.5-flash-lite"
       | _ => js "deepseek-chat"
       end)
    (LLM_ENABLE_LIVE_STATS env).

Definition isLLMAvailable (env : environment) : bool :=
  let config := getLLMConfig env in
  match c_provider config with
  | LocalModel => true
  | HuggingFace => given (c_apiKey config) || given (HUGGINGFACE_API_KEY env)
  | _ => given (c_apiKey config)
  end.

(** ** Requests and answers of the providers *)

Record openaiRequest := OpenaiRequest {
  o_model : str;
  o_messages : list LLMMessage;
  o_temperature : num;
  o_max_tokens : option Z;
}.
(** [choices] holds each choice's message, if it has one, with its content. *)
Record openaiAnswer := OpenaiAnswer {
  choices : list (option (option str));
  o_answer_model : str;
  o_usage : option usage;
}.

Record anthropicRequest := AnthropicRequest {
  n_model : str;
  n_max_tokens : Z;
  n_temperature : num;
  n_system : option str;
  n_messages : list LLMMessage;
}.
(** The parts of the content: the text of a text part. *)
Record anthropicAnswer := AnthropicAnswer {
  n_content : list (option str);
  n_answer_model : str;
  n_usage : option (Z * Z);
}.

Record geminiConfig := GeminiConfig { gm_model : str; gm_temperature : num; gm_maxOutputTokens : option Z }.
(** A session with its history and system instruction, or one prompt. *)
Inductive geminiRequest :=
| Chat (history : list LLMMessage) (systemInstruction : option str) (message : str)
| Generate (prompt : str).
Record geminiAnswer := GeminiAnswer {
  g_text : str;
  promptTokenCount : option Z;
  candidatesTokenCount : option Z;
}.

(** The parameters of text generation. *)
Record generation := Generation { max_new_tokens : Z; g_temperature : num }.

Definition localPipeline : Type := str -> generation -> result json.

(** ** The client *)

(** The SDK client that the constructor made, if any. *)
Inductive sdk := OpenaiSdk (baseURL : option str) | AnthropicSdk | GeminiSdk | HuggingFaceSdk.

Record LLMClient := LClient {
  provider : llmProvider;
  model : str;
  enableLiveStats : bool;
  sdkClient : option sdk;
  huggingfaceApiKey : option str;
  localPipelinePromise : option (result localPipeline);
}.

(** [Math.ceil(n / 4)] *)
Definition tokens (n : nat) : Z := (Z.of_nat n + 3) / 4.

Section client.
(** The providers; [initLocalPipeline] is the outcome of loading the model. *)
Context (env : environment).
Context (openai : openaiRequest -> result openaiAnswer).
Context (anthropic : anthropicRequest -> result anthropicAnswer).
Context (gemini : geminiConfig -> geminiRequest -> result geminiAnswer).
Context (huggingfaceBody : str -> generation -> str).
Context (fetch : request -> result (response json * result str)).
Context (initLocalPipeline : result localPipeline).
(** [JSON.stringify(liveStats, null, 2)] *)
Context (stringify : json -> str).

Definition new_client : LLMClient :=
  let config := getLLMConfig env in
  let p := c_provider config in
  let make sdk key local := LClient p (c_model config) (c_enableLiveStats config) sdk key local in
  if given (c_apiKey config) then
    match p with
    | Openai => make (Some (OpenaiSdk None)) None None
    | Deepseek => make (Some (OpenaiSdk (Some (js "https://api.deepseek.com/v1")))) None None
    | Anthropic => make (Some AnthropicSdk) None None
    | Gemini => make (Some GeminiSdk) None None
    | HuggingFace => make (Some HuggingFaceSdk) (c_apiKey config) None
    | LocalModel => make None None None
    end
  else if bool_decide (p = LocalModel)
  then make None (if given (c_apiKey config) then c_apiKey config else HUGGINGFACE_API_KEY env)
         (Some initLocalPipeline)
  else make None None None.

Definition isAvailable (c : LLMClient) : bool :=
  bool_decide (provider c = LocalModel) || (isLLMAvailable env && bool_decide (is_Some (sdkClient c))).

Definition is_system (m : LLMMessage) : bool := bool_decide (m_role m = System).

(** The contents of the system messages, joined, and the other messages. *)
Definition systemMessage (messages : list LLMMessage) : str :=
  join (content <$> filterb is_system messages) (nl ++ nl).
Definition conversation (messages : list LLMMessage) : list LLMMessage :=
  filterb (fun m => negb (is_system m)) messages.
(** [s || undefined] *)
Definition nonempty (s : str) : option str := match s with [] => None | _ => Some s end.

Definition generateOpenAICompletion (c : LLMClient) (messages : list LLMMessage) (options : LLMOptions)
    : result LLMResponse :=
  match sdkClient c with
  | Some (OpenaiSdk _) =>
      match openai (OpenaiRequest (model c) messages (coalesce (temperature options) (dec 7 10)) (maxTokens options)) with
      | Throw e => Throw e
      | Ok a =>
          match choices a with
          | Some content :: _ => Ok (LResponse (str_or content []) (o_answer_model a) (o_usage a))
          | _ => Throw (js "No completion returned from LLM")
          end
      end
  | _ => Throw (js "OpenAI/DeepSeek client not initialized")
  end.

(** Roles of the conversation other than the user's are the assistant's. *)
Definition generateAnthropicCompletion (c : LLMClient) (messages : list LLMMessage) (options : LLMOptions)
    : result LLMResponse :=
  match sdkClient c with
  | Some AnthropicSdk =>
      match anthropic (AnthropicRequest (model c) (coalesce (maxTokens options) 1024%Z)
                         (coalesce (temperature options) (dec 7 10)) (nonempty (systemMessage messages))
                         (conversation messages)) with
      | Throw e => Throw e
      | Ok a =>
          match n_content a with
          | Some text :: _ =>
              Ok (LResponse text (n_answer_model a)
                    match n_usage a with
                    | Some (i, o) => Some (Usage (Some i) (Some o) (Some (i + o)%Z))
                    | None => None
                    end)
          | _ => Throw (js "No text completion returned from Anthropic")
          end
      end
  | _ => Throw (js "Anthropic client not initialized")
  end.

Definition geminiPrompt (messages : list LLMMessage) : result geminiRequest :=
  let system := systemMessage messages in
  match rev (conversation messages) with
  | [] => Throw (js "Cannot read properties of undefined (reading 'content')")
  | [m] => Ok (Generate (match system with [] => content m | _ => system ++ nl ++ nl ++ content m end))
  | m :: earlier => Ok (Chat (rev earlier) (nonempty system) (content m))
  end.

Definition generateGeminiCompletion (c : LLMClient) (messages : list LLMMessage) (options : LLMOptions)
    : result LLMResponse :=
  match sdkClient c with
  | Some GeminiSdk =>
      match geminiPrompt messages with
      | Throw e => Throw e
      | Ok req =>
          match gemini (GeminiConfig (model c) (coalesce (temperature options) (dec 7 10)) (maxTokens options)) req with
          | Throw e => Throw e
          | Ok a =>
              let pt := coalesce (promptTokenCount a) (tokens (length (join (content <$> messages) nl))) in
              let ct := coalesce (candidatesTokenCount a) (tokens (length (g_text a))) in
              Ok (LResponse (g_text a) (model c) (Some (Usage (Some pt) (Some ct) (Some (pt + ct)%Z))))
          end
      end
  | _ => Throw (js "Gemini client not initialized")
  end.

(** The prompt of the text-generation providers. *)
Definition speaker (r : role) : str :=
  match r with System => js "System: " | User => js "User: " | Assistant => js "Assistant: " end.
Definition plainPrompt (messages : list LLMMessage) : str :=
  foldl (fun prompt m => prompt ++ speaker (m_role m) ++ content m ++ nl ++ nl) [] messages ++ js "Assistant:".

Definition generated (prompt : str) (text : str) (c : LLMClient) : LLMResponse :=
  let pt := tokens (length prompt) in
  let ct := tokens (length text) in
  LResponse (trim text) (model c) (Some (Usage (Some pt) (Some ct) (Some (pt + ct)%Z))).

(** A value used as the generated string. *)
Definition string_text (v : option json) : result str :=
  match v with
  | Some (JStr s) => Ok s
  | Some JNull => Throw (js "Cannot read properties of null (reading 'length')")
  | _ => Throw (js "generatedText.trim is not a function")
  end.

Definition huggingfaceText (data : json) : result str :=
  match data with
  | JArr (d :: _) =>
      match get_prop (Some d) (js "generated_text") with
      | Throw e => Throw e
      | Ok v => string_text (js_or v (Some (JStr [])))
      end
  | JNull => Throw (js "Cannot use 'in' operator to search for 'generated_text' in null")
  | JObj o => match map_get o (js "generated_text") with Some v => string_text (Some v) | None => Ok [] end
  | JStr s => Ok s
  | _ => Ok []
  end.

(** The error of a response whose status is not a success. *)
Definition statusError (status : Z) (errorText : str) : str :=
  js "Hugging Face API error: " ++
  (if (status =? 503)%Z then js "Model is loading, please wait a few seconds and try again: " ++ errorText
   else if (status =? 429)%Z then js "Rate limit exceeded: " ++ errorText
   else if (status =? 401)%Z || (status =? 403)%Z then js "Authentication failed: " ++ errorText
   else js "HTTP " ++ str_of_Z status ++ js ": " ++ errorText).

(** The errors of the [catch] block. *)
Definition wrapError (e : str) : str :=
  if includes e (js "503") || includes e (js "loading")
  then js "Model is loading, please wait a few seconds and try again: " ++ e
  else if includes e (js "429") || includes e (js "rate limit") then js "Rate limit exceeded: " ++ e
  else if includes e (js "401") || includes e (js "403") || includes e (js "authentication")
  then js "Authentication failed: " ++ e
  else js "Hugging Face API error: " ++ e.

(** [fetch] answers the response, with its body as JSON and as text. *)
Definition huggingfaceRequest (c : LLMClient) (prompt : str) (options : LLMOptions) : result str :=
  match fetch (Request (js "POST") (js "https://router.huggingface.co/hf-inference/models/" ++ model c)
                 [(js "Content-Type", js "application/json");
                  (js "Authorization", js "Bearer " ++ coalesce (huggingfaceApiKey c) (js "undefined"))]
                 (Some (huggingfaceBody prompt
                    (Generation (match maxTokens options with Some 0%Z | None => 500%Z | Some n => n end)
                       (match temperature options with
                        | Some t => if truthy_num t then t else dec 7 10
                        | None => dec 7 10
                        end))))) with
  | Throw e => Throw e
  | Ok (a, text) =>
      if ok a then
        match payload a with Throw e => Throw e | Ok data => huggingfaceText data end
      else match text with Throw e => Throw e | Ok t => Throw (statusError (status a) t) end
  end.

Definition generateHuggingFaceCompletion (c : LLMClient) (messages : list LLMMessage) (options : LLMOptions)
    : result LLMResponse :=
  match sdkClient c with
  | Some HuggingFaceSdk =>
      let prompt := plainPrompt messages in
      match huggingfaceRequest c prompt options with
      | Ok text => Ok (generated prompt text c)
      | Throw e => Throw (wrapError e)
      end
  | _ => Throw (js "Hugging Face client not initialized")
  end.

(** [d.generated_text || d.output_text || ''] *)
Definition output_text (d : json) : result str :=
  string_text (js_or (prop d (js "generated_text")) (js_or (prop d (js "output_text")) (Some (JStr [])))).

Definition localText (data : json) : result str :=
  match data with
  | JArr (JNull :: _) => Throw (js "Cannot read properties of null (reading 'generated_text')")
  | JArr (d :: _) => output_text d
  | JObj _ => output_text data
  | _ => Ok []
  end.

(** The pipeline is loaded once: the promise, a rejected one too, is kept. *)
Definition generateLocalCompletion (c : LLMClient) (messages : list LLMMessage) (options : LLMOptions)
    : LLMClient * result LLMResponse :=
  let promise := coalesce (localPipelinePromise c) initLocalPipeline in
  let c' := LClient (provider c) (model c) (enableLiveStats c) (sdkClient c) (huggingfaceApiKey c) (Some promise) in
  (c',
   match promise with
   | Throw e => Throw e
   | Ok pipeline =>
       let prompt := plainPrompt messages in
       match pipeline prompt (Generation (coalesce (maxTokens options) 400%Z) (coalesce (temperature options) (dec 7 10))) with
       | Throw e => Throw e
       | Ok data => match localText data with Throw e => Throw e | Ok text => Ok (generated prompt text c') end
       end
   end).

Definition statsPreamble : str :=
  js "You have access to live query statistics from ResLens. Use this information to provide more accurate and context-aware responses.".

(** The statistics go to the end of the first system message; [None]: there
    is none. *)
Fixpoint appendToSystem (messages : list LLMMessage) (stats : str) : option (list LLMMessage) :=
  match messages with
  | [] => None
  | m :: ms =>
      if is_system m then Some (Message (m_role m) (content m ++ stats) :: ms)
      else cons m <$> appendToSystem ms stats
  end.

Definition enhanceMessagesWithLiveStats (messages : list LLMMessage) (stats : json) : list LLMMessage :=
  let statsContext := jsn "|n|n[Live Query Statistics]|n" ++ stringify stats in
  match appendToSystem messages statsContext with
  | Some enhanced => enhanced
  | None => Message System (statsPreamble ++ statsContext) :: messages
  end.

Definition isRetryableError (e : str) : bool :=
  let message := toLowerCase e in
  existsb (includes message)
    [js "network"; js "timeout"; js "rate limit"; js "429"; js "500"; js "503"].

(** What evaluating the body of the [try] block does: it returns a promise,
    which the caller of [generateCompletion] awaits, or it throws. *)
Inductive completion :=
| Returns (c : LLMClient) (promise : result LLMResponse)
| Throws (e : str).

Definition dispatch (c : LLMClient) (messages : list LLMMessage) (options : LLMOptions) : completion :=
  match provider c with
  | Openai | Deepseek => Returns c (generateOpenAICompletion c messages options)
  | Anthropic => Returns c (generateAnthropicCompletion c messages options)
  | Gemini => Returns c (generateGeminiCompletion c messages options)
  | HuggingFace => Returns c (generateHuggingFaceCompletion c messages options)
  | LocalModel => let '(c', p) := generateLocalCompletion c messages options in Returns c' p
  end.

Definition enhanced (c : LLMClient) (messages : list LLMMessage) (options : LLMOptions) : list LLMMessage :=
  match liveStats options with
  | Some stats => if enableLiveStats c then enhanceMessagesWithLiveStats messages stats else messages
  | None => messages
  end.

(** [retries] bounds the recursion of the [catch] block. *)
Fixpoint generateCompletion (retries : nat) (c : LLMClient) (messages : list LLMMessage) (options : LLMOptions)
    : option (LLMClient * result LLMResponse) :=
  if isAvailable c then
    match dispatch c (enhanced c messages options) options with
    | Returns c' p => Some (c', p)
    | Throws e =>
        if isRetryableError e then
          match retries with
          | O => None
          | S n => generateCompletion n c messages options
          end
        else Some (c, Throw e)
    end
  else Some (c, Throw (js "LLM client not available. Please set LLM_API_KEY environment variable for provider: " ++
                       match provider c with
                       | Deepseek => js "deepseek" | Openai => js "openai" | Anthropic => js "anthropic"
                       | HuggingFace => js "huggingface" | LocalModel => js "local" | Gemini => js "gemini"
                       end)).

Definition chat (retries : nat) (c : LLMClient) (userMessage : str) (system : option str) (options : LLMOptions)
    : option (LLMClient * result str) :=
  let messages :=
    (match system with Some (x :: s) => [Message System (x :: s)] | _ => [] end) ++ [Message User userMessage] in
  match generateCompletion retries c messages options with
  | Some (c', r) => Some (c', result_map r_content r)
  | None => None
  end.
End client.

(** ** Lemmas *)

Lemma appendToSystem_conversation ms stats ms' :
  appendToSystem ms stats = Some ms' -> conversation ms' = conversation ms.
Proof.
  revert ms'. induction ms as [|m ms IH]; intros ms'; cbn; [done|].
  destruct (is_system m) eqn:E.
  - intros [= <-]. unfold conversation, filterb. cbn. unfold is_system in *. cbn. by rewrite E.
  - intros (l & Hl & ->)%fmap_Some. unfold conversation, filterb in *. cbn. rewrite E. cbn. f_equal. by apply IH.
Qed.

Lemma system_includes ms m s :
  m ∈ ms -> is_system m = true -> includes (content m) s = true -> includes (systemMessage ms) s = true.
Proof.
  intros Hm Hs Hc. assert (includes (systemMessage ms) (content m) = true) as H.
  { apply join_includes, list_elem_of_fmap. exists m. split; [done|]. by apply elem_of_filterb. }
  apply includes_spec in H as (a & b & ->). apply includes_spec in Hc as (c & d & ->).
  apply includes_spec. exists (a ++ c), (d ++ b). by simplify_list_eq.
Qed.

Lemma appendToSystem_includes ms stats ms' :
  appendToSystem ms stats = Some ms' ->
  exists m, m ∈ ms' /\ is_system m = true /\ includes (content m) stats = true.
Proof.
  revert ms'. induction ms as [|m ms IH]; intros ms'; cbn; [done|].
  destruct (is_system m) eqn:E.
  - intros [= <-]. eexists. split; [by left|]. split; [done|]. apply includes_spec.
    exists (content m), []. cbn. by rewrite app_nil_r.
  - intros (l & Hl & ->)%fmap_Some. destruct (IH l Hl) as (x & ? & ? & ?). exists x. split_and!; [by right|done|done].
Qed.

(** ** The properties *)

(** A completion is attempted once: the outcome of an available client is
    the outcome of a single call of its provider, for every number of
    retries allowed, also when the error is one that [isRetryableError]
    names; the [catch] block with its retry is never entered. *)
Theorem completion_not_retried env openai anthropic gemini body fetch load stringify c messages options
    (Havailable : isAvailable env c = true) :
  exists c' r,
    dispatch openai anthropic gemini body fetch load c (enhanced stringify c messages options) options = Returns c' r /\
    forall retries,
      generateCompletion env openai anthropic gemini body fetch load stringify retries c messages options = Some (c', r).
Proof.
  assert (exists c' r, dispatch openai anthropic gemini body fetch load c
    (enhanced stringify c messages options) options = Returns c' r) as (c' & r & E).
  { unfold dispatch. destruct (provider c); by eexists _, _. }
  exists c', r. split; [exact E|]. intros n. destruct n; cbn; by rewrite Havailable, E.
Qed.

Definition demo_env : environment := Environment Openai (Some (js "key")) (js "gpt") false None.
Definition demo_client : LLMClient := new_client demo_env (Throw []).

Lemma completion_not_retried_witness :
  isRetryableError (js "429 Too Many Requests") = true /\
  forall retries,
    generateCompletion demo_env (fun _ => Throw (js "429 Too Many Requests")) (fun _ => Throw []) (fun _ _ => Throw [])
      (fun _ _ => []) (fun _ => Throw []) (Throw []) (fun _ => []) retries demo_client
      [Message User (js "hi")] (LOptions None None None) = Some (demo_client, Throw (js "429 Too Many Requests")).
Proof.
  split; [vm_compute; reflexivity|].
  destruct (completion_not_retried demo_env (fun _ => Throw (js "429 Too Many Requests")) (fun _ => Throw [])
    (fun _ _ => Throw []) (fun _ _ => []) (fun _ => Throw []) (Throw []) (fun _ => []) demo_client
    [Message User (js "hi")] (LOptions None None None)) as (c' & r & E & H); [vm_compute; reflexivity|].
  vm_compute in E. injection E as <- <-. exact H.
Defined.

(** Live statistics never touch the conversation: whatever is added, the
    messages other than system messages reach the provider unchanged and in
    order, the statistics are part of the system text when they are enabled,
    and for Gemini the history and the last message are that conversation. *)
Theorem live_stats_conversation stringify c messages options :
  let ms := enhanced stringify c messages options in
  conversation ms = conversation messages /\
  (forall stats, enableLiveStats c = true -> liveStats options = Some stats ->
     includes (systemMessage ms) (stringify stats) = true) /\
  match geminiPrompt ms with
  | Ok (Chat history _ message) => exists r, conversation messages = history ++ [Message r message]
  | Ok (Generate prompt) => exists r s, conversation messages = [Message r s] /\ includes prompt s = true
  | Throw _ => conversation messages = []
  end.
Proof.
  intros ms.
  assert (conversation ms = conversation messages) as Hc.
  { unfold ms, enhanced, enhanceMessagesWithLiveStats. split_matches. by eapply appendToSystem_conversation. }
  split_and!; [done| |].
  - intros stats He Hl. unfold ms, enhanced, enhanceMessagesWithLiveStats. rewrite He, Hl.
    set (t := jsn _ ++ stringify stats).
    assert (forall u, includes u t = true -> includes u (stringify stats) = true) as Ht.
    { intros u (a & b & ->)%includes_spec. apply includes_spec. unfold t. exists (a ++ jsn "|n|n[Live Query Statistics]|n"), b.
      by rewrite <- !app_assoc. }
    destruct (appendToSystem messages t) eqn:E.
    + apply appendToSystem_includes in E as (m & ? & ? & ?). eapply system_includes; eauto.
    + eapply system_includes; [by left|done|]. apply Ht, includes_spec.
      exists statsPreamble, []. cbn [content]. by rewrite app_nil_r.
  - unfold geminiPrompt. rewrite Hc. destruct (rev (conversation messages)) as [|m [|m' l]] eqn:E.
    + apply (f_equal (@rev _)) in E. by rewrite rev_involutive in E.
    + apply (f_equal (@rev _)) in E. rewrite rev_involutive in E. cbn in E.
      exists (m_role m), (content m). split; [by destruct m|]. apply includes_spec.
      destruct (systemMessage ms) as [|x s]; [exists [], []; by rewrite app_nil_r|].
      exists ((x :: s) ++ nl ++ nl), []. by simplify_list_eq.
    + apply (f_equal (@rev _)) in E. rewrite rev_involutive in E. exists (m_role m). rewrite E. cbn.
      by destruct m.
Qed.
