(* ===== verification/Optimization.v ===== *)
(** * Optimization suggestions

    [OptimizationService] of
    src/ecosystem/ai-tools/mcp/graphq-llm/src/llm/optimization-service.ts: the
    suggestions made from the static analysis and the model's answer.  The
    retrieval calls, the ResLens client and the language model are
    arguments. *)

From S2P Require Import Prelude JsString JsArray JsNum Json Http ResLens QueryAnalyzer.
From S2P Require Import VectorStore Retrieval ContextFormatter Prompts.

Local Open Scope js_scope.

Record OptimizationSuggestion := Suggestion {
  suggestion : str;
  reason : str;
  priority : level;
}.

Record OptimizationResult := OResult {
  res_query : str;
  suggestions : list OptimizationSuggestion;
  analysis : QueryAnalysis;
  res_similarQueries : option (list similarQuery);
}.

Definition inferPriority (s : str) : level :=
  let lower := toLowerCase s in
  if any_of [js "critical"; js "urgent"; js "severe"] lower then High
  else if any_of [js "important"; js "significant"; js "major"] lower then Medium
  else Low.

Definition priorityOrder (l : level) : Z := match l with High => 3 | Medium => 2 | Low => 1 end.

Definition key (s : OptimizationSuggestion) : str := toLowerCase (substring (suggestion s) 0 100).

(** The loop that keeps the first suggestion of each key; [seen] is the
    [Set]. *)
Fixpoint unique (seen : gset str) (l : list OptimizationSuggestion) : list OptimizationSuggestion :=
  match l with
  | [] => []
  | s :: l' =>
      if bool_decide (key s ∈ seen) then unique seen l'
      else s :: unique ({[key s]} ∪ seen) l'
  end.

Definition deduplicateSuggestions (l : list OptimizationSuggestion) : list OptimizationSuggestion :=
  sort_desc_Z (fun s => priorityOrder (priority s)) (unique ∅ l).

(** ** The model's answer *)

(** [/^\d+\./.test(s)], and the rest after [/^\d+\.\s*/]. *)
Definition numbered (s : str) : option str :=
  let n := run_length is_digit s in
  match n, drop n s with
  | S _, "."%char :: r => Some (drop (run_length is_space r) r)
  | _, _ => None
  end.

Definition is_upper (c : ascii) : bool := between 65 90 c.

(** [s.startsWith('**') || /^[A-Z][^:]+:/.test(s)] *)
Definition is_section (s : str) : bool :=
  startsWith s (js "**") ||
  match s with
  | c :: r => is_upper c && match indexOf r (js ":") with Some (S _) => true | _ => false end
  | [] => false
  end.

(** [s.replace(/[**]/g, '').replace(':', '')] *)
Definition section_title (s : str) : str :=
  replace_first (filterb (fun c => negb (bool_decide (c = "*"%char))) s) (js ":") [].

Fixpoint parse_lines (currentSection : str) (lines : list str) : list OptimizationSuggestion :=
  match lines with
  | [] => []
  | line :: lines' =>
      let trimmed := trim line in
      let found :=
        match numbered trimmed with
        | Some s =>
            if (20 <? length s)%nat
            then [Suggestion s (str_or (Some currentSection) (js "Based on best practices")) (inferPriority s)]
            else []
        | None => []
        end in
      found ++ parse_lines (if is_section trimmed then section_title trimmed else currentSection) lines'
  end.

Definition from_opportunity (o : OptimizationOpportunity) : OptimizationSuggestion :=
  Suggestion (str_or (Some (QueryAnalyzer.suggestion o)) (description o)) (description o) (severity o).

Definition parseOptimizationResponse (llmResponse : str) (a : QueryAnalysis) : list OptimizationSuggestion :=
  let found := (from_opportunity <$> opportunities a) ++ parse_lines [] (split llmResponse nl) in
  let all :=
    if (length found =? length (opportunities a))%nat && (100 <? length llmResponse)%nat
    then found ++ [Suggestion (substring llmResponse 0 500) (js "LLM analysis") Medium]
    else found in
  deduplicateSuggestions all.

(** ** The service *)

(** The first of each query, at most five. *)
Fixpoint first_of_each (seen : list str) (l : list similarQuery) : list similarQuery :=
  match l with
  | [] => []
  | q :: l' => if bool_decide (s_query q ∈ seen) then first_of_each seen l'
               else q :: first_of_each (s_query q :: seen) l'
  end.

Section service.
Context (showNum : num -> str).
Context (retrieveDocumentationContext retrieveSchemaContext : str -> RetrievalOptions -> result RetrievalResult).
Context (getRecentQueries : Z -> result (list QueryExecutionMetrics)).
(** [llmClient.generateCompletion] on a system and a user message. *)
Context (generateCompletion : str -> str -> result str).

Definition similar_queries (recent : list QueryExecutionMetrics) : list similarQuery :=
  take 5 (first_of_each []
    ((fun q => SQuery (ResLens.query q) (ResLens.executionTime q)
                 (js "Similar query executed " ++ showNum (ResLens.executionTime q) ++ js "ms")) <$> recent)).

Definition optimize (query : str) (includeSimilarQueries : bool) (maxContextChunks : Z) (minSimilarity : num)
    : result OptimizationResult :=
  let a := analyze query in
  try! docResult <- retrieveDocumentationContext (js "GraphQL query optimization best practices " ++ query)
         (ROptions (Some maxContextChunks) (Some minSimilarity) None None (Some false));
  try! schemaResult <- retrieveSchemaContext query
         (ROptions (Some (maxContextChunks / 2)%Z) (Some (dec 25 100)) None None (Some false));
  let documentationContext :=
    formatForOptimization (chunks docResult) None (FOptions (Some 2000%Z) None None None None) in
  let schemaContext :=
    match chunks schemaResult with
    | [] => None
    | cs => Some (format cs None (FOptions (Some 1000%Z) None None (Some Compact) None))
    end in
  let similarQueries :=
    if includeSimilarQueries then
      match getRecentQueries 10 with
      | Ok recent => Some (similar_queries recent)
      | Throw _ => None
      end
    else None in
  let prompt := formatOptimizationPrompt showNum
    (OContext query documentationContext schemaContext similarQueries) in
  try! response <- generateCompletion OPTIMIZATION_SYSTEM_PROMPT prompt;
  Ok (OResult query (parseOptimizationResponse response a) a similarQueries).
End service.

Definition quickAnalyze (query : str) : QueryAnalysis := analyze query.

Definition checkAvailability (llm vectorStore embeddingService : bool) (resLens : result unit)
    : bool * bool * bool * bool :=
  (llm, vectorStore && embeddingService, true, is_ok resLens).

(** ** Lemmas *)

Definition same_key (s t : OptimizationSuggestion) : bool := bool_decide (key t = key s).

Lemma unique_spec seen l :
  NoDup (key <$> unique seen l) /\
  (forall s, s ∈ unique seen l -> (key s ∉ seen) /\ List.find (same_key s) l = Some s) /\
  (forall s, s ∈ l -> key s ∈ seen \/ exists s', s' ∈ unique seen l /\ key s' = key s).
Proof.
  revert seen. induction l as [|s l IH]; intros seen; cbn [unique].
  { split_and!; [constructor|set_solver|set_solver]. }
  case_bool_decide as Hs.
  - destruct (IH seen) as (H1 & H2 & H3). split_and!; [done| |].
    + intros t Ht. destruct (H2 t Ht) as [Hn Hf]. split; [done|]. cbn.
      unfold same_key at 1. rewrite bool_decide_eq_false_2; [done|]. intros E. by rewrite E in Hs.
    + intros t [->|Ht]%elem_of_cons; [by left|]. destruct (H3 t Ht) as [?|?]; [by left|by right].
  - destruct (IH ({[key s]} ∪ seen)) as (H1 & H2 & H3). split_and!.
    + cbn. apply NoDup_cons. split; [|done]. intros (t & Et & Ht)%list_elem_of_fmap.
      destruct (H2 t Ht) as [Hn _]. apply Hn. rewrite <- Et. set_solver.
    + intros t [->|Ht]%elem_of_cons.
      * split; [done|]. cbn. unfold same_key. by rewrite bool_decide_eq_true_2.
      * destruct (H2 t Ht) as [Hn Hf]. split; [set_solver|]. cbn. unfold same_key at 1.
        rewrite bool_decide_eq_false_2; [done|]. set_solver.
    + intros t [->|Ht]%elem_of_cons.
      * right. exists s. split; [by left|done].
      * destruct (H3 t Ht) as [[->%elem_of_singleton|?]%elem_of_union|(s' & ? & ?)].
        -- right. exists s. split; [by left|]. done.
        -- by left.
        -- right. exists s'. split; [by right|done].
Qed.

(** ** The properties *)

(** The suggestions of an optimisation are unique and ordered: no two
    agree on their first hundred characters up to case, each is the first of
    the collected ones with its key, none of the collected keys is missing
    (so every opportunity of the static analysis is represented), the
    priorities descend, and suggestions of equal priority keep the order in
    which they were found. *)
Theorem deduplicateSuggestions_spec l :
  let r := deduplicateSuggestions l in
  NoDup (key <$> r) /\
  StronglySorted (fun s t => (priorityOrder (priority t) <= priorityOrder (priority s))%Z) r /\
  (forall s, s ∈ r -> List.find (same_key s) l = Some s) /\
  (forall s, s ∈ l -> exists s', s' ∈ r /\ key s' = key s) /\
  (forall p, filterb (fun s => priorityOrder (priority s) =? p)%Z r =
             filterb (fun s => priorityOrder (priority s) =? p)%Z (unique ∅ l)).
Proof.
  cbn zeta. unfold deduplicateSuggestions. set (f := fun s => priorityOrder (priority s)).
  destruct (unique_spec ∅ l) as (H1 & H2 & H3).
  assert (forall s, s ∈ sort_desc_Z f (unique ∅ l) <-> s ∈ unique ∅ l) as Hin by (intros; apply elem_of_sort_by).
  split_and!.
  - assert (sort_desc_Z f (unique ∅ l) ≡ₚ unique ∅ l) as -> by apply sort_by_perm. done.
  - apply sort_desc_Z_sorted.
  - intros s Hs%Hin. by apply H2.
  - intros s Hs. destruct (H3 s Hs) as [?|(s' & Hs' & E)]; [set_solver|]. exists s'. by rewrite Hin.
  - intros p. apply sort_desc_Z_stable.
Qed.
