(* ===== verification/Explanation.v ===== *)
(** * Explanations: caching and single flight

    [ExplanationService.explain] of
    src/ecosystem/ai-tools/mcp/graphq-llm/src/llm/explanation-service.ts: the
    cache in front of [executeExplain] and the map of pending requests that
    lets concurrent calls for the same query share one execution.  The state
    has the cache, the map and the executions under way; the outcome of an
    execution arrives as an event.  Time is an argument of each event. *)

From S2P Require Import Prelude JsString JsArray Cache.

Record ExplanationResult := Explained {
  explanation : str;
  x_query : str;
  contextChunksUsed : Z;
  liveStatsIncluded : bool;
}.

(** [/\{\s*\w+\s*\(/] at the head. *)
Definition call_at (s : str) : bool :=
  match s with
  | "{"%char :: s1 =>
      let s2 := drop (run_length is_space s1) s1 in
      let w := run_length is_word s2 in
      let s3 := drop w s2 in
      match w, drop (run_length is_space s3) s3 with
      | S _, "("%char :: _ => true
      | _, _ => false
      end
  | _ => false
  end.

(** [/query\s+|mutation\s+|subscription\s+/i] at the head. *)
Definition keyword_at (s : str) : bool :=
  existsb (fun k => is_prefix k (toLowerCase s) &&
                    match drop (length k) s with c :: _ => is_space c | [] => false end)
    [js "query"; js "mutation"; js "subscription"].

Fixpoint somewhere (f : str -> bool) (s : str) : bool :=
  f s || match s with [] => false | _ :: s' => somewhere f s' end.

Definition looksLikeQuery (trimmedQuery : str) : bool :=
  startsWith trimmedQuery (js "{") || somewhere call_at trimmedQuery || somewhere keyword_at trimmedQuery.

Section service.
(** The options, [JSON.stringify({ query, options })] and the serialisation
    of [{ options }] inside the cache. *)
Context {O : Type} (cacheKey : str -> O -> str) (stringifyOptions : O -> str).

(** One execution of [executeExplain]: its promise, query and options. *)
Record execution := Execution { promise : nat; of_query : str; of_options : O }.

Definition trimmed (x : execution) : str := trim (of_query x).
Definition key_of (x : execution) : str := cacheKey (trimmed x) (of_options x).
Definition cacheable (x : execution) : bool := looksLikeQuery (trimmed x).

Record service := Service {
  cache : SimpleCache ExplanationResult;
  pendingRequests : jsmap str nat;
  running : list execution;
  next_promise : nat;
}.

Definition new_service : service := Service (new_cache (Some 3600000%Z)) [] [] 0.

(** What a caller gets: a value at once, or the promise it awaits. *)
Inductive outcome :=
| Hit (r : ExplanationResult)
| Reuse (p : nat)
| Fresh (p : nat).

(** [explain] up to its first suspension. *)
Definition explain (now : Z) (s : service) (query : str) (options : O) : service * outcome :=
  let trimmedQuery := trim query in
  let start (c : SimpleCache ExplanationResult) :=
    let p := next_promise s in
    (Service c
       (if looksLikeQuery trimmedQuery
        then map_set (pendingRequests s) (cacheKey trimmedQuery options) p else pendingRequests s)
       (running s ++ [Execution p query options]) (S p), Fresh p) in
  if looksLikeQuery trimmedQuery then
    let '(c, cached) := Cache.get stringifyOptions now (cache s) trimmedQuery (Some options) in
    match cached with
    | Some r => (Service c (pendingRequests s) (running s) (next_promise s), Hit r)
    | None =>
        match map_get (pendingRequests s) (cacheKey trimmedQuery options) with
        | Some p => (Service c (pendingRequests s) (running s) (next_promise s), Reuse p)
        | None => start c
        end
    end
  else start (cache s).

(** The rest of [explain] when the execution [x] settles: the result is
    cached and the entry removed; on an error the entry is removed. *)
Definition settle (now : Z) (s : service) (x : execution) (r : result ExplanationResult) : service :=
  let running' := filterb (fun y => negb (promise y =? promise x)%nat) (running s) in
  match r with
  | Ok v =>
      if cacheable x
      then Service (Cache.set stringifyOptions now (cache s) (trimmed x) v (Some (of_options x)) None)
             (map_delete (pendingRequests s) (key_of x)) running' (next_promise s)
      else Service (cache s) (pendingRequests s) running' (next_promise s)
  | Throw _ => Service (cache s) (map_delete (pendingRequests s) (key_of x)) running' (next_promise s)
  end.

(** The timer that purges expired entries. *)
Definition purge (now : Z) (s : service) : service :=
  Service (clearExpired now (cache s)) (pendingRequests s) (running s) (next_promise s).

Inductive event :=
| Call (query : str) (options : O)
| Settled (x : execution) (r : result ExplanationResult)
| Purge.

Inductive step : service -> event -> service -> Prop :=
| step_call now s q o : step s (Call q o) (explain now s q o).1
| step_settled now s x r : x ∈ running s -> step s (Settled x r) (settle now s x r)
| step_purge now s : step s Purge (purge now s).

Inductive reachable : service -> Prop :=
| reach_new : reachable new_service
| reach_step s e s' : reachable s -> step s e s' -> reachable s'.

(** ** The invariant *)

(** [pendingRequests] holds exactly the cacheable executions under way, one
    per key. *)
Record single_flight (s : service) : Prop := {
  sf_wf : map_wf (pendingRequests s);
  sf_fresh x : x ∈ running s -> promise x < next_promise s;
  sf_promises : NoDup (promise <$> running s);
  sf_sound k p : map_get (pendingRequests s) k = Some p ->
    exists x, x ∈ running s /\ promise x = p /\ key_of x = k /\ cacheable x = true;
  sf_complete x : x ∈ running s -> cacheable x = true ->
    map_get (pendingRequests s) (key_of x) = Some (promise x);
}.

(** Which calls are cacheable is decided by the key. *)
Definition keys_decide : Prop :=
  forall q1 o1 q2 o2, cacheKey q1 o1 = cacheKey q2 o2 -> q1 = q2.

Lemma promise_inj s x y :
  NoDup (promise <$> running s) -> x ∈ running s -> y ∈ running s -> promise x = promise y -> x = y.
Proof.
  intros Hnd [i Hi]%list_elem_of_lookup [j Hj]%list_elem_of_lookup E.
  assert (i = j) as ->.
  { eapply NoDup_lookup; [exact Hnd|by rewrite list_lookup_fmap, Hi|by rewrite list_lookup_fmap, Hj; cbn; f_equal]. }
  congruence.
Qed.

Lemma NoDup_filterb_fmap {A B} (f : A -> B) g (l : list A) : NoDup (f <$> l) -> NoDup (f <$> filterb g l).
Proof.
  induction l as [|x l IH]; cbn; [done|]. intros [H1 H2]%NoDup_cons. unfold filterb in *. cbn.
  destruct (g x); [|by apply IH]. cbn. apply NoDup_cons. split; [|by apply IH]. contradict H1.
  apply list_elem_of_fmap in H1 as (y & E & Hy). apply list_elem_of_fmap. exists y. split; [done|].
  apply list_elem_of_In, filter_In in Hy as [? _]. by apply list_elem_of_In.
Qed.

Lemma single_flight_start s c q o :
  single_flight s ->
  (looksLikeQuery (trim q) = true -> map_get (pendingRequests s) (cacheKey (trim q) o) = None) ->
  single_flight (Service c
    (if looksLikeQuery (trim q) then map_set (pendingRequests s) (cacheKey (trim q) o) (next_promise s)
     else pendingRequests s)
    (running s ++ [Execution (next_promise s) q o]) (S (next_promise s))).
Proof.
  intros [Hwf Hfr Hnd Hso Hco] Hnone. set (x0 := Execution (next_promise s) q o).
  assert (cacheable x0 = looksLikeQuery (trim q)) as Ec by done.
  assert (key_of x0 = cacheKey (trim q) o) as Ek by done.
  constructor; cbn [pendingRequests running next_promise].
  - case_match; [by apply map_set_wf|done].
  - intros x [Hx| ->%list_elem_of_singleton]%elem_of_app; [|cbn; lia]. specialize (Hfr x Hx). lia.
  - rewrite fmap_app. apply NoDup_app. split_and!; [done| |apply NoDup_singleton].
    intros p (x & -> & Hx)%list_elem_of_fmap Hp%list_elem_of_singleton. specialize (Hfr x Hx). cbn in Hp. lia.
  - intros k p Hk. destruct (looksLikeQuery (trim q)) eqn:El.
    + destruct (decide (cacheKey (trim q) o = k)) as [<-|Hne].
      * rewrite map_get_set_eq in Hk. injection Hk as <-. exists x0. split_and!; try done. set_solver.
      * rewrite map_get_set_ne in Hk by done. destruct (Hso k p Hk) as (x & Hx & ? & ? & ?).
        exists x. split_and!; try done. set_solver.
    + destruct (Hso k p Hk) as (x & Hx & ? & ? & ?). exists x. split_and!; try done. set_solver.
  - intros x [Hx| ->%list_elem_of_singleton]%elem_of_app Hc.
    + specialize (Hco x Hx Hc). case_match; [|done]. rewrite map_get_set_ne; [done|].
      intros E. rewrite <- E in Hco. rewrite Hnone in Hco; [done|done].
    + fold x0. rewrite Ek. rewrite Ec in Hc. rewrite Hc. by rewrite map_get_set_eq.
Qed.

Lemma single_flight_remove s c x pend :
  single_flight s -> x ∈ running s ->
  (cacheable x = true -> pend = map_delete (pendingRequests s) (key_of x)) ->
  (cacheable x = false -> forall k, map_get pend k = map_get (pendingRequests s) k) -> map_wf pend ->
  single_flight (Service c pend (filterb (fun y => negb (promise y =? promise x)%nat) (running s)) (next_promise s)).
Proof.
  intros [Hwf Hfr Hnd Hso Hco] Hx Hdel Hsame Hwf'.
  assert (forall y, y ∈ filterb (fun y => negb (promise y =? promise x)%nat) (running s) <->
    y ∈ running s /\ y <> x) as Hin.
  { intros y. rewrite elem_of_filterb, negb_true_iff, Nat.eqb_neq. split; intros [Hy Hne]; split; try done.
    - by intros ->.
    - intros E. apply Hne. by eapply promise_inj. }
  assert (forall y, y ∈ running s -> cacheable y = true -> cacheable x = true -> key_of y = key_of x -> y = x) as Hsole.
  { intros y Hy Hcy Hcx E. pose proof (Hco y Hy Hcy) as E1. pose proof (Hco x Hx Hcx) as E2.
    rewrite E, E2 in E1. injection E1 as E1. by eapply promise_inj. }
  constructor; cbn [pendingRequests running next_promise].
  - done.
  - intros y [Hy _]%Hin. by apply Hfr.
  - by apply NoDup_filterb_fmap.
  - intros k p Hk. destruct (cacheable x) eqn:Ec.
    + rewrite Hdel in Hk by done. destruct (decide (key_of x = k)) as [<-|Hne].
      { by rewrite map_get_delete_eq in Hk. }
      rewrite map_get_delete_ne in Hk by done. destruct (Hso k p Hk) as (y & Hy & ? & Hyk & ?).
      exists y. split_and!; try done. apply Hin. split; [done|]. intros ->. congruence.
    + rewrite Hsame in Hk by done. destruct (Hso k p Hk) as (y & Hy & ? & ? & ?).
      exists y. split_and!; try done. apply Hin. split; [done|]. intros ->. congruence.
  - intros y [Hy Hne]%Hin Hc. destruct (cacheable x) eqn:Ec.
    + rewrite Hdel by done. rewrite map_get_delete_ne; [by apply Hco|]. intros E. apply Hne. symmetry in E. by apply Hsole.
    + rewrite Hsame by done. by apply Hco.
Qed.

Lemma single_flight_step s e s' : keys_decide -> single_flight s -> step s e s' -> single_flight s'.
Proof.
  intros Hkeys Hs Hstep. destruct Hstep as [now s q o|now s x r Hx|now s].
  - unfold explain. destruct (looksLikeQuery (trim q)) eqn:El.
    + destruct (Cache.get _ _ _ _ _) as [c [r|]]; [by destruct Hs|].
      destruct (map_get (pendingRequests s) (cacheKey (trim q) o)) eqn:Ep; [by destruct Hs|].
      pose proof (single_flight_start s c q o Hs (fun _ => Ep)) as H. rewrite El in H. exact H.
    + pose proof (single_flight_start s (cache s) q o Hs ltac:(congruence)) as H. rewrite El in H. exact H.
  - pose proof (sf_wf _ Hs) as Hwf.
    assert (cacheable x = false -> map_get (pendingRequests s) (key_of x) = None) as Hnone.
    { intros Ec. destruct (map_get (pendingRequests s) (key_of x)) as [p|] eqn:E; [|done].
      destruct (sf_sound _ Hs _ _ E) as (y & _ & _ & Ek & Hc). unfold cacheable in *.
      apply Hkeys in Ek. rewrite Ek in Hc. congruence. }
    unfold settle. destruct r as [v|msg].
    + destruct (cacheable x) eqn:Ec; apply single_flight_remove; auto with resdb; congruence.
    + apply single_flight_remove; auto with resdb. intros Ec k.
      destruct (decide (key_of x = k)) as [<-|Hne]; [|by apply map_get_delete_ne].
      rewrite map_get_delete_eq. by rewrite Hnone.
  - by destruct Hs.
Qed.

Lemma reachable_single_flight s : keys_decide -> reachable s -> single_flight s.
Proof.
  intros Hkeys. induction 1 as [|s e s' _ IH Hstep].
  - constructor; cbn; try done; [constructor|set_solver|constructor|set_solver].
  - by eapply single_flight_step.
Qed.
End service.
Arguments execution O : clear implicits.
Arguments service O : clear implicits.

(** ** The properties *)

(** C19: single flight: in every reachable state at most one execution is
    under way per cache key of a GraphQL query, and [pendingRequests] names
    exactly those; hence a call for a query whose execution is under way
    starts no second one but answers from the cache or awaits that
    promise. *)
Theorem explain_single_flight {O} cacheKey stringifyOptions (s : service O) now x q o
    (Hkeys : keys_decide cacheKey)
    (Hreach : reachable cacheKey stringifyOptions s)
    (Hx : x ∈ running s) (Hq : looksLikeQuery (trim q) = true)
    (Hkey : cacheKey (trim q) o = key_of cacheKey x) :
  (forall y, y ∈ running s -> cacheable y = true -> key_of cacheKey y = key_of cacheKey x -> y = x) /\
  let '(s', out) := explain cacheKey stringifyOptions now s q o in
  running s' = running s /\ (out = Reuse (promise x) \/ exists r, out = Hit r).
Proof.
  pose proof (reachable_single_flight _ _ s Hkeys Hreach) as Hs.
  assert (cacheable x = true) as Hc.
  { unfold cacheable. apply Hkeys in Hkey. by rewrite <- Hkey. }
  pose proof (sf_complete _ _ Hs x Hx Hc) as Hp. split.
  - intros y Hy Hcy E. pose proof (sf_complete _ _ Hs y Hy Hcy) as E1. rewrite E, Hp in E1.
    injection E1 as E1. by eapply promise_inj; [apply (sf_promises _ _ Hs)|..].
  - unfold explain. rewrite Hq. destruct (Cache.get _ _ _ _ _) as [c [r|]].
    + split; [done|]. right. by exists r.
    + rewrite Hkey, Hp. split; [done|by left].
Qed.

Definition demo_key (q : str) (_ : unit) : str := q.
Definition demo_state : service unit :=
  (explain demo_key (fun _ => []) 0 new_service (js " { a }") tt).1.

Lemma explain_single_flight_witness :
  exists s', explain demo_key (fun _ => []) 5 demo_state (js "{ a } ") tt = (s', Reuse 0) /\
    running s' = running demo_state.
Proof.
  destruct (explain_single_flight demo_key (fun _ => []) demo_state 5
    (Execution 0 (js " { a }") tt) (js "{ a } ") tt) as [_ H].
  - intros q1 o1 q2 o2 E. exact E.
  - apply (reach_step _ _ new_service (Call (js " { a }") tt)); [apply reach_new|].
    apply (step_call demo_key (fun _ => []) 0 new_service (js " { a }") tt).
  - left.
  - reflexivity.
  - reflexivity.
  - eexists. split; [reflexivity|]. exact (proj1 H).
Defined.
