(* ===== verification/Explain.v ===== *)
(** * Explanations: the text

    [ExplanationService.executeExplain] and the shorter forms of
    src/ecosystem/ai-tools/mcp/graphq-llm/src/llm/explanation-service.ts:
    retrieval, prompt, language model, and the texts used in place of an
    answer that is missing or poor.  Retrieval, the ResLens client and the
    language model are arguments; none of what remains can throw, so the
    outermost [catch] of the code is never entered. *)

From S2P Require Import Prelude JsString JsArray JsNum Json ResLens Cache VectorStore Retrieval.
From S2P Require Import ContextFormatter Prompts LlmClient Explanation.

Record ExplanationOptions := XOptions {
  x_detailed : option bool;
  x_includeLiveStats : option bool;
  x_maxContextChunks : option Z;
  x_minSimilarity : option num;
}.

(** ** Regular expressions *)

(** [/^\[Source:[^\]]+\]\s*/m] *)
Definition source_tag (s : str) : option nat :=
  if is_prefix (js "[Source:") s then
    let t := drop 8 s in
    let n := run_length (fun c => negb (bool_decide (c = "]"%char))) t in
    match n, drop n t with
    | S _, _ :: rest => Some (8 + n + 1 + run_length is_space rest)%nat
    | _, _ => None
    end
  else None.

(** [$] with the flag [m]. *)
Definition at_line_end (s : str) : bool := match s with [] => true | c :: _ => line_end c end.

(** The longest of the first [n] white-space characters before a line end. *)
Fixpoint spaces_to_line_end (n : nat) (t : str) : option nat :=
  if at_line_end (drop n t) then Some n
  else match n with O => None | S n' => spaces_to_line_end n' t end.

(** [/^---\s*$/m] *)
Definition rule_line (s : str) : option nat :=
  if is_prefix (js "---") s then
    let t := drop 3 s in
    match spaces_to_line_end (run_length is_space t) t with Some n => Some (3 + n)%nat | None => None end
  else None.

Definition cleanChunk (text : str) : str :=
  trim (remove_at_lines rule_line (remove_at_lines source_tag text 0 true) 0 true).

(** The group of [/\{?\s*(\w+)\s*\(/] at the head. *)
Definition called_at (s : str) : option str :=
  let s1 := match s with "{"%char :: t => t | _ => s end in
  let s2 := drop (run_length is_space s1) s1 in
  let w := run_length is_word s2 in
  let s3 := drop w s2 in
  match w, drop (run_length is_space s3) s3 with
  | S _, "("%char :: _ => Some (take w s2)
  | _, _ => None
  end.

Definition queryName (query : str) : str := coalesce (first_match called_at query) (js "the query").

(** The group of [/\{\s*([^}]+)\s*\}/] at the head.  When there is only
    white space between the braces, its last character is the group. *)
Definition braces_at (s : str) : option str :=
  match s with
  | "{"%char :: t =>
      let n := run_length (fun c => negb (bool_decide (c = "}"%char))) t in
      let inner := take n t in
      match drop n t with
      | [] => None
      | _ :: _ =>
          match drop (run_length is_space inner) inner with
          | [] => match last inner with Some c => Some [c] | None => None end
          | group => Some group
          end
      end
  | _ => None
  end.

Definition fieldsMatch (query : str) : option str := first_match braces_at query.

(** ** Texts *)

Definition dq : str := ["034"%char].

Definition no_documentation (trimmedQuery : str) : str :=
  js "I couldn't find specific documentation to answer " ++ dq ++ trimmedQuery ++ dq ++
  jsn ".|n|n**To get an explanation of a GraphQL query, please provide a valid query like:**|n" ++
  js "- `{ getTransaction(id: " ++ dq ++ js "test" ++ dq ++ jsn ") { asset } }`|n" ++
  js "- `{ getTransaction(id: " ++ dq ++ js "123" ++ dq ++ jsn ") { asset amount timestamp } }`|n|n" ++
  jsn "**What is GraphQL?**|nGraphQL is a query language for APIs that allows you to request exactly the data you need. In ResilientDB, you can use GraphQL to query transaction data.".

Definition documentText (index : nat) (c : DocumentChunk) : str :=
  js "[Document " ++ str_of_nat (S index) ++ js "]" ++ nl ++ cleanChunk (chunkText c).

(** A text cut at [n] characters, with an ellipsis. *)
Definition cut (text : str) (n : Z) : str :=
  substring text 0 n ++ (if (n <? Z.of_nat (length text))%Z then js "..." else []).

Definition rawAnswer (index : nat) (c : DocumentChunk) : str :=
  let text := cleanChunk (chunkText c) in
  if (index =? 0)%nat then cut text 800
  else jsn "|n|n**Additional information:**|n" ++ cut text 400.

(** ** Judging the model's answer *)

Definition isRepetitive (e : str) : bool :=
  (3 <? length (filterb (fun line => includes line (js "Question:") || includes line (js "Query:") ||
                                     includes line (js "Answer:")) (split e nl)))%nat.
Definition isTooShort (e : str) : bool := (length (trim e) <? 50)%nat.
Definition repeatsPrompt (e : str) : bool :=
  includes e (js "Question: What does this GraphQL query do?") && (2 <? length (split e (js "Question:")))%nat.

Definition uses (query : str) : str :=
  js "This GraphQL query uses `" ++ queryName query ++ jsn "` to retrieve data from ResilientDB.|n|n".

(** The explanation made of the retrieved chunks. *)
Definition fromChunks (query : str) (top : DocumentChunk) (rest : list DocumentChunk) : str :=
  let text := trim (chunkText top) in
  uses query ++
  (match text with
   | [] => []
   | _ => jsn "According to the documentation:|n|n" ++ cut (cleanChunk text) 600
   end) ++
  (match trim (coalesce (fieldsMatch query) []) with
   | [] => []
   | fields => jsn "|n|nThe query requests the following fields: " ++ fields
   end) ++
  (match rest with
   | c :: _ => jsn "|n|nAdditional information: " ++ substring (cleanChunk (chunkText c)) 0 200 ++ js "..."
   | [] => []
   end).

(** Braces, brackets, colon, comma, equals sign and quotation mark only. *)
Definition is_punctuation (f : str) : bool :=
  forallb (fun c => bool_decide (c ∈ js "{}()[]:,=" ++ dq)) f && negb (bool_decide (f = [])).

Definition requestedFields (query : str) : list str :=
  match fieldsMatch query with
  | None => []
  | Some group =>
      filterb (fun f => negb (bool_decide (f = [])) && negb (bool_decide (f = js "getTransaction")) &&
                        negb (bool_decide (f = queryName query)))
        (filterb (fun f => negb (bool_decide (f = [])) && negb (is_punctuation f) &&
                           negb (includes f (js "(")) && negb (includes f (js ")")))
           (trim <$> split_ws group))
  end.

(** The explanation made of the query alone. *)
Definition fromQuery (query : str) : str :=
  uses query ++
  (match requestedFields query with
   | [] => jsn "**Fields requested:** All available fields for the transaction|n"
   | fields =>
       foldl (fun text f => text ++ js "- `" ++ f ++ js "`: Retrieves the " ++ f ++ jsn " field from the transaction|n")
         (jsn "**Fields requested:**|n") fields
   end) ++
  jsn "|n**What it does:**|nThis query fetches a single transaction by its ID and returns the specified fields. The `getTransaction` operation is a read operation that retrieves transaction data from the ResilientDB database.".

(** The explanation when the model fails. *)
Definition onFailure (query : str) (docs : list DocumentChunk) : str :=
  match docs with
  | top :: _ =>
      jsn "This GraphQL query retrieves transaction data.|n|nDocumentation: " ++
      substring (chunkText top) 0 400 ++ js "..."
  | [] =>
      js "This GraphQL query uses `" ++ queryName query ++ js "` to retrieve " ++
      coalesce (trim <$> fieldsMatch query) (js "data") ++
      js " from ResilientDB. The query structure suggests it's fetching transaction data by ID."
  end.

(** ** The service *)

Section service.
Context (showNum : num -> str).
(** The configuration of the model: its provider and name, and
    [env.LLM_ENABLE_LIVE_STATS]. *)
Context (llm : llmProvider) (llmModel : str) (enableLiveStats : bool).
Context (retrieveDocumentationContext retrieveSchemaContext retrieve :
           str -> RetrievalOptions -> result RetrievalResult).
Context (getMetrics : str -> result (option QueryExecutionMetrics)).
Context (generateCompletion : list LLMMessage -> LLMOptions -> result LLMResponse).

Definition complete (system user : str) (temperature : num) (maxTokens : Z) : result str :=
  result_map r_content
    (generateCompletion [Message System system; Message User user] (LOptions (Some temperature) (Some maxTokens) None)).

Definition questionSystemPrompt : str :=
  js "You are a helpful assistant that answers questions about GraphQL and ResilientDB using the provided documentation. Provide clear, concise answers based only on the documentation provided.".

Definition answerQuestion (trimmedQuery : str) : ExplanationResult :=
  let docs :=
    match retrieveDocumentationContext trimmedQuery (ROptions (Some 5%Z) (Some (dec 2 10)) None None (Some false)) with
    | Ok r => chunks r
    | Throw _ => []
    end in
  match docs with
  | [] => Explained (no_documentation trimmedQuery) trimmedQuery 0 false
  | _ =>
      let topChunks := slice docs 0 3 in
      let contextText := join (imap documentText topChunks) (nl ++ nl) in
      let answer :=
        match complete questionSystemPrompt
                (js "Question: " ++ trimmedQuery ++ jsn "|n|nDocumentation:|n" ++ contextText ++
                 jsn "|n|nAnswer the question using the documentation above. Be clear and concise.")
                (dec 7 10) 1000 with
        | Ok text => text
        | Throw _ => jsn "**Answer to your question:**|n|n" ++ mjoin (imap rawAnswer topChunks)
        end in
      Explained answer trimmedQuery (Z.of_nat (length docs)) false
  end.

(** [x || 'N/A'] *)
Definition or_na (x : option num) : str :=
  match x with Some n => if truthy_num n then showNum n else js "N/A" | None => js "N/A" end.

Definition resourceUsageStr (u : ResourceUsage) : str :=
  js "CPU: " ++ or_na (cpu u) ++ js "%, Memory: " ++ or_na (memory u) ++ js "MB, Network: " ++
  or_na (network u) ++ js "KB".

(** The statistics of the execution stored under the query's text. *)
Definition liveStatsOf (query : str) : option Prompts.liveStats :=
  match getMetrics query with
  | Ok (Some m) =>
      if bool_decide (ResLens.query m = query) then
        Some (LStats (Some (executionTime m)) (resourceUsageStr <$> resourceUsage m)
                (match resultSize m with
                 | Some n => if (n =? 0)%Z then None else Some (js "Result Size: " ++ str_of_Z n ++ js " items")
                 | None => None
                 end) None)
      else None
  | _ => None
  end.

Definition isLocalSmallModel : bool :=
  bool_decide (llm = LocalModel) && (includes llmModel (js "gpt2") || includes llmModel (js "distil")).
Definition isGemini : bool := bool_decide (llm = Gemini).
(** One of three sizes: small model, Gemini, others. *)
Definition sized {A} (small gemini other : A) : A :=
  if isLocalSmallModel then small else if isGemini then gemini else other.

(** [context.replace(/^Relevant Documentation Context:\s*\n*/i, '')] *)
Definition dropHeading (context : str) : str :=
  if is_prefix (js "relevant documentation context:") (toLowerCase context)
  then let t := drop 31 context in drop (run_length is_space t) t
  else context.

Definition smallPrompt (query documentationContext : str) : str :=
  let cleanContext := substring (trim (dropHeading documentationContext)) 0 400 in
  jsn "Question: What does this GraphQL query do?|n|nQuery: " ++ query ++ nl ++ nl ++
  (match cleanContext with [] => [] | _ => js "Documentation: " ++ cleanContext ++ nl ++ nl end) ++
  js "Answer: This query".

Definition explanation_of (query : str) (docs : list DocumentChunk) (answer : result str) : str :=
  match answer with
  | Throw _ => onFailure query docs
  | Ok text =>
      if isLocalSmallModel || isRepetitive text || isTooShort text || repeatsPrompt text then
        match docs with top :: rest => fromChunks query top rest | [] => fromQuery query end
      else text
  end.

(** The documentation and the schema chunks; both are dropped if either
    retrieval fails. *)
Definition retrieveBoth (query : str) (maxContextChunks : Z) (minSimilarity : num)
    : list DocumentChunk * list DocumentChunk :=
  match retrieveDocumentationContext query (ROptions (Some maxContextChunks) (Some minSimilarity) None None (Some false)),
        retrieveSchemaContext query (ROptions (Some (maxContextChunks / 2)%Z) (Some (dec 25 100)) None None (Some false)) with
  | Ok d, Ok s => (chunks d, chunks s)
  | _, _ => ([], [])
  end.

Definition executeExplain (query : str) (options : ExplanationOptions) : ExplanationResult :=
  let trimmedQuery := trim query in
  if negb (looksLikeQuery trimmedQuery) && negb (bool_decide (trimmedQuery = [])) then answerQuestion trimmedQuery
  else
    let detailed := coalesce (x_detailed options) true in
    let includeLiveStats := coalesce (x_includeLiveStats options) enableLiveStats in
    let '(docs, schemas) :=
      retrieveBoth query (coalesce (x_maxContextChunks options) (sized 2 5 10)%Z)
        (coalesce (x_minSimilarity options) (dec 3 10)) in
    let documentationContext :=
      formatForExplanation docs None (FOptions (Some (sized 300 1000 2000)%Z) None None None None) in
    let schemaContext :=
      match schemas with
      | [] => None
      | _ => Some (format schemas None (FOptions (Some (sized 150 500 1000)%Z) None None (Some Compact) None))
      end in
    let live := if includeLiveStats then liveStatsOf query else None in
    let answer :=
      if isLocalSmallModel
      then complete (js "Answer questions about GraphQL queries using the documentation provided.")
             (smallPrompt query documentationContext) (dec 3 10) 200
      else complete EXPLANATION_SYSTEM_PROMPT
             (if detailed then formatDetailedExplanationPrompt query documentationContext schemaContext
              else formatExplanationPrompt showNum (EContext query documentationContext schemaContext live))
             (dec 7 10) (if isGemini then 2000 else if detailed then 3000 else 1500)%Z in
    Explained (explanation_of query docs answer) query (Z.of_nat (length docs + length schemas))
      (bool_decide (is_Some live)).

Definition explainQuick (query : str) : result str :=
  match retrieve query (ROptions (Some 3%Z) (Some (dec 3 10)) None None None) with
  | Throw e => Throw e
  | Ok r =>
      let context :=
        match chunks r with
        | [] => None
        | cs => Some (format cs None (FOptions (Some 500%Z) None None (Some Compact) None))
        end in
      complete EXPLANATION_SYSTEM_PROMPT
        (jsn "Briefly explain this GraphQL query (2-3 sentences):|n|n" ++ graphql_block query ++
         when_str context (fun c => js "Context: " ++ c ++ nl ++ nl) ++ js "Provide a concise explanation.")
        (dec 7 10) 200
  end.

Definition explainWithContext (query context : str) (includeLiveStats : option bool) : result str :=
  let live := if coalesce includeLiveStats enableLiveStats then liveStatsOf query else None in
  complete EXPLANATION_SYSTEM_PROMPT (formatExplanationPrompt showNum (EContext query context None live))
    (dec 7 10) 1500.

Definition checkAvailability (llmAvailable vectorStore embeddingService : bool) : bool * bool * bool :=
  (llmAvailable, vectorStore && embeddingService, is_ok (getMetrics (js "test"))).
End service.

(** ** Lemmas *)

Lemma app_ne_l {A} (x y : list A) : x <> [] -> x ++ y <> [].
Proof. by destruct x. Qed.

Lemma explanation_of_ne llm m query docs answer : explanation_of llm m query docs answer <> [].
Proof.
  unfold explanation_of. destruct answer as [text|e].
  - destruct (_ || _) eqn:E.
    + destruct docs; unfold fromQuery, fromChunks, uses; apply app_ne_l, app_ne_l; vm_compute; done.
    + split_bools. unfold isTooShort in *. destruct text; [by vm_compute in H0|done].
  - unfold onFailure. destruct docs; apply app_ne_l; vm_compute; done.
Qed.

(** A retrieval that honours the limit it is given. *)
Definition limited (retrieve : str -> RetrievalOptions -> result RetrievalResult) : Prop :=
  forall q o r n, retrieve q o = Ok r -> r_limit o = Some n -> (0 <= n)%Z -> (Z.of_nat (length (chunks r)) <= n)%Z.

Lemma retrieveBoth_limited doc schema query m s :
  limited doc -> limited schema -> (0 <= m)%Z ->
  let '(d, c) := retrieveBoth doc schema query m s in
  (Z.of_nat (length d) <= m /\ Z.of_nat (length c) <= m / 2)%Z.
Proof.
  intros Hd Hs Hm. assert (0 <= m / 2)%Z by (apply Z.div_pos; lia). unfold retrieveBoth.
  destruct (doc _ _) as [d|] eqn:Ed; [|cbn; lia]. destruct (schema _ _) as [c|] eqn:Es; [|cbn; lia].
  split; [by eapply Hd|by eapply Hs].
Qed.

Lemma liveStatsOf_query showNum getMetrics query :
  is_Some (liveStatsOf showNum getMetrics query) ->
  exists m, getMetrics query = Ok (Some m) /\ ResLens.query m = query.
Proof.
  unfold liveStatsOf. destruct (getMetrics query) as [[m|]|]; [|by intros []..].
  case_bool_decide; [eauto|by intros []].
Qed.

(** ** The properties *)

(** Whatever retrieval, ResLens and the model do, an explanation is
    returned.  A question is answered under its trimmed text from at most
    five chunks; a query is explained under its own text, by at most the
    number of chunks asked for and half as many of the schema, with a text
    that is not empty, and with live statistics only if an execution of
    exactly this query was found. *)
Theorem executeExplain_sound showNum llm llmModel live doc schema getMetrics generate query options (m : Z)
    (Hdoc : limited doc) (Hschema : limited schema)
    (Hmax : x_maxContextChunks options = Some m) (Hm : (0 <= m)%Z) :
  let r := executeExplain showNum llm llmModel live doc schema getMetrics generate query options in
  if negb (looksLikeQuery (trim query)) && negb (bool_decide (trim query = []))
  then x_query r = trim query /\ (0 <= contextChunksUsed r <= 5)%Z /\ liveStatsIncluded r = false
  else x_query r = query /\ explanation r <> [] /\ (0 <= contextChunksUsed r <= m + m / 2)%Z /\
       (liveStatsIncluded r = true ->
        exists metrics, getMetrics query = Ok (Some metrics) /\ ResLens.query metrics = query).
Proof.
  intros r. unfold r, executeExplain. destruct (_ && _).
  - unfold answerQuestion. set (o := ROptions _ _ _ _ _).
    assert (Z.of_nat (length (match doc (trim query) o with Ok r => chunks r | Throw _ => [] end)) <= 5)%Z as Hl.
    { destruct (doc (trim query) o) eqn:E; [|cbn; lia]. by eapply Hdoc. }
    revert Hl. destruct (match doc (trim query) o with Ok r => chunks r | Throw _ => [] end); intros Hl; cbn.
    + split_and!; done || lia.
    + split_and!; done || (cbn in Hl; lia).
  - rewrite Hmax. cbn [coalesce].
    pose proof (retrieveBoth_limited doc schema query m (coalesce (x_minSimilarity options) (dec 3 10))
      Hdoc Hschema Hm) as Hb.
    destruct (retrieveBoth _ _ _ _ _) as [docs schemas]. cbn [x_query explanation contextChunksUsed liveStatsIncluded].
    split; [done|]. split; [apply explanation_of_ne|]. split; [lia|].
    rewrite bool_decide_eq_true. destruct (coalesce _ _); [apply liveStatsOf_query|by intros []].
Qed.

Definition demo_xoptions : ExplanationOptions := XOptions None (Some true) (Some 4%Z) None.
Definition down {A B C} (_ : A) (_ : B) : result C := Throw (js "down").

Lemma executeExplain_sound_witness :
  let r := executeExplain (fun _ => []) Openai (js "gpt") true down down (fun _ => Ok None) down
             (js "{ a }") demo_xoptions in
  x_query r = js "{ a }" /\ explanation r <> [] /\ (0 <= contextChunksUsed r <= 6)%Z.
Proof.
  destruct (executeExplain_sound (fun _ => []) Openai (js "gpt") true down down (fun _ => Ok None) down
    (js "{ a }") demo_xoptions 4) as (H1 & H2 & H3 & _); [done|done|reflexivity|lia|].
  split_and!; [exact H1|exact H2|apply H3|apply H3].
Defined.

(** An outage of the model is remembered: the text made up when the
    model fails is cached like an explanation, and for an hour every call
    for the query answers it without asking the model again. *)
Theorem outage_cached cacheKey stringifyOptions showNum llm llmModel live doc schema getMetrics e
    (s s1 : service ExplanationOptions) query options p (t0 t1 t2 : Z)
    (Hquery : looksLikeQuery (trim query) = true)
    (Httl : defaultTTL (Explanation.cache s) = 3600000%Z)
    (Hstart : explain cacheKey stringifyOptions t0 s query options = (s1, Fresh p))
    (Ht : (t2 <= t1 + 3600000)%Z) :
  let r := executeExplain showNum llm llmModel live doc schema getMetrics (fun _ _ => Throw e) query options in
  let s2 := settle cacheKey stringifyOptions t1 s1 (Execution p query options) (Ok r) in
  (exists docs, explanation r = onFailure query docs) /\
  explain cacheKey stringifyOptions t2 s2 query options = (s2, Hit r).
Proof.
  intros r s2. split.
  - unfold r, executeExplain. rewrite Hquery. cbn [negb andb].
    destruct (retrieveBoth _ _ _ _ _) as [docs schemas]. exists docs. cbn [explanation].
    by destruct (isLocalSmallModel llm llmModel).
  - assert (defaultTTL (Explanation.cache s1) = 3600000%Z) as Httl1.
    { revert Hstart. unfold explain. rewrite Hquery. unfold Cache.get.
      repeat case_match; intros [= <- <-]; simplify_eq/=; done. }
    unfold s2, settle. replace (cacheable _) with true by (symmetry; exact Hquery).
    unfold explain. rewrite Hquery. unfold trimmed, Cache.get, Cache.set. cbn.
    rewrite map_get_set_eq. cbn. rewrite Httl1.
    replace (t1 + 3600000 <? t2)%Z with false by (symmetry; apply Z.ltb_ge; lia). done.
Qed.

Lemma outage_cached_witness :
  let o := XOptions None None None None in
  let s1 := (explain (fun q _ => q) (fun _ => []) 0 new_service (js "{ a }") o).1 in
  let r := executeExplain (fun _ => []) Openai (js "gpt") false down down (fun _ => Ok None)
             (fun _ _ => Throw (js "503")) (js "{ a }") o in
  let s2 := settle (fun q _ => q) (fun _ => []) 10 s1 (Execution 0 (js "{ a }") o) (Ok r) in
  explain (fun q _ => q) (fun _ => []) 3600000 s2 (js "{ a }") o = (s2, Hit r).
Proof.
  intros o s1 r s2.
  apply (outage_cached (fun q _ => q) (fun _ => []) (fun _ => []) Openai (js "gpt") false down down (fun _ => Ok None)
    (js "503") new_service s1 (js "{ a }") o 0 0 10 3600000).
  - vm_compute. reflexivity.
  - reflexivity.
  - reflexivity.
  - lia.
Defined.

(** Live statistics are looked up under the query's text, but executions
    are stored under generated identifiers: without a middleware, and as long
    as no stored identifier itself looks like a query, no explanation of a
    query ever includes live statistics. *)
Theorem live_stats_never_found showNum llm llmModel live doc schema generate stringify parseDate fetchOne key h
    query options
    (Hids : forall x, x ∈ h -> looksLikeQuery (trim (c_id x)) = false)
    (Hquery : looksLikeQuery (trim query) = true) :
  let client := foldl (capture_one stringify) (ResLens.new_client None key) h in
  liveStatsIncluded
    (executeExplain showNum llm llmModel live doc schema
       (fun q => Ok (getMetrics parseDate fetchOne client q)) generate query options) = false.
Proof.
  intros client. unfold executeExplain. rewrite Hquery. cbn [negb andb].
  destruct (retrieveBoth _ _ _ _ _) as [docs schemas]. cbn [liveStatsIncluded].
  assert (getMetrics parseDate fetchOne client query = None) as Hn.
  { unfold client. rewrite captures_getMetrics. unfold last_capture.
    destruct (List.find _ (rev h)) as [x|] eqn:Ex; [|done]. exfalso.
    apply List.find_some in Ex as [Hx Ei]. apply bool_decide_eq_true in Ei.
    specialize (Hids x). rewrite Ei, Hquery in Hids.
    discriminate Hids. apply list_elem_of_In. by apply in_rev. }
  apply bool_decide_eq_false. unfold liveStatsOf. rewrite Hn. destruct (coalesce _ _); by intros [].
Qed.

Lemma live_stats_never_found_witness :
  liveStatsIncluded
    (executeExplain (fun _ => []) Openai (js "gpt") true down down
       (fun q => Ok (getMetrics (fun _ => 0%Z) (fun _ => Throw [])
          (foldl (capture_one (fun _ => [])) (ResLens.new_client None None)
             [Capture 0 (js "query_1_abc") (js "{ a }") (of_Z 5) true None]) q)) down
       (js "{ a }") (XOptions None (Some true) None None)) = false.
Proof.
  apply (live_stats_never_found (fun _ => []) Openai (js "gpt") true down down down (fun _ => []) (fun _ => 0%Z)
    (fun _ => Throw []) None [Capture 0 (js "query_1_abc") (js "{ a }") (of_Z 5) true None]).
  - intros x ->%list_elem_of_singleton. vm_compute. reflexivity.
  - vm_compute. reflexivity.
Defined.
