(* ===== verification/ApiServer.v ===== *)
(** * The HTTP API

    [HTTPServer] of src/ecosystem/ai-tools/mcp/graphq-llm/src/api/http-server.ts:
    the routing of requests to the explanation, optimization and efficiency
    services and the replies.  The services are arguments; the analyzer is the
    one of QueryAnalyzer.v.  A reply's body is the value that
    [JSON.stringify] serialises. *)

From S2P Require Import Prelude JsString JsArray JsNum Json ResLens QueryAnalyzer Efficiency Optimization Explanation.

(** A request: the path its URL parses to (the constructor [URL] may throw),
    and its body. *)
Record apiRequest := ApiRequest {
  a_method : str;
  a_path : result str;
  a_body : result str;
}.

(** The parts of the full analysis. *)
Record explanationPart := ExplanationPart {
  e_explanation : str;
  e_complexity : level;
  e_fieldCount : option Z;
  e_depth : option Z;
  e_recommendations : list str;
}.
Record optimizationPart := OptimizationPart { o_query : str; o_explanation : str; o_confidence : num }.
Record efficiencyPart := EfficiencyPart {
  f_score : Z;
  f_estimatedTime : str;
  f_resourceUsage : str;
  f_recommendations : list str;
  f_complexity : level;
  f_similarQueries : option (list SimilarQuery);
}.

Inductive body :=
| Error_ (message : str)
| HealthOk
| ExplainBody (e : ExplanationResult) (complexity : level) (fieldCount depth : Z)
| OptimizeBody (o : OptimizationResult)
| EfficiencyBody (e : EfficiencyEstimate) (complexity : level) (fieldCount depth : Z)
    (opportunities : list OptimizationOpportunity)
| AnalyzeBody (e : explanationPart) (o : list optimizationPart) (f : efficiencyPart).

(** What a request gets: an empty reply to a preflight, a reply, or none,
    when the handler's promise is rejected. *)
Inductive outcome :=
| Preflight
| Reply (status : Z) (b : body)
| Unhandled (e : str).

(** [{ query }] of the parsed body: [null] cannot be destructured. *)
Definition field_of (data : json) (name : str) : result (option json) :=
  match data with
  | JNull => Throw (js "Cannot destructure property 'query' of 'data' as it is null.")
  | _ => Ok (prop data name)
  end.

(** [flag ?? default], used as a boolean. *)
Definition flag (data : json) (name : str) (default : bool) : bool :=
  match prop data name with None | Some JNull => default | v => truthy v end.

Section server.
Context (JSON_parse : str -> result json) (showNum : num -> str).
(** The services: query, detailed, live statistics; query, similar queries;
    query, similar queries, live statistics. *)
Context (explain : str -> bool -> bool -> result ExplanationResult).
Context (optimize : str -> bool -> result OptimizationResult).
Context (estimate : str -> bool -> bool -> result EfficiencyEstimate).

Definition handleExplain (query : str) (data : json) : outcome :=
  match explain query (flag data (js "detailed") true) (flag data (js "includeLiveStats") false) with
  | Ok e =>
      let a := analyze query in
      Reply 200 (ExplainBody e (complexity a) (fieldCount a) (depth a))
  | Throw _ => Reply 500 (Error_ (js "Failed to generate explanation"))
  end.

Definition handleOptimize (query : str) (data : json) : outcome :=
  match optimize query (flag data (js "includeSimilarQueries") true) with
  | Ok o => Reply 200 (OptimizeBody o)
  | Throw _ => Reply 500 (Error_ (js "Failed to generate optimizations"))
  end.

Definition handleEfficiency (query : str) (data : json) : outcome :=
  match estimate query true (flag data (js "useLiveStats") false) with
  | Ok e =>
      let a := analyze query in
      Reply 200 (EfficiencyBody e (complexity a) (fieldCount a) (depth a) (opportunities a))
  | Throw _ => Reply 500 (Error_ (js "Failed to estimate efficiency"))
  end.

(** [x || 'N/A'] *)
Definition or_na (x : num) : str := if truthy_num x then showNum x else js "N/A".

Definition explanation_part (a : QueryAnalysis) (e : result ExplanationResult) : explanationPart :=
  match e with
  | Ok e => ExplanationPart (explanation e) (complexity a) (Some (fieldCount a)) (Some (depth a))
              (description <$> opportunities a)
  | Throw _ => ExplanationPart (js "Failed to generate explanation") (complexity a) None None []
  end.

(** A suggestion has no [optimizedQuery]. *)
Definition optimization_parts (o : result OptimizationResult) : list optimizationPart :=
  match o with
  | Ok o => (fun s => OptimizationPart (res_query o) (str_or (Some (reason s)) (Optimization.suggestion s)) (dec 8 10))
              <$> suggestions o
  | Throw _ => []
  end.

Definition efficiency_part (a : QueryAnalysis) (f : result EfficiencyEstimate) : efficiencyPart :=
  match f with
  | Ok f =>
      EfficiencyPart (efficiencyScore f) (showNum (estimatedExecutionTime f) ++ js "ms")
        (js "CPU: " ++ or_na (e_cpu (estimatedUsage f)) ++ js "%, Memory: " ++
         or_na (of_Z (e_memory (estimatedUsage f))) ++ js "MB")
        (coalesce (recommendations f) []) (complexity a) (similarQueries f)
  | Throw _ => EfficiencyPart 0 (js "Unknown") (js "Unknown") [] (complexity a) None
  end.

Definition handleAnalyze (query : str) : outcome :=
  let a := analyze query in
  Reply 200 (AnalyzeBody (explanation_part a (explain query true false)) (optimization_parts (optimize query true))
    (efficiency_part a (estimate query true false))).

Inductive endpoint := Explain | Optimize | Efficiency_ | Analyze.

Definition route (path : str) : option endpoint :=
  if bool_decide (path = js "/api/explanations/explain") then Some Explain
  else if bool_decide (path = js "/api/optimizations/optimize") then Some Optimize
  else if bool_decide (path = js "/api/efficiency/estimate") then Some Efficiency_
  else if bool_decide (path = js "/api/analyze") then Some Analyze
  else None.

(** The common start of the four handlers: a query is a non-empty string. *)
Definition handle (ep : endpoint) (data : json) : result outcome :=
  match field_of data (js "query") with
  | Throw e => Throw e
  | Ok (Some (JStr (c :: q))) =>
      Ok match ep with
         | Explain => handleExplain (c :: q) data
         | Optimize => handleOptimize (c :: q) data
         | Efficiency_ => handleEfficiency (c :: q) data
         | Analyze => handleAnalyze (c :: q)
         end
  | Ok _ => Ok (Reply 400 (Error_ (js "Query is required")))
  end.

(** The body of the [try] block. *)
Definition dispatch (r : apiRequest) (path : str) : result outcome :=
  if bool_decide (a_method r = js "POST") then
    match a_body r with
    | Throw e => Throw e
    | Ok text =>
        match JSON_parse text with
        | Throw e => Throw e
        | Ok data =>
            match route path with
            | Some ep => handle ep data
            | None => Ok (Reply 404 (Error_ (js "Endpoint not found")))
            end
        end
    end
  else if bool_decide (a_method r = js "GET") && bool_decide (path = js "/health") then Ok (Reply 200 HealthOk)
  else Ok (Reply 405 (Error_ (js "Method not allowed"))).

(** The URL is parsed before the [try] block. *)
Definition handleRequest (r : apiRequest) : outcome :=
  if bool_decide (a_method r = js "OPTIONS") then Preflight
  else
    match a_path r with
    | Throw e => Unhandled e
    | Ok path =>
        match dispatch r path with
        | Ok o => o
        | Throw e => Reply 500 (Error_ e)
        end
    end.
End server.

(** ** Lemmas *)

(** A POST with a body that parses to an object with a query. *)
Definition asks (JSON_parse : str -> result json) (r : apiRequest) (ep : endpoint) (query : str) (data : json) : Prop :=
  a_method r = js "POST" /\ (exists path, a_path r = Ok path /\ route path = Some ep) /\
  (exists text, a_body r = Ok text /\ JSON_parse text = Ok data) /\
  prop data (js "query") = Some (JStr query) /\ query <> [].

(** A reply with one of the statuses of the API; [ok] holds of a success. *)
Definition replies (o : outcome) (ok : body -> Prop) : Prop :=
  exists status b, o = Reply status b /\ status ∈ [200; 400; 404; 405; 500]%Z /\ (status = 200%Z -> ok b).

Lemma replies_error status e ok :
  status ∈ [400; 404; 405; 500]%Z -> replies (Reply status (Error_ e)) ok.
Proof.
  intros H. eexists _, _. split; [done|]. split; [set_solver|]. intros ->. exfalso. set_solver.
Qed.

Lemma replies_ok b (ok : body -> Prop) : ok b -> replies (Reply 200 b) ok.
Proof. intros H. eexists _, _. split; [done|]. split; [set_solver|done]. Qed.

Lemma handle_replies showNum explain optimize estimate ep data (ok : body -> Prop) :
  (forall query b, prop data (js "query") = Some (JStr query) -> query <> [] -> ok b) ->
  match handle showNum explain optimize estimate ep data with
  | Ok o => replies o ok
  | Throw _ => True
  end.
Proof.
  intros Hok. assert (forall e, replies (Reply 400 (Error_ e)) ok) as H400 by (intros; apply replies_error; set_solver).
  assert (forall e, replies (Reply 500 (Error_ e)) ok) as H500 by (intros; apply replies_error; set_solver).
  unfold handle. destruct (field_of data (js "query")) as [v|] eqn:E; [|done].
  assert (prop data (js "query") = v) as Hv by (unfold field_of in E; destruct data; by simplify_eq).
  destruct v as [[| | |[|c q]| |]|]; try done.
  assert (forall b, ok b) as Hb by (intros b; by eapply Hok).
  destruct ep; cbn; unfold handleExplain, handleOptimize, handleEfficiency, handleAnalyze;
    repeat case_match; auto using replies_ok.
Qed.

(** ** The properties *)

(** Every request whose URL parses is answered once: a preflight with an
    empty reply, any other with a status of 200, 400, 404, 405 or 500; a 200
    is the health check or the answer to a POST on one of the four
    endpoints with a query; and the full analysis of a query succeeds even
    when all three services fail. *)
Theorem api_replies JSON_parse showNum explain optimize estimate r path
    (Hpath : a_path r = Ok path) :
  let o := handleRequest JSON_parse showNum explain optimize estimate r in
  (o = Preflight /\ a_method r = js "OPTIONS" \/
   replies o (fun b => b = HealthOk \/ exists ep query data, asks JSON_parse r ep query data)) /\
  (forall query data, asks JSON_parse r Analyze query data ->
     exists e l f, o = Reply 200 (AnalyzeBody e l f) /\
       (is_ok (explain query true false) = false -> e_explanation e = js "Failed to generate explanation") /\
       (is_ok (optimize query true) = false -> l = []) /\
       (is_ok (estimate query true false) = false -> f_score f = 0%Z)).
Proof.
  intros o. split.
  - unfold o, handleRequest. rewrite Hpath. case_bool_decide as Ho; [by left|right].
    unfold dispatch. case_bool_decide as Hp.
    + destruct (a_body r) as [text|] eqn:Eb; [|apply replies_error; set_solver].
      destruct (JSON_parse text) as [data|] eqn:Ej; [|apply replies_error; set_solver].
      destruct (route path) as [ep|] eqn:Er; [|apply replies_error; set_solver].
      pose proof (handle_replies showNum explain optimize estimate ep data
        (fun b => b = HealthOk \/ exists ep query data, asks JSON_parse r ep query data)) as H.
      destruct (handle _ _ _ _ ep data); [|apply replies_error; set_solver].
      apply H. intros query b Hq Hne. right. exists ep, query, data. repeat split; eauto.
    + destruct (_ && _); [apply replies_ok; by left|apply replies_error; set_solver].
  - intros query data (Hm & (p & Hp & Hr) & (text & Hb & Hj) & Hq & Hne).
    rewrite Hpath in Hp. injection Hp as <-.
    assert (field_of data (js "query") = Ok (Some (JStr query))) as Hf
      by (unfold field_of; destruct data; try discriminate Hq; by rewrite Hq).
    unfold o, handleRequest, dispatch. rewrite Hm, Hpath. cbn [bool_decide].
    rewrite bool_decide_eq_false_2, bool_decide_eq_true_2 by done.
    rewrite Hb, Hj, Hr. unfold handle. rewrite Hf. destruct query as [|c q]; [done|].
    eexists _, _, _. split; [done|]. split_and!; [by destruct (explain _ _ _)|by destruct (optimize _ _)|by destruct (estimate _ _ _)].
Qed.

Definition demo_request : apiRequest :=
  ApiRequest (js "POST") (Ok (js "/api/analyze")) (Ok (js "{}")).

Lemma api_replies_witness :
  exists e l f,
    handleRequest (fun _ => Ok (JObj [(js "query", JStr (js "{ a }"))])) (fun _ => []) (fun _ _ _ => Throw [])
      (fun _ _ => Throw []) (fun _ _ _ => Throw []) demo_request = Reply 200 (AnalyzeBody e l f).
Proof.
  destruct (api_replies (fun _ => Ok (JObj [(js "query", JStr (js "{ a }"))])) (fun _ => []) (fun _ _ _ => Throw [])
    (fun _ _ => Throw []) (fun _ _ _ => Throw []) demo_request (js "/api/analyze") eq_refl) as [_ H].
  destruct (H (js "{ a }") (JObj [(js "query", JStr (js "{ a }"))])) as (e & l & f & E & _).
  - split; [reflexivity|]. split; [exists (js "/api/analyze"); split; reflexivity|].
    split; [exists (js "{}"); split; reflexivity|]. split; [reflexivity|discriminate].
  - exists e, l, f. exact E.
Defined.

(** The URL is built from the Host header outside the [try] block: a
    request whose URL does not parse gets no reply at all, whatever else it
    says, and the handler's promise is rejected. *)
Theorem bad_url_unanswered JSON_parse showNum explain optimize estimate r e
    (Hurl : a_path r = Throw e) (Hmethod : a_method r <> js "OPTIONS") :
  handleRequest JSON_parse showNum explain optimize estimate r = Unhandled e.
Proof. unfold handleRequest. rewrite Hurl. by rewrite bool_decide_eq_false_2. Qed.

Lemma bad_url_unanswered_witness :
  handleRequest (fun _ => Throw []) (fun _ => []) (fun _ _ _ => Throw []) (fun _ _ => Throw []) (fun _ _ _ => Throw [])
    (ApiRequest (js "GET") (Throw (js "Invalid URL")) (Ok [])) = Unhandled (js "Invalid URL").
Proof. apply bad_url_unanswered; [reflexivity|discriminate]. Defined.
