(* ===== verification/McpServer.v ===== *)
(** * The MCP server

    [MCPServer] of src/ecosystem/ai-tools/mcp/graphq-llm/src/mcp/server.ts: the
    tools and resources it lists, and the handlers of tool calls and resource
    reads.  The services are arguments.  The descriptions of the tools are
    left out of the listing; a result is the value that is serialised, or a
    text. *)

From S2P Require Import Prelude JsString JsArray JsNum Json ResLens LiveStats QueryAnalyzer Efficiency.
From S2P Require Import Optimization GraphqlClient Explanation.

(** ** Listings *)

(** A tool with its parameters and those that are required. *)
Record tool := Tool { t_name : str; t_properties : list str; t_required : list str }.

Definition tools : list tool :=
  [Tool (js "check_connection") [] [];
   Tool (js "execute_graphql_query") [js "query"; js "variables"; js "operationName"] [js "query"];
   Tool (js "introspect_schema") [] [];
   Tool (js "get_query_metrics") [js "queryId"] [js "queryId"];
   Tool (js "validate_query") [js "query"] [js "query"];
   Tool (js "estimate_query_efficiency") [js "query"; js "includeSimilarQueries"; js "useLiveStats"] [js "query"];
   Tool (js "get_live_stats") [js "queryPattern"] [];
   Tool (js "explain_query") [js "query"; js "detailed"; js "includeLiveStats"] [js "query"];
   Tool (js "optimize_query") [js "query"; js "includeSimilarQueries"] [js "query"]].

Definition resources : list str :=
  [js "resilientdb://schema"; js "reslens://metrics"; js "reslens://live-stats"; js "resilientdb://connection-status"].

(** ** Results *)

Inductive payload :=
| Text (s : str)
| ConnectionJson (c : connection)
| ResultJson (r : option json)
| SchemaJson (s : SchemaContext)
| MetricsJson (m : QueryExecutionMetrics)
| ValidationJson (v : bool * option (list str))
| EstimateJson (e : EfficiencyEstimate)
| StatsJson (s : LiveStats) (recentQueries : option (list QueryExecutionMetrics))
| ExplainJson (e : ExplanationResult)
| OptimizeJson (o : OptimizationResult)
| RecentJson (l : list QueryExecutionMetrics).

Record toolResult := ToolResult { t_content : payload; isError : bool }.

Definition fine (p : payload) : result toolResult := Ok (ToolResult p false).

(** [v ?? default], used as a boolean. *)
Definition flag (args : jsmap str json) (name : str) (default : bool) : bool :=
  match map_get args name with None | Some JNull => default | v => truthy v end.

(** ** Texts *)

Definition missing_arguments (name : str) : str :=
  js "Error: Missing arguments for tool '" ++ name ++
  jsn "'.|n|nThis tool requires arguments but none were provided.|nPlease check the tool's input schema and provide the required parameters.|n|nTool: " ++
  name ++ jsn "|nSuggestion: Review the tool description for required parameters.".

Definition invalid_query : str :=
  let dq := ["034"%char] in
  jsn "Error: Missing or invalid 'query' parameter.|n|nThis tool requires a valid GraphQL query string.|nPlease provide a properly formatted GraphQL query.|n|nTool: execute_graphql_query|nRequired parameter: query (string)|nExample: { " ++
  dq ++ js "query" ++ dq ++ js ": " ++ dq ++ js "{ getTransaction(id: " ++ dq ++ js "123" ++ dq ++ js ") { asset } }" ++ dq ++
  jsn " }|nSuggestion: Check your query syntax and ensure it's a valid GraphQL query.".

Definition missing_queryId : str :=
  jsn "Error: Missing required parameter 'queryId'.|n|nThis tool requires a query ID to retrieve metrics.|nPlease provide a valid query ID that was returned from a previous query execution.|n|nTool: get_query_metrics|nRequired parameter: queryId (string)|nSuggestion: Use a query ID from a previous execute_graphql_query call.".

Definition no_metrics (queryId : str) : str :=
  js "No metrics found for query ID: " ++ queryId ++
  jsn "|n|nThis query ID does not exist in ResLens metrics storage.|nPossible reasons:|n- The query was never executed|n- The query ID is incorrect|n- ResLens is not capturing metrics for this query|n- ResLens API is not configured or unavailable|n|nQuery ID: " ++
  queryId ++ jsn "|nSuggestion: Verify the query ID or check if ResLens is properly configured.".

Definition unknown_tool (name : str) : str :=
  js "Error: Unknown tool '" ++ name ++
  jsn "'.|n|nThis tool is not recognized or not available.|nPlease check the list of available tools using the list_tools command.|n|nTool requested: " ++
  name ++ jsn "|nSuggestion: Verify the tool name spelling or check available tools.".

Definition advice (e : str) : str :=
  jsn "|n|nSuggestion: " ++
  if includes e (js "connection") || includes e (js "ECONNREFUSED")
  then js "Check if ResilientDB is running and accessible. Use 'check_connection' tool to verify connectivity."
  else if includes e (js "syntax") || includes e (js "parse")
  then js "Validate your query syntax using the 'validate_query' tool before execution."
  else if includes e (js "authentication") || includes e (js "401") || includes e (js "403")
  then js "Check your API key and authentication credentials."
  else js "Review the tool's requirements and ensure all parameters are correctly formatted.".

Section server.
(** [JSON.stringify(args, null, 2)], and the stack trace that is added in
    development mode. *)
Context (stringify : jsmap str json -> str) (stack : str -> str).
(** The services.  A query that is not a string goes to them unchecked: it is
    an arbitrary value here. *)
Context (checkConnection : result connection).
Context (executeQuery : GraphQLQuery -> result (option json)).
Context (introspectSchema : result SchemaContext).
Context (getMetrics : str -> result (option QueryExecutionMetrics)).
Context (validateQuery : option json -> result (bool * option (list str))).
Context (estimate : option json -> bool -> bool -> result EfficiencyEstimate).
Context (liveStats : LiveStats) (recentMatching : str -> result (list QueryExecutionMetrics)).
Context (explain : option json -> bool -> bool -> result ExplanationResult).
Context (optimize : option json -> bool -> result OptimizationResult).
Context (getRecentQueries : Z -> result (list QueryExecutionMetrics)).

Definition noArgTools : list str := [js "check_connection"; js "introspect_schema"].

Definition execute_graphql_query (args : jsmap str json) : result toolResult :=
  match map_get args (js "query") with
  | Some (JStr (c :: q)) =>
      match executeQuery (GQuery (c :: q) (map_get args (js "variables")) (as_str (map_get args (js "operationName")))) with
      | Ok r => fine (ResultJson r)
      | Throw e => Throw e
      end
  | _ => Ok (ToolResult (Text invalid_query) true)
  end.

(** The identifier is a string. *)
Definition get_query_metrics (args : jsmap str json) : result toolResult :=
  match as_str (map_get args (js "queryId")) with
  | Some (c :: id) =>
      match getMetrics (c :: id) with
      | Ok (Some m) => fine (MetricsJson m)
      | Ok None => Ok (ToolResult (Text (no_metrics (c :: id))) true)
      | Throw e => Throw e
      end
  | _ => Ok (ToolResult (Text missing_queryId) true)
  end.

Definition get_live_stats (args : jsmap str json) : result toolResult :=
  match as_str (map_get args (js "queryPattern")) with
  | Some (c :: p) =>
      match recentMatching (c :: p) with
      | Ok l => fine (StatsJson liveStats (Some l))
      | Throw e => Throw e
      end
  | _ => fine (StatsJson liveStats None)
  end.

Inductive toolName :=
| CheckConnection | ExecuteQuery | IntrospectSchema | GetQueryMetrics | ValidateQuery
| EstimateEfficiency | GetLiveStats | ExplainQuery | OptimizeQuery.

Definition tool_of (name : str) : option toolName :=
  if bool_decide (name = js "check_connection") then Some CheckConnection
  else if bool_decide (name = js "execute_graphql_query") then Some ExecuteQuery
  else if bool_decide (name = js "introspect_schema") then Some IntrospectSchema
  else if bool_decide (name = js "get_query_metrics") then Some GetQueryMetrics
  else if bool_decide (name = js "validate_query") then Some ValidateQuery
  else if bool_decide (name = js "estimate_query_efficiency") then Some EstimateEfficiency
  else if bool_decide (name = js "get_live_stats") then Some GetLiveStats
  else if bool_decide (name = js "explain_query") then Some ExplainQuery
  else if bool_decide (name = js "optimize_query") then Some OptimizeQuery
  else None.

(** The [switch]; without arguments only the two tools that need none get
    here, so the tests for missing arguments inside it never succeed. *)
Definition run_tool (t : toolName) (args : jsmap str json) : result toolResult :=
  match t with
  | CheckConnection => match checkConnection with Ok c => fine (ConnectionJson c) | Throw e => Throw e end
  | ExecuteQuery => execute_graphql_query args
  | IntrospectSchema => match introspectSchema with Ok s => fine (SchemaJson s) | Throw e => Throw e end
  | GetQueryMetrics => get_query_metrics args
  | ValidateQuery =>
      match validateQuery (map_get args (js "query")) with Ok v => fine (ValidationJson v) | Throw e => Throw e end
  | EstimateEfficiency =>
      match estimate (map_get args (js "query")) (flag args (js "includeSimilarQueries") true)
              (flag args (js "useLiveStats") false) with
      | Ok e => fine (EstimateJson e)
      | Throw e => Throw e
      end
  | GetLiveStats => get_live_stats args
  | ExplainQuery =>
      match explain (map_get args (js "query")) (flag args (js "detailed") false)
              (flag args (js "includeLiveStats") false) with
      | Ok e => fine (ExplainJson e)
      | Throw e => Throw e
      end
  | OptimizeQuery =>
      match optimize (map_get args (js "query")) (flag args (js "includeSimilarQueries") true) with
      | Ok o => fine (OptimizeJson o)
      | Throw e => Throw e
      end
  end.

Definition detailedError (name : str) (args : option (jsmap str json)) (e : str) : str :=
  js "Error executing tool '" ++ name ++ js "': " ++ e ++
  (match args with
   | Some a => jsn "|n|nContext:|nTool: " ++ name ++ jsn "|nArguments provided: " ++ stringify a
   | None => []
   end) ++
  advice e ++ stack e.

Definition callTool (name : str) (args : option (jsmap str json)) : toolResult :=
  match args with
  | None =>
      if bool_decide (name ∈ noArgTools) then
        match tool_of name with
        | Some t => match run_tool t [] with Ok r => r | Throw e => ToolResult (Text (detailedError name args e)) true end
        | None => ToolResult (Text (unknown_tool name)) true
        end
      else ToolResult (Text (missing_arguments name)) true
  | Some a =>
      match tool_of name with
      | Some t => match run_tool t a with Ok r => r | Throw e => ToolResult (Text (detailedError name args e)) true end
      | None => ToolResult (Text (unknown_tool name)) true
      end
  end.

(** ** Resources *)

(** The contents ([None]: none) and whether it is an error. *)
Definition readResource (uri : str) : option payload * bool :=
  let answer {A} (f : A -> payload) (r : result A) : option payload * bool :=
    match r with
    | Ok a => (Some (f a), false)
    | Throw e => (Some (Text (js "Error reading resource '" ++ uri ++ js "': " ++ e)), true)
    end in
  if bool_decide (uri = js "resilientdb://schema") then answer SchemaJson introspectSchema
  else if bool_decide (uri = js "reslens://metrics") then answer RecentJson (getRecentQueries 10)
  else if bool_decide (uri = js "reslens://live-stats") then (Some (StatsJson liveStats None), false)
  else if bool_decide (uri = js "resilientdb://connection-status") then answer ConnectionJson checkConnection
  else (None, true).
End server.

(** ** The life of the server *)

(** [start] and [stop] start and stop the polling of the live statistics. *)
Definition start (s : LiveStatsService) : LiveStatsService := startPolling s.
Definition stop (s : LiveStatsService) : LiveStatsService := stopPolling s.

(** ** Lemmas *)

Lemma tool_of_listed name : is_Some (tool_of name) <-> name ∈ t_name <$> tools.
Proof.
  unfold tool_of. cbn [tools fmap list_fmap t_name]. rewrite !elem_of_cons, elem_of_nil.
  repeat case_bool_decide; split; intros H'; naive_solver.
Qed.

Lemma detailedError_includes stringify stack name args e :
  includes (detailedError stringify stack name args e) e = true /\
  includes (detailedError stringify stack name args e) name = true.
Proof.
  unfold detailedError. split; apply includes_spec.
  - eexists (js "Error executing tool '" ++ name ++ js "': "), _. rewrite <- !app_assoc. reflexivity.
  - eexists (js "Error executing tool '"), _. reflexivity.
Qed.

(** ** The properties *)

Section properties.
Context (stringify : jsmap str json -> str) (stack : str -> str).
Context (checkConnection : result connection).
Context (executeQuery : GraphQLQuery -> result (option json)).
Context (introspectSchema : result SchemaContext).
Context (getMetrics : str -> result (option QueryExecutionMetrics)).
Context (validateQuery : option json -> result (bool * option (list str))).
Context (estimate : option json -> bool -> bool -> result EfficiencyEstimate).
Context (liveStats : LiveStats) (recentMatching : str -> result (list QueryExecutionMetrics)).
Context (explain : option json -> bool -> bool -> result ExplanationResult).
Context (optimize : option json -> bool -> result OptimizationResult).
Context (getRecentQueries : Z -> result (list QueryExecutionMetrics)).

Local Abbreviation callTool' := (callTool stringify stack checkConnection executeQuery introspectSchema getMetrics
  validateQuery estimate liveStats recentMatching explain optimize).
Local Abbreviation run_tool' := (run_tool checkConnection executeQuery introspectSchema getMetrics validateQuery
  estimate liveStats recentMatching explain optimize).

(** Listings and handlers agree.  A tool call with arguments is refused
    as unknown exactly when the tool is not listed; a listed tool gives what
    its service gives, and a failure of the service becomes an error result
    whose text has the message and the tool's name.  A resource has contents
    exactly when it is listed. *)
Theorem mcp_listings_served name a uri :
  (name ∉ t_name <$> tools ->
   callTool' name (Some a) = ToolResult (Text (unknown_tool name)) true) /\
  (name ∈ t_name <$> tools ->
   exists t, tool_of name = Some t /\
     match run_tool' t a with
     | Ok r => callTool' name (Some a) = r
     | Throw e => exists text, callTool' name (Some a) = ToolResult (Text text) true /\
         includes text e = true /\ includes text name = true
     end) /\
  (is_Some (readResource checkConnection introspectSchema liveStats getRecentQueries uri).1 <-> uri ∈ resources).
Proof.
  unfold callTool. split_and!.
  - intros Hn. destruct (tool_of name) eqn:E; [|done]. exfalso. apply Hn, tool_of_listed. by rewrite E.
  - intros [t Ht]%tool_of_listed. exists t. split; [done|]. rewrite Ht.
    destruct (run_tool _ _ _ _ _ _ _ _ _ _ t a) as [r|e]; [done|].
    eexists. split; [done|]. apply detailedError_includes.
  - unfold readResource, resources. rewrite !elem_of_cons, elem_of_nil.
    repeat case_bool_decide; destruct introspectSchema, (getRecentQueries 10), checkConnection; cbn;
      split; intros H'; first [by eauto|naive_solver].
Qed.

(** [get_live_stats] requires no parameter, but a call of it without
    arguments is refused. *)
Lemma live_stats_needs_arguments :
  Tool (js "get_live_stats") [js "queryPattern"] [] ∈ tools /\
  callTool' (js "get_live_stats") None =
    ToolResult (Text (missing_arguments (js "get_live_stats"))) true.
Proof.
  split; [|reflexivity]. unfold tools. do 6 right. by left.
Qed.
End properties.
