(* ===== verification/Toast.v ===== *)
(** * Toast notifications of the ResLens dashboard

    src/ecosystem/monitoring/reslens/src/hooks/use-toast.ts: the reducer with
    its removal timers, [dispatch] and [toast].  The module-level variables
    ([memoryState], [toastTimeouts], [count], [listeners]) are the state;
    React nodes are strings, and a listener is a number with the states it
    was given. *)

From S2P Require Import Prelude JsString JsArray.

Definition TOAST_LIMIT : nat := 1.
Definition TOAST_REMOVE_DELAY : Z := 1000000.
Definition MAX_SAFE_INTEGER : Z := 9007199254740991.

Record ToasterToast := Toast {
  id : str;
  title : option str;
  description : option str;
  open : bool;
}.

(** [Partial<ToasterToast>] *)
Record PartialToast := PToast {
  p_id : option str;
  p_title : option str;
  p_description : option str;
  p_open : option bool;
}.

Definition or_else {A} (x y : option A) : option A := match x with Some _ => x | None => y end.

(** [{ ...t, ...p }] *)
Definition spread (t : ToasterToast) (p : PartialToast) : ToasterToast :=
  Toast (coalesce (p_id p) (id t)) (or_else (p_title p) (title t))
    (or_else (p_description p) (description t)) (coalesce (p_open p) (open t)).

Inductive Action :=
| ADD_TOAST (toast : ToasterToast)
| UPDATE_TOAST (toast : PartialToast)
| DISMISS_TOAST (toastId : option str)
| REMOVE_TOAST (toastId : option str).

(** [toastTimeouts] keeps the delay of each timer. *)
Definition addToRemoveQueue (timeouts : jsmap str Z) (toastId : str) : jsmap str Z :=
  if map_has timeouts toastId then timeouts else map_set timeouts toastId TOAST_REMOVE_DELAY.

Definition close_toast (t : ToasterToast) : ToasterToast := Toast (id t) (title t) (description t) false.

(** The new toasts and timers; an empty [toastId] is falsy. *)
Definition reducer (toasts : list ToasterToast) (timeouts : jsmap str Z) (action : Action)
    : list ToasterToast * jsmap str Z :=
  match action with
  | ADD_TOAST t => (take TOAST_LIMIT (t :: toasts), timeouts)
  | UPDATE_TOAST p =>
      ((fun t => if bool_decide (p_id p = Some (id t)) then spread t p else t) <$> toasts, timeouts)
  | DISMISS_TOAST toastId =>
      ((fun t => if bool_decide (toastId = Some (id t)) || bool_decide (toastId = None)
                 then close_toast t else t) <$> toasts,
       match toastId with
       | Some (c :: i) => addToRemoveQueue timeouts (c :: i)
       | _ => foldl addToRemoveQueue timeouts (id <$> toasts)
       end)
  | REMOVE_TOAST None => ([], timeouts)
  | REMOVE_TOAST (Some i) => (filterb (fun t => negb (bool_decide (id t = i))) toasts, timeouts)
  end.

Record state := State {
  memoryState : list ToasterToast;
  toastTimeouts : jsmap str Z;
  count : Z;
  listeners : list nat;
}.

Definition initial : state := State [] [] 0 [].

(** The new state, and the listeners called with it. *)
Definition dispatch (s : state) (action : Action) : state * list (nat * list ToasterToast) :=
  let '(toasts, timeouts) := reducer (memoryState s) (toastTimeouts s) action in
  (State toasts timeouts (count s) (listeners s), (fun l => (l, toasts)) <$> listeners s).

Definition genId (s : state) : state * str :=
  let c := ((count s + 1) mod MAX_SAFE_INTEGER)%Z in
  (State (memoryState s) (toastTimeouts s) c (listeners s), str_of_Z c).

(** [toast(props)] *)
Definition toast (s : state) (title description : option str) : state * str :=
  let '(s1, i) := genId s in
  ((dispatch s1 (ADD_TOAST (Toast i title description true))).1, i).

(** The methods of the object [toast] returns. *)
Definition update (s : state) (i : str) (props : PartialToast) : state :=
  (dispatch s (UPDATE_TOAST (PToast (Some i) (p_title props) (p_description props) (p_open props)))).1.
Definition dismiss (s : state) (i : option str) : state := (dispatch s (DISMISS_TOAST i)).1.

(** [onOpenChange] of a toast *)
Definition onOpenChange (s : state) (i : str) (o : bool) : state := if o then s else dismiss s (Some i).

(** A removal timer fires. *)
Definition on_timeout (s : state) (i : str) : state :=
  let s1 := State (memoryState s) (map_delete (toastTimeouts s) i) (count s) (listeners s) in
  (dispatch s1 (REMOVE_TOAST (Some i))).1.

(** The effect of [useToast] and its cleanup. *)
Definition subscribe (s : state) (l : nat) : state :=
  State (memoryState s) (toastTimeouts s) (count s) (listeners s ++ [l]).
Fixpoint remove_first (l : nat) (ls : list nat) : list nat :=
  match ls with [] => [] | x :: ls' => if (x =? l)%nat then ls' else x :: remove_first l ls' end.
Definition unsubscribe (s : state) (l : nat) : state :=
  State (memoryState s) (toastTimeouts s) (count s) (remove_first l (listeners s)).

(** ** Reachable states

    [update] is used to change the text; it does not touch [open]. *)

Inductive reachable : state -> Prop :=
| reach_initial : reachable initial
| reach_toast s t d : reachable s -> reachable (toast s t d).1
| reach_update s i t d : reachable s -> reachable (update s i (PToast None t d None))
| reach_dismiss s i : reachable s -> reachable (dismiss s i)
| reach_timeout s i : reachable s -> map_has (toastTimeouts s) i = true -> reachable (on_timeout s i)
| reach_subscribe s l : reachable s -> reachable (subscribe s l)
| reach_unsubscribe s l : reachable s -> reachable (unsubscribe s l).

Record toasts_ok (s : state) : Prop := {
  ok_limit : length (memoryState s) <= TOAST_LIMIT;
  ok_ids t : t ∈ memoryState s -> id t <> [];
  ok_closed t : t ∈ memoryState s -> open t = false -> map_has (toastTimeouts s) (id t) = true;
  ok_timers : map_wf (toastTimeouts s);
}.

(** ** Lemmas *)

Lemma map_has_true {V} (m : jsmap str V) k : map_has m k = true <-> is_Some (map_get m k).
Proof. unfold map_has. apply bool_decide_eq_true. Qed.

Lemma addToRemoveQueue_has m i j :
  map_has (addToRemoveQueue m i) j = true <-> j = i \/ map_has m j = true.
Proof.
  unfold addToRemoveQueue. destruct (map_has m i) eqn:E; [naive_solver|].
  rewrite !map_has_true. destruct (decide (i = j)) as [->|Hne].
  - rewrite map_get_set_eq. split; [by left|by eexists].
  - rewrite map_get_set_ne by done. naive_solver.
Qed.

Lemma addToRemoveQueue_wf m i : map_wf m -> map_wf (addToRemoveQueue m i).
Proof. unfold addToRemoveQueue. case_match; auto with resdb. Qed.

Lemma queue_all_has m l j :
  map_has (foldl addToRemoveQueue m l) j = true <-> j ∈ l \/ map_has m j = true.
Proof.
  revert m. induction l as [|i l IH]; intros m; cbn; [set_solver|].
  rewrite IH, addToRemoveQueue_has, elem_of_cons. naive_solver.
Qed.

Lemma queue_all_wf m l : map_wf m -> map_wf (foldl addToRemoveQueue m l).
Proof. revert m. induction l as [|i l IH]; intros m Hm; cbn; [done|]. by apply IH, addToRemoveQueue_wf. Qed.

Lemma dismiss_ok s i : toasts_ok s -> toasts_ok (dismiss s i).
Proof.
  intros [Hl Hi Hc Ht]. unfold dismiss, dispatch. cbn [reducer fst].
  assert (forall j, map_has (toastTimeouts s) j = true -> map_has (match i with
     | Some (c :: k) => addToRemoveQueue (toastTimeouts s) (c :: k)
     | _ => foldl addToRemoveQueue (toastTimeouts s) (id <$> memoryState s) end) j = true) as Hkeep.
  { intros j Hj. repeat case_match; rewrite ?addToRemoveQueue_has, ?queue_all_has; by right. }
  constructor; cbn [memoryState toastTimeouts].
  - by rewrite length_fmap.
  - intros t (u & -> & Hu)%list_elem_of_fmap. specialize (Hi u Hu). by repeat case_match.
  - intros t (u & -> & Hu)%list_elem_of_fmap Ho. specialize (Hi u Hu).
    destruct (bool_decide (i = Some (id u)) || bool_decide (i = None)) eqn:E.
    + cbn [close_toast id]. apply orb_true_iff in E as [E|E]; apply bool_decide_eq_true in E; subst i.
      * destruct (id u) eqn:Eid; [done|]. apply addToRemoveQueue_has. by left.
      * apply queue_all_has. left. apply list_elem_of_fmap. by exists u.
    + apply Hkeep. by apply Hc.
  - repeat case_match; auto using addToRemoveQueue_wf, queue_all_wf.
Qed.

(** ** The properties *)

(** At every moment at most [TOAST_LIMIT] toasts are shown, and every
    dismissed toast that is still shown has a removal timer, one per id; when
    that timer fires the toast is gone. *)
Theorem toasts_invariant s (Hreach : reachable s) :
  toasts_ok s /\
  forall t, t ∈ memoryState s -> open t = false ->
    map_has (toastTimeouts s) (id t) = true /\
    forall u, u ∈ memoryState (on_timeout s (id t)) -> id u <> id t.
Proof.
  assert (toasts_ok s) as Hs.
  { induction Hreach as [|s t d _ [Hl Hi Hc Ht]|s i t d _ [Hl Hi Hc Ht]|s i _ IH|s i _ [Hl Hi Hc Ht] _|s l _ []|s l _ []].
    - constructor; cbn; try (lia || set_solver || done). constructor.
    - constructor; cbn [toast genId dispatch reducer fst snd memoryState toastTimeouts]; [|..|done].
      + rewrite length_take. lia.
      + cbn. intros x [->|Hx]%elem_of_cons; [apply str_of_Z_ne|set_solver].
      + cbn. intros x [->|Hx]%elem_of_cons; [done|set_solver].
    - constructor; cbn [update dispatch reducer fst snd memoryState toastTimeouts p_id p_title p_description p_open].
      + by rewrite length_fmap.
      + intros x (u & -> & Hu)%list_elem_of_fmap. case_bool_decide as E; [|by apply Hi].
        injection E as ->. cbn. by apply Hi.
      + intros x (u & -> & Hu)%list_elem_of_fmap. case_bool_decide as E; [|by apply Hc].
        injection E as ->. cbn. by apply Hc.
      + done.
    - by apply dismiss_ok.
    - constructor; cbn [on_timeout dispatch reducer fst snd memoryState toastTimeouts].
      + etransitivity; [apply length_filterb_le|done].
      + intros x [Hx _]%elem_of_filterb. by apply Hi.
      + intros x [Hx Hne%negb_true_iff%bool_decide_eq_false]%elem_of_filterb Ho.
        specialize (Hc x Hx Ho). rewrite map_has_true in Hc |- *. rewrite map_get_delete_ne; [done|congruence].
      + by apply map_delete_wf.
    - by constructor.
    - by constructor. }
  split; [done|]. intros t Ht Ho. split; [by apply (ok_closed _ Hs)|]. intros u Hu.
  cbn in Hu. apply elem_of_filterb in Hu as [_ Hne%negb_true_iff%bool_decide_eq_false]. done.
Qed.

Definition demo_toast : state := dismiss (toast (toast initial (Some (js "a")) None).1 (Some (js "b")) None).1 None.

Lemma toasts_invariant_witness :
  toasts_ok demo_toast /\ (open <$> memoryState demo_toast) = [false].
Proof.
  split; [|reflexivity].
  apply (toasts_invariant demo_toast). apply reach_dismiss, reach_toast, reach_toast, reach_initial.
Defined.
