(* ===== verification/ResVault.v ===== *)
(** * The ResVault SDK

    [ResVaultSDK] of src/ecosystem/sdk/resvault-sdk/src/resvault-sdk.ts: the
    messages it posts to the content script and the registration of message
    handlers.  A handler is a number; [listening] says whether
    [_messageHandler] is registered on the window (registering twice has no
    effect).  Handlers do not change the list while they are called. *)

From S2P Require Import Prelude JsString JsArray JsNum Json.

Record ResVaultSDK := SDK {
  targetOrigin : str;
  messageHandlers : list nat;
  listening : bool;
}.

Definition new_sdk (origin : option str) : ResVaultSDK := SDK (coalesce origin (js "*")) [] false.

(** [window.postMessage(message, targetOrigin)] *)
Definition sendMessage (s : ResVaultSDK) (message : json) : json * str := (message, targetOrigin s).

Definition commitTransaction (s : ResVaultSDK) (amount : str) (data : json) (recipient : str) (styles : option json)
    : json * str :=
  sendMessage s (JObj [(js "type", JStr (js "commit")); (js "direction", JStr (js "commit"));
    (js "amount", JStr amount); (js "data", data); (js "recipient", JStr recipient);
    (js "styles", coalesce styles (JObj []))]).

Definition customTransaction (s : ResVaultSDK) (data : json) (recipient : str) (customMessage : option str)
    (styles : option json) : json * str :=
  sendMessage s (JObj (present [(js "type", Some (JStr (js "custom"))); (js "direction", Some (JStr (js "custom")));
    (js "data", Some data); (js "recipient", Some (JStr recipient));
    (js "customMessage", JStr <$> customMessage); (js "styles", Some (coalesce styles (JObj [])))])).

Definition startListening (s : ResVaultSDK) : ResVaultSDK := SDK (targetOrigin s) (messageHandlers s) true.
Definition stopListening (s : ResVaultSDK) : ResVaultSDK := SDK (targetOrigin s) (messageHandlers s) false.

(** [None]: the argument is not a function. *)
Definition addMessageListener (s : ResVaultSDK) (handler : option nat) : result ResVaultSDK :=
  match handler with
  | None => Throw (js "Handler must be a function")
  | Some h =>
      let s1 := SDK (targetOrigin s) (messageHandlers s ++ [h]) (listening s) in
      Ok (if (length (messageHandlers s1) =? 1)%nat then startListening s1 else s1)
  end.

(** [indexOf] and [splice]: the first occurrence goes. *)
Fixpoint remove_first (h : nat) (l : list nat) : list nat :=
  match l with [] => [] | x :: l' => if (x =? h)%nat then l' else x :: remove_first h l' end.

Definition removeMessageListener (s : ResVaultSDK) (h : nat) : ResVaultSDK :=
  let s1 := SDK (targetOrigin s) (remove_first h (messageHandlers s)) (listening s) in
  if (length (messageHandlers s1) =? 0)%nat then stopListening s1 else s1.

(** A message event: whether it comes from the same window, and its data. *)
Record messageEvent := Event { from_window : bool; event_data : option json }.

Definition from_content_script (e : messageEvent) : bool :=
  from_window e && truthy (event_data e) &&
  match event_data e with
  | Some d => match prop d (js "type") with
              | Some (JStr t) => bool_decide (t = js "FROM_CONTENT_SCRIPT")
              | _ => false
              end
  | None => false
  end.

(** The handlers called, in order. *)
Definition handleMessage (s : ResVaultSDK) (e : messageEvent) : list nat :=
  if from_content_script e then messageHandlers s else [].

(** What the window does with an event. *)
Definition deliver (s : ResVaultSDK) (e : messageEvent) : list nat :=
  if listening s then handleMessage s e else [].

(** ** Sequences of registrations *)

Inductive op := Add (h : nat) | Remove (h : nat).

Definition apply (s : ResVaultSDK) (o : op) : ResVaultSDK :=
  match o with
  | Add h => match addMessageListener s (Some h) with Ok s' => s' | Throw _ => s end
  | Remove h => removeMessageListener s h
  end.

(** The handlers registered by a sequence of calls. *)
Definition registered (ops : list op) : list nat :=
  foldl (fun l o => match o with Add h => l ++ [h] | Remove h => remove_first h l end) [] ops.

Lemma apply_ok s o l :
  messageHandlers s = l -> listening s = negb (bool_decide (l = [])) ->
  let l' := match o with Add h => l ++ [h] | Remove h => remove_first h l end in
  messageHandlers (apply s o) = l' /\ listening (apply s o) = negb (bool_decide (l' = [])).
Proof.
  intros Hm Hl. destruct o as [h|h]; cbn.
  - rewrite Hm, length_app. cbn. destruct l as [|x l].
    + done.
    + cbn. rewrite Nat.add_comm. cbn. split; [done|]. by rewrite Hl.
  - unfold removeMessageListener. rewrite Hm. cbn. destruct (remove_first h l) as [|x l'] eqn:E; cbn.
    + done.
    + split; [done|]. rewrite Hl. by destruct l.
Qed.

(** ** The properties *)

(** A message from the content script reaches exactly the handlers that
    are registered at that moment, in the order of registration (a handler
    registered twice is called twice), whatever was added and removed before,
    and the window listener is installed exactly while there are handlers. *)
Theorem deliver_registered origin ops e :
  let s := foldl apply (new_sdk origin) ops in
  deliver s e = (if from_content_script e then registered ops else []) /\
  listening s = negb (bool_decide (registered ops = [])).
Proof.
  cbn zeta.
  assert (messageHandlers (foldl apply (new_sdk origin) ops) = registered ops /\
    listening (foldl apply (new_sdk origin) ops) = negb (bool_decide (registered ops = []))) as [Hm Hl].
  { unfold registered. induction ops as [|o ops IH] using rev_ind; [done|].
    rewrite !foldl_app. cbn [foldl]. destruct IH. by apply apply_ok. }
  split; [|done]. unfold deliver, handleMessage. rewrite Hl, Hm.
  destruct (registered ops); cbn; by destruct (from_content_script e).
Qed.
