(* ===== verification/Codec.v ===== *)
(** * The codecs of the ResVault extension

    The helpers at the top of src/ecosystem/tools/resvault/public/background.js:
    base64 and hexadecimal conversions of byte arrays, the escaping of GraphQL
    string literals, version 4 UUIDs and the contract service's configuration.
    A byte is an [N]; a [Uint8Array] is a list of them.  [btoa] and [atob] are
    the WHATWG functions; the string literals of GraphQL are read by
    [gql_string], the lexer of the GraphQL specification. *)

From S2P Require Import Prelude JsString JsArray.

Definition byte_ok (b : N) : Prop := (b < 256)%N.
#[export] Instance byte_ok_dec b : Decision (byte_ok b) := decide (b < 256)%N.
Abbreviation bytes_ok := (Forall byte_ok).

(** ** [btoa] and [atob] *)

Definition b64_alphabet : str :=
  js "ABCDEFGHIJKLMNOPQRSTUVWXYZabcdefghijklmnopqrstuvwxyz0123456789+/".
Definition b64_char (i : N) : ascii := coalesce (b64_alphabet !! N.to_nat i) "="%char.
Definition b64_val (c : ascii) : option N :=
  N.of_nat <$> (fst <$> list_find (fun x => x = c) b64_alphabet).

(** Groups of six bits, the last one completed with zeros. *)
Fixpoint sextets (s : list N) : list N :=
  match s with
  | a :: b :: c :: s' =>
      (a / 4)%N :: (a mod 4 * 16 + b / 16)%N :: (b mod 16 * 4 + c / 64)%N :: (c mod 64)%N :: sextets s'
  | [a; b] => [a / 4; a mod 4 * 16 + b / 16; b mod 16 * 4]%N
  | [a] => [a / 4; a mod 4 * 16]%N
  | [] => []
  end.

Definition padding (n : nat) : str :=
  match n mod 3 with 1 => js "==" | 2 => js "=" | _ => [] end.

Definition btoa (s : str) : str := (b64_char <$> sextets (code <$> s)) ++ padding (length s).

Fixpoint octets (s : list N) : list N :=
  match s with
  | a :: b :: c :: d :: s' =>
      (a * 4 + b / 16)%N :: (b mod 16 * 16 + c / 4)%N :: (c mod 4 * 64 + d)%N :: octets s'
  | [a; b; c] => [a * 4 + b / 16; b mod 16 * 16 + c / 4]%N
  | [a; b] => [a * 4 + b / 16]%N
  | _ => []
  end.

Definition ascii_space (c : ascii) : bool :=
  (code c =? 9)%N || (code c =? 10)%N || (code c =? 12)%N || (code c =? 13)%N || (code c =? 32)%N.

(** One or two [=] at the end go when the length is a multiple of four. *)
Definition strip_padding (d : str) : str :=
  if (length d mod 4 =? 0)%nat
  then if endsWith d (js "==") then take (length d - 2) d
       else if endsWith d (js "=") then take (length d - 1) d
       else d
  else d.

Definition not_encoded : str := js "The string to be decoded is not correctly encoded.".

Definition atob (data : str) : result str :=
  let d := strip_padding (filterb (fun c => negb (ascii_space c)) data) in
  if (length d mod 4 =? 1)%nat then Throw not_encoded
  else match mapM b64_val d with
       | Some l => Ok (ascii_of_N <$> octets l)
       | None => Throw not_encoded
       end.

Definition arrayBufferToBase64 (bytes : list N) : str := btoa (ascii_of_N <$> bytes).

Definition base64ToArrayBuffer (base64 : str) : result (list N) :=
  result_map (fmap code) (atob base64).

(** The same conversions through the array's buffer. *)
Definition uint8ArrayToBase64 (bytes : list N) : str := arrayBufferToBase64 bytes.
Definition base64ToUint8Array (base64 : str) : result (list N) := base64ToArrayBuffer base64.

(** ** Hexadecimal *)

Definition hex_alphabet : str := js "0123456789abcdef".
Definition hex_char (n : N) : ascii := coalesce (hex_alphabet !! N.to_nat n) "0"%char.
Definition hex_val (c : ascii) : option N :=
  if is_digit c then Some (code c - 48)%N
  else if between 97 102 c then Some (code c - 87)%N
  else if between 65 70 c then Some (code c - 55)%N
  else None.

(** [b.toString(16)] for a byte. *)
Definition byte_toString16 (b : N) : str :=
  if (b <? 16)%N then [hex_char b] else [hex_char (b / 16); hex_char (b mod 16)]%N.

Definition padStart (s : str) (n : nat) (fill : ascii) : str := repeat fill (n - length s) ++ s.

Definition bytesToHex (bytes : list N) : str :=
  concat ((fun b => padStart (byte_toString16 b) 2 "0"%char) <$> bytes).

(** [parseInt(s, 16)]: white space, a sign and [0x] are passed over and the
    digits read up to the first other character; [None] is NaN. *)
Fixpoint hex_digits (s : str) (acc : option Z) : option Z :=
  match s with
  | c :: s' =>
      match hex_val c with
      | Some d => hex_digits s' (Some (coalesce acc 0 * 16 + Z.of_N d)%Z)
      | None => acc
      end
  | [] => acc
  end.

Definition skip_0x (s : str) : str :=
  match s with
  | "0"%char :: x :: s' => if bool_decide (x = "x"%char) || bool_decide (x = "X"%char) then s' else s
  | _ => s
  end.

Definition parseInt16 (s : str) : option Z :=
  match trimStart s with
  | "-"%char :: s' => Z.opp <$> hex_digits (skip_0x s') None
  | "+"%char :: s' => hex_digits (skip_0x s') None
  | s' => hex_digits (skip_0x s') None
  end.

(** Storing in a [Uint8Array]: NaN becomes 0, an integer is taken modulo 256. *)
Definition to_uint8 (z : option Z) : N := Z.to_N (coalesce z 0 mod 256)%Z.

(** The array has [hex.length / 2] elements, rounded down; the write past it
    for an odd last digit has no effect. *)
Fixpoint hexToBytes (hex : str) : list N :=
  match hex with
  | a :: b :: hex' => to_uint8 (parseInt16 [a; b]) :: hexToBytes hex'
  | _ => []
  end.

(** ** GraphQL string literals *)

Definition quote : ascii := "034"%char.
Definition backslash : ascii := "092"%char.

(** [s.replace(/c/g, r)] for one character. *)
Definition replace_char (s : str) (c : ascii) (r : str) : str :=
  s ≫= fun x => if bool_decide (x = c) then r else [x].

(** [None] is a value that is not a string. *)
Definition escapeGraphQLString (s : option str) : str :=
  match s with
  | None => []
  | Some s => replace_char (replace_char s backslash [backslash; backslash]) quote [backslash; quote]
  end.

(** The lexer of a string token, after its opening quote: the value and what
    follows the closing quote.  Line terminators and control characters do
    not belong to a string; [None] is a syntax error.  A unicode escape above
    U+00FF is outside the strings represented here and is [None] too. *)
Definition gql_plain (c : ascii) : bool := (32 <=? code c)%N || (code c =? 9)%N.

Definition gql_escape (c : ascii) : option ascii :=
  if bool_decide (c = quote) || bool_decide (c = backslash) || bool_decide (c = "/"%char) then Some c
  else if bool_decide (c = "b"%char) then Some "008"%char
  else if bool_decide (c = "f"%char) then Some "012"%char
  else if bool_decide (c = "n"%char) then Some "010"%char
  else if bool_decide (c = "r"%char) then Some "013"%char
  else if bool_decide (c = "t"%char) then Some "009"%char
  else None.

Fixpoint gql_string (s : str) : option (str * str) :=
  match s with
  | [] => None
  | c :: s' =>
      if bool_decide (c = quote) then Some ([], s')
      else if bool_decide (c = backslash) then
        match s' with
        | "u"%char :: "0"%char :: "0"%char :: h1 :: h2 :: s'' =>
            match hex_val h1, hex_val h2, gql_string s'' with
            | Some a, Some b, Some (v, r) => Some (ascii_of_N (a * 16 + b) :: v, r)
            | _, _, _ => None
            end
        | e :: s'' =>
            match gql_escape e, gql_string s'' with
            | Some x, Some (v, r) => Some (x :: v, r)
            | _, _ => None
            end
        | [] => None
        end
      else if gql_plain c then
        match gql_string s' with Some (v, r) => Some (c :: v, r) | None => None end
      else None
  end.

(** ** [JSON.stringify] of a string, and the contract configuration *)

Definition json_char (c : ascii) : str :=
  if bool_decide (c = quote) || bool_decide (c = backslash) then [backslash; c]
  else if bool_decide (c = "008"%char) then [backslash; "b"%char]
  else if bool_decide (c = "009"%char) then [backslash; "t"%char]
  else if bool_decide (c = "010"%char) then [backslash; "n"%char]
  else if bool_decide (c = "012"%char) then [backslash; "f"%char]
  else if bool_decide (c = "013"%char) then [backslash; "r"%char]
  else if (code c <? 32)%N then
    [backslash; "u"%char; "0"%char; "0"%char; hex_char (code c / 16); hex_char (code c mod 16)]
  else [c].

Definition json_string (s : str) : str := quote :: (s ≫= json_char) ++ [quote].

Fixpoint decimal_value (s : str) (acc : Z) : Z :=
  match s with
  | [] => acc
  | c :: s' => decimal_value s' (acc * 10 + Z.of_N (code c - 48))
  end.

Definition q (s : string) : str := quote :: js s ++ [quote].

(** [JSON.stringify({replica_info: [{id: 1, ip, port}], region_id: 1})]; the
    port is below 2^53, where a number prints as its decimal digits. *)
Definition config_json (ip : str) (port : Z) : str :=
  js "{" ++ q "replica_info" ++ js ":[{" ++ q "id" ++ js ":1," ++ q "ip" ++ js ":" ++ json_string ip ++
  js "," ++ q "port" ++ js ":" ++ str_of_Z port ++ js "}]," ++ q "region_id" ++ js ":1}".

Definition default_config : str := js "5 127.0.0.1 10005".

(** The regular expression [^\s*(\d+)\s+([^\s]+)\s+(\d+)\s*$] on a trimmed
    text: three words, the first and the last of digits. *)
Definition getResDBConfigJson (shorthand : option str) : str :=
  let trimmed := trim (match shorthand with Some (c :: s) => c :: s | _ => default_config end) in
  match split_ws trimmed with
  | [n; ip; port] =>
      if forallb is_digit n && forallb is_digit port then config_json ip (decimal_value port 0)
      else if startsWith trimmed (js "{") then trimmed else config_json (js "127.0.0.1") 10005
  | _ => if startsWith trimmed (js "{") then trimmed else config_json (js "127.0.0.1") 10005
  end.

(** ** UUIDs *)

(** [([1e7] + -1e3 + -4e3 + -8e3 + -1e11)] *)
Definition uuid_template : str := js "10000000-1000-4000-8000-100000000000".

(** The callback of [replace(/[018]/g, ...)]: [c ^ (r & (15 >> (c / 4)))] in
    hexadecimal. *)
Definition uuid_char (c : ascii) (r : N) : ascii :=
  let d := (code c - 48)%N in
  hex_char (N.lxor d (N.land r (N.shiftr 15 (d / 4)))).

Definition is_018 (c : ascii) : bool :=
  bool_decide (c = "0"%char) || bool_decide (c = "1"%char) || bool_decide (c = "8"%char).

(** [random k] is the byte [crypto.getRandomValues] gives the [k]-th time. *)
Fixpoint fill_uuid (t : str) (random : nat -> N) (k : nat) : str :=
  match t with
  | [] => []
  | c :: t' =>
      if is_018 c then uuid_char c (random k) :: fill_uuid t' random (S k)
      else c :: fill_uuid t' random k
  end.

Definition generateUUID (random : nat -> N) : str := fill_uuid uuid_template random 0.

(** ** Lemmas *)

Lemma code_lt c : byte_ok (code c).
Proof. unfold byte_ok, code. apply N_ascii_bounded. Qed.

Lemma ascii_code c : ascii_of_N (code c) = c.
Proof. apply ascii_N_embedding. Qed.

Lemma code_ascii b : byte_ok b -> code (ascii_of_N b) = b.
Proof. apply N_ascii_embedding. Qed.

Lemma codes_ok (s : str) : bytes_ok (code <$> s).
Proof. apply Forall_fmap, Forall_true. intros c. apply code_lt. Qed.

Lemma fmap_code_ascii (l : list N) : bytes_ok l -> code <$> (ascii_of_N <$> l) = l.
Proof. induction 1 as [|b l Hb _ IH]; cbn; [done|]. f_equal; [by apply code_ascii|done]. Qed.

Lemma fmap_ascii_code (s : str) : ascii_of_N <$> (code <$> s) = s.
Proof. induction s as [|c s IH]; cbn; [done|]. f_equal; [apply ascii_code|done]. Qed.

(** A decidable property of the first [n] numbers, and of all characters, by
    computation. *)
Lemma forall_N_lt (P : N -> Prop) `{Hd : !forall i, Decision (P i)} (n : nat) :
  forallb (fun i => bool_decide (P (N.of_nat i))) (seq 0 n) = true -> forall i, (i < N.of_nat n)%N -> P i.
Proof.
  rewrite forallb_forall. intros H i Hi. specialize (H (N.to_nat i)).
  rewrite N2Nat.id in H. eapply bool_decide_eq_true, H, in_seq. lia.
Qed.

Lemma forall_ascii (P : ascii -> Prop) `{Hd : !forall c, Decision (P c)} :
  forallb (fun i => bool_decide (P (ascii_of_nat i))) (seq 0 256) = true -> forall c, P c.
Proof.
  rewrite forallb_forall. intros H c. specialize (H (nat_of_ascii c)).
  rewrite ascii_nat_embedding in H. eapply bool_decide_eq_true, H, in_seq.
  pose proof (nat_ascii_bounded c). lia.
Qed.

Lemma b64_char_ok i : (i < 64)%N ->
  b64_val (b64_char i) = Some i /\ b64_char i <> "="%char /\ ascii_space (b64_char i) = false.
Proof.
  apply (forall_N_lt (fun i => b64_val (b64_char i) = Some i /\
    b64_char i <> "="%char /\ ascii_space (b64_char i) = false) 64). by vm_compute.
Qed.

(** Induction three bytes at a time. *)
Lemma list_ind3 {A} (P : list A -> Prop) :
  P [] -> (forall a, P [a]) -> (forall a b, P [a; b]) ->
  (forall a b c l, P l -> P (a :: b :: c :: l)) -> forall l, P l.
Proof.
  intros H0 H1 H2 H3 l. assert (P l /\ (forall a, P (a :: l)) /\ (forall a b, P (a :: b :: l))) as [? _]; [|done].
  induction l as [|x l (Ha & Hb & Hc)]; split_and!; intros; auto.
Qed.

(** Cutting a number in two digits and reading them back. *)
Lemma digits_high x y d : (y < d)%N -> ((x * d + y) / d = x)%N.
Proof. intros. rewrite N.div_add_l, N.div_small by lia. lia. Qed.
Lemma digits_low x y d : (y < d)%N -> ((x * d + y) mod d = y)%N.
Proof. intros. rewrite N.add_comm, N.Div0.mod_add. by apply N.mod_small. Qed.
Lemma digits_join x d : d <> 0%N -> (x / d * d + x mod d = x)%N.
Proof. intros. rewrite (N.mul_comm _ d). symmetry. by apply N.div_mod. Qed.

Lemma byte_high b d e : byte_ok b -> (d * e = 256)%N -> (b / d < e)%N.
Proof. unfold byte_ok. intros Hb E. apply N.Div0.div_lt_upper_bound. lia. Qed.

Lemma sextets_ok l : bytes_ok l -> Forall (fun i => (i < 64)%N) (sextets l).
Proof.
  assert (forall a, byte_ok a -> a / 4 < 64 /\ a mod 4 < 4 /\ a / 16 < 16 /\ a mod 16 < 16 /\
    a / 64 < 4 /\ a mod 64 < 64)%N as Hb.
  { intros a Ha. split_and!; first [by apply byte_high|by apply N.mod_lt]. }
  induction l as [|a|a b|a b c l IH] using list_ind3; intros Hl; cbn; [constructor|..];
    repeat (apply Forall_cons in Hl as [?%Hb Hl]); repeat apply Forall_cons_2;
    try apply Forall_nil_2; auto; lia.
Qed.

Lemma octets_sextets l : bytes_ok l -> octets (sextets l) = l.
Proof.
  induction l as [|a|a b|a b c l IH] using list_ind3; intros Hl; cbn [octets sextets]; [done|..].
  - by rewrite N.div_mul, digits_join.
  - apply Forall_cons in Hl as [_ [Hb _]%Forall_cons].
    rewrite digits_high, digits_low, N.div_mul, !digits_join by (try done; by apply byte_high). done.
  - apply Forall_cons in Hl as [_ [Hb [Hc Hl]%Forall_cons]%Forall_cons].
    rewrite IH by done.
    rewrite !digits_high, !digits_low, !digits_join by (try done; by apply byte_high). done.
Qed.

Lemma length_sextets l :
  length (sextets l) mod 4 = match length l mod 3 with 0 => 0 | 1 => 2 | _ => 3 end.
Proof.
  induction l as [|a|a b|a b c l IH] using list_ind3; cbn [sextets length]; [done..|].
  replace (S (S (S (S (length (sextets l)))))) with (length (sextets l) + 1 * 4) by lia.
  replace (S (S (S (length l)))) with (length l + 1 * 3) by lia.
  by rewrite !Nat.Div0.mod_add.
Qed.

Lemma mapM_b64 (l : list N) : Forall (fun i => (i < 64)%N) l -> mapM b64_val (b64_char <$> l) = Some l.
Proof.
  induction 1 as [|i l Hi _ IH]; [done|]. rewrite fmap_cons. cbn [mapM].
  destruct (b64_char_ok i Hi) as [-> _]. by rewrite IH.
Qed.

Lemma filterb_b64 (l : list N) n :
  Forall (fun i => (i < 64)%N) l ->
  filterb (fun c => negb (ascii_space c)) ((b64_char <$> l) ++ padding n) = (b64_char <$> l) ++ padding n.
Proof.
  intros Hl. apply filterb_all. intros c [Hc|Hc]%elem_of_app.
  - apply list_elem_of_fmap in Hc as (i & -> & Hi). rewrite Forall_forall in Hl.
    by destruct (b64_char_ok i (Hl i Hi)) as (_ & _ & ->).
  - unfold padding in Hc. repeat case_match; set_solver.
Qed.

Lemma b64_not_padded l : Forall (fun i => (i < 64)%N) l -> endsWith (b64_char <$> l) (js "=") = false.
Proof.
  intros Hl. unfold endsWith. change (rev (js "=")) with ["="%char].
  destruct (rev (b64_char <$> l)) as [|c r] eqn:E; [done|]. cbn [is_prefix].
  rewrite andb_true_r. apply bool_decide_eq_false. intros <-.
  assert ("="%char ∈ b64_char <$> l) as Hc by (apply list_elem_of_In, in_rev; rewrite E; by left).
  apply list_elem_of_fmap in Hc as (i & Hi & Hin). rewrite Forall_forall in Hl.
  by destruct (b64_char_ok i (Hl i Hin)) as (_ & [] & _).
Qed.

Lemma endsWith_pad2 s : endsWith s (js "==") = true -> endsWith s (js "=") = true.
Proof.
  unfold endsWith. cbn. destruct (rev s) as [|a r]; [done|]. cbn. rewrite andb_true_r.
  by intros [? _]%andb_true_iff.
Qed.

Lemma endsWith_app s p : endsWith (s ++ p) p = true.
Proof. unfold endsWith. rewrite rev_app_distr. apply is_prefix_spec. eauto. Qed.

(** The padding is what [btoa] added, and nothing else. *)
Lemma strip_padding_btoa l :
  bytes_ok l -> strip_padding ((b64_char <$> sextets l) ++ padding (length l)) = b64_char <$> sextets l.
Proof.
  intros Hl. pose proof (b64_not_padded _ (sextets_ok l Hl)) as Hs. unfold strip_padding.
  rewrite length_app, length_fmap. pose proof (length_sextets l) as Hm. unfold padding.
  pose proof (Nat.mod_upper_bound (length l) 3).
  rewrite <- Nat.Div0.add_mod_idemp_l, Hm.
  destruct (length l mod 3) as [|[|[|]]]; [| | |lia].
  - change (padding 0) with (@nil ascii). rewrite app_nil_r. cbn [Nat.add Nat.modulo].
    destruct (endsWith _ (js "==")) eqn:E; [apply endsWith_pad2 in E; congruence|by rewrite Hs].
  - change (length (js "==")) with 2. cbn [Nat.add Nat.modulo]. rewrite endsWith_app. cbn.
    apply take_app_length'. rewrite length_fmap. lia.
  - change (length (js "=")) with 1. cbn [Nat.add Nat.modulo].
    destruct (endsWith _ (js "==")) eqn:E.
    + exfalso. unfold endsWith in *. rewrite rev_app_distr in E. cbn in E, Hs.
      destruct (rev (b64_char <$> sextets l)); [done|]. cbn in E, Hs. rewrite Hs in E. by destruct (bool_decide _).
    + rewrite endsWith_app. apply take_app_length'. rewrite length_fmap. lia.
Qed.

Lemma atob_btoa s : atob (btoa s) = Ok s.
Proof.
  unfold atob, btoa. pose proof (codes_ok s) as Hok. pose proof (sextets_ok _ Hok) as Hs.
  rewrite filterb_b64 by done.
  rewrite <- (length_fmap code s), strip_padding_btoa, length_fmap, length_sextets by done.
  rewrite mapM_b64, octets_sextets, fmap_ascii_code by done.
  by destruct (length _ mod 3) as [|[|]].
Qed.

(** Decoding what was encoded gives the bytes back. *)
Lemma base64_roundtrip bytes :
  bytes_ok bytes -> base64ToArrayBuffer (arrayBufferToBase64 bytes) = Ok bytes.
Proof.
  intros H. unfold base64ToArrayBuffer, arrayBufferToBase64. rewrite atob_btoa. cbn.
  by rewrite fmap_code_ascii.
Qed.

Lemma byte_hex_roundtrip b : byte_ok b ->
  hexToBytes (padStart (byte_toString16 b) 2 "0"%char) = [b] /\
  length (padStart (byte_toString16 b) 2 "0"%char) = 2.
Proof.
  apply (forall_N_lt (fun b => hexToBytes (padStart (byte_toString16 b) 2 "0"%char) = [b] /\
    length (padStart (byte_toString16 b) 2 "0"%char) = 2) 256). by vm_compute.
Qed.

Lemma hexToBytes_app s1 s2 : length s1 = 2 -> hexToBytes (s1 ++ s2) = hexToBytes s1 ++ hexToBytes s2.
Proof. destruct s1 as [|a [|b [|]]]; done. Qed.

Lemma hex_roundtrip bytes : bytes_ok bytes -> hexToBytes (bytesToHex bytes) = bytes.
Proof.
  induction 1 as [|b bytes Hb _ IH]; [done|]. unfold bytesToHex in *. cbn [fmap list_fmap concat].
  destruct (byte_hex_roundtrip b Hb) as [E Hl]. by rewrite hexToBytes_app, E, IH.
Qed.

(** ** Hexadecimal digits the other way *)

Definition is_hex (c : ascii) : bool := bool_decide (is_Some (hex_val c)).

Lemma is_hex_char c : is_hex c = true -> c ∈ js "0123456789abcdefABCDEF".
Proof.
  apply (forall_ascii (fun c => is_hex c = true -> c ∈ js "0123456789abcdefABCDEF")). by vm_compute.
Qed.

Lemma hex_pair a b : is_hex a = true -> is_hex b = true ->
  padStart (byte_toString16 (to_uint8 (parseInt16 [a; b]))) 2 "0"%char = toLowerCase [a; b].
Proof.
  intros Ha%is_hex_char Hb%is_hex_char.
  assert (Forall (fun a => Forall (fun b =>
    padStart (byte_toString16 (to_uint8 (parseInt16 [a; b]))) 2 "0"%char = toLowerCase [a; b])
    (js "0123456789abcdefABCDEF")) (js "0123456789abcdefABCDEF")) as H
    by (eapply bool_decide_eq_true; by vm_compute).
  rewrite Forall_forall in H. specialize (H a Ha). rewrite Forall_forall in H. auto.
Qed.

Lemma hex_print_parse hex :
  Forall (fun c => is_hex c = true) hex -> Nat.Even (length hex) ->
  bytesToHex (hexToBytes hex) = toLowerCase hex.
Proof.
  intros Hf [n Hn]. revert hex Hf Hn. induction n as [|n IH]; intros hex Hf Hn.
  - destruct hex; [done|]. cbn in Hn. lia.
  - destruct hex as [|a [|b hex]]; [cbn in Hn; lia..|].
    apply Forall_cons in Hf as [Ha [Hb Hf]%Forall_cons].
    unfold bytesToHex. cbn [hexToBytes fmap list_fmap concat].
    rewrite hex_pair by done. fold (bytesToHex (hexToBytes hex)).
    rewrite IH; [done..|]. cbn in Hn. lia.
Qed.

(** ** String literals *)

Lemma gql_string_plain c s v r :
  c <> quote -> c <> backslash -> gql_plain c = true -> gql_string s = Some (v, r) ->
  gql_string (c :: s) = Some (c :: v, r).
Proof.
  intros H1 H2 H3 H4. cbn [gql_string]. by rewrite !bool_decide_eq_false_2, H3, H4.
Qed.

(** A backslash in front of a quote or a backslash. *)
Lemma gql_string_escaped c s v r :
  c = quote \/ c = backslash -> gql_string s = Some (v, r) ->
  gql_string (backslash :: c :: s) = Some (c :: v, r).
Proof. intros [->| ->] H; cbn; by rewrite H. Qed.

Lemma escape_cons c s :
  escapeGraphQLString (Some (c :: s)) =
  (if bool_decide (c = quote) || bool_decide (c = backslash) then [backslash; c] else [c]) ++
  escapeGraphQLString (Some s).
Proof.
  unfold escapeGraphQLString, replace_char. rewrite bind_cons, bind_app. f_equal.
  destruct (decide (c = backslash)) as [->|Hb]; [done|].
  rewrite (bool_decide_eq_false_2 (c = backslash)), orb_false_r by done. cbn.
  destruct (decide (c = quote)) as [->|Hq]; [done|].
  by rewrite !bool_decide_eq_false_2.
Qed.

(** The text between the quotes is read back as the string that was escaped,
    and the token ends at the closing quote, as long as the string has no
    line terminator or control character. *)
Lemma escape_lexes s rest :
  Forall (fun c => gql_plain c = true) s ->
  gql_string (escapeGraphQLString (Some s) ++ quote :: rest) = Some (s, rest).
Proof.
  induction 1 as [|c s Hc _ IH]; [done|]. rewrite escape_cons.
  destruct (decide (c = quote \/ c = backslash)) as [E|E].
  - replace (bool_decide (c = quote) || bool_decide (c = backslash)) with true
      by (destruct E as [->| ->]; done).
    by apply gql_string_escaped.
  - rewrite !bool_decide_eq_false_2 by naive_solver. apply gql_string_plain; naive_solver.
Qed.

(** A line break in the string is a syntax error in the document. *)
Lemma escape_newline a b rest :
  Forall (fun c => gql_plain c = true) a ->
  gql_string (escapeGraphQLString (Some (a ++ newline :: b)) ++ quote :: rest) = None.
Proof.
  induction 1 as [|c a Hc _ IH]; [done|]. cbn [app]. rewrite escape_cons.
  destruct (bool_decide (c = quote)) eqn:E1; split_bools; subst; [cbn in *; by rewrite IH|].
  destruct (bool_decide (c = backslash)) eqn:E2; split_bools; subst; [cbn in *; by rewrite IH|].
  cbn [orb app gql_string]. by rewrite !bool_decide_eq_false_2, Hc, IH.
Qed.

Lemma json_char_lexes c s v r :
  gql_string s = Some (v, r) -> gql_string (json_char c ++ s) = Some (c :: v, r).
Proof.
  intros H. unfold json_char.
  repeat match goal with
  | |- context [bool_decide ?P] => destruct (bool_decide P) eqn:?; split_bools; subst;
      [cbn; by rewrite H|]
  end.
  cbn [orb]. destruct (code c <? 32)%N eqn:E.
  - cbn [app gql_string]. rewrite !bool_decide_eq_false_2, bool_decide_eq_true_2 by done.
    assert (hex_val (hex_char (code c / 16)) = Some (code c / 16)%N /\
            hex_val (hex_char (code c mod 16)) = Some (code c mod 16)%N) as [-> ->].
    { clear -c. revert c. apply (forall_ascii (fun c => hex_val (hex_char (code c / 16)) = Some (code c / 16)%N /\
        hex_val (hex_char (code c mod 16)) = Some (code c mod 16)%N)). by vm_compute. }
    rewrite H, digits_join by done. by rewrite ascii_code.
  - apply gql_string_plain; [done..| |done]. unfold gql_plain. apply N.ltb_ge in E.
    by rewrite (proj2 (N.leb_le _ _) E).
Qed.

(** What [JSON.stringify] prints for a string is read back, whatever it
    holds. *)
Lemma json_string_lexes s rest : gql_string ((s ≫= json_char) ++ quote :: rest) = Some (s, rest).
Proof.
  induction s as [|c s IH]; [done|]. rewrite bind_cons, <- app_assoc. by apply json_char_lexes.
Qed.

(** ** UUIDs *)

(** RFC 4122, version 4: [x] is a hexadecimal digit, [y] is 8, 9, a or b. *)
Definition uuid_layout : str := js "xxxxxxxx-xxxx-4xxx-yxxx-xxxxxxxxxxxx".
Definition fits (l c : ascii) : bool :=
  if bool_decide (l = "x"%char) then bool_decide (c ∈ hex_alphabet)
  else if bool_decide (l = "y"%char) then bool_decide (c ∈ js "89ab")
  else bool_decide (c = l).

Lemma hex_char_in n : (n < 16)%N -> hex_char n ∈ hex_alphabet.
Proof. apply (forall_N_lt (fun n => hex_char n ∈ hex_alphabet) 16). by vm_compute. Qed.

Lemma land_15 r : (N.land r 15 < 16)%N.
Proof. change 15%N with (N.ones 4). rewrite N.land_ones. by apply N.mod_lt. Qed.
Lemma land_3 r : (N.land r 3 < 4)%N.
Proof. change 3%N with (N.ones 2). rewrite N.land_ones. by apply N.mod_lt. Qed.

Lemma uuid_char_fits r :
  fits "x"%char (uuid_char "0"%char r) = true /\ fits "x"%char (uuid_char "1"%char r) = true /\
  fits "y"%char (uuid_char "8"%char r) = true.
Proof.
  assert (forall x, (x < 16)%N -> hex_char (N.lxor 0 x) ∈ hex_alphabet /\ hex_char (N.lxor 1 x) ∈ hex_alphabet) as H.
  { apply (forall_N_lt (fun x => hex_char (N.lxor 0 x) ∈ hex_alphabet /\ hex_char (N.lxor 1 x) ∈ hex_alphabet) 16).
    by vm_compute. }
  assert (forall y, (y < 4)%N -> hex_char (N.lxor 8 y) ∈ js "89ab") as H8.
  { apply (forall_N_lt (fun y => hex_char (N.lxor 8 y) ∈ js "89ab") 4). by vm_compute. }
  destruct (H _ (land_15 r)). specialize (H8 _ (land_3 r)).
  split_and!; by apply bool_decide_eq_true_2.
Qed.

Definition slot (l t : ascii) : bool :=
  if is_018 t then bool_decide (l = if bool_decide (t = "8"%char) then "y"%char else "x"%char)
  else fits l t.

Lemma fill_uuid_fits l t random k :
  Forall2 (fun l t => slot l t = true) l t -> Forall2 (fun l c => fits l c = true) l (fill_uuid t random k).
Proof.
  intros H. revert k. induction H as [|x c l t Hs _ IH]; intros k; cbn [fill_uuid]; [constructor|].
  unfold slot in Hs. destruct (is_018 c) eqn:E; constructor; auto.
  apply bool_decide_eq_true in Hs as ->. destruct (uuid_char_fits (random k)) as (H0 & H1 & H8).
  unfold is_018 in E. rewrite !orb_true_iff, !bool_decide_eq_true in E. by destruct E as [[->| ->]| ->].
Qed.

(** Whatever the random bytes, the identifier has the layout of a version 4
    UUID. *)
Lemma uuid_v4 random : Forall2 (fun l c => fits l c = true) uuid_layout (generateUUID random).
Proof. apply fill_uuid_fits. eapply bool_decide_eq_true. by vm_compute. Qed.
