(* ===== verification/Wallet.v ===== *)
(** * The ResVault key store

    The storage handlers of
    src/ecosystem/tools/resvault/public/background.js: [storeKeys],
    [disconnectKeys], [requestData], [getConnectedNet], [getPublicKey] and
    [getSigningKeys], with [encryptData] and [decryptData] below them and the
    icons of [updateFaviconUrl].  [chrome.storage.local] is a record; a handler
    reads a copy of it in the callback of [get] and replaces what it changed
    with [set].  [handle] runs a handler alone; [step] lets the callbacks of
    several handlers interleave.

    The browser's Web Crypto, text encoder and URL parser are the class
    [Browser]; domains and nets are not the names of properties every object
    inherits. *)

From S2P Require Import Prelude JsString JsArray JsNum Json Codec.

(** ** The browser *)

Class Browser := {
  CryptoKey : Type;
  JWK : Type;
  (** [crypto.subtle.encrypt], [decrypt], [exportKey], [importKey] *)
  encrypt : CryptoKey -> list N -> list N -> result (list N);
  decrypt : CryptoKey -> list N -> list N -> result (list N);
  exportKey : CryptoKey -> result JWK;
  importKey : JWK -> result CryptoKey;
  (** [new TextEncoder().encode], [new TextDecoder().decode] *)
  text_encode : str -> list N;
  text_decode : list N -> str;
  (** [new URL(url).hostname]; [None] when the URL is invalid. *)
  hostname : str -> option str;
}.

(** What the Web Crypto and Encoding standards say of them. *)
Class BrowserLaws (B : Browser) := {
  decrypt_encrypt k iv p c : encrypt k iv p = Ok c -> decrypt k iv c = Ok p;
  encrypt_bytes k iv p c : encrypt k iv p = Ok c -> bytes_ok c;
  import_export k j : exportKey k = Ok j -> importKey j = Ok k;
  decode_encode s : text_decode (text_encode s) = s;
}.

Section wallet.
Context `{B : Browser}.

Record encrypted := Encrypted { ciphertext : str; iv : str }.

(** [iv] is what [crypto.getRandomValues] gave. *)
Definition encryptData (data : str) (key : CryptoKey) (iv : list N) : result encrypted :=
  match encrypt key iv (text_encode data) with
  | Ok c => Ok (Encrypted (arrayBufferToBase64 c) (uint8ArrayToBase64 iv))
  | Throw e => Throw e
  end.

Definition decryptData (ciphertextBase64 ivBase64 : str) (key : CryptoKey) : result str :=
  match base64ToArrayBuffer ciphertextBase64 with
  | Throw e => Throw e
  | Ok c =>
      match base64ToUint8Array ivBase64 with
      | Throw e => Throw e
      | Ok iv => result_map text_decode (decrypt key iv c)
      end
  end.

Definition decrypt_field (e : encrypted) (key : CryptoKey) : result str :=
  decryptData (ciphertext e) (iv e) key.

Definition getBaseDomain (url : str) : str := coalesce (hostname url) [].

(** ** The storage *)

Record entry := Entry {
  e_publicKey : encrypted;
  e_privateKey : encrypted;
  e_url : encrypted;
  exportedKey : JWK;
}.

(** [chrome.storage.local], of which the extension pages write
    [activeNetUrl]. *)
Record storage := Storage {
  s_keys : option (jsmap str (jsmap str entry));
  s_connectedNets : option (jsmap str str);
  s_faviconUrls : option (jsmap str str);
  activeNetUrl : option str;
}.

Definition keys (st : storage) : jsmap str (jsmap str entry) := coalesce (s_keys st) [].
Definition connectedNets (st : storage) : jsmap str str := coalesce (s_connectedNets st) [].
Definition storedFavicons (st : storage) : jsmap str str := coalesce (s_faviconUrls st) [].

(** [keys[domain] && keys[domain][net]] *)
Definition find_entry (st : storage) (domain net : str) : option entry :=
  match map_get (keys st) domain with Some nets => map_get nets net | None => None end.

(** [connectedNets[domain]] used as a property name: an absent one reads the
    property [undefined]. *)
Definition net_of (st : storage) (domain : str) : str :=
  coalesce (map_get (connectedNets st) domain) (js "undefined").

(** [chrome.storage.local.set({ keys, connectedNets })] *)
Record write := Write { w_keys : jsmap str (jsmap str entry); w_nets : jsmap str str }.
Definition set_storage (st : storage) (w : write) : storage :=
  Storage (Some (w_keys w)) (Some (w_nets w)) (s_faviconUrls st) (activeNetUrl st).

(** ** Answers *)

Definition success : json := JObj [(js "success", JBool true)].
Definition failure (e : str) : json := JObj [(js "success", JBool false); (js "error", JStr e)].

(** ** storeKeys *)

(** What [crypto] produced for a request: the generated key and three
    initialisation vectors. *)
Record fresh := Fresh { f_key : result CryptoKey; iv1 : list N; iv2 : list N; iv3 : list N }.

Definition make_entry (f : fresh) (publicKey privateKey url : str) : result entry :=
  match f_key f with
  | Throw e => Throw e
  | Ok k =>
      match encryptData publicKey k (iv1 f) with
      | Throw e => Throw e
      | Ok pk =>
          match encryptData privateKey k (iv2 f) with
          | Throw e => Throw e
          | Ok sk =>
              match encryptData url k (iv3 f) with
              | Throw e => Throw e
              | Ok u => result_map (Entry pk sk u) (exportKey k)
              end
          end
      end
  end.

(** The callback of [get]. *)
Definition storeKeys_write (st : storage) (domain net : str) (e : entry) : write :=
  let ks := match map_get (keys st) domain with
            | Some _ => keys st
            | None => map_set (keys st) domain []
            end in
  Write (map_set ks domain (map_set (coalesce (map_get ks domain) []) net e))
        (map_set (connectedNets st) domain net).

(** ** disconnectKeys *)

Definition disconnectKeys_write (st : storage) (domain net : str) : option write :=
  match map_get (keys st) domain with
  | Some nets =>
      match map_get nets net with
      | Some _ =>
          let nets' := map_delete nets net in
          let ks := if (length (object_keys nets') =? 0)%nat
                    then map_delete (map_set (keys st) domain nets') domain
                    else map_set (keys st) domain nets' in
          Some (Write ks (if bool_decide (map_get (connectedNets st) domain = Some net)
                          then map_delete (connectedNets st) domain
                          else connectedNets st))
      | None => None
      end
  | None => None
  end.

(** ** requestData, getConnectedNet, getPublicKey, getSigningKeys *)

Definition no_wallet : str := js "No keys found. Please connect your wallet first.".

Definition requestData (st : storage) (domain net : str) : json :=
  let faviconUrl := coalesce (map_get (storedFavicons st) domain) [] in
  match find_entry st domain net with
  | None => JObj [(js "error", JStr (js "No keys found for domain and net")); (js "faviconUrl", JStr faviconUrl)]
  | Some e =>
      match (try! k <- importKey (exportedKey e);
             try! pk <- decrypt_field (e_publicKey e) k;
             try! sk <- decrypt_field (e_privateKey e) k;
             try! u <- decrypt_field (e_url e) k;
             Ok (pk, sk, u))%js with
      | Ok (pk, sk, u) =>
          JObj [(js "publicKey", JStr pk); (js "privateKey", JStr sk); (js "url", JStr u);
                (js "faviconUrl", JStr faviconUrl)]
      | Throw _ => JObj [(js "error", JStr (js "Failed to decrypt data")); (js "faviconUrl", JStr faviconUrl)]
      end
  end.

Definition getConnectedNet (st : storage) (domain : str) : json :=
  match map_get (connectedNets st) domain with
  | Some (c :: net) => JObj [(js "net", JStr (c :: net))]
  | _ => JObj [(js "error", JStr (js "No connected net for domain"))]
  end.

Definition getPublicKey (st : storage) (domain : str) : json :=
  match find_entry st domain (net_of st domain) with
  | None => failure no_wallet
  | Some e =>
      match (try! k <- importKey (exportedKey e); decrypt_field (e_publicKey e) k)%js with
      | Ok pk => JObj [(js "success", JBool true); (js "publicKey", JStr pk)]
      | Throw _ => failure (js "Failed to retrieve public key")
      end
  end.

Definition getSigningKeys (st : storage) (domain : str) : json :=
  match find_entry st domain (net_of st domain) with
  | None => failure no_wallet
  | Some e =>
      match (try! k <- importKey (exportedKey e);
             try! sk <- decrypt_field (e_privateKey e) k;
             try! pk <- decrypt_field (e_publicKey e) k;
             Ok (sk, pk))%js with
      | Ok (sk, pk) =>
          JObj [(js "success", JBool true); (js "privateKey", JStr sk); (js "publicKey", JStr pk)]
      | Throw m => failure (js "Failed to retrieve signing keys: " ++ m)
      end
  end.

(** ** The icons *)

(** The variable [faviconUrls] and the storage. *)
Record background := Background { local : storage; faviconUrls : jsmap str str }.

Definition updateFaviconUrl (bg : background) (status : str) (tab_url tab_icon : option str) : background :=
  match bool_decide (status = js "complete"), tab_url with
  | true, Some (c :: u) =>
      match getBaseDomain (c :: u), tab_icon with
      | d :: domain, Some (i :: icon) =>
          let st := local bg in
          Background (Storage (s_keys st) (s_connectedNets st)
                        (Some (map_set (storedFavicons st) (d :: domain) (i :: icon))) (activeNetUrl st))
            (map_set (faviconUrls bg) (d :: domain) (i :: icon))
      | _, _ => bg
      end
  | _, _ => bg
  end.

(** ** Requests *)

Inductive request :=
| StoreKeys (domain net publicKey privateKey url : str)
| DisconnectKeys (domain net : str)
| RequestData (domain net : str)
| GetConnectedNet (domain : str)
| GetPublicKey (domain : str)
| GetSigningKeys (domain : str).

(** What a handler does with the storage it read: a write, or nothing, and
    its answer. *)
Definition callback (f : fresh) (r : request) (st : storage) : option write * json :=
  match r with
  | StoreKeys domain net pk sk url =>
      match make_entry f pk sk url with
      | Ok e => (Some (storeKeys_write st domain net e), success)
      | Throw e => (None, failure e)
      end
  | DisconnectKeys domain net =>
      match disconnectKeys_write st domain net with
      | Some w => (Some w, success)
      | None => (None, failure (js "No keys found to disconnect"))
      end
  | RequestData domain net => (None, requestData st domain net)
  | GetConnectedNet domain => (None, getConnectedNet st domain)
  | GetPublicKey domain => (None, getPublicKey st domain)
  | GetSigningKeys domain => (None, getSigningKeys st domain)
  end.

Definition commit (st : storage) (w : option write) : storage :=
  match w with Some w => set_storage st w | None => st end.

Definition handle (f : fresh) (r : request) (st : storage) : storage * json :=
  let '(w, reply) := callback f r st in (commit st w, reply).

(** ** Handlers that overlap

    A handler is [Waiting] until its [get] answers with a copy of the
    storage, [Writing] until its [set] lands, then it has answered. *)
Inductive task :=
| Waiting (f : fresh) (r : request)
| Writing (r : request) (w : write) (reply : json)
| Answered (r : request) (reply : json).

Inductive step : storage * list task -> storage * list task -> Prop :=
| step_message st ts f r :
    step (st, ts) (st, ts ++ [Waiting f r])
| step_read st ts1 ts2 f r reply :
    callback f r st = (None, reply) ->
    step (st, ts1 ++ Waiting f r :: ts2) (st, ts1 ++ Answered r reply :: ts2)
| step_read_write st ts1 ts2 f r w reply :
    callback f r st = (Some w, reply) ->
    step (st, ts1 ++ Waiting f r :: ts2) (st, ts1 ++ Writing r w reply :: ts2)
| step_write st ts1 ts2 r w reply :
    step (st, ts1 ++ Writing r w reply :: ts2) (set_storage st w, ts1 ++ Answered r reply :: ts2)
(** The extension pages and [updateFaviconUrl] write the other items; the
    login page clears the storage. *)
| step_pages st ts icons url :
    step (st, ts) (Storage (s_keys st) (s_connectedNets st) icons url, ts)
| step_clear st ts :
    step (st, ts) (Storage None None None None, ts).

End wallet.

Arguments callback {B} f r st : simpl never.

(** ** Well-formedness of the storage *)

Section invariant.
Context `{B : Browser}.
Implicit Types (st : storage) (d n : str).

(** No name is bound twice, no domain is kept without keys, and the net a
    domain is connected to has keys. *)
Record wf_maps (ks : jsmap str (jsmap str entry)) (nets : jsmap str str) : Prop := {
  wf_domains : map_wf ks;
  wf_nets d ns : map_get ks d = Some ns -> map_wf ns /\ ns <> [];
  wf_connected : map_wf nets;
  wf_has_keys d n : map_get nets d = Some n -> exists ns, map_get ks d = Some ns /\ is_Some (map_get ns n);
}.

Definition wf st : Prop := wf_maps (keys st) (connectedNets st).
Definition wf_write (w : write) : Prop := wf_maps (w_keys w) (w_nets w).

Lemma map_set_ne {K V} `{EqDecision K} (m : jsmap K V) k v : map_set m k v <> [].
Proof. destruct m as [|[k' v'] m]; cbn; [done|]. by case_decide. Qed.

(** [keys[d]] is created and then assigned: one assignment. *)
Lemma storeKeys_keys st d n e :
  w_keys (storeKeys_write st d n e) =
  map_set (keys st) d (map_set (coalesce (map_get (keys st) d) []) n e).
Proof.
  unfold storeKeys_write. cbn. destruct (map_get (keys st) d) eqn:E; cbn; [by rewrite E|].
  by rewrite map_get_set_eq, map_set_set.
Qed.

Lemma storeKeys_wf st d n e : wf st -> wf_write (storeKeys_write st d n e).
Proof.
  intros [H1 H2 H3 H4]. unfold wf_write. rewrite storeKeys_keys. cbn [w_nets storeKeys_write].
  constructor; [eauto with resdb| |eauto with resdb|].
  - intros d' ns. destruct (decide (d = d')) as [<-|Hd]; [|rewrite map_get_set_ne by done; apply H2].
    rewrite map_get_set_eq. intros [= <-]. split; [|apply map_set_ne].
    destruct (map_get (keys st) d) as [ns|] eqn:E; cbn; [|apply NoDup_singleton].
    apply map_set_wf. by eapply H2.
  - intros d' n'. destruct (decide (d = d')) as [<-|Hd].
    + rewrite !map_get_set_eq. intros [= <-]. eexists. split; [done|]. rewrite map_get_set_eq. by eexists.
    + rewrite !map_get_set_ne by done. apply H4.
Qed.

Lemma length_0_keys {V} (m : jsmap str V) : (length (object_keys m) =? 0)%nat = true <-> m = [].
Proof. rewrite length_object_keys, Nat.eqb_eq. by destruct m. Qed.

(** What is left of a domain's keys. *)
Lemma disconnectKeys_get st d n w d' :
  disconnectKeys_write st d n = Some w ->
  exists ns e, map_get (keys st) d = Some ns /\ map_get ns n = Some e /\
    map_get (w_keys w) d' =
      (if decide (d = d') then (if bool_decide (map_delete ns n = []) then None else Some (map_delete ns n))
       else map_get (keys st) d') /\
    map_get (w_nets w) d' =
      (if decide (d = d') then (if bool_decide (map_get (connectedNets st) d = Some n) then None
                                else map_get (connectedNets st) d)
       else map_get (connectedNets st) d').
Proof.
  unfold disconnectKeys_write. destruct (map_get (keys st) d) as [ns|] eqn:E1; [|done].
  destruct (map_get ns n) as [e|] eqn:E2; [|done]. intros [= <-]. exists ns, e. cbn.
  split; [done|]. split; [done|]. split.
  - destruct (length (object_keys (map_delete ns n)) =? 0)%nat eqn:El.
    + apply length_0_keys in El. rewrite (bool_decide_eq_true_2 _ El). case_decide; subst.
      * apply map_get_delete_eq.
      * by rewrite map_get_delete_ne, map_get_set_ne.
    + rewrite bool_decide_eq_false_2 by (intros E; apply length_0_keys in E; congruence).
      case_decide; subst; [apply map_get_set_eq|by rewrite map_get_set_ne].
  - repeat case_bool_decide; case_decide; subst; try done.
    + apply map_get_delete_eq.
    + by rewrite map_get_delete_ne.
Qed.

Lemma disconnectKeys_wf st d n w : wf st -> disconnectKeys_write st d n = Some w -> wf_write w.
Proof.
  intros [H1 H2 H3 H4] E. pose proof (disconnectKeys_get st d n w) as G. constructor.
  - unfold disconnectKeys_write in E. repeat case_match; simplify_eq/=; eauto with resdb.
  - intros d' ns'. destruct (G d' E) as (ns & e & Hns & _ & -> & _).
    destruct (decide (d = d')); [|apply H2]. destruct (bool_decide (map_delete ns n = [])) eqn:Hb; [done|].
    split_bools. intros [= <-].
    split; [|done]. apply map_delete_wf. by eapply H2.
  - unfold disconnectKeys_write in E. repeat case_match; simplify_eq/=; eauto with resdb.
  - intros d' n'. destruct (G d' E) as (ns & e & Hns & He & -> & ->).
    destruct (decide (d = d')); [subst d'|apply H4].
    destruct (bool_decide (map_get (connectedNets st) d = _)) eqn:Hc; [done|]. split_bools. intros Hn'.
    destruct (H4 _ _ Hn') as (ns2 & Hns2 & [e' He']). rewrite Hns in Hns2. injection Hns2 as <-.
    assert (n <> n') as Hne by congruence.
    assert (map_get (map_delete ns n) n' = Some e') as Hg by by rewrite map_get_delete_ne.
    exists (map_delete ns n). rewrite bool_decide_eq_false_2 by (intros E0; by rewrite E0 in Hg).
    split; [done|by eexists].
Qed.

Lemma callback_wf f r st w reply : wf st -> callback f r st = (Some w, reply) -> wf_write w.
Proof.
  intros Hwf. unfold callback. destruct r; try done.
  - destruct (make_entry _ _ _ _); [|done]. intros [= <- <-]. by apply storeKeys_wf.
  - destruct (disconnectKeys_write _ _ _) eqn:E; [|done]. intros [= <- <-].
    by eapply disconnectKeys_wf.
Qed.

(** Writes still to land come from a well-formed copy. *)
Definition task_wf (t : task) : Prop :=
  match t with Writing _ w _ => wf_write w | _ => True end.

Lemma step_wf s s' : step s s' -> wf s.1 /\ Forall task_wf s.2 -> wf s'.1 /\ Forall task_wf s'.2.
Proof.
  destruct 1 as [st ts f r|st ts1 ts2 f r reply E|st ts1 ts2 f r w reply E|st ts1 ts2 r w reply|st ts icons url|st ts]; cbn;
    rewrite ?Forall_app, ?Forall_cons, ?Forall_nil; intros [Hwf Hts]; cbn in Hts |- *.
  - tauto.
  - tauto.
  - apply (callback_wf _ _ _ _ _ Hwf) in E. tauto.
  - destruct Hts as (H1 & Hw & H2). by split.
  - done.
  - split; [|done]. constructor; cbn; [constructor|done|constructor|done].
Qed.

Lemma steps_wf s s' : rtc step s s' -> wf s.1 /\ Forall task_wf s.2 -> wf s'.1 /\ Forall task_wf s'.2.
Proof. induction 1; eauto using step_wf. Qed.

Lemma wf_empty icons url : wf (Storage None None icons url).
Proof. constructor; cbn; [constructor|done|constructor|done]. Qed.
End invariant.

#[export] Hint Resolve storeKeys_wf disconnectKeys_wf callback_wf : resdb.

(** ** Reading back what was stored *)

Section readback.
Context `{B : Browser, !BrowserLaws B}.
Implicit Types (st : storage) (d n : str).

Lemma decrypt_encryptData s k v e : bytes_ok v -> encryptData s k v = Ok e -> decrypt_field e k = Ok s.
Proof.
  unfold encryptData, decrypt_field, decryptData. intros Hv.
  destruct (encrypt k v (text_encode s)) as [c|] eqn:E; [|done]. intros [= <-]. cbn.
  rewrite base64_roundtrip by (by eapply encrypt_bytes).
  unfold base64ToUint8Array, uint8ArrayToBase64. rewrite base64_roundtrip by done.
  rewrite (decrypt_encrypt _ _ _ _ E). cbn. by rewrite decode_encode.
Qed.

Definition fresh_ok (f : fresh) : Prop := bytes_ok (iv1 f) /\ bytes_ok (iv2 f) /\ bytes_ok (iv3 f).

(** The entry opens with the key stored next to it. *)
Lemma make_entry_opens f pk sk url e :
  fresh_ok f -> make_entry f pk sk url = Ok e ->
  exists k, importKey (exportedKey e) = Ok k /\ decrypt_field (e_publicKey e) k = Ok pk /\
    decrypt_field (e_privateKey e) k = Ok sk /\ decrypt_field (e_url e) k = Ok url.
Proof.
  intros (H1 & H2 & H3). unfold make_entry. destruct (f_key f) as [k|]; [|done].
  destruct (encryptData pk k _) as [a|] eqn:Ea; [|done].
  destruct (encryptData sk k _) as [b|] eqn:Eb; [|done].
  destruct (encryptData url k _) as [c|] eqn:Ec; [|done].
  destruct (exportKey k) as [j|] eqn:Ej; [|done]. intros [= <-]. exists k.
  split_and!; [by apply import_export|eapply decrypt_encryptData; [|eassumption]; done..].
Qed.

(** The answers for a domain whose entry opens. *)
Lemma requestData_opens st d n e k pk sk url :
  find_entry st d n = Some e -> importKey (exportedKey e) = Ok k -> decrypt_field (e_publicKey e) k = Ok pk ->
  decrypt_field (e_privateKey e) k = Ok sk -> decrypt_field (e_url e) k = Ok url ->
  requestData st d n = JObj [(js "publicKey", JStr pk); (js "privateKey", JStr sk); (js "url", JStr url);
    (js "faviconUrl", JStr (coalesce (map_get (storedFavicons st) d) []))].
Proof. intros He Hk H1 H2 H3. unfold requestData. by rewrite He, Hk, H1, H2, H3. Qed.

Lemma getPublicKey_opens st d e k pk :
  find_entry st d (net_of st d) = Some e -> importKey (exportedKey e) = Ok k ->
  decrypt_field (e_publicKey e) k = Ok pk ->
  getPublicKey st d = JObj [(js "success", JBool true); (js "publicKey", JStr pk)].
Proof. intros He Hk H1. unfold getPublicKey. by rewrite He, Hk, H1. Qed.

Lemma getSigningKeys_opens st d e k pk sk :
  find_entry st d (net_of st d) = Some e -> importKey (exportedKey e) = Ok k ->
  decrypt_field (e_publicKey e) k = Ok pk -> decrypt_field (e_privateKey e) k = Ok sk ->
  getSigningKeys st d = JObj [(js "success", JBool true); (js "privateKey", JStr sk); (js "publicKey", JStr pk)].
Proof. intros He Hk H1 H2. unfold getSigningKeys. by rewrite He, Hk, H2, H1. Qed.
End readback.

Section isolation.
Context `{B : Browser}.
Implicit Types (st : storage) (d n : str).

Lemma storeKeys_entry st d n e :
  find_entry (set_storage st (storeKeys_write st d n e)) d n = Some e /\
  map_get (connectedNets (set_storage st (storeKeys_write st d n e))) d = Some n.
Proof.
  unfold find_entry. change (keys (set_storage st ?w)) with (w_keys w). rewrite storeKeys_keys.
  cbn. by rewrite !map_get_set_eq.
Qed.

(** The domain whose keys a request changes. *)
Definition writes_domain (r : request) : option str :=
  match r with StoreKeys d _ _ _ _ | DisconnectKeys d _ => Some d | _ => None end.

Lemma handle_other_domain f r st d :
  writes_domain r <> Some d ->
  map_get (keys (handle f r st).1) d = map_get (keys st) d /\
  map_get (connectedNets (handle f r st).1) d = map_get (connectedNets st) d /\
  storedFavicons (handle f r st).1 = storedFavicons st.
Proof.
  unfold handle, callback. intros Hd. destruct r as [d' n pk sk url|d' n| | | |]; try done.
  - cbn in Hd. destruct (make_entry _ _ _ _) as [e|]; [|done]. cbn [fst commit].
    change (keys (set_storage st ?w)) with (w_keys w). rewrite storeKeys_keys. cbn.
    by rewrite !map_get_set_ne by congruence.
  - cbn in Hd. destruct (disconnectKeys_write _ _ _) as [w|] eqn:E; [|done]. cbn [fst commit].
    destruct (disconnectKeys_get _ _ _ _ d E) as (ns & e & _ & _ & H1 & H2).
    rewrite decide_False in H1 by congruence. rewrite decide_False in H2 by congruence. done.
Qed.

Definition run (rs : list (fresh * request)) st : storage :=
  foldl (fun st fr => (handle fr.1 fr.2 st).1) st rs.

(** Requests for other domains leave a domain as it is. *)
Lemma run_other_domain rs st d :
  Forall (fun fr => writes_domain fr.2 <> Some d) rs ->
  map_get (keys (run rs st)) d = map_get (keys st) d /\
  map_get (connectedNets (run rs st)) d = map_get (connectedNets st) d /\
  storedFavicons (run rs st) = storedFavicons st.
Proof.
  intros H. unfold run. revert st. induction H as [|[f r] rs Hr _ IH]; intros st; [done|]. cbn [foldl fst snd].
  destruct (IH (handle f r st).1) as (-> & -> & ->). by apply handle_other_domain.
Qed.
End isolation.

(** The entry and the net of a domain after its keys were stored and other
    domains were served. *)
Lemma stored_entry `{B : Browser} f d n pk sk url e st rs :
  make_entry f pk sk url = Ok e -> Forall (fun fr => writes_domain fr.2 <> Some d) rs ->
  let st' := run rs (handle f (StoreKeys d n pk sk url) st).1 in
  find_entry st' d n = Some e /\ map_get (connectedNets st') d = Some n /\ net_of st' d = n /\
  storedFavicons st' = storedFavicons st.
Proof.
  intros He Hrs st'.
  assert ((handle f (StoreKeys d n pk sk url) st).1 = set_storage st (storeKeys_write st d n e)) as E1
    by (unfold handle, callback; by rewrite He).
  unfold st'. rewrite E1. clear st' E1.
  destruct (run_other_domain rs (set_storage st (storeKeys_write st d n e)) d Hrs) as (Ek & Ec & ->).
  destruct (storeKeys_entry st d n e) as [Hent Hnet]. rewrite Hnet in Ec.
  unfold net_of. rewrite Ec. split_and!; [|done..].
  unfold find_entry in *. by rewrite Ek.
Qed.

(** What [disconnectKeys] leaves. *)
Section disconnect.
Context `{B : Browser}.
Implicit Types (st : storage) (d n : str).

Lemma disconnect_find st d n w d' n' :
  disconnectKeys_write st d n = Some w ->
  find_entry (set_storage st w) d' n' = if decide ((d', n') = (d, n)) then None else find_entry st d' n'.
Proof.
  intros Ew. unfold find_entry. change (keys (set_storage st w)) with (w_keys w).
  destruct (disconnectKeys_get st d n w d' Ew) as (ns & e & Hns & He & -> & _).
  destruct (decide (d = d')) as [<-|Hd]; [|by rewrite decide_False by congruence].
  rewrite Hns. destruct (decide ((d, n') = (d, n))) as [[= ->]|Hn'].
  - destruct (bool_decide (map_delete ns n = [])); [done|]. apply map_get_delete_eq.
  - assert (n <> n') by congruence. rewrite <- (map_get_delete_ne ns n n') by done.
    destruct (bool_decide (map_delete ns n = [])) eqn:Hb; [|done]. split_bools. by rewrite Hb.
Qed.

Lemma disconnect_none st d n : disconnectKeys_write st d n = None <-> find_entry st d n = None.
Proof. unfold disconnectKeys_write, find_entry. by repeat case_match. Qed.

Lemma disconnect_entry f d n st : find_entry (handle f (DisconnectKeys d n) st).1 d n = None.
Proof.
  unfold handle, callback. destruct (disconnectKeys_write st d n) as [w|] eqn:E; cbn.
  - by rewrite (disconnect_find _ _ _ _ _ _ E), decide_True.
  - by apply disconnect_none.
Qed.
End disconnect.

(** ** The properties *)

Section properties.
Context `{B : Browser}.
Implicit Types (st : storage) (d n : str).

(** C5: whatever requests arrive and however the callbacks of their handlers
    interleave, with the writes of the extension pages and the clearing of the
    storage in between, the storage stays well formed from the installation
    on: no name is bound twice, no domain is kept without keys, and every
    domain that is connected to a net has keys for that net. *)
Theorem storage_well_formed icons url st ts :
  rtc step (Storage None None icons url, []) (st, ts) ->
  wf st /\ (forall d n, map_get (connectedNets st) d = Some n -> is_Some (find_entry st d n)).
Proof.
  intros H.
  apply steps_wf in H as [Hwf _]; [|split; [apply wf_empty|done]]. cbn in Hwf.
  split; [done|]. intros d n Hn. unfold find_entry.
  destruct (wf_has_keys _ _ Hwf d n Hn) as (ns & -> & Hns). done.
Qed.

(** C6: keys that were stored are read back as they were given, through the
    encryption, base64 and key export in between: by [requestData] for the
    domain and net, and by [getPublicKey], [getSigningKeys] and
    [getConnectedNet] for the domain, after any later requests that store or
    disconnect keys of other domains only. *)
Theorem stored_keys_read_back {L : BrowserLaws B} f d n pk sk url e st rs :
  fresh_ok f -> make_entry f pk sk url = Ok e -> n <> [] ->
  Forall (fun fr => writes_domain fr.2 <> Some d) rs ->
  let st' := run rs (handle f (StoreKeys d n pk sk url) st).1 in
  requestData st' d n = JObj [(js "publicKey", JStr pk); (js "privateKey", JStr sk); (js "url", JStr url);
    (js "faviconUrl", JStr (coalesce (map_get (storedFavicons st) d) []))] /\
  getPublicKey st' d = JObj [(js "success", JBool true); (js "publicKey", JStr pk)] /\
  getSigningKeys st' d =
    JObj [(js "success", JBool true); (js "privateKey", JStr sk); (js "publicKey", JStr pk)] /\
  getConnectedNet st' d = JObj [(js "net", JStr n)].
Proof.
  intros Hf He Hn Hrs st'.
  destruct (make_entry_opens f pk sk url e Hf He) as (k & Hk & H1 & H2 & H3).
  destruct (stored_entry f d n pk sk url e st rs He Hrs) as (He' & Hn' & Hno & Ef). fold st' in He', Hn', Hno, Ef.
  split_and!.
  - rewrite (requestData_opens st' d n e k pk sk url) by done. by rewrite Ef.
  - eapply getPublicKey_opens; [by rewrite Hno|done..].
  - eapply getSigningKeys_opens; [by rewrite Hno|done..].
  - unfold getConnectedNet. rewrite Hn'. by destruct n.
Qed.

(** Disconnecting removes exactly the keys it names.  The request
    succeeds when there are such keys and is refused otherwise; afterwards
    they are gone and a second disconnect is refused, the keys of every other
    domain and net are as before, and when the domain was connected to this
    net it is connected to none, so that neither its public nor its signing
    keys are handed out (provided no net is called undefined). *)
Theorem disconnect_exact f d n st :
  let '(st', reply) := handle f (DisconnectKeys d n) st in
  match find_entry st d n with
  | None => st' = st /\ reply = failure (js "No keys found to disconnect")
  | Some _ =>
      reply = success /\ find_entry st' d n = None /\
      (handle f (DisconnectKeys d n) st').2 = failure (js "No keys found to disconnect") /\
      (forall d' n', (d', n') <> (d, n) -> find_entry st' d' n' = find_entry st d' n') /\
      (map_get (connectedNets st) d = Some n -> find_entry st d (js "undefined") = None ->
       map_get (connectedNets st') d = None /\
       getPublicKey st' d = failure no_wallet /\ getSigningKeys st' d = failure no_wallet)
  end.
Proof.
  destruct (handle f (DisconnectKeys d n) st) as [st' reply] eqn:E.
  unfold handle, callback in E.
  destruct (disconnectKeys_write st d n) as [w|] eqn:Ew; cbn in E; injection E as <- <-.
  2:{ by rewrite (proj1 (disconnect_none st d n)). }
  destruct (find_entry st d n) eqn:He; [|by rewrite (proj2 (disconnect_none st d n)) in Ew].
  pose proof (fun d' n' => disconnect_find st d n w d' n' Ew) as F.
  assert (find_entry (set_storage st w) d n = None) as F1 by (rewrite F; by rewrite decide_True).
  split_and!; [done|done| | |].
  - unfold handle, callback. by rewrite (proj2 (disconnect_none _ d n)).
  - intros d' n' Hne. rewrite F. by rewrite decide_False.
  - intros Hc Hu. destruct (disconnectKeys_get st d n w d Ew) as (ns & e2 & _ & _ & _ & Hcn).
    rewrite decide_True, bool_decide_eq_true_2 in Hcn by done.
    assert (find_entry (set_storage st w) d (net_of (set_storage st w) d) = None) as Fu.
    { unfold net_of. change (connectedNets (set_storage st w)) with (w_nets w). rewrite Hcn. cbn [coalesce].
      rewrite F. destruct (decide ((d, js "undefined") = (d, n))) as [|_]; [done|]. exact Hu. }
    unfold getPublicKey, getSigningKeys. by rewrite Fu.
Qed.

(** The handlers are not atomic.  When the callback of a [storeKeys] for
    one domain ran before a [disconnectKeys] of another domain wrote, and its
    own write lands afterwards, the disconnected keys are back and the domain
    is connected again, although both requests were answered with success;
    run one after the other, in either order, the keys are gone. *)
Theorem disconnect_undone f f' d n d' n' pk sk url e0 e st :
  d <> d' -> find_entry st d n = Some e0 -> map_get (connectedNets st) d = Some n ->
  make_entry f' pk sk url = Ok e ->
  let disconnect := DisconnectKeys d n in
  let store := StoreKeys d' n' pk sk url in
  (exists st', rtc step (st, []) (st', [Answered disconnect success; Answered store success]) /\
     find_entry st' d n = Some e0 /\ map_get (connectedNets st') d = Some n) /\
  find_entry (run [(f, disconnect); (f', store)] st) d n = None /\
  find_entry (run [(f', store); (f, disconnect)] st) d n = None.
Proof.
  intros Hd He Hn Hmk disconnect store.
  assert (exists w, disconnectKeys_write st d n = Some w) as [w Hw].
  { unfold find_entry in He. unfold disconnectKeys_write. destruct (map_get (keys st) d); [|done].
    rewrite He. eauto. }
  assert (forall st0, callback f' store st0 = (Some (storeKeys_write st0 d' n' e), success)) as Cs
    by (intros st0; unfold callback, store; by rewrite Hmk).
  assert (callback f disconnect st = (Some w, success)) as Cd by (unfold callback, disconnect; by rewrite Hw).
  assert (forall st0, find_entry (handle f disconnect st0).1 d n = None) as Hgone.
  { intros st0. pose proof (disconnect_entry f d n st0). done. }
  assert (forall st0, find_entry (handle f' store st0).1 d n = find_entry st0 d n) as Hother.
  { intros st0. unfold find_entry. destruct (handle_other_domain f' store st0 d) as (-> & _); [|done].
    cbn. congruence. }
  split; [|split; cbn; [by rewrite Hother|apply Hgone]].
  exists (set_storage (set_storage st w) (storeKeys_write st d' n' e)). split_and!.
  - eapply rtc_l; [apply (step_message _ [] f disconnect)|].
    eapply rtc_l; [apply (step_message _ [_] f' store)|]. cbn.
    eapply rtc_l; [apply (step_read_write _ [_] [] f' store _ _ (Cs st))|]. cbn.
    eapply rtc_l; [apply (step_read_write _ [] [_] f disconnect _ _ Cd)|]. cbn.
    eapply rtc_l; [apply (step_write _ [] [_])|]. cbn.
    apply rtc_once. apply (step_write _ [_] []).
  - unfold find_entry in *. change (keys (set_storage ?s ?w)) with (w_keys w). rewrite storeKeys_keys.
    by rewrite map_get_set_ne by congruence.
  - cbn. by rewrite map_get_set_ne by congruence.
Qed.
End properties.

(** ** Witnesses

    A browser whose cipher complements the bytes and whose text is read as
    the code points U+0000-U+00FF. *)

Definition toy_flip (p : list N) : list N := (fun b => 255 - b)%N <$> p.

Definition toy_browser : Browser := {|
  CryptoKey := N;
  JWK := N;
  encrypt := fun _ _ p => if bool_decide (bytes_ok p) then Ok (toy_flip p) else Throw (js "OperationError");
  decrypt := fun _ _ c => if bool_decide (bytes_ok c) then Ok (toy_flip c) else Throw (js "OperationError");
  exportKey := Ok;
  importKey := Ok;
  text_encode := fmap code;
  text_decode := fmap ascii_of_N;
  hostname := fun u => if startsWith u (js "https://") then head (split (drop 8 u) (js "/")) else None;
|}.

Lemma toy_flip_ok p : bytes_ok p -> bytes_ok (toy_flip p) /\ toy_flip (toy_flip p) = p.
Proof.
  unfold toy_flip. induction 1 as [|b p Hb Hp [IH1 IH2]]; [by repeat constructor|]. cbn. unfold byte_ok in Hb.
  split; [constructor; [unfold byte_ok; lia|done]|]. f_equal; [lia|done].
Qed.

Lemma toy_laws : BrowserLaws toy_browser.
Proof.
  constructor; cbn.
  - intros _ _ p c. case_bool_decide as H; [|done]. intros [= <-].
    destruct (toy_flip_ok p H) as [H1 H2]. by rewrite bool_decide_eq_true_2, H2.
  - intros _ _ p c. case_bool_decide as H; [|done]. intros [= <-]. by apply toy_flip_ok.
  - intros k j [= ->]. done.
  - apply fmap_ascii_code.
Defined.

Definition toy_fresh : fresh (B := toy_browser) :=
  @Fresh toy_browser (Ok 7%N) (repeat 1%N 12) (repeat 2%N 12) (repeat 3%N 12).
Definition toy_entry (pk sk url : str) : entry (B := toy_browser) :=
  match make_entry (B := toy_browser) toy_fresh pk sk url with
  | Ok e => e
  | Throw _ => @Entry toy_browser (Encrypted [] []) (Encrypted [] []) (Encrypted [] []) 0%N
  end.
Definition toy_storage : storage (B := toy_browser) :=
  @Storage toy_browser (Some [(js "a.org", [(js "main", toy_entry (js "pk") (js "sk") (js "url"))])])
    (Some [(js "a.org", js "main")]) None None.

(** A message arriving right after the installation. *)
Lemma storage_well_formed_witness :
  rtc (step (B := toy_browser)) (@Storage toy_browser None None None None, [])
    (@Storage toy_browser None None None None, [Waiting toy_fresh (GetConnectedNet (js "a.org"))]) /\
  wf (B := toy_browser) (@Storage toy_browser None None None None).
Proof.
  assert (rtc (step (B := toy_browser)) (@Storage toy_browser None None None None, [])
    (@Storage toy_browser None None None None, [Waiting toy_fresh (GetConnectedNet (js "a.org"))])) as H
    by (apply rtc_once, (step_message (B := toy_browser) _ [])).
  split; [exact H|]. exact (proj1 (storage_well_formed (B := toy_browser) None None _ _ H)).
Defined.

Lemma stored_keys_read_back_witness :
  make_entry (B := toy_browser) toy_fresh (js "pk") (js "sk") (js "url") = Ok (toy_entry (js "pk") (js "sk") (js "url")) /\
  getPublicKey (B := toy_browser) (run [(toy_fresh, DisconnectKeys (js "a.org") (js "main"))]
    (handle toy_fresh (StoreKeys (js "b.org") (js "main") (js "pk") (js "sk") (js "url")) toy_storage).1) (js "b.org") =
  JObj [(js "success", JBool true); (js "publicKey", JStr (js "pk"))].
Proof.
  assert (make_entry (B := toy_browser) toy_fresh (js "pk") (js "sk") (js "url") =
    Ok (toy_entry (js "pk") (js "sk") (js "url"))) as He by (vm_compute; reflexivity).
  split; [exact He|].
  refine (proj1 (proj2 (stored_keys_read_back (B := toy_browser) (L := toy_laws) toy_fresh (js "b.org") (js "main")
    (js "pk") (js "sk") (js "url") _ toy_storage [(toy_fresh, DisconnectKeys (js "a.org") (js "main"))] _ He _ _))).
  - repeat split; repeat constructor.
  - done.
  - repeat constructor. done.
Defined.

Lemma disconnect_undone_witness :
  find_entry (B := toy_browser) toy_storage (js "a.org") (js "main") = Some (toy_entry (js "pk") (js "sk") (js "url")) /\
  find_entry (B := toy_browser) (run [(toy_fresh, DisconnectKeys (js "a.org") (js "main"));
    (toy_fresh, StoreKeys (js "b.org") (js "main") (js "pk") (js "sk") (js "url"))] toy_storage)
    (js "a.org") (js "main") = None.
Proof.
  assert (find_entry (B := toy_browser) toy_storage (js "a.org") (js "main") =
    Some (toy_entry (js "pk") (js "sk") (js "url"))) as He by (vm_compute; reflexivity).
  split; [exact He|].
  refine (proj1 (proj2 (disconnect_undone (B := toy_browser) toy_fresh toy_fresh (js "a.org") (js "main")
    (js "b.org") (js "main") (js "pk") (js "sk") (js "url") _ (toy_entry (js "pk") (js "sk") (js "url"))
    toy_storage _ He _ _))).
  - done.
  - vm_compute. reflexivity.
  - vm_compute. reflexivity.
Defined.
