(* ===== verification/WalletTx.v ===== *)
(** * The transactions of the ResVault extension

    The handlers of src/ecosystem/tools/resvault/public/background.js that
    talk to ResilientDB: [submitTransactionFromDashboard], [submitTransaction],
    [submitLoginTransaction], [deployContractChain] and
    [executeContractFunction], over [callKVService] and [callContractService].
    Each gives the requests it sent, in order, and its answer.

    [fetch] and [JSON.parse] are parameters, as is the text of a value that is
    not a string; a field of a message is a string or a number, [None] when it
    is absent or null.  Texts are written with a backtick for the quotation
    mark and [|n] for a line break. *)

From S2P Require Import Prelude JsString JsArray JsNum Json Http Codec Wallet.

Definition jsq (s : string) : str := (fun c => if bool_decide (c = "`"%char) then quote else c) <$> jsn s.
Arguments jsq s%_string_scope.

(** ** Messages *)

Inductive scalar := SStr (s : str) | SNum (n : num).

Definition scalar_truthy (v : option scalar) : bool :=
  match v with None => false | Some (SStr s) => negb (bool_decide (s = [])) | Some (SNum n) => truthy_num n end.

(** What the browser says of the sender of a message. *)
Record sender := Sender { tab_url : option str; sender_url : option str; origin : option str }.

Record transactionData := TransactionData {
  t_asset : option scalar;
  t_recipientAddress : option scalar;
  t_amount : option scalar;
}.

Record KVConfig := KV { kv_command : str; kv_address : option str; kv_balance : option str }.

Record ContractConfig := CC {
  cc_command : str;
  cc_address : option str;
  cc_balance : option str;
  contract_path : option str;
  contract_name : option str;
  init_params : option str;
  owner_address : option str;
  caller_address : option str;
  contract_address : option str;
  func_name : option str;
  params : option str;
}.

(** What [fetch] resolves to. *)
Record fetched := Fetched { f_status : Z; f_statusText : str; f_text : result str }.
Definition f_ok (r : fetched) : bool := ((200 <=? f_status r) && (f_status r <=? 299))%Z.

(** [`${v}`] for an optional string. *)
Definition shown (v : option str) : str := coalesce v (js "undefined").

Definition gql_request (u query : str) : Http.request :=
  Request (js "POST") u json_headers (Some (js "{" ++ q "query" ++ js ":" ++ json_string query ++ js "}")).

Definition no_address : str := js "0x0000000000000000000000000000000000000000".

(** ** The mutations *)

Definition kv_query (uuid : str) (c : KVConfig) (signerPublicKey : option str) : str :=
  jsq "mutation { |n                    postTransaction(|n                        data: {|n                            asset: `ResDB`,|n                            id: `"
  ++ uuid ++ jsq "`,|n                            amount: `"
  ++ str_or (kv_balance c) (js "0") ++
  jsq "`,|n                            operation: `TRANSFER`,|n                            recipient: `"
  ++ str_or (kv_address c) no_address ++
  jsq "`,|n                            type: `CREATE`,|n                            signerPublicKey: `"
  ++ str_or signerPublicKey [] ++
  jsq "`|n                        }|n                    ) { |n                        id |n                    } |n                }".

Definition service_config : str := jsq "config: `/opt/resilientdb/service/tools/config/interface/service.config`".

(** [None] is an unknown command. *)
Definition contract_query (c : ContractConfig) : option str :=
  if bool_decide (cc_command c = js "create_account") then
    Some (js "mutation { createAccount(" ++ service_config ++ js ") }")
  else if bool_decide (cc_command c = js "set_balance") then
    Some (jsq "mutation { |n                    setBalance(|n                        " ++ service_config ++
      jsq ",|n                        address: `" ++ shown (cc_address c) ++
      jsq "`,|n                        balance: `" ++ shown (cc_balance c) ++
      jsq "`|n                    )|n                }")
  else if bool_decide (cc_command c = js "deploy") then
    Some (jsq "mutation { |n                    deployContract(|n                        " ++ service_config ++
      jsq ",|n                        contract: `" ++ str_or (contract_path c) (js "contract.json") ++
      jsq "`, |n                        name: `" ++ shown (contract_name c) ++
      jsq "`, |n                        arguments: `" ++ str_or (init_params c) [] ++
      jsq "`, |n                        owner: `" ++ shown (owner_address c) ++
      jsq "`|n                    ) { |n                        ownerAddress|n                        contractAddress |n                        contractName|n                    } |n                }")
  else if bool_decide (cc_command c = js "execute") then
    Some (jsq "mutation { |n                    executeContract(|n                        " ++ service_config ++
      jsq ",|n                        sender: `" ++ shown (caller_address c) ++
      jsq "`, |n                        contract: `" ++ shown (contract_address c) ++
      jsq "`, |n                        functionName: `" ++ shown (func_name c) ++
      jsq "`, |n                        arguments: `" ++ str_or (params c) [] ++
      jsq "`|n                    ) |n                }")
  else None.

(** [s.replace(/QQQ/g, '\\QQQ')] with Q a quotation mark. *)
Fixpoint escape_block (s : str) : str :=
  match s with
  | c1 :: ((c2 :: c3 :: s') as rest) =>
      if bool_decide (c1 = quote) && bool_decide (c2 = quote) && bool_decide (c3 = quote)
      then backslash :: quote :: quote :: quote :: escape_block s'
      else c1 :: escape_block rest
  | c :: s' => c :: escape_block s'
  | [] => []
  end.

Definition compile_query (soliditySource : str) : str :=
  jsq "mutation { compileContract(source: ```|n" ++
  escape_block (replace_char soliditySource backslash [backslash; backslash]) ++
  jsq "|n```, type: `data`) }".

Definition escaped (s : str) : str := escapeGraphQLString (Some s).

Definition create_query : str :=
  jsq "mutation { createAccount(config: `" ++ escaped (getResDBConfigJson (Some (js "5 127.0.0.1 10005"))) ++
  jsq "`, type: `data`) }".

(** [contract_name.split(':')[1] || contract_name] *)
Definition short_name (name : str) : str := str_or (split name (js ":") !! 1) name.

Definition deploy_query (filename name args owner : str) : str :=
  jsq "|n                    mutation {|n                      deployContract(|n                                config: `"
  ++ escaped (getResDBConfigJson (Some (js "5 127.0.0.1 10005"))) ++
  jsq "`,|n                                contract: `" ++ escaped filename ++
  jsq "`,|n                                name: `/tmp/" ++ replace_first filename (js ".json") (js ".sol") ++ js ":" ++
  short_name name ++
  jsq "`,|n                                arguments: `" ++ escaped args ++
  jsq "`,|n                                owner: `" ++ escaped owner ++
  jsq "`,|n                                type: `data`|n                            ) {|n                        ownerAddress|n                        contractAddress|n                        contractName|n                      }|n                    }|n                    ".

(** ** Reading answers *)

(** [v[0]] *)
Definition index0 (v : option json) : option json :=
  match v with
  | Some (JArr (x :: _)) => Some x
  | Some (JStr (c :: _)) => Some (JStr [c])
  | Some (JObj o) => map_get o (js "0")
  | _ => None
  end.

(** [v && v.length], as a condition. *)
Definition has_length (v : option json) : bool :=
  match v with
  | Some (JArr l) => negb (bool_decide (length l = 0))
  | Some (JStr s) => negb (bool_decide (s = []))
  | Some (JObj o) => truthy (map_get o (js "length"))
  | _ => false
  end.

Definition failure_v (e : option json) : json :=
  JObj (present [(js "success", Some (JBool false)); (js "error", e)]).

Definition not_a_function (what : str) : str := what ++ js ".replace is not a function".

(** [d && d[key]] *)
Definition and_prop (d : option json) (key : str) : option json :=
  if truthy d then opt_prop d key else d.

Section services.
Context `{B : Browser}.
Context (fetch : Http.request -> result fetched) (JSON_parse : str -> result json).
(** [String(v)], [JSON.stringify(v)] and [n.toString()]. *)
Context (String_of stringify : option json -> str) (showNum : num -> str).
(** The identifiers drawn for the query and for the answer. *)
Context (uuid uuid' : str).

(** [v.toString()]; [None] throws. *)
Definition scalar_text (v : option scalar) : result str :=
  match v with
  | None => Throw (js "Cannot read properties of undefined (reading 'toString')")
  | Some (SStr s) => Ok s
  | Some (SNum n) => Ok (showNum n)
  end.
Definition scalar_str (v : option scalar) : option str :=
  match scalar_text v with Ok s => Some s | Throw _ => None end.

Definition as_text (v : option json) : str := match v with Some (JStr s) => s | _ => String_of v end.

(** The body of an answer as JSON. *)
Definition read_json (r : fetched) : result json :=
  match f_text r with
  | Throw e => Throw e
  | Ok text =>
      match JSON_parse text with
      | Ok v => Ok v
      | Throw _ => Throw (js "Server returned non-JSON: " ++
                     match text with [] => f_statusText r | _ => slice text 0 200 end)
      end
  end.

(** [{ success: false, error: result.errors[0].message }] *)
Definition first_error (errors : option json) : result json :=
  match get_prop (index0 errors) (js "message") with
  | Ok m => Ok (failure_v m)
  | Throw e => Throw e
  end.

Definition other_result (v : json) : result json :=
  match get_prop (Some v) (js "errors") with
  | Throw e => Throw e
  | Ok errors =>
      if truthy errors then first_error errors
      else Ok (JObj [(js "success", JBool true); (js "data", v)])
  end.

Definition kv_result (v : json) : result json :=
  match get_prop (Some v) (js "data") with
  | Throw e => Throw e
  | Ok d =>
      let t := and_prop d (js "postTransaction") in
      if truthy t
      then Ok (JObj (present [(js "success", Some (JBool true)); (js "transactionId", opt_prop t (js "id"))]))
      else other_result v
  end.

Definition network_error (r : fetched) : str := js "Network response was not ok: " ++ f_statusText r.

Definition callKVService (u : str) (c : KVConfig) (signerPublicKey : option str) : list Http.request * result json :=
  if bool_decide (kv_command c = js "set_balance") then
    let rq := gql_request u (kv_query uuid c signerPublicKey) in
    ([rq], match fetch rq with
           | Throw e => Throw e
           | Ok r =>
               if f_ok r then (try! v <- read_json r; kv_result v)%js else Throw (network_error r)
           end)
  else ([], Throw (js "Unknown KV command: " ++ kv_command c)).

Definition unavailable : str :=
  js "Contract service is currently unavailable. Please try again later or use local development.".

Definition contract_result (v : json) : result json :=
  match get_prop (Some v) (js "data") with
  | Throw e => Throw e
  | Ok d =>
      if truthy d then
        let field (k : string) := opt_prop d (js k) in
        let sub (k p : string) := opt_prop (field k) (js p) in
        if truthy (field "createAccount") then
          Ok (JObj (present [(js "success", Some (JBool true)); (js "accountAddress", field "createAccount")]))
        else if truthy (field "setBalance") then
          Ok (JObj (present [(js "success", Some (JBool true)); (js "result", field "setBalance")]))
        else if truthy (field "deployContract") then
          Ok (JObj (present [(js "success", Some (JBool true));
            (js "contractAddress", sub "deployContract" "contractAddress");
            (js "ownerAddress", sub "deployContract" "ownerAddress");
            (js "contractName", sub "deployContract" "contractName")]))
        else if truthy (field "executeContract") then
          Ok (JObj (present [(js "success", Some (JBool true)); (js "result", field "executeContract")]))
        else other_result v
      else other_result v
  end.

Definition callContractService (u : str) (c : ContractConfig) : list Http.request * result json :=
  match contract_query c with
  | None => ([], Throw (js "Unknown command: " ++ cc_command c))
  | Some query =>
      let rq := gql_request u query in
      ([rq], match fetch rq with
             | Throw e => Throw e
             | Ok r =>
                 if f_ok r then (try! v <- read_json r; contract_result v)%js
                 else if (f_status r =? 502)%Z then Throw unavailable
                 else Throw (network_error r)
             end)
  end.

(** ** Submitting transactions *)

(** The answer for what [callKVService] returned or threw. *)
Definition kv_answer (fallback : str) (r : result json) : json :=
  match r with
  | Throw e => failure e
  | Ok res =>
      if truthy (prop res (js "success")) then
        JObj [(js "success", JBool true);
              (js "data", JObj [(js "postTransaction", JObj (present
                [(js "id", js_or (prop res (js "transactionId")) (Some (JStr uuid')))]))])]
      else failure_v (js_or (prop res (js "error")) (Some (JStr fallback)))
  end.

Definition submit_kv (fallback u : str) (c : KVConfig) (signer : option str) : list Http.request * json :=
  let '(rqs, r) := callKVService u c signer in (rqs, kv_answer fallback r).

(** The guards of the requests that name a domain and a net. *)
Definition connected_entry (st : storage) (domain net : str) : result entry :=
  match map_get (connectedNets st) domain with
  | Some (c :: m) =>
      if bool_decide (c :: m = net) then
        match find_entry st domain net with
        | Some e => Ok e
        | None => Throw (js "Keys not found for the specified domain and net.")
        end
      else Throw (js "Not connected to the specified net for this domain.")
  | _ => Throw (js "Not connected to the specified net for this domain.")
  end.

Definition open_url (e : entry) : result str :=
  (try! k <- importKey (exportedKey e); decrypt_field (e_url e) k)%js.

Definition open_public (e : entry) : result (str * str) :=
  (try! k <- importKey (exportedKey e);
   try! pk <- decrypt_field (e_publicKey e) k;
   try! u <- decrypt_field (e_url e) k;
   Ok (pk, u))%js.

(** [url.replace('8400', '8000')]: from the contract to the KV endpoint. *)
Definition kv_url (u : str) : str := replace_first u (js "8400") (js "8000").

Definition submitTransactionFromDashboard (st : storage) (td : option transactionData) (domain net : str)
    : list Http.request * json :=
  match td with
  | None => ([], failure (js "Invalid transaction data."))
  | Some t =>
      if negb (scalar_truthy (t_asset t)) || negb (scalar_truthy (t_recipientAddress t)) ||
         negb (scalar_truthy (t_amount t))
      then ([], failure (js "Invalid transaction data."))
      else match connected_entry st domain net with
           | Throw e => ([], failure e)
           | Ok e =>
               match open_public e with
               | Throw m => ([], failure m)
               | Ok (pk, u) =>
                   match scalar_text (t_amount t) with
                   | Throw m => ([], failure m)
                   | Ok amount =>
                       submit_kv (js "Transaction failed") (kv_url u)
                         (KV (js "set_balance") (scalar_str (t_recipientAddress t)) (Some amount)) (Some pk)
                   end
               end
           end
  end.

(** The URL of the page a message comes from. *)
Definition senderUrl (s : sender) : option str :=
  match tab_url s, sender_url s, origin s with
  | Some (c :: u), _, _ => Some (c :: u)
  | _, Some (c :: u), _ => Some (c :: u)
  | _, _, Some (c :: u) => Some (c :: u)
  | _, _, _ => None
  end.

Definition no_sender : json := failure (js "Cannot determine sender URL").

Definition submitTransaction (st : storage) (s : sender) (amount recipient : option scalar)
    : list Http.request * json :=
  match senderUrl s with
  | None => ([], no_sender)
  | Some su =>
      let domain := getBaseDomain su in
      match find_entry st domain (net_of st domain) with
      | None => ([], JObj [(js "error", JStr (js "No keys found for domain and net"))])
      | Some e =>
          match open_public e with
          | Throw m => ([], failure m)
          | Ok (pk, u) =>
              if scalar_truthy recipient then
                match scalar_text amount with
                | Throw m => ([], failure m)
                | Ok a =>
                    submit_kv (js "Transaction failed") (kv_url u)
                      (KV (js "set_balance") (scalar_str recipient) (Some a)) (Some pk)
                end
              else ([], failure (js "Missing required fields for transaction"))
          end
      end
  end.

Definition mainnet : str := js "https://cloud.resilientdb.com/graphql".

(** [store_publicKey] is [store.publicKey] of [chrome.storage.sync]. *)
Definition submitLoginTransaction (st : storage) (store_publicKey : option str) (s : sender)
    (ownerAddress : option str) : list Http.request * json :=
  match senderUrl s with
  | None => ([], no_sender)
  | Some _ =>
      match store_publicKey with
      | Some (c :: pk) =>
          submit_kv (js "Login transaction failed") (str_or (activeNetUrl st) mainnet)
            (KV (js "set_balance") (Some (str_or ownerAddress no_address)) (Some (js "1"))) (Some (c :: pk))
      | _ => ([], failure (js "User not authenticated. Please log in to ResVault first."))
      end
  end.

Definition executeContractFunction (st : storage) (domain net : str)
    (ownerAddress contractAddress functionName functionArgs : option str) : list Http.request * json :=
  match connected_entry st domain net with
  | Throw e => ([], failure e)
  | Ok e =>
      match open_url e with
      | Throw m => ([], failure m)
      | Ok u =>
          let '(rqs, r) := callContractService u
            (CC (js "execute") None None None None None None ownerAddress contractAddress functionName functionArgs) in
          (rqs, match r with
                | Throw m => failure m
                | Ok res =>
                    if truthy (prop res (js "success")) then
                      JObj (present [(js "success", Some (JBool true));
                        (js "transactionId", js_or (prop res (js "transactionId")) (Some (JStr uuid')));
                        (js "result", prop res (js "result"));
                        (js "message", Some (JStr (js "Contract function executed successfully.")))])
                    else failure (js "Failed to execute contract function: " ++
                           as_text (js_or (prop res (js "error")) (Some (JStr (js "Unknown error")))))
                end)
      end
  end.

(** ** Deploying a contract

    The chain in a monad of its own: the requests sent so far, and a value to
    go on with or the answer that ends the handler.  An exception ends it with
    its message, by the [catch] around the chain. *)

Definition D (A : Type) : Type := list Http.request * (A + json).
Definition answer {A} (reply : json) : D A := ([], inr reply).
Definition attempt {A} (r : result A) : D A :=
  match r with Ok a => ([], inl a) | Throw e => ([], inr (failure e)) end.
Definition post (u query : str) : D fetched :=
  let rq := gql_request u query in ([rq], match fetch rq with Ok r => inl r | Throw e => inr (failure e) end).

#[export] Instance D_ret : MRet D := fun A a => ([], inl a).
#[export] Instance D_bind : MBind D := fun A B k c =>
  match c with
  | (rqs, inl a) => let '(rqs', r) := k a in (rqs ++ rqs', r)
  | (rqs, inr reply) => (rqs, inr reply)
  end.

(** [JSON.parse] of the text of a response, with the answer to give when it
    is not JSON. *)
Definition parse_or (r : fetched) (reply : str -> json) : D (str * json) :=
  text ← attempt (f_text r);
  match JSON_parse text with
  | Ok v => mret (text, v)
  | Throw e => answer (reply e)
  end.

(** The answer when the result has errors; [prefix] is what it starts with
    and [show] prints an error without a message. *)
Definition stop_on_errors (prefix : str) (show : option json -> str) (v : json) : D unit :=
  errors ← attempt (get_prop (Some v) (js "errors"));
  if has_length errors then
    m ← attempt (get_prop (index0 errors) (js "message"));
    answer (failure (prefix ++ (if truthy m then as_text m else show (index0 errors))))
  else mret tt.

Definition check_ok (r : fetched) : D unit :=
  if f_ok r then mret tt else answer (failure (network_error r)).

(** [result.data && result.data[key]] *)
Definition data_field (v : json) (key : str) : D (option json) :=
  d ← attempt (get_prop (Some v) (js "data")); mret (and_prop d key).

Definition string_arg (what : str) (v : option json) : result str :=
  match v with Some (JStr s) => Ok s | _ => Throw (not_a_function what) end.

Definition no_config : str :=
  js "Cannot destructure property 'arguments' of 'request.deployConfig' as it is undefined.".

Definition defined {A} (property : str) (v : option A) : result A :=
  match v with
  | Some a => Ok a
  | None => Throw (js "Cannot read properties of undefined (reading '" ++ property ++ js "')")
  end.

Definition createAccount (u : str) : D (option json) :=
  r ← post u create_query;
  '(text, v) ← parse_or r (fun _ => failure (js
    "Server returned invalid response (not JSON) for createAccount. Check the GraphQL endpoint."));
  _ ← stop_on_errors (js "Error creating account: ") String_of v;
  address ← data_field v (js "createAccount");
  if truthy address then mret address
  else answer (failure (js "Create account did not return an address. Response: " ++
         str_or (Some (substring text 0 200)) (js "empty"))).

Definition compileContract (u : str) (soliditySource : option str) : D (option json) :=
  source ← attempt (defined (js "replace") soliditySource);
  r ← post u (compile_query source);
  _ ← check_ok r;
  '(_, v) ← parse_or r (fun e => JObj [(js "success", JBool false); (js "error", JStr (js
    "Server returned invalid response (not JSON). Check the server URL (e.g. .../graphql) and that the Smart Contract GraphQL API is running."));
    (js "detail", JStr e)]);
  _ ← stop_on_errors (js "Compile failed: ") stringify v;
  filename ← data_field v (js "compileContract");
  if truthy filename then mret filename else answer (failure (js "Failed to compile contract.")).

(** The answer for what the deployment returned. *)
Definition deploy_answer (ownerAddress name : option str) (d : json) : json :=
  let unnamed (what : string) := JObj (present
    [(js "success", Some (JBool true)); (js "contractAddress", Some (JStr (js what)));
     (js "ownerAddress", JStr <$> ownerAddress); (js "contractName", JStr <$> name);
     (js "rawResponse", Some d)]) in
  match d with
  | JStr _ => unnamed "deployment_successful"%string
  | _ =>
      if truthy (prop d (js "contractAddress")) then
        JObj (present [(js "success", Some (JBool true)); (js "contractAddress", prop d (js "contractAddress"));
          (js "ownerAddress", prop d (js "ownerAddress")); (js "contractName", prop d (js "contractName"))])
      else unnamed "deployed_successfully"%string
  end.

Definition deployContract (u : str) (ownerAddress : option str) (account filename : option json)
    (name args : option str) : D json :=
  name ← attempt (defined (js "replace") name);
  args ← attempt (defined (js "replace") args);
  owner ← attempt (string_arg (js "createdAccountAddress") account);
  file ← attempt (string_arg (js "contractFilename") filename);
  r ← post u (deploy_query file name args owner);
  _ ← check_ok r;
  '(_, v) ← parse_or r (fun _ => failure (js
    "Server returned invalid response (not JSON) for deploy. Deployment may have succeeded; check the server. If this persists, check the GraphQL endpoint."));
  _ ← stop_on_errors (js "Deploy failed: ") String_of v;
  d ← data_field v (js "deployContract");
  match d with
  | Some dv =>
      if truthy d then mret (deploy_answer ownerAddress (Some name) dv)
      else answer (failure (js "Failed to parse deployment output."))
  | None => answer (failure (js "Failed to parse deployment output."))
  end.

(** [deployConfig] is the pair of [arguments] and [contract_name]. *)
Definition deployContractChain (st : storage) (domain net : str) (ownerAddress soliditySource : option str)
    (deployConfig : option (option str * option str)) : list Http.request * json :=
  let chain : D json :=
    e ← attempt (connected_entry st domain net);
    u ← attempt (open_url e);
    account ← createAccount u;
    '(args, name) ← attempt (match deployConfig with Some c => Ok c | None => Throw no_config end);
    filename ← compileContract u soliditySource;
    deployContract u ownerAddress account filename name args in
  (chain.1, match chain.2 with inl reply | inr reply => reply end).
End services.

(** ** What the server reads

    The lexer of a GraphQL block string, after its three opening quotation
    marks: a backslash is an ordinary character, except in front of three
    quotation marks, which then do not end the string.  The value is before
    the removal of common indentation. *)

Definition is_qqq (c1 c2 c3 : ascii) : bool :=
  bool_decide (c1 = quote) && bool_decide (c2 = quote) && bool_decide (c3 = quote).

Fixpoint gql_block (s : str) : option (str * str) :=
  match s with
  | c1 :: ((c2 :: ((c3 :: s3) as s2)) as s1) =>
      if is_qqq c1 c2 c3 then Some ([], s3)
      else match s3 with
           | c4 :: s4 =>
               if bool_decide (c1 = backslash) && is_qqq c2 c3 c4
               then match gql_block s4 with Some (v, r) => Some (quote :: quote :: quote :: v, r) | None => None end
               else match gql_block s1 with Some (v, r) => Some (c1 :: v, r) | None => None end
           | [] => match gql_block s1 with Some (v, r) => Some (c1 :: v, r) | None => None end
           end
  | _ => None
  end.

Lemma escape_block_qqq s : escape_block (quote :: quote :: quote :: s) =
  backslash :: quote :: quote :: quote :: escape_block s.
Proof. done. Qed.

Lemma escape_block_cons c s :
  (forall s', c :: s <> quote :: quote :: quote :: s') -> escape_block (c :: s) = c :: escape_block s.
Proof.
  intros H. destruct s as [|c2 [|c3 s]]; [done..|]. cbn [escape_block].
  destruct (bool_decide (c = quote)) eqn:E1, (bool_decide (c2 = quote)) eqn:E2,
    (bool_decide (c3 = quote)) eqn:E3; try done.
  split_bools. subst. by destruct (H s).
Qed.

Lemma qqq_dec s : (exists s', s = quote :: quote :: quote :: s') \/ (forall s', s <> quote :: quote :: quote :: s').
Proof.
  destruct (is_prefix [quote; quote; quote] s) eqn:E.
  - left. by apply is_prefix_spec in E.
  - right. intros s' ->. by destruct s'.
Qed.

(** A quotation mark at the head of an escaped text was there before, and not
    in front of two others. *)
Lemma escape_block_head s tail x :
  escape_block s ++ newline :: tail = quote :: x ->
  exists s', s = quote :: s' /\ x = escape_block s' ++ newline :: tail /\
    forall s'', s <> quote :: quote :: quote :: s''.
Proof.
  intros H. destruct s as [|c s]; [done|].
  destruct (qqq_dec (c :: s)) as [[s' E]|E].
  - rewrite E, escape_block_qqq in H. done.
  - rewrite escape_block_cons in H by done. cbn in H. injection H as -> <-. by exists s.
Qed.

Lemma gql_block_cons c u v r :
  gql_block u = Some (v, r) -> (forall x, c :: u <> quote :: quote :: quote :: x) ->
  (forall x, c :: u <> backslash :: quote :: quote :: quote :: x) -> gql_block (c :: u) = Some (c :: v, r).
Proof.
  intros H Hq Hb. destruct u as [|c2 [|c3 u]]; [done..|].
  cbn [gql_block]. cbn [gql_block] in H.
  destruct (is_qqq c c2 c3) eqn:E1.
  { unfold is_qqq in E1. split_bools. subst. by destruct (Hq u). }
  destruct u as [|c4 u].
  - by rewrite H.
  - destruct (bool_decide (c = backslash) && is_qqq c2 c3 c4) eqn:E2; [|by rewrite H].
    unfold is_qqq in E2. split_bools. subst. by destruct (Hb u).
Qed.

(** The block string holds the text that was escaped. *)
Lemma escape_block_lexes t rest :
  gql_block (escape_block t ++ newline :: quote :: quote :: quote :: rest) = Some (t ++ [newline], rest).
Proof.
  induction t as [t IH] using (induction_ltof1 _ (@length ascii)). unfold ltof in IH.
  destruct (qqq_dec t) as [[t' ->]|Hq].
  { rewrite escape_block_qqq. cbn. by rewrite (IH t') by (cbn; lia). }
  destruct t as [|c t]; [done|].
  rewrite escape_block_cons by done. cbn [app]. apply gql_block_cons; [apply IH; cbn; lia| |].
  - intros x [= -> H]. apply escape_block_head in H as (t1 & -> & H & _).
    symmetry in H. apply escape_block_head in H as (t2 & -> & _). by destruct (Hq t2).
  - intros x [= -> H]. apply escape_block_head in H as (t1 & -> & H & Hn).
    symmetry in H. apply escape_block_head in H as (t2 & -> & H & _).
    symmetry in H. apply escape_block_head in H as (t3 & -> & _). by destruct (Hn t3).
Qed.

(** ** Storages without their private keys *)

Section private.
Context `{B : Browser}.

Definition erase_entry (e : entry) : entry :=
  Entry (e_publicKey e) (Encrypted [] []) (e_url e) (exportedKey e).
Definition map_fmap {K V W} (f : V -> W) (m : jsmap K V) : jsmap K W := prod_map id f <$> m.
Definition erase_private (st : storage) : storage :=
  Storage (map_fmap (map_fmap erase_entry) <$> s_keys st) (s_connectedNets st) (s_faviconUrls st) (activeNetUrl st).

Lemma map_get_fmap {K V W} `{EqDecision K} (f : V -> W) (m : jsmap K V) k :
  map_get (map_fmap f m) k = f <$> map_get m k.
Proof. unfold map_fmap. induction m as [|[k' v] m IH]; [done|]. cbn. by case_decide. Qed.

Lemma find_entry_erase st d n : find_entry (erase_private st) d n = erase_entry <$> find_entry st d n.
Proof.
  unfold find_entry, keys. cbn. destruct (s_keys st) as [ks|]; [|done]. cbn. rewrite map_get_fmap.
  destruct (map_get ks d); [|done]. cbn. apply map_get_fmap.
Qed.

Lemma connected_entry_erase st d n :
  connected_entry (erase_private st) d n = result_map erase_entry (connected_entry st d n).
Proof.
  unfold connected_entry. change (connectedNets (erase_private st)) with (connectedNets st).
  rewrite find_entry_erase. repeat case_match; by simplify_eq/=.
Qed.
End private.

(** ** The properties *)

(** The private key takes no part in any transaction.  What the five
    handlers send to the network and what they answer is the same when every
    encrypted private key in the storage is blanked out. *)
Theorem private_key_unused `{B : Browser} fetch JSON_parse String_of stringify showNum uuid uuid' st :
  let st0 := erase_private st in
  (forall td d n, submitTransactionFromDashboard fetch JSON_parse showNum uuid uuid' st0 td d n =
                  submitTransactionFromDashboard fetch JSON_parse showNum uuid uuid' st td d n) /\
  (forall s a r, submitTransaction fetch JSON_parse showNum uuid uuid' st0 s a r =
                 submitTransaction fetch JSON_parse showNum uuid uuid' st s a r) /\
  (forall pk s o, submitLoginTransaction fetch JSON_parse uuid uuid' st0 pk s o =
                  submitLoginTransaction fetch JSON_parse uuid uuid' st pk s o) /\
  (forall d n o c f a, executeContractFunction fetch JSON_parse String_of uuid' st0 d n o c f a =
                       executeContractFunction fetch JSON_parse String_of uuid' st d n o c f a) /\
  (forall d n o src cfg, deployContractChain fetch JSON_parse String_of stringify st0 d n o src cfg =
                         deployContractChain fetch JSON_parse String_of stringify st d n o src cfg).
Proof.
  cbn zeta. split_and!.
  - intros. unfold submitTransactionFromDashboard. destruct td; [|done]. case_match; [done|].
    rewrite connected_entry_erase. by destruct (connected_entry st d n).
  - intros. unfold submitTransaction. destruct (senderUrl s) as [su|]; [|done].
    change (net_of (erase_private st)) with (net_of st). rewrite find_entry_erase.
    by destruct (find_entry st _ _).
  - done.
  - intros. unfold executeContractFunction. rewrite connected_entry_erase.
    by destruct (connected_entry st d n).
  - intros. unfold deployContractChain. rewrite connected_entry_erase.
    by destruct (connected_entry st d n).
Qed.

(** C26: a page whose domain was connected submits its transactions under
    the public key stored for it, whatever other domains did since: a
    transaction with an amount and a recipient sends one request, to the
    stored URL with the KV port, naming the stored public key; without a
    recipient or an amount nothing is sent. *)
Theorem transaction_uses_stored_key `{B : Browser} {L : BrowserLaws B} fetch JSON_parse showNum uuid uuid'
    f d n pk sk url e st rs s su a rc
  (Hf : fresh_ok f) (He : make_entry f pk sk url = Ok e)
  (Hrs : Forall (fun fr => writes_domain fr.2 <> Some d) rs)
  (Hs : senderUrl s = Some su) (Hd : hostname su = Some d) (Hrc : rc <> []) :
  let st' := run rs (handle f (StoreKeys d n pk sk url) st).1 in
  let submit := submitTransaction fetch JSON_parse showNum uuid uuid' st' s in
  (submit (Some (SStr a)) (Some (SStr rc))).1 =
    [gql_request (kv_url url) (kv_query uuid (KV (js "set_balance") (Some rc) (Some a)) (Some pk))] /\
  (forall amount, submit amount None = ([], failure (js "Missing required fields for transaction"))) /\
  (submit None (Some (SStr rc))).1 = [].
Proof.
  intros st' submit.
  destruct (make_entry_opens f pk sk url e Hf He) as (k & Hk & H1 & H2 & H3).
  destruct (stored_entry f d n pk sk url e st rs He Hrs) as (He' & _ & Hno & _). fold st' in He', Hno.
  assert (open_public e = Ok (pk, url)) as Ho by (unfold open_public; by rewrite Hk, H1, H3).
  unfold submit, submitTransaction. rewrite Hs. unfold getBaseDomain. rewrite Hd. cbn [coalesce].
  rewrite Hno, He', Ho. cbn [scalar_truthy scalar_text scalar_str]. rewrite bool_decide_eq_false_2 by done.
  cbn [negb]. split_and!; done.
Qed.

(** *** The mutations as the server reads them *)

Lemma replace_char_id s c r : c ∉ s -> replace_char s c r = s.
Proof.
  unfold replace_char. induction s as [|x s IH]; [done|]. rewrite not_elem_of_cons. intros [Hx Hs].
  rewrite bind_cons, bool_decide_eq_false_2 by done. cbn. by rewrite IH.
Qed.

Lemma doubled_id s : replace_char s backslash [backslash; backslash] = s <-> backslash ∉ s.
Proof.
  split; [|apply replace_char_id]. intros E Hin.
  assert (length (replace_char s backslash [backslash; backslash]) > length s) as H; [|rewrite E in H; lia].
  clear E. unfold replace_char. induction s as [|x s IH]; [by apply not_elem_of_nil in Hin|].
  assert (forall s, length s <= length (s ≫= fun x => if bool_decide (x = backslash) then [backslash; backslash] else [x])) as Hle.
  { clear. intros s. induction s as [|x s IH]; [done|]. rewrite bind_cons, length_app. cbn [length].
    destruct (bool_decide _); cbn [length]; lia. }
  rewrite bind_cons, length_app. cbn [length].
  apply elem_of_cons in Hin as [<-|Hin].
  - rewrite bool_decide_eq_true_2 by done. cbn [length]. specialize (Hle s). lia.
  - specialize (IH Hin). destruct (bool_decide _); cbn [length]; lia.
Qed.

(** The source the compile mutation carries is not the source that was
    uploaded when that has a backslash.  The block string ends where it
    should, quotation marks and all, but GraphQL reads backslashes in block
    strings as they are, so every one of them arrives doubled. *)
Theorem compiled_source_doubled source :
  exists body,
    compile_query source = jsq "mutation { compileContract(source: ```" ++ body /\
    gql_block body = Some (newline :: replace_char source backslash [backslash; backslash] ++ [newline],
                           jsq ", type: `data`) }") /\
    (replace_char source backslash [backslash; backslash] = source <-> backslash ∉ source).
Proof.
  exists (newline :: escape_block (replace_char source backslash [backslash; backslash]) ++
    newline :: quote :: quote :: quote :: jsq ", type: `data`) }").
  split_and!; [done| |apply doubled_id].
  set (t := replace_char _ _ _).
  pose proof (escape_block_lexes (newline :: t) (jsq ", type: `data`) }")) as H.
  by rewrite escape_block_cons in H by done.
Qed.

Lemma gql_string_until a b :
  Forall (fun c => gql_plain c = true /\ c <> quote /\ c <> backslash) a ->
  gql_string (a ++ quote :: b) = Some (a, b).
Proof. induction 1 as [|c a (? & ? & ?) _ IH]; [done|]. cbn [app]. by apply gql_string_plain. Qed.

(** The recipient of a transaction is put into the mutation as it is.
    When it has a quotation mark, the server reads the recipient up to there
    and takes the rest of the text for GraphQL syntax, so whoever names the
    recipient writes part of the mutation that is submitted. *)
Theorem recipient_injects uuid a b balance signer
  (Ha : Forall (fun c => gql_plain c = true /\ c <> quote /\ c <> backslash) a) :
  exists before after body,
    kv_query uuid (KV (js "set_balance") (Some (a ++ quote :: b)) balance) signer =
      before ++ jsq "recipient: `" ++ body /\
    gql_string body = Some (a, b ++ after).
Proof.
  unfold kv_query. cbn [kv_address kv_balance].
  assert (str_or (Some (a ++ quote :: b)) no_address = a ++ quote :: b) as -> by (by destruct a).
  match goal with
  | |- exists _ _ _, ?m ++ ?id ++ ?am ++ ?bal ++ ?op ++ ?r ++ ?rest = _ /\ _ =>
      exists (m ++ id ++ am ++ bal ++ jsq "`,|n                            operation: `TRANSFER`,|n                            "), rest, (r ++ rest)
  end.
  split.
  - rewrite <- !app_assoc. do 4 f_equal.
  - rewrite <- app_assoc. cbn [app]. by apply gql_string_until.
Qed.

(** The arguments and the owner of a deployment, on the other hand, are
    escaped. *)
Lemma deploy_args_escaped filename name args owner :
  Forall (fun c => gql_plain c = true) args ->
  exists before after, deploy_query filename name args owner =
    before ++ jsq "arguments: `" ++ escaped args ++ quote :: after /\
    gql_string (escaped args ++ quote :: after) = Some (args, after).
Proof.
  intros H. unfold deploy_query.
  match goal with
  | |- exists _ _, ?a ++ ?b ++ ?c ++ ?d ++ ?e ++ ?f ++ ?g ++ ?h ++ ?i ++ ?j ++ ?k ++ ?l ++ ?m = _ /\ _ =>
      exists (a ++ b ++ c ++ d ++ e ++ f ++ g ++ h ++ jsq "`,|n                                "),
        (drop 1 k ++ l ++ m)
  end.
  split; [|by apply escape_lexes]. rewrite <- !app_assoc. do 8 f_equal.
Qed.

(** *** The deployment chain *)

Section chain.
Context `{B : Browser}.
Context (fetch : Http.request -> result fetched) (JSON_parse : str -> result json).
Context (String_of stringify : option json -> str).
Local Abbreviation createAccount := (createAccount fetch JSON_parse String_of).
Local Abbreviation compileContract := (compileContract fetch JSON_parse String_of stringify).
Local Abbreviation deployContract := (deployContract fetch JSON_parse String_of).
Local Abbreviation chain := (deployContractChain fetch JSON_parse String_of stringify).

Definition succeeded (reply : json) : bool := truthy (prop reply (js "success")).

Lemma failure_fails m : succeeded (failure m) = false.
Proof. done. Qed.

(** A computation whose early answers all report a failure. *)
Definition fails_early {A} (c : D A) : Prop :=
  match c.2 with inr reply => succeeded reply = false | inl _ => True end.

Lemma fails_bind {A C} (c : D A) (k : A -> D C) :
  fails_early c -> (forall a, fails_early (k a)) -> fails_early (D_bind A C k c).
Proof.
  intros Hc Hk. unfold D_bind, fails_early in *. destruct c as [rqs [a|r]]; [|done].
  specialize (Hk a). by destruct (k a).
Qed.

Lemma fails_attempt {A} (r : result A) : fails_early (attempt r).
Proof. by destruct r. Qed.
Lemma fails_answer {A} e : fails_early (answer (A := A) (failure e)).
Proof. done. Qed.
Lemma fails_ret {A} (a : A) : fails_early (D_ret A a).
Proof. done. Qed.
Lemma fails_post u query : fails_early (post fetch u query).
Proof. unfold post. by destruct (fetch _). Qed.
Lemma fails_parse r reply : (forall e, succeeded (reply e) = false) -> fails_early (parse_or JSON_parse r reply).
Proof.
  intros H. apply fails_bind; [apply fails_attempt|]. intros t.
  destruct (JSON_parse t); [done|]. apply H.
Qed.

(** What a computation sends, when only its first part sends anything. *)
Lemma sent_bind {A C} (c : D A) (k : A -> D C) :
  (forall a, (k a).1 = []) -> (D_bind A C k c).1 = c.1.
Proof.
  intros Hk. unfold D_bind. destruct c as [rqs [a|r]]; [|done].
  specialize (Hk a). destruct (k a). cbn in *. by rewrite Hk, app_nil_r.
Qed.

Lemma sent_attempt {A} (r : result A) : (attempt r).1 = [].
Proof. by destruct r. Qed.

Create Rewrite HintDb quiet.
Create HintDb failing.
Hint Rewrite @sent_attempt : quiet.
Hint Resolve fails_attempt fails_answer fails_ret fails_post : failing.

Ltac silent :=
  repeat first
    [ progress intros | progress autorewrite with quiet | rewrite sent_bind
    | match goal with |- (match ?x with _ => _ end).1 = [] => destruct x end
    | reflexivity ].
Ltac fails :=
  repeat first
    [ progress intros | solve [eauto with failing] | apply fails_bind | apply fails_parse | done
    | match goal with |- fails_early (match ?x with _ => _ end) => destruct x end ].

Lemma parse_quiet r reply : (parse_or JSON_parse r reply).1 = [].
Proof. unfold parse_or, mbind. silent. Qed.
Lemma errors_quiet p show v : (stop_on_errors String_of p show v).1 = [].
Proof. unfold stop_on_errors, mbind. silent. Qed.
Lemma field_quiet v key : (data_field v key).1 = [].
Proof. unfold data_field, mbind. silent. Qed.
Lemma ok_quiet r : (check_ok r).1 = [].
Proof. unfold check_ok. silent. Qed.
Lemma errors_fail p show v : fails_early (stop_on_errors String_of p show v).
Proof. unfold stop_on_errors, mbind. fails. Qed.
Lemma field_fail v key : fails_early (data_field v key).
Proof. unfold data_field, mbind. fails. Qed.
Lemma ok_fail r : fails_early (check_ok r).
Proof. unfold check_ok. fails. Qed.

Lemma bind_ok {A C} (a : A) (k : A -> D C) : D_bind A C k (attempt (Ok a)) = k a.
Proof. unfold D_bind. cbn. by destruct (k a). Qed.

Lemma bind_throw {A C} m (k : A -> D C) : D_bind A C k (attempt (Throw m)) = answer (failure m).
Proof. done. Qed.

Hint Rewrite @parse_quiet @errors_quiet @field_quiet @ok_quiet : quiet.
Hint Resolve errors_fail field_fail ok_fail : failing.

Lemma createAccount_sends u :
  (createAccount u).1 = [gql_request u create_query] /\ fails_early (createAccount u).
Proof.
  unfold WalletTx.createAccount, mbind, mret. split; [|fails]. rewrite sent_bind; [done|]. silent.
Qed.

Lemma compileContract_sends u src :
  (compileContract u src).1 = (match src with Some s => [gql_request u (compile_query s)] | None => [] end) /\
  fails_early (compileContract u src) /\ (src = None -> forall a, (compileContract u src).2 <> inl a).
Proof.
  unfold WalletTx.compileContract, mbind, mret. split; [|split; [fails|by intros ->]].
  destruct src as [s|]; [|done]. cbn [defined]. rewrite bind_ok, sent_bind; [done|]. silent.
Qed.

Lemma deployContract_sends u owner account filename name args :
  fails_early (deployContract u owner account filename name args) /\
  ((deployContract u owner account filename name args).1 = [] /\
     (forall a, (deployContract u owner account filename name args).2 <> inl a) \/
   exists n a o f, name = Some n /\ args = Some a /\ account = Some (JStr o) /\ filename = Some (JStr f) /\
     (deployContract u owner account filename name args).1 = [gql_request u (deploy_query f n a o)]).
Proof.
  unfold WalletTx.deployContract, mbind, mret. split; [fails|].
  destruct name as [n|]; [|by left]. destruct args as [a|]; [|by left].
  destruct account as [[| | |o| |]|]; try by left.
  destruct filename as [[| | |f| |]|]; try by left.
  right. exists n, a, o, f. do 4 (split; [done|]).
  cbn [defined string_arg]. rewrite !bind_ok, sent_bind; [done|]. silent.
Qed.

(** The requests of a deployment: create an account, compile, deploy. *)
Definition stages (u source filename name args owner : str) : list Http.request :=
  [gql_request u create_query; gql_request u (compile_query source);
   gql_request u (deploy_query filename name args owner)].

(** The chain once the endpoint is known. *)
Definition chain_at (u : str) (owner src : option str) (cfg : option (option str * option str)) : D json :=
  account ← createAccount u;
  '(args, name) ← attempt (match cfg with Some c => Ok c | None => Throw no_config end);
  filename ← compileContract u src;
  deployContract u owner account filename name args.

Lemma chain_unfold st d n owner src cfg :
  chain st d n owner src cfg =
  match connected_entry st d n with
  | Throw m => ([], failure m)
  | Ok e =>
      match open_url e with
      | Throw m => ([], failure m)
      | Ok u => ((chain_at u owner src cfg).1, match (chain_at u owner src cfg).2 with inl r | inr r => r end)
      end
  end.
Proof.
  unfold deployContractChain, mbind. destruct (connected_entry st d n) as [e|m]; [|done].
  rewrite !bind_ok. destruct (open_url e) as [u|m]; [|done]. by rewrite !bind_ok.
Qed.

Lemma chain_stages u owner src cfg :
  let c := chain_at u owner src cfg in
  fails_early c /\
  (exists s f n a o, c.1 `prefix_of` stages u s f n a o) /\
  (forall reply, c.2 = inl reply ->
     exists s f n a o, src = Some s /\ cfg = Some (Some a, Some n) /\ c.1 = stages u s f n a o).
Proof.
  unfold chain_at, mbind. cbn zeta.
  destruct (createAccount_sends u) as [E1 F1]. destruct (createAccount u) as [q1 [account|r1]]; cbn in E1; subst q1.
  2:{ split; [done|]. split; [|done]. do 5 exists []. by eexists. }
  destruct cfg as [[args name]|]; cbn [attempt].
  2:{ split; [done|]. split; [|done]. do 5 exists []. by eexists. }
  destruct (compileContract_sends u src) as (E2 & F2 & N2).
  destruct (compileContract u src) as [q2 [filename|r2]] eqn:Ec; cbn in E2; subst q2.
  2:{ split; [done|]. split; [|done]. destruct src as [s|]; cbn.
      - exists s, [], [], [], []. by eexists.
      - do 5 exists []. by eexists. }
  destruct src as [s|]; [|by destruct (N2 eq_refl filename)].
  destruct (deployContract_sends u owner account filename name args) as [F3 H3].
  unfold D_bind. destruct (deployContract _ _ _ _ _ _) as [q3 r3]. cbn in F3, H3 |- *.
  split; [done|]. destruct H3 as [[-> N3]|(n & a & o & f & -> & -> & _ & _ & ->)].
  - split; [|intros reply ->; by destruct (N3 reply)]. exists s, [], [], [], []. by eexists.
  - split; [exists s, f, n, a, o; by eexists|]. intros reply _. by exists s, f, n, a, o.
Qed.
End chain.

(** C35: a deployment goes through its three steps in order.  Requests are
    sent only for a domain that is connected to the named net, to the endpoint
    stored for it, and they are the first ones of account creation, compilation
    and deployment; an answer that reports success was preceded by all three,
    with the source and the configuration of the request. *)
Theorem deploy_in_order `{B : Browser} fetch JSON_parse String_of stringify st d n owner src cfg :
  let '(rqs, reply) := deployContractChain fetch JSON_parse String_of stringify st d n owner src cfg in
  (rqs <> [] -> exists e u s f nm a o,
     connected_entry st d n = Ok e /\ open_url e = Ok u /\ rqs `prefix_of` stages u s f nm a o) /\
  (succeeded reply = true -> exists e u s f nm a o,
     connected_entry st d n = Ok e /\ open_url e = Ok u /\ src = Some s /\ cfg = Some (Some a, Some nm) /\
     rqs = stages u s f nm a o).
Proof.
  rewrite chain_unfold.
  destruct (connected_entry st d n) as [e|m] eqn:Ee; [|rewrite failure_fails; by split; [intros []|]].
  destruct (open_url e) as [u|m] eqn:Eu; [|rewrite failure_fails; by split; [intros []|]].
  pose proof (chain_stages fetch JSON_parse String_of stringify u owner src cfg) as H. cbn zeta in H.
  destruct H as (F & (s & f & nm & a & o & Hp) & Hok).
  destruct (chain_at _ _ _ _ _ _ _ _) as [rqs [reply|reply]]; cbn [fst snd] in *.
  - split; [naive_solver|]. intros _. destruct (Hok reply eq_refl) as (s' & f' & n' & a' & o' & -> & -> & ->).
    naive_solver.
  - split; [naive_solver|]. unfold fails_early in F. cbn [snd] in F. congruence.
Qed.

(** ** Witnesses *)

Lemma transaction_uses_stored_key_witness :
  make_entry (B := toy_browser) toy_fresh (js "pk") (js "sk") (js "http://x:8400/graphql") =
    Ok (toy_entry (js "pk") (js "sk") (js "http://x:8400/graphql")) /\
  (submitTransaction (B := toy_browser) (fun _ => Throw []) (fun _ => Throw []) (fun _ => []) (js "id") (js "id2")
    (run [] (handle toy_fresh (StoreKeys (js "b.org") (js "main") (js "pk") (js "sk") (js "http://x:8400/graphql"))
      toy_storage).1) (Sender (Some (js "https://b.org/page")) None None)
    (Some (SStr (js "5"))) (Some (SStr (js "bob")))).1 =
  [gql_request (js "http://x:8000/graphql")
     (kv_query (js "id") (KV (js "set_balance") (Some (js "bob")) (Some (js "5"))) (Some (js "pk")))].
Proof.
  assert (make_entry (B := toy_browser) toy_fresh (js "pk") (js "sk") (js "http://x:8400/graphql") =
    Ok (toy_entry (js "pk") (js "sk") (js "http://x:8400/graphql"))) as He by (vm_compute; reflexivity).
  split; [exact He|].
  refine (proj1 (transaction_uses_stored_key (B := toy_browser) (L := toy_laws) (fun _ => Throw []) (fun _ => Throw [])
    (fun _ => []) (js "id") (js "id2") toy_fresh (js "b.org") (js "main") (js "pk") (js "sk")
    (js "http://x:8400/graphql") _ toy_storage [] (Sender (Some (js "https://b.org/page")) None None)
    (js "https://b.org/page") (js "5") (js "bob") _ He _ _ _ _)).
  - repeat split; repeat constructor.
  - constructor.
  - reflexivity.
  - vm_compute. reflexivity.
  - discriminate.
Defined.

Lemma recipient_injects_witness :
  exists before after body,
    kv_query (js "id") (KV (js "set_balance") (Some (jsq "bob`, x: `y")) (Some (js "5"))) None =
      before ++ jsq "recipient: `" ++ body /\
    gql_string body = Some (js "bob", jsq ", x: `y" ++ after).
Proof.
  apply (recipient_injects (js "id") (js "bob") (jsq ", x: `y") (Some (js "5")) None).
  repeat constructor; discriminate.
Defined.
