(* ===== verification/KeyRing.v ===== *)
(** * The key pairs of the ResVault extension

    [GlobalProvider] of
    src/ecosystem/tools/resvault/src/context/GlobalContext.js: the key pairs a
    user keeps, encrypted under the password in [chrome.storage.sync], the pair
    that is selected, and what the pages read of it.  Operations run in a
    monad over the component's state and the storage: an exception keeps the
    changes made before it.  They run one after the other.  The operations of
    [run_op] are those of the pages: SignUp.jsx, Dashboard.jsx and
    Contract.jsx pass [generateKeyPair] and [deleteKeyPair] a callback, which
    still sees the key pairs of the render in which the button was pressed.

    crypto-js, tweetnacl, bs58 and js-sha3, and [JSON] on lists of key pairs,
    are the class [KeyLibs].  A salt stands for the randomness of an
    encryption. *)

From S2P Require Import Prelude JsString JsArray Json.

Record KeyPair := Pair { publicKey : str; privateKey : str }.

#[export] Instance KeyPair_eq_dec : EqDecision KeyPair.
Proof. solve_decision. Defined.

(** ** The libraries *)

Class KeyLibs := {
  (** [CryptoJS.AES.encrypt(text, password).toString()] *)
  aes_encrypt : N -> str -> str -> str;
  (** [CryptoJS.AES.decrypt(data, password).toString(CryptoJS.enc.Utf8)] *)
  aes_decrypt : str -> str -> result str;
  (** [CryptoJS.SHA256(s).toString(CryptoJS.enc.Hex)] *)
  sha256 : str -> str;
  stringify_pairs : list KeyPair -> str;
  parse_pairs : str -> result (list KeyPair);
  b58_encode : list N -> str;
  b58_decode : str -> result (list N);
  (** [nacl.sign.keyPair.fromSeed(seed).publicKey] *)
  fromSeed : list N -> result (list N);
  keccak256 : list N -> str;
}.

Class KeyLibsLaws (L : KeyLibs) := {
  aes_roundtrip salt text password : aes_decrypt (aes_encrypt salt text password) password = Ok text;
  aes_nonempty salt text password : aes_encrypt salt text password <> [];
  pairs_roundtrip l : parse_pairs (stringify_pairs l) = Ok l;
  b58_roundtrip bytes : b58_decode (b58_encode bytes) = Ok bytes;
}.

Section keyring.
Context `{L : KeyLibs}.

(** ** State *)

(** The item [store] of [chrome.storage.sync]; its history is empty. *)
Record Store := MkStore { hash : str; store_publicKey : str; encryptedPrivateKey : str }.

Record world := World {
  storedPassword : str;
  keyPairs : list KeyPair;
  selectedKeyPairIndex : nat;
  w_publicKey : str;
  w_privateKey : str;
  ownerAddress : str;
  isAuthenticated : bool;
  alert : option str;
  (** [chrome.storage.sync] *)
  encryptedKeyPairs : option str;
  store : option Store;
  (** [chrome.storage.local] *)
  local_password : option str;
  local_index : option nat;
}.

(** ** The monad *)

Definition K (A : Type) : Type := world -> world * result A.
#[export] Instance K_ret : MRet K := fun A a w => (w, Ok a).
#[export] Instance K_bind : MBind K := fun A B k c w =>
  match c w with
  | (w', Ok a) => k a w'
  | (w', Throw e) => (w', Throw e)
  end.
Definition get : K world := fun w => (w, Ok w).
Definition modify (f : world -> world) : K unit := fun w => (f w, Ok tt).
Definition lift {A} (r : result A) : K A := fun w => (w, r).

Definition setAlert (m : str) : K unit := modify (fun w =>
  World (storedPassword w) (keyPairs w) (selectedKeyPairIndex w) (w_publicKey w) (w_privateKey w) (ownerAddress w)
    (isAuthenticated w) (Some m) (encryptedKeyPairs w) (store w) (local_password w) (local_index w)).
Definition setKeyPairs (l : list KeyPair) : K unit := modify (fun w =>
  World (storedPassword w) l (selectedKeyPairIndex w) (w_publicKey w) (w_privateKey w) (ownerAddress w)
    (isAuthenticated w) (alert w) (encryptedKeyPairs w) (store w) (local_password w) (local_index w)).
Definition setSelectedKeyPairIndex (i : nat) : K unit := modify (fun w =>
  World (storedPassword w) (keyPairs w) i (w_publicKey w) (w_privateKey w) (ownerAddress w)
    (isAuthenticated w) (alert w) (encryptedKeyPairs w) (store w) (local_password w) (local_index w)).
(** [setPublicKey] and [setPrivateKey] *)
Definition setKeys (p : KeyPair) : K unit := modify (fun w =>
  World (storedPassword w) (keyPairs w) (selectedKeyPairIndex w) (publicKey p) (privateKey p) (ownerAddress w)
    (isAuthenticated w) (alert w) (encryptedKeyPairs w) (store w) (local_password w) (local_index w)).
Definition setOwnerAddress (a : str) : K unit := modify (fun w =>
  World (storedPassword w) (keyPairs w) (selectedKeyPairIndex w) (w_publicKey w) (w_privateKey w) a
    (isAuthenticated w) (alert w) (encryptedKeyPairs w) (store w) (local_password w) (local_index w)).
Definition setIsAuthenticated (b : bool) : K unit := modify (fun w =>
  World (storedPassword w) (keyPairs w) (selectedKeyPairIndex w) (w_publicKey w) (w_privateKey w) (ownerAddress w)
    b (alert w) (encryptedKeyPairs w) (store w) (local_password w) (local_index w)).
Definition setStoredPassword (p : str) : K unit := modify (fun w =>
  World p (keyPairs w) (selectedKeyPairIndex w) (w_publicKey w) (w_privateKey w) (ownerAddress w)
    (isAuthenticated w) (alert w) (encryptedKeyPairs w) (store w) (local_password w) (local_index w)).
Definition sync_set_pairs (c : str) : K unit := modify (fun w =>
  World (storedPassword w) (keyPairs w) (selectedKeyPairIndex w) (w_publicKey w) (w_privateKey w) (ownerAddress w)
    (isAuthenticated w) (alert w) (Some c) (store w) (local_password w) (local_index w)).
Definition sync_set_store (s : Store) : K unit := modify (fun w =>
  World (storedPassword w) (keyPairs w) (selectedKeyPairIndex w) (w_publicKey w) (w_privateKey w) (ownerAddress w)
    (isAuthenticated w) (alert w) (encryptedKeyPairs w) (Some s) (local_password w) (local_index w)).
Definition saveSelectedKeyPairIndex (i : nat) : K unit := modify (fun w =>
  World (storedPassword w) (keyPairs w) (selectedKeyPairIndex w) (w_publicKey w) (w_privateKey w) (ownerAddress w)
    (isAuthenticated w) (alert w) (encryptedKeyPairs w) (store w) (local_password w) (Some i)).

(** ** Helpers *)

Definition generateOwnerAddress (pk : str) : result str :=
  result_map (fun bytes => js "0x" ++ slice (keccak256 bytes) (-40) (Z.of_nat (length (keccak256 bytes))))
    (b58_decode pk).

Definition saveKeyPairsToStorage (salt : N) (l : list KeyPair) (password : str) : K unit :=
  sync_set_pairs (aes_encrypt salt (stringify_pairs l) password).

Definition decrypt_failed : str := js "Failed to decrypt key pairs. Please check your password.".

(** What the callback is given. *)
Definition loadKeyPairsFromStorage (password : str) : K (list KeyPair) :=
  w ← get;
  match encryptedKeyPairs w with
  | Some (c :: cs) =>
      match (try! text <- aes_decrypt (c :: cs) password; parse_pairs text)%js with
      | Ok l => mret l
      | Throw _ => _ ← setAlert decrypt_failed; mret []
      end
  | _ => mret []
  end.

Definition loadSelectedKeyPairIndex : K nat :=
  w ← get; mret (coalesce (local_index w) 0).

(** The item [store] for a pair. *)
Definition make_store (salt : N) (p : KeyPair) (password : str) : Store :=
  MkStore (sha256 password) (publicKey p) (aes_encrypt salt (privateKey p) password).

Definition no_password : str := js "Password is not available. Please log in again.".

(** ** appendKeyPairs *)

(** An uploaded pair may lack its keys. *)
Record RawPair := Raw { raw_public : option str; raw_private : option str }.

Definition at_index (before : string) (i : nat) (after : string) : str :=
  js before ++ str_of_nat i ++ js after.

(** The check of the pair at an index: the pair, or the message to show. *)
Definition validate (i : nat) (p : RawPair) : result KeyPair :=
  match raw_public p, raw_private p with
  | Some (c :: pk), Some (d :: sk) =>
      match (try! seed <- b58_decode (d :: sk);
             if (length seed =? 32)%nat
             then (try! pub <- fromSeed seed; Ok (Some (b58_encode pub)))
             else Ok None)%js with
      | Throw _ => Throw (at_index "Error validating key pair at index " i ".")
      | Ok None => Throw (at_index "Private key at index " i " is not 32 bytes.")
      | Ok (Some derived) =>
          if bool_decide (derived = c :: pk) then Ok (Pair (c :: pk) (d :: sk))
          else Throw (at_index "Public key does not match private key at index " i ".")
      end
  | _, _ => Throw (at_index "Key pair at index " i " is missing publicKey or privateKey.")
  end.

(** The loop: the first failure ends it. *)
Fixpoint validate_all (i : nat) (l : list RawPair) : result (list KeyPair) :=
  match l with
  | [] => Ok []
  | p :: l' => (try! p' <- validate i p; try! ps <- validate_all (S i) l'; Ok (p' :: ps))%js
  end.

(** The pairs that are not among the existing ones. *)
Definition unique_new (existing new : list KeyPair) : list KeyPair :=
  filterb (fun n => negb (existsb (fun e => bool_decide (e = n)) existing)) new.

Definition appendKeyPairs (salt salt' : N) (newKeyPairs : list RawPair) : K unit :=
  w ← get;
  let password := storedPassword w in
  match password with
  | [] => setAlert no_password
  | _ =>
      match validate_all 0 newKeyPairs with
      | Throw m => setAlert m
      | Ok new =>
          existing ← loadKeyPairsFromStorage password;
          match unique_new existing new with
          | [] => setAlert (js "No new unique key pairs to add.")
          | u :: us =>
              let updated := existing ++ u :: us in
              let newIndex := length updated - 1 in
              let selected := List.last (u :: us) u in
              _ ← saveKeyPairsToStorage salt updated password;
              _ ← setKeyPairs updated;
              _ ← setSelectedKeyPairIndex newIndex;
              _ ← setKeys selected;
              _ ← saveSelectedKeyPairIndex newIndex;
              a ← lift (generateOwnerAddress (publicKey selected));
              _ ← setOwnerAddress a;
              sync_set_store (make_store salt' selected password)
          end
      end
  end.

(** ** generateKeyPair *)

(** [pub] and [secret] are what [nacl.sign.keyPair()] gave; the private key is
    the first half of the secret, the seed.  Whether the callback is called. *)
Definition generateKeyPair (salt salt' : N) (pub secret : list N) : K bool :=
  w ← get;
  let password := storedPassword w in
  match password with
  | [] => _ ← setAlert no_password; mret false
  | _ =>
      let new := Pair (b58_encode pub) (b58_encode (take 32 secret)) in
      a ← lift (generateOwnerAddress (publicKey new));
      existing ← loadKeyPairsFromStorage password;
      if existsb (fun e => bool_decide (e = new)) existing
      then _ ← setAlert (js "Generated key pair is a duplicate. Skipping."); mret false
      else
        let updated := existing ++ [new] in
        let newIndex := length updated - 1 in
        _ ← saveKeyPairsToStorage salt updated password;
        _ ← setKeyPairs updated;
        _ ← setKeys new;
        _ ← setOwnerAddress a;
        _ ← setSelectedKeyPairIndex newIndex;
        _ ← saveSelectedKeyPairIndex newIndex;
        _ ← setIsAuthenticated true;
        _ ← sync_set_store (make_store salt' new password);
        mret true
  end.

(** ** deleteKeyPair *)

(** [l.splice(index, 1)] for an index that is not negative. *)
Definition splice1 {A} (l : list A) (i : nat) : list A := take i l ++ drop (S i) l.

Definition deleteKeyPair (salt salt' : N) (index : nat) : K bool :=
  w ← get;
  let password := storedPassword w in
  match password with
  | [] => _ ← setAlert no_password; mret false
  | _ =>
      existing ← loadKeyPairsFromStorage password;
      if (length existing <=? 1)%nat
      then _ ← setAlert (js "Cannot delete the last remaining key pair."); mret false
      else
        let updated := splice1 existing index in
        _ ← saveKeyPairsToStorage salt updated password;
        _ ← setKeyPairs updated;
        _ ← setSelectedKeyPairIndex 0;
        match updated with
        | p :: _ =>
            _ ← setKeys p;
            _ ← saveSelectedKeyPairIndex 0;
            a ← lift (generateOwnerAddress (publicKey p));
            _ ← setOwnerAddress a;
            _ ← sync_set_store (make_store salt' p password);
            mret true
        | [] => mret true
        end
  end.

(** ** Loading, and choosing a pair *)

Definition selectPair (l : list KeyPair) (i : nat) (p : KeyPair) : K unit :=
  _ ← setKeys p;
  _ ← setSelectedKeyPairIndex i;
  a ← lift (generateOwnerAddress (publicKey p));
  setOwnerAddress a.

(** The effect that runs when the component is mounted. *)
Definition initialise : K unit :=
  w ← get;
  match local_password w with
  | Some (c :: password) =>
      _ ← setStoredPassword (c :: password);
      loaded ← loadKeyPairsFromStorage (c :: password);
      match loaded with
      | p0 :: _ =>
          _ ← setKeyPairs loaded;
          index ← loadSelectedKeyPairIndex;
          _ ← (match loaded !! index with
               | Some p => selectPair loaded index p
               | None => selectPair loaded 0 p0
               end);
          setIsAuthenticated true
      | [] => setIsAuthenticated false
      end
  | _ => setIsAuthenticated false
  end.

(** [setSelectedKeyPair] of a render that saw [pairs]. *)
Definition setSelectedKeyPair_of (pairs : list KeyPair) (salt : N) (index : nat) : K unit :=
  w ← get;
  match pairs !! index with
  | Some p =>
      _ ← setKeys p;
      _ ← setSelectedKeyPairIndex index;
      _ ← saveSelectedKeyPairIndex index;
      a ← lift (generateOwnerAddress (publicKey p));
      _ ← setOwnerAddress a;
      match storedPassword w with
      | [] => setAlert no_password
      | password => sync_set_store (make_store salt p password)
      end
  | None => mret tt
  end.

Definition setSelectedKeyPairFn (salt : N) (index : nat) : K unit :=
  w ← get; setSelectedKeyPair_of (keyPairs w) salt index.

(** *** The handlers of the pages *)

(** Whether the callback ran. *)
Definition handleGenerateKeyPair (salt salt' : N) (pub secret : list N) : K bool :=
  w ← get;
  changed ← generateKeyPair salt salt' pub secret;
  _ ← (if changed : bool then setSelectedKeyPairIndex (length (keyPairs w) - 1) else mret tt);
  mret changed.

Definition handleDeleteKeyPair (salt salt' salt2 : N) : K unit :=
  w ← get;
  if (1 <? length (keyPairs w))%nat then
    deleted ← deleteKeyPair salt salt' (selectedKeyPairIndex w);
    if deleted : bool then
      _ ← setSelectedKeyPairIndex 0; setSelectedKeyPair_of (keyPairs w) salt2 0
    else mret tt
  else mret tt.

(** ** The service mode *)

(** The mode shown by the provider, the mode and the connections in
    chrome.storage.local, and the page the router shows. *)
Record mode_state := ModeState {
  serviceMode : str;
  stored_mode : option str;
  connections : option json;
  route : str;
}.

Definition route_of (mode : str) : str :=
  if bool_decide (mode = js "KV") then js "/dashboard" else js "/contract".

(** The effect of the first render. *)
Definition loadServiceMode (s : mode_state) : mode_state :=
  match stored_mode s with
  | None | Some [] => s
  | Some m => ModeState m (Some m) (connections s) (route_of m)
  end.

Definition toggleServiceMode (s : mode_state) : mode_state :=
  let newMode := if bool_decide (serviceMode s = js "KV") then js "Contract" else js "KV" in
  ModeState newMode (Some newMode) None (route_of newMode).

(** A provider rendered again after a toggle shows the same mode and page. *)
Lemma toggled_mode_reloads s route0 :
  let t := toggleServiceMode s in
  loadServiceMode (ModeState (js "KV") (stored_mode t) (connections t) route0) = t.
Proof. unfold toggleServiceMode; case_bool_decide; reflexivity. Qed.

(** ** Operations *)

(** What the user does: the first pair of a new account, uploads, the pairs
    generated, deleted and chosen on the pages. *)
Inductive op :=
| SignUp (salt salt' : N) (pub secret : list N)
| Append (salt salt' : N) (l : list RawPair)
| Generate (salt salt' : N) (pub secret : list N)
| Delete (salt salt' salt2 : N)
| Select (salt : N) (index : nat).

Definition run_op (o : op) : K unit :=
  match o with
  | SignUp s s' pub secret => _ ← generateKeyPair s s' pub secret; mret tt
  | Append s s' l => appendKeyPairs s s' l
  | Generate s s' pub secret => _ ← handleGenerateKeyPair s s' pub secret; mret tt
  | Delete s s' s2 => handleDeleteKeyPair s s' s2
  | Select s i => setSelectedKeyPairFn s i
  end.

(** What nacl draws is a seed of 32 bytes with its public key. *)
Definition drawn (o : op) : Prop :=
  match o with
  | SignUp _ _ pub secret | Generate _ _ pub secret =>
      fromSeed (take 32 secret) = Ok pub /\ length (take 32 secret) = 32
  | _ => True
  end.

Fixpoint run_ops (os : list op) (w : world) : world * result unit :=
  match os with
  | [] => (w, Ok tt)
  | o :: os' => match run_op o w with
                | (w', Ok _) => run_ops os' w'
                | (w', Throw e) => (w', Throw e)
                end
  end.

(** ** The invariant *)

(** The public key is the one of the private key. *)
Definition valid_pair (p : KeyPair) : Prop :=
  exists seed pub, b58_decode (privateKey p) = Ok seed /\ length seed = 32 /\ fromSeed seed = Ok pub /\
    publicKey p = b58_encode pub.

Definition opens (c password : str) (l : list KeyPair) : Prop :=
  c <> [] /\ (try! text <- aes_decrypt c password; parse_pairs text)%js = Ok l.

Definition store_ok (s : Store) (p : KeyPair) (password : str) : Prop :=
  hash s = sha256 password /\ store_publicKey s = publicKey p /\
  aes_decrypt (encryptedPrivateKey s) password = Ok (privateKey p).

(** The pair that is selected is the one shown, stored and announced, and the
    storage holds all pairs under the password. *)
Record ring_ok (w : world) : Prop := {
  ring_password : storedPassword w <> [];
  ring_stored : exists c, encryptedKeyPairs w = Some c /\ opens c (storedPassword w) (keyPairs w);
  ring_selected : keyPairs w !! selectedKeyPairIndex w = Some (Pair (w_publicKey w) (w_privateKey w));
  ring_owner : generateOwnerAddress (w_publicKey w) = Ok (ownerAddress w);
  ring_store : exists s, store w = Some s /\
    store_ok s (Pair (w_publicKey w) (w_privateKey w)) (storedPassword w);
  ring_index : local_index w = Some (selectedKeyPairIndex w);
  ring_valid : Forall valid_pair (keyPairs w);
}.

(** What holds whatever the pages did: the pair shown need not be the one at
    the selected index, nor be among the pairs. *)
Record held_ok (w : world) : Prop := {
  held_password : storedPassword w <> [];
  held_stored : exists c, encryptedKeyPairs w = Some c /\ opens c (storedPassword w) (keyPairs w);
  held_selected : selectedKeyPairIndex w < length (keyPairs w);
  held_shown : valid_pair (Pair (w_publicKey w) (w_privateKey w));
  held_owner : generateOwnerAddress (w_publicKey w) = Ok (ownerAddress w);
  held_store : exists s, store w = Some s /\
    store_ok s (Pair (w_publicKey w) (w_privateKey w)) (storedPassword w);
  held_index : exists i, local_index w = Some i /\ i < length (keyPairs w);
  held_valid : Forall valid_pair (keyPairs w);
}.

Lemma ring_held w : ring_ok w -> held_ok w.
Proof.
  intros [Hp Hst Hsel Ho Hs Hi Hv]. pose proof (lookup_lt_Some _ _ _ Hsel). constructor; eauto.
  by eapply Forall_lookup_1.
Qed.

Context {Laws : KeyLibsLaws L}.

Lemma opens_saved salt l password : opens (aes_encrypt salt (stringify_pairs l) password) password l.
Proof. split; [apply aes_nonempty|]. rewrite aes_roundtrip. apply pairs_roundtrip. Qed.

Lemma store_made salt p password : store_ok (make_store salt p password) p password.
Proof. split_and!; [done..|]. apply aes_roundtrip. Qed.

Lemma valid_owner p : valid_pair p -> exists a, generateOwnerAddress (publicKey p) = Ok a.
Proof.
  intros (seed & pub & _ & _ & _ & ->). unfold generateOwnerAddress. rewrite b58_roundtrip. by eexists.
Qed.

Lemma load_opens w c password l :
  encryptedKeyPairs w = Some c -> opens c password l -> loadKeyPairsFromStorage password w = (w, Ok l).
Proof.
  intros Hc [Hne Ho]. unfold loadKeyPairsFromStorage, mbind, K_bind, get. rewrite Hc.
  destruct c; [done|]. by rewrite Ho.
Qed.

Lemma load_none w password : encryptedKeyPairs w = None -> loadKeyPairsFromStorage password w = (w, Ok []).
Proof. intros Hc. unfold loadKeyPairsFromStorage, mbind, K_bind, get. by rewrite Hc. Qed.

Lemma validate_valid i r p : validate i r = Ok p -> valid_pair p.
Proof.
  unfold validate. destruct (raw_public r) as [[|c pk]|]; [done| |done].
  destruct (raw_private r) as [[|d sk]|]; [done| |done].
  destruct (b58_decode (d :: sk)) as [seed|] eqn:Es; [|done].
  destruct (length seed =? 32)%nat eqn:El; [|done].
  destruct (fromSeed seed) as [pub|] eqn:Ep; [|done]. cbn.
  destruct (bool_decide (b58_encode pub = c :: pk)) eqn:Eb; [|done]. split_bools. intros [= <-].
  exists seed, pub. split_and!; [done|by apply Nat.eqb_eq|done|done].
Qed.

Lemma validate_all_valid l : forall i ps, validate_all i l = Ok ps -> Forall valid_pair ps.
Proof.
  induction l as [|r l IH]; intros i ps; cbn; [intros [= <-]; constructor|].
  destruct (validate i r) as [p|] eqn:E1; [|done]. destruct (validate_all (S i) l) as [ps'|] eqn:E2; [|done].
  intros [= <-]. constructor; [by eapply validate_valid|by eapply IH].
Qed.

(** The state after the pairs [l] were saved and [p], at [i], was selected. *)
Definition installed (w : world) (salt salt' : N) (l : list KeyPair) (i : nat) (p : KeyPair) (a : str) (b : bool)
    : world :=
  World (storedPassword w) l i (publicKey p) (privateKey p) a b (alert w)
    (Some (aes_encrypt salt (stringify_pairs l) (storedPassword w)))
    (Some (make_store salt' p (storedPassword w))) (local_password w) (Some i).

Lemma installed_ok w salt salt' l i p a b :
  storedPassword w <> [] -> l !! i = Some p -> generateOwnerAddress (publicKey p) = Ok a ->
  Forall valid_pair l -> ring_ok (installed w salt salt' l i p a b).
Proof.
  intros Hp Hi Ha Hl. destruct p as [pk sk]. constructor; cbn; try done.
  - eexists. split; [done|]. apply opens_saved.
  - eexists. split; [done|]. apply store_made.
Qed.

(** An operation only shows a message. *)
Definition alerted (w : world) (m : str) : world :=
  World (storedPassword w) (keyPairs w) (selectedKeyPairIndex w) (w_publicKey w) (w_privateKey w) (ownerAddress w)
    (isAuthenticated w) (Some m) (encryptedKeyPairs w) (store w) (local_password w) (local_index w).

Lemma alerted_ok w m : held_ok w -> held_ok (alerted w m).
Proof. intros [? ? ? ? ? ? ? ?]. by constructor. Qed.

(** The state after [p], at [i], was chosen. *)
Definition chosen (w : world) (salt : N) (i : nat) (p : KeyPair) (a : str) : world :=
  World (storedPassword w) (keyPairs w) i (publicKey p) (privateKey p) a (isAuthenticated w) (alert w)
    (encryptedKeyPairs w) (Some (make_store salt p (storedPassword w))) (local_password w) (Some i).

Lemma choose_of pairs salt i p a w :
  storedPassword w <> [] -> pairs !! i = Some p -> generateOwnerAddress (publicKey p) = Ok a ->
  setSelectedKeyPair_of pairs salt i w = (chosen w salt i p a, Ok tt).
Proof.
  intros Hp Hi Ha. unfold setSelectedKeyPair_of, mbind, K_bind, get. rewrite Hi. cbn. unfold lift.
  rewrite Ha. unfold chosen. by destruct (storedPassword w).
Qed.

Lemma chosen_held w salt i p a :
  held_ok w -> i < length (keyPairs w) -> valid_pair p -> generateOwnerAddress (publicKey p) = Ok a ->
  held_ok (chosen w salt i p a).
Proof.
  intros [? ? ? ? ? ? ? ?] Hi Hv Ha. destruct p as [pk sk]. constructor; cbn; eauto.
  eexists. split; [done|]. apply store_made.
Qed.

Lemma chosen_ring w salt i p a :
  held_ok w -> keyPairs w !! i = Some p -> generateOwnerAddress (publicKey p) = Ok a ->
  ring_ok (chosen w salt i p a).
Proof.
  intros [? ? ? ? ? ? ? ?] Hi Ha. destruct p as [pk sk]. constructor; cbn; eauto.
  eexists. split; [done|]. apply store_made.
Qed.

Lemma reindexed_held w i :
  held_ok w -> i < length (keyPairs w) -> held_ok (setSelectedKeyPairIndex i w).1.
Proof. intros [? ? ? ? ? ? ? ?] Hi. by constructor. Qed.

Lemma last_lookup {A} (l : list A) u us : (l ++ u :: us) !! (length (l ++ u :: us) - 1) = Some (List.last (u :: us) u).
Proof.
  rewrite length_app. cbn [length]. rewrite lookup_app_r by lia.
  replace (length l + S (length us) - 1 - length l) with (length us) by lia.
  assert (forall x, (x :: us) !! length us = Some (List.last (x :: us) u)) as H; [|apply H].
  induction us as [|y us IH]; intros x; [done|]. cbn [length]. rewrite lookup_cons_ne_0 by lia. cbn [Nat.pred].
  by rewrite IH.
Qed.

Section ops.
Context (w : world) (existing : list KeyPair).
Context (Hp : storedPassword w <> []) (Hload : loadKeyPairsFromStorage (storedPassword w) w = (w, Ok existing)).

Lemma append_cases salt salt' raws :
  (exists m, appendKeyPairs salt salt' raws w = (alerted w m, Ok tt)) \/
  exists new u us, validate_all 0 raws = Ok new /\ unique_new existing new = u :: us /\
    forall a, generateOwnerAddress (publicKey (List.last (u :: us) u)) = Ok a ->
      appendKeyPairs salt salt' raws w =
      (installed w salt salt' (existing ++ u :: us) (length (existing ++ u :: us) - 1) (List.last (u :: us) u) a
         (isAuthenticated w), Ok tt).
Proof.
  unfold appendKeyPairs, mbind, K_bind, get. cbn -[loadKeyPairsFromStorage].
  destruct (storedPassword w) as [|c pw] eqn:Epw; [done|].
  destruct (validate_all 0 raws) as [new|m] eqn:Ev; [|left; by exists m].
  rewrite Hload. destruct (unique_new existing new) as [|u us] eqn:Eu; [left; by eexists|].
  right. exists new, u, us. split; [done|]. split; [done|]. intros a Ha. cbn -[List.last].
  unfold lift. rewrite Ha. unfold installed. by rewrite Epw.
Qed.

Lemma generate_cases salt salt' pub secret a :
  let new := Pair (b58_encode pub) (b58_encode (take 32 secret)) in
  generateOwnerAddress (publicKey new) = Ok a ->
  (exists m, generateKeyPair salt salt' pub secret w = (alerted w m, Ok false)) \/
  generateKeyPair salt salt' pub secret w =
    (installed w salt salt' (existing ++ [new]) (length (existing ++ [new]) - 1) new a true, Ok true).
Proof.
  intros new Ha. unfold generateKeyPair, mbind, K_bind, get. cbn -[loadKeyPairsFromStorage take].
  destruct (storedPassword w) as [|c pw] eqn:Epw; [done|].
  unfold lift. cbn in Ha. rewrite Ha, Hload. fold new.
  destruct (existsb _ existing); [left; by eexists|]. right. unfold installed. by rewrite Epw.
Qed.

Lemma delete_cases salt salt' index :
  (exists m, deleteKeyPair salt salt' index w = (alerted w m, Ok false)) \/
  (1 < length existing /\ exists p ps, splice1 existing index = p :: ps /\
     forall a, generateOwnerAddress (publicKey p) = Ok a ->
       deleteKeyPair salt salt' index w =
       (installed w salt salt' (p :: ps) 0 p a (isAuthenticated w), Ok true)).
Proof.
  unfold deleteKeyPair, mbind, K_bind, get. cbn -[loadKeyPairsFromStorage].
  destruct (storedPassword w) as [|c pw] eqn:Epw; [done|].
  rewrite Hload. destruct (length existing <=? 1)%nat eqn:El; [left; by eexists|]. right.
  apply Nat.leb_gt in El. split; [done|].
  destruct (splice1 existing index) as [|p ps] eqn:Es.
  { apply (f_equal length) in Es. unfold splice1 in Es. rewrite length_app, length_take, length_drop in Es.
    cbn in Es. lia. }
  exists p, ps. split; [done|]. intros a Ha. cbn. unfold lift. rewrite Ha. unfold installed. by rewrite Epw.
Qed.
End ops.

(** A drawn pair is valid. *)
Lemma drawn_valid pub secret :
  fromSeed (take 32 secret) = Ok pub -> length (take 32 secret) = 32 ->
  valid_pair (Pair (b58_encode pub) (b58_encode (take 32 secret))).
Proof. intros Hs Hl. exists (take 32 secret), pub. cbn -[take]. by rewrite b58_roundtrip. Qed.

Lemma elem_of_splice1 {A} (l : list A) i x : x ∈ splice1 l i -> x ∈ l.
Proof.
  unfold splice1. intros [H|H]%elem_of_app; [eauto with resdb|].
  rewrite <- (take_drop (S i) l). apply elem_of_app. by right.
Qed.

Lemma generate_ok s s' pub secret w :
  fromSeed (take 32 secret) = Ok pub -> length (take 32 secret) = 32 -> held_ok w ->
  exists w' b, generateKeyPair s s' pub secret w = (w', Ok b) /\ held_ok w' /\
    length (keyPairs w) <= length (keyPairs w').
Proof.
  intros Hs Hl Hw. pose proof Hw as [Hp (c & Hc & Ho) _ _ _ _ _ Hval].
  pose proof (load_opens w c _ _ Hc Ho) as Hload.
  pose proof (drawn_valid pub secret Hs Hl) as Hvp. destruct (valid_owner _ Hvp) as [a Ha].
  destruct (generate_cases w (keyPairs w) Hp Hload s s' pub secret a Ha) as [[m ->]| ->];
    eexists _, _; (split; [done|]); (split; [|cbn; rewrite ?length_app; lia]); [by apply alerted_ok|].
  apply ring_held, installed_ok; [done| |done|].
  - apply (last_lookup (keyPairs w) _ []).
  - apply Forall_app. by repeat constructor.
Qed.

Lemma append_ok s s' raws w : held_ok w -> exists w', appendKeyPairs s s' raws w = (w', Ok tt) /\ held_ok w'.
Proof.
  intros Hw. pose proof Hw as [Hp (c & Hc & Ho) _ _ _ _ _ Hval].
  pose proof (load_opens w c _ _ Hc Ho) as Hload.
  destruct (append_cases w (keyPairs w) Hp Hload s s' raws) as [[m ->]|(new & u & us & Hv & Hu & E)];
    [eauto using alerted_ok|].
  assert (Forall valid_pair (keyPairs w ++ u :: us)) as Hall.
  { apply Forall_app. split; [done|]. apply Forall_forall. intros p Hpi. rewrite <- Hu in Hpi.
    apply elem_of_filterb in Hpi as [Hpi _]. pose proof (validate_all_valid _ _ _ Hv) as Hn.
    rewrite Forall_forall in Hn. auto. }
  pose proof (last_lookup (keyPairs w) u us) as Hlast.
  destruct (valid_owner (List.last (u :: us) u)) as [a Ha].
  { eapply Forall_lookup_1; [exact Hall|exact Hlast]. }
  rewrite (E a Ha). eexists. split; [done|]. by apply ring_held, installed_ok.
Qed.

Lemma delete_ok s s' s2 w : held_ok w -> exists w', handleDeleteKeyPair s s' s2 w = (w', Ok tt) /\ held_ok w'.
Proof.
  intros Hw. pose proof Hw as [Hp (c & Hc & Ho) _ _ _ _ _ Hval].
  pose proof (load_opens w c _ _ Hc Ho) as Hload.
  unfold handleDeleteKeyPair, mbind, K_bind, get.
  destruct (Nat.ltb_spec 1 (length (keyPairs w))) as [Hlen|]; [|by exists w].
  destruct (delete_cases w (keyPairs w) Hp Hload s s' (selectedKeyPairIndex w))
    as [[m ->]|(_ & p & ps & Hsp & E)]; [eauto using alerted_ok|].
  assert (Forall valid_pair (p :: ps)) as Hall.
  { apply Forall_forall. intros x Hx. rewrite <- Hsp in Hx. apply elem_of_splice1 in Hx.
    rewrite Forall_forall in Hval. auto. }
  destruct (valid_owner p) as [a Ha]; [by apply Forall_cons in Hall as [? _]|]. rewrite (E a Ha).
  destruct (keyPairs w) as [|p0 qs] eqn:Ek; [cbn in Hlen; lia|]. apply Forall_cons in Hval as [Hv0 _].
  destruct (valid_owner p0 Hv0) as [a0 Ha0]. cbn -[setSelectedKeyPair_of].
  rewrite (choose_of _ s2 0 p0 a0); [|done..]. eexists. split; [done|].
  apply chosen_held; [|cbn; lia|done..]. apply (reindexed_held (installed _ _ _ _ _ _ _ _)); [|cbn; lia].
  by apply ring_held, installed_ok.
Qed.

(** Choosing a pair makes everything agree on it. *)
Lemma select_ring s i w :
  held_ok w -> i < length (keyPairs w) ->
  exists w', run_op (Select s i) w = (w', Ok tt) /\ ring_ok w' /\ selectedKeyPairIndex w' = i.
Proof.
  intros Hw [p Hi]%lookup_lt_is_Some_2. pose proof Hw as [Hp _ _ _ _ _ _ Hval].
  destruct (valid_owner p) as [a Ha]; [by eapply Forall_lookup_1|].
  exists (chosen w s i p a). split; [|split; [by apply chosen_ring|done]].
  cbn. unfold setSelectedKeyPairFn, mbind, K_bind, get. by apply choose_of.
Qed.

Lemma run_op_ok o w : drawn o -> held_ok w -> exists w', run_op o w = (w', Ok tt) /\ held_ok w'.
Proof.
  intros Hd Hw. destruct o as [s s' pub secret|s s' raws|s s' pub secret|s s' s2|s index]; cbn -[take];
    [| by apply append_ok| |by apply delete_ok|].
  - destruct Hd as [Hs Hl]. unfold mbind, K_bind.
    destruct (generate_ok s s' pub secret w Hs Hl Hw) as (w' & b & -> & Hw' & _). by exists w'.
  - destruct Hd as [Hs Hl]. unfold handleGenerateKeyPair, mbind, K_bind, get.
    destruct (generate_ok s s' pub secret w Hs Hl Hw) as (w' & b & -> & Hw' & Hle).
    destruct b; [|by exists w']. eexists. split; [done|].
    apply (reindexed_held w'); [done|]. pose proof (held_selected _ Hw). lia.
  - destruct (decide (index < length (keyPairs w))) as [Hi|Hi].
    + destruct (select_ring s index w Hw Hi) as (w' & E & Hr & _). exists w'. eauto using ring_held.
    + exists w. split; [|done]. unfold setSelectedKeyPairFn, setSelectedKeyPair_of, mbind, K_bind, get.
      by rewrite lookup_ge_None_2 by lia.
Qed.

Lemma run_ops_ok os w : Forall drawn os -> held_ok w -> exists w', run_ops os w = (w', Ok tt) /\ held_ok w'.
Proof.
  intros H. revert w. induction H as [|o os Ho _ IH]; intros w Hw; cbn; [by exists w|].
  destruct (run_op_ok o w Ho Hw) as (w' & -> & Hw'). by apply IH.
Qed.
End keyring.

(** ** The properties *)

Section properties.
Context `{L : KeyLibs} {Laws : KeyLibsLaws L}.

(** C7: from the first key pair of a new user on, whatever pairs are
    uploaded, and generated, deleted and chosen on the pages (their callbacks
    included), no operation throws, and: the storage decrypts under the
    password to exactly the pairs of the ring; in every pair the public key
    is the one of the private key; the pair whose keys are shown is such a
    pair, the owner address is the one of its public key, and [store]
    announces it; the selected and the saved index are in range.  The shown
    pair need not be the one at the selected index after a pair was
    generated or deleted on a page; choosing any pair of the ring makes
    the shown pair, both indexes and [store] agree on it. *)
Theorem keyring_consistent w0 s s' pub secret os
  (Hp : storedPassword w0 <> []) (Hnew : encryptedKeyPairs w0 = None)
  (Hd : Forall drawn (SignUp s s' pub secret :: os)) :
  exists w, run_ops (SignUp s s' pub secret :: os) w0 = (w, Ok tt) /\ held_ok w /\
    forall s2 i, i < length (keyPairs w) ->
      exists w', run_op (Select s2 i) w = (w', Ok tt) /\ ring_ok w' /\ selectedKeyPairIndex w' = i.
Proof.
  apply Forall_cons in Hd as [[Hs Hl] Hos]. pose proof (drawn_valid pub secret Hs Hl) as Hvp.
  destruct (valid_owner _ Hvp) as [a Ha].
  cbn [run_ops]. unfold run_op at 1, mbind at 1, K_bind.
  destruct (generate_cases w0 [] Hp (load_none _ _ Hnew) s s' pub secret a Ha) as [[m E]| ->].
  - exfalso. revert E. unfold generateKeyPair, mbind, K_bind, get. cbn -[loadKeyPairsFromStorage take].
    destruct (storedPassword w0); [done|]. unfold lift. cbn in Ha. rewrite Ha.
    by rewrite (load_none w0 _ Hnew).
  - destruct (run_ops_ok os (installed w0 s s' ([] ++ [Pair (b58_encode pub) (b58_encode (take 32 secret))])
      (length ([] ++ [Pair (b58_encode pub) (b58_encode (take 32 secret))]) - 1)
      (Pair (b58_encode pub) (b58_encode (take 32 secret))) a true)) as (w & Hrun & Hw); [done| |].
    { apply ring_held, installed_ok; [done|done|done|by constructor]. }
    exists w. split; [exact Hrun|]. split; [done|]. intros s2 i Hi. by apply select_ring.
Qed.

(** Closing and reopening the extension restores the key ring: with the
    password still in the local storage, a component that starts from nothing
    but the storages comes up authenticated, with the same pairs, the same
    selection, keys and owner address. *)
Theorem keyring_reload w w1
  (Hw : ring_ok w) (Hpw : local_password w1 = Some (storedPassword w))
  (Hpairs : encryptedKeyPairs w1 = encryptedKeyPairs w) (Hidx : local_index w1 = local_index w)
  (Hst : store w1 = store w) :
  exists w2, initialise w1 = (w2, Ok tt) /\ ring_ok w2 /\ isAuthenticated w2 = true /\
    keyPairs w2 = keyPairs w /\ selectedKeyPairIndex w2 = selectedKeyPairIndex w /\
    w_publicKey w2 = w_publicKey w /\ w_privateKey w2 = w_privateKey w /\ ownerAddress w2 = ownerAddress w.
Proof.
  destruct Hw as [Hp (c & Hc & Ho) Hsel Hown (s0 & Hs0 & Hso) Hi Hval].
  unfold initialise, mbind, K_bind, get. cbn -[loadKeyPairsFromStorage]. rewrite Hpw.
  destruct (storedPassword w) as [|ch pw] eqn:Epw; [done|]. cbn -[loadKeyPairsFromStorage].
  rewrite (load_opens _ c (ch :: pw) (keyPairs w)); [|cbn; congruence|done].
  destruct (keyPairs w) as [|p0 ps] eqn:Ek; [done|]. cbn -[lookup]. rewrite Hidx, Hi. cbn -[lookup].
  unfold loadSelectedKeyPairIndex, mbind, K_bind, get. cbn -[lookup].
  rewrite Hsel. unfold selectPair, mbind, K_bind. cbn. unfold lift. rewrite Hown. cbn.
  eexists. split; [done|]. cbn. split; [|done]. constructor; cbn; try done.
  - exists c. split; [congruence|done].
  - exists s0. split; [congruence|done].
Qed.

(** Key pairs that do not decrypt under the current password are not
    kept.  The loader reports the failure and goes on with no pairs, so
    generating a key pair then overwrites the stored ones with the new pair
    alone. *)
Theorem undecryptable_pairs_overwritten w c e s s' pub secret
  (Hp : storedPassword w <> []) (Hc : encryptedKeyPairs w = Some c) (Hne : c <> [])
  (Hbad : (try! text <- aes_decrypt c (storedPassword w); parse_pairs text)%js = Throw e) :
  exists w' c', generateKeyPair s s' pub secret w = (w', Ok true) /\
    encryptedKeyPairs w' = Some c' /\
    opens c' (storedPassword w) [Pair (b58_encode pub) (b58_encode (take 32 secret))] /\
    alert w' = Some decrypt_failed.
Proof.
  set (new := Pair (b58_encode pub) (b58_encode (take 32 secret))).
  unfold generateKeyPair, mbind, K_bind, get. cbn -[loadKeyPairsFromStorage take].
  destruct (storedPassword w) as [|ch pw] eqn:Epw; [done|].
  unfold lift, generateOwnerAddress at 1. rewrite b58_roundtrip. cbn -[loadKeyPairsFromStorage take].
  assert (loadKeyPairsFromStorage (ch :: pw) w = (alerted w decrypt_failed, Ok [])) as ->.
  { unfold loadKeyPairsFromStorage, mbind, K_bind, get. rewrite Hc. destruct c; [done|]. by rewrite Hbad. }
  cbn -[take]. do 2 eexists. split; [done|]. cbn -[take]. split; [done|]. split; [|done].
  apply opens_saved.
Qed.

(** Uploading the same new pair twice in one file keeps both copies. *)
Lemma upload_keeps_duplicates w s s' r p a :
  ring_ok w -> validate 0 r = Ok p -> validate 1 r = Ok p -> p ∉ keyPairs w ->
  generateOwnerAddress (publicKey p) = Ok a ->
  exists w', appendKeyPairs s s' [r; r] w = (w', Ok tt) /\ keyPairs w' = keyPairs w ++ [p; p].
Proof.
  intros [Hp (c & Hc & Ho) _ _ _ _ _] H0 H1 Hnot Ha.
  pose proof (load_opens w c _ _ Hc Ho) as Hload.
  assert (validate_all 0 [r; r] = Ok [p; p]) as Hv by (cbn; by rewrite H0, H1).
  assert (unique_new (keyPairs w) [p; p] = [p; p]) as Hu.
  { apply filterb_all. intros x Hx. assert (x = p) as -> by set_solver.
    apply negb_true_iff, not_true_is_false. intros E. apply existsb_exists in E as (e & He & E).
    split_bools. subst. apply Hnot. by apply list_elem_of_In. }
  destruct (append_cases w (keyPairs w) Hp Hload s s' [r; r]) as [[m E]|(new & u & us & Hv' & Hu' & E)].
  - exfalso. revert E. unfold appendKeyPairs, mbind, K_bind, get.
    destruct (storedPassword w); [done|]. rewrite Hv, Hload, Hu. cbn. unfold lift. rewrite Ha. cbn.
    unfold alerted. intros [= ?].
    match goal with H : keyPairs w ++ _ = keyPairs w |- _ => apply (f_equal length) in H; rewrite length_app in H; cbn in H; lia end.
  - rewrite Hv in Hv'. injection Hv' as <-. rewrite Hu in Hu'. injection Hu' as <- <-.
    rewrite (E a Ha). by eexists.
Qed.
End properties.

(** ** Witnesses

    Libraries in which a ciphertext is the password followed by the text, and
    encodings are sequences of bits. *)

#[export] Instance KeyPair_countable : Countable KeyPair :=
  inj_countable' (fun p => (publicKey p, privateKey p)) (fun c => Pair c.1 c.2) (fun '(Pair _ _) => eq_refl).

Definition toy_libs : KeyLibs := {|
  aes_encrypt := fun _ text password => password ++ newline :: text;
  aes_decrypt := fun c password =>
    if is_prefix (password ++ nl) c then Ok (drop (S (length password)) c) else Throw (js "Malformed UTF-8 data");
  sha256 := id;
  stringify_pairs := print_bits;
  parse_pairs := fun s => match read_bits s with Some l => Ok l | None => Throw (js "Unexpected token") end;
  b58_encode := print_bits;
  b58_decode := fun s => match read_bits s with Some b => Ok b | None => Throw (js "Non-base58 character") end;
  fromSeed := fun seed => Ok (rev seed);
  keccak256 := fmap ascii_of_N;
|}.

Lemma toy_libs_laws : KeyLibsLaws toy_libs.
Proof.
  constructor; cbn.
  - intros _ text password. rewrite (proj2 (is_prefix_spec _ _)).
    + f_equal. change (newline :: text) with ([newline] ++ text). rewrite app_assoc.
      apply drop_app_length'. rewrite length_app. cbn. lia.
    + exists text. by rewrite <- app_assoc.
  - intros _ text [|]; done.
  - intros l. by rewrite read_print_bits.
  - intros bytes. by rewrite read_print_bits.
Defined.

Definition toy_seed : list N := repeat 7%N 32.
Definition toy_world : world :=
  World (js "pw") [] 0 [] [] [] false None None None (Some (js "pw")) None.

Definition toy_ops : list op :=
  [SignUp 1 2 toy_seed (toy_seed ++ toy_seed); Generate 3 4 (repeat 8%N 32) (repeat 8%N 64); Delete 5 6 7].

Lemma keyring_consistent_witness :
  exists w, run_ops (L := toy_libs) toy_ops toy_world = (w, Ok tt) /\ held_ok (L := toy_libs) w /\
    forall s2 i, i < length (keyPairs w) ->
      exists w', run_op (L := toy_libs) (Select s2 i) w = (w', Ok tt) /\ ring_ok (L := toy_libs) w' /\
        selectedKeyPairIndex w' = i.
Proof.
  refine (keyring_consistent (L := toy_libs) (Laws := toy_libs_laws) toy_world 1 2 toy_seed (toy_seed ++ toy_seed)
    [Generate 3 4 (repeat 8%N 32) (repeat 8%N 64); Delete 5 6 7] _ _ _).
  - discriminate.
  - reflexivity.
  - repeat constructor.
Defined.

Definition toy_ring : world :=
  installed (L := toy_libs) toy_world 1 2 [Pair (b58_encode (KeyLibs := toy_libs) toy_seed) (b58_encode (KeyLibs := toy_libs) toy_seed)] 0
    (Pair (b58_encode (KeyLibs := toy_libs) toy_seed) (b58_encode (KeyLibs := toy_libs) toy_seed)) (js "0x" ++ slice (ascii_of_N <$> toy_seed) (-40) 32) true.

Lemma keyring_reload_witness :
  exists w2, initialise (L := toy_libs)
    (World [] [] 0 [] [] [] false None (encryptedKeyPairs toy_ring) (store toy_ring) (Some (js "pw"))
       (Some 0)) = (w2, Ok tt) /\ keyPairs w2 = keyPairs toy_ring.
Proof.
  refine (match keyring_reload (L := toy_libs) toy_ring
    (World [] [] 0 [] [] [] false None (encryptedKeyPairs toy_ring) (store toy_ring) (Some (js "pw"))
       (Some 0)) _ _ _ _ _ with
  | ex_intro _ w2 (conj H (conj _ (conj _ (conj Hk _)))) => ex_intro _ w2 (conj H Hk)
  end); [|reflexivity..].
  apply (installed_ok (L := toy_libs) (Laws := toy_libs_laws)); [discriminate|reflexivity|by vm_compute|].
  repeat constructor. exists toy_seed, toy_seed. by vm_compute.
Defined.

Lemma undecryptable_pairs_overwritten_witness :
  exists w' c', generateKeyPair (L := toy_libs) 1 2 toy_seed toy_seed
    (World (js "new") [] 0 [] [] [] false None (Some (js "sealed")) None None None) = (w', Ok true) /\
    encryptedKeyPairs w' = Some c' /\
    opens (L := toy_libs) c' (js "new") [Pair (b58_encode (KeyLibs := toy_libs) toy_seed) (b58_encode (KeyLibs := toy_libs) (take 32 toy_seed))] /\
    alert w' = Some decrypt_failed.
Proof.
  refine (undecryptable_pairs_overwritten (L := toy_libs) (Laws := toy_libs_laws)
    (World (js "new") [] 0 [] [] [] false None (Some (js "sealed")) None None None)
    (js "sealed") (js "Malformed UTF-8 data") 1 2 toy_seed toy_seed _ _ _ _).
  - discriminate.
  - reflexivity.
  - discriminate.
  - by vm_compute.
Defined.
