(* ===== verification/ContentScript.v ===== *)
(** * The ResVault content script

    src/ecosystem/tools/resvault/public/content.js: the script the extension
    adds to every page.  It answers the messages the page posts, shows the
    dialogs, and talks to the background script.  What it does is a list of
    effects; the answers of the background script come back through the
    callbacks [transaction_response] and the like, and the conversations that
    need no user are composed with the handlers of [Wallet].

    Of a dialog's HTML the model keeps what was put into it and which elements
    it has; [domain] is [window.location.hostname]. *)

From S2P Require Import Prelude JsString JsArray JsNum Json Codec Wallet.

(** ** Effects *)

Inductive effect :=
| ToPage (message : json)      (** [window.postMessage(message, '*')] *)
| ToBackground (message : json) (** [chrome.runtime.sendMessage] *)
| Thrown (message : str).

Definition from_content (data : json) : json :=
  JObj [(js "type", JStr (js "FROM_CONTENT_SCRIPT")); (js "data", data)].

Definition sendMessageToPage (request : json) : effect := ToPage (from_content request).

(** ** The dialogs *)

(** The arguments of [generateModalContent]. *)
Record content := Content { operation : str; c_amount : str; isCustom : bool; customMessage : str }.

Record transaction := Transaction {
  t_amount : str;
  t_data : option json;
  t_recipient : option json;
}.

(** A style that was set on an element: selector, property, value. *)
Abbreviation style := (str * str * json)%type.

Record modal := Modal {
  visible : bool;
  shows : content;
  transactionData : transaction;
  styled : list style;
}.

(** [document.getElementById('resVaultModal')] and ['resVaultLoginModal'] *)
Record page := Page { resVaultModal : option modal; loginModal : option bool }.

(** ** Styles *)

Definition allowedSelectors : list str :=
  [js "#resVaultModalContent"; js "#resVaultMessageBox"; js "#amountDisplay"; js "#resVaultModalClose";
   js "#resVaultModalSubmit"; js "#customMessage"; js "#poweredBy"].

Definition allowedStyles : jsmap str (list str) :=
  [(js "#resVaultModalContent", js <$> ["background-color"; "padding"; "border-radius"; "box-shadow"; "font-family";
      "width"; "position"; "top"; "left"; "transform"; "z-index"]%string);
   (js "#amountDisplay", js <$> ["color"; "font-size"; "text-align"; "border"; "background-color"; "padding";
      "border-radius"]%string);
   (js "#resVaultMessageBox", js <$> ["width"; "padding"; "background-color"; "border-radius"; "margin-bottom";
      "box-shadow"]%string);
   (js "#resVaultModalClose", js <$> ["background-color"; "color"; "border"; "padding"; "border-radius"; "cursor";
      "width"]%string);
   (js "#resVaultModalSubmit", js <$> ["background-color"; "color"; "border"; "padding"; "border-radius"; "cursor";
      "width"]%string);
   (js "#customMessage", js <$> ["color"; "font-size"; "text-align"; "background-color"; "padding";
      "border-radius"]%string);
   (js "#poweredBy", js <$> ["color"; "font-size"; "text-align"]%string)].

(** The elements with an identifier in the two templates. *)
Definition has_element (c : content) (selector : str) : bool :=
  bool_decide (selector ∈ [js "#resVaultModalContent"; js "#resVaultMessageBox"; js "#resVaultModalClose";
    js "#resVaultModalSubmit"]) ||
  (if isCustom c then bool_decide (selector ∈ [js "#customMessage"; js "#poweredBy"])
   else bool_decide (selector = js "#amountDisplay")).

(** The properties a [for ... in] loop visits: none for a value that is not
    an object. *)
Definition own_props (v : json) : jsmap str json :=
  match v with
  | JObj o => omap (fun k => (fun x => (k, x)) <$> map_get o k) (object_keys o)
  | _ => []
  end.

Definition applyStylesToModal (c : content) (styles : json) : list style :=
  own_props styles ≫= fun '(selector, styleObj) =>
    if bool_decide (selector ∈ allowedSelectors) && has_element c selector then
      let allowedProperties := coalesce (map_get allowedStyles selector) [] in
      omap (fun '(name, value) =>
        if bool_decide (name ∈ allowedProperties) then Some (selector, name, value) else None) (own_props styleObj)
    else [].

(** ** Opening the dialogs *)

(** A dialog that exists gets new content and is shown again. *)
Definition createOrUpdateModal (p : page) (c : content) (t : transaction) (styles : json) : page :=
  Page (Some (Modal true c t (applyStylesToModal c styles))) (loginModal p).

Definition createOrUpdateLoginModal (p : page) : page := Page (resVaultModal p) (Some true).

(** [styles = {}] for an absent argument. *)
Definition styles_of (data : json) : json := coalesce (prop data (js "styles")) (JObj []).

Definition handleCommitOperation (p : page) (data : json) : page * list effect :=
  match prop data (js "amount") with
  | Some (JStr amount) =>
      match trim amount with
      | [] => (p, [])
      | _ => (createOrUpdateModal p (Content (js "COMMIT") amount false [])
                (Transaction amount (prop data (js "data")) (prop data (js "recipient"))) (styles_of data), [])
      end
  | None => (p, [Thrown (js "Cannot read properties of undefined (reading 'trim')")])
  | Some JNull => (p, [Thrown (js "Cannot read properties of null (reading 'trim')")])
  | Some _ => (p, [Thrown (js "amount.trim is not a function")])
  end.

(** A custom message is a string or absent. *)
Definition handleCustomOperation (p : page) (data : json) : page * list effect :=
  (createOrUpdateModal p (Content [] (js "1") true (str_or (as_str (prop data (js "customMessage"))) []))
     (Transaction (js "1") (prop data (js "data")) (prop data (js "recipient"))) (styles_of data), []).

Definition handleLoginOperation (p : page) : page * list effect := (createOrUpdateLoginModal p, []).

(** ** Requests to the background script *)

Definition message (fields : list (str * option json)) : effect := ToBackground (JObj (present fields)).

Definition handleGetPublicKeyOperation (domain : str) : effect :=
  message [(js "action", Some (JStr (js "getPublicKey"))); (js "domain", Some (JStr domain))].

Definition handleSignOperation (domain : str) (data : json) : effect :=
  message [(js "action", Some (JStr (js "getSigningKeys"))); (js "domain", Some (JStr domain));
           (js "message", prop data (js "payload"))].

Definition handleTransactionSubmit (t : transaction) : effect :=
  message [(js "action", Some (JStr (js "submitTransaction"))); (js "amount", Some (JStr (t_amount t)));
           (js "data", t_data t); (js "recipient", t_recipient t)].

Definition handleLoginTransactionSubmit : effect :=
  message [(js "action", Some (JStr (js "submitLoginTransaction")))].

(** ** The callbacks *)

(** Of a transaction or a login: whatever came back is passed on. *)
Definition transaction_response (response : option json) : list effect :=
  if truthy response then [ToPage (from_content (coalesce response JNull))] else [].

Definition or_null (v : option json) : json := coalesce (js_or v (Some JNull)) JNull.

Definition public_key_response (response : option json) : list effect :=
  if truthy response then
    let field k := opt_prop response (js k) in
    [ToPage (from_content (JObj
      [(js "type", JStr (js "getPublicKey")); (js "direction", JStr (js "response"));
       (js "publicKey", or_null (field "publicKey")); (js "pubkey", or_null (field "publicKey"));
       (js "success", coalesce (js_or (field "success") (Some (JBool false))) (JBool false));
       (js "error", or_null (field "error"))]))]
  else [].

Definition sign_response (payload : option json) (response : option json) : list effect :=
  if truthy response && truthy (opt_prop response (js "success")) then
    [ToPage (from_content (JObj (present
      [(js "type", Some (JStr (js "signWithKeys"))); (js "direction", Some (JStr (js "request")));
       (js "privateKey", opt_prop response (js "privateKey")); (js "publicKey", opt_prop response (js "publicKey"));
       (js "message", payload)])))]
  else
    match get_prop response (js "error") with
    | Throw e => [Thrown e]
    | Ok error =>
        [ToPage (from_content (JObj
          [(js "type", JStr (js "sign")); (js "direction", JStr (js "response"));
           (js "signature", JNull); (js "sig", JNull); (js "success", JBool false);
           (js "error", coalesce (js_or error (Some (JStr (js "Failed to retrieve keys for signing")))) JNull)]))]
    end.

(** ** Events *)

Definition is_str (v : option json) (s : string) : bool :=
  match v with Some (JStr t) => bool_decide (t = js s) | _ => false end.
Arguments is_str v s%_string_scope.

(** A message event of the window; [own] says whether [event.source] is the
    window itself.  Reading the properties of [null] throws. *)
Definition onMessage (domain : str) (p : page) (own : bool) (data : json) : page * list effect :=
  if own then
    match data with
    | JNull => (p, [Thrown (js "Cannot destructure property 'direction' of 'event.data' as it is null.")])
    | _ =>
        let direction := prop data (js "direction") in
        let type := prop data (js "type") in
        if is_str direction "commit" then handleCommitOperation p data
        else if is_str direction "login" then handleLoginOperation p
        else if is_str direction "custom" then handleCustomOperation p data
        else if is_str direction "request" && is_str type "getPublicKey" then
          (p, [handleGetPublicKeyOperation domain])
        else if is_str direction "request" && is_str type "sign" then (p, [handleSignOperation domain data])
        else (p, [])
    end
  else (p, []).

(** A click in the transaction dialog, by the identifier of the element. *)
Definition hide (m : modal) : modal := Modal false (shows m) (transactionData m) (styled m).
Definition onModalClick (p : page) (target : str) : page * list effect :=
  match resVaultModal p with
  | None => (p, [])
  | Some m =>
      if bool_decide (target = js "resVaultModalClose") then (Page (Some (hide m)) (loginModal p), [])
      else if bool_decide (target = js "resVaultModalSubmit") then
        (Page (Some (hide m)) (loginModal p), [handleTransactionSubmit (transactionData m)])
      else (p, [])
  end.

Section storage.
Context `{B : Browser}.

(** [net && keys[domain] && keys[domain][net]] *)
Definition checkConnectionStatus (st : storage) (domain : str) : bool :=
  match map_get (connectedNets st) domain with
  | Some (c :: net) => bool_decide (is_Some (find_entry st domain (c :: net)))
  | _ => false
  end.

(** A click in the login dialog. *)
Definition onLoginClick (domain : str) (st : storage) (p : page) (target : str) : page * list effect :=
  match loginModal p with
  | None => (p, [])
  | Some _ =>
      if bool_decide (target = js "resVaultLoginModalClose") then (Page (resVaultModal p) (Some false), [])
      else if bool_decide (target = js "resVaultLoginModalAuthenticate") then
        (Page (resVaultModal p) (Some false),
         [if checkConnectionStatus st domain then handleLoginTransactionSubmit
          else sendMessageToPage (JStr (js "error"))])
      else (p, [])
  end.

(** A message of the page that asks for the public key or for a signature,
    with the answer of the background script. *)
Definition ask (domain : str) (st : storage) (p : page) (data : json) : list effect :=
  let '(_, effects) := onMessage domain p true data in
  effects ≫= fun e =>
    match e with
    | ToBackground m =>
        if is_str (prop m (js "action")) "getPublicKey" then public_key_response (Some (getPublicKey st domain))
        else if is_str (prop m (js "action")) "getSigningKeys" then
          sign_response (prop data (js "payload")) (Some (getSigningKeys st domain))
        else []
    | _ => [e]
    end.
End storage.

(** ** Sequences of events *)

Section events.
Context `{B : Browser} (domain : str).

Inductive event :=
| Message (own : bool) (data : json)
| ModalClick (target : str)
| LoginClick (st : storage) (target : str).

Definition handle_event (p : page) (e : event) : page * list effect :=
  match e with
  | Message own data => onMessage domain p own data
  | ModalClick target => onModalClick p target
  | LoginClick st target => onLoginClick domain st p target
  end.

Definition page_step (p p' : page) : Prop := exists e effects, handle_event p e = (p', effects).

(** The amount in the dialog is the amount of the transaction behind it. *)
Definition page_ok (p : page) : Prop :=
  forall m, resVaultModal p = Some m -> t_amount (transactionData m) = c_amount (shows m).

Lemma createOrUpdateModal_ok p c t styles : t_amount t = c_amount c -> page_ok (createOrUpdateModal p c t styles).
Proof. intros H m [= <-]. done. Qed.

Lemma handle_event_ok p e : page_ok p -> page_ok (handle_event p e).1.
Proof.
  intros H. destruct e as [[] data|target|st target]; cbn.
  - unfold onMessage, handleLoginOperation, createOrUpdateLoginModal.
    destruct data; try done; repeat case_match; simplify_eq/=; try done; cbn;
      unfold handleCommitOperation, handleCustomOperation in *; repeat case_match; simplify_eq/=; try done;
      by apply createOrUpdateModal_ok.
  - done.
  - unfold onModalClick. destruct (resVaultModal p) as [m|] eqn:E; [|done].
    repeat case_match; cbn; try done; intros m' [= <-]; cbn; by apply H.
  - unfold onLoginClick. repeat case_match; cbn; done.
Qed.

Lemma steps_ok p p' : rtc page_step p p' -> page_ok p -> page_ok p'.
Proof.
  induction 1 as [|p1 p2 p3 (e & effs & E) _ IH]; [done|]. intros H. apply IH.
  pose proof (handle_event_ok p1 e H) as H2. by rewrite E in H2.
Qed.

Definition asks_for (action : string) (e : effect) : bool :=
  match e with ToBackground m => is_str (prop m (js "action")) action | _ => false end.
Arguments asks_for action%_string_scope e.

(** Messages of the page alone do not submit anything. *)
Lemma message_no_submit p own data e :
  e ∈ (onMessage domain p own data).2 -> asks_for "submitTransaction" e = false.
Proof.
  unfold onMessage. destruct own; [|by intros ?%elem_of_nil].
  unfold handleLoginOperation, handleCommitOperation, handleCustomOperation.
  destruct data; try (by intros ->%list_elem_of_singleton);
    repeat case_match; simplify_eq/=;
    intros He; (apply elem_of_nil in He as [] || (apply list_elem_of_singleton in He as ->; done)).
Qed.
End events.

Arguments asks_for action%_string_scope e.

(** ** Lemmas on styles *)

Lemma elem_of_own_props v k x : (k, x) ∈ own_props v <-> prop v k = Some x.
Proof.
  destruct v as [| | | | |o]; cbn; try (split; [by intros ?%elem_of_nil|done]).
  rewrite list_elem_of_omap. split.
  - intros (k' & _ & E). destruct (map_get o k') eqn:G; [|done]. cbn in E. by injection E as -> ->.
  - intros G. exists k. rewrite G. split; [|done]. apply elem_of_object_keys, elem_of_map_keys. by eexists.
Qed.

(** ** The properties *)

(** The page restyles the transaction dialog only as far as the allow
    list goes: a style is set exactly when its selector is allowed and names
    an element of the dialog, its property is allowed for that selector, and
    the page asked for this value. *)
Theorem styles_exact c styles selector name value :
  (selector, name, value) ∈ applyStylesToModal c styles <->
  selector ∈ allowedSelectors /\ has_element c selector = true /\
  name ∈ coalesce (map_get allowedStyles selector) [] /\
  exists o, prop styles selector = Some o /\ prop o name = Some value.
Proof.
  unfold applyStylesToModal. rewrite list_elem_of_bind. split.
  - intros ([s o] & H & Ho%elem_of_own_props).
    destruct (bool_decide (s ∈ allowedSelectors) && has_element c s) eqn:E; [|by apply elem_of_nil in H].
    apply andb_true_iff in E as [Es Eh]. apply bool_decide_eq_true in Es.
    apply list_elem_of_omap in H as ([n v] & Hn & Hv). apply elem_of_own_props in Hn.
    destruct (bool_decide (n ∈ _)) eqn:En; [|done]. apply bool_decide_eq_true in En.
    injection Hv as -> -> ->. split_and!; [done..|]. by exists o.
  - intros (Hs & He & Hn & o & Ho & Hv). exists (selector, o). split; [|by apply elem_of_own_props].
    rewrite bool_decide_eq_true_2, He by done. cbn [andb]. apply list_elem_of_omap.
    exists (name, value). split; [by apply elem_of_own_props|]. by rewrite bool_decide_eq_true_2.
Qed.

(** A transaction is submitted only by a click on the Submit button of
    the dialog, whatever messages the page posts in between, and the amount
    that is submitted is the amount the dialog was opened with and shows. *)
Theorem submit_is_shown `{B : Browser} domain p ev p' effects e
  (Hreach : rtc (page_step domain) (Page None None) p)
  (Hstep : handle_event domain p ev = (p', effects)) (He : e ∈ effects)
  (Hsub : asks_for "submitTransaction" e = true) :
  ev = ModalClick (js "resVaultModalSubmit") /\
  exists m, resVaultModal p = Some m /\ e = handleTransactionSubmit (transactionData m) /\
    t_amount (transactionData m) = c_amount (shows m).
Proof.
  pose proof (steps_ok domain _ _ Hreach ltac:(done)) as Hok.
  destruct ev as [own data|target|st target]; cbn in Hstep.
  - pose proof (message_no_submit domain p own data e) as H. rewrite Hstep in H. specialize (H He). congruence.
  - unfold onModalClick in Hstep. destruct (resVaultModal p) as [m|] eqn:Em.
    2:{ injection Hstep as <- <-. by apply elem_of_nil in He. }
    destruct (bool_decide (target = js "resVaultModalClose")).
    { injection Hstep as <- <-. by apply elem_of_nil in He. }
    destruct (bool_decide (target = js "resVaultModalSubmit")) eqn:Et.
    2:{ injection Hstep as <- <-. by apply elem_of_nil in He. }
    apply bool_decide_eq_true in Et as ->. injection Hstep as <- <-.
    apply list_elem_of_singleton in He as ->. split; [done|]. exists m. eauto.
  - unfold onLoginClick in Hstep. repeat case_match; simplify_eq/=;
      try (by apply elem_of_nil in He); apply list_elem_of_singleton in He as ->; done.
Qed.

(** Any script of a connected page gets the private key without the user:
    a message that asks for a signature is answered, to every listener of the
    window, with the private and public keys stored for the domain. *)
Theorem sign_hands_out_private_key `{B : Browser} {L : BrowserLaws B} f d n pk sk url e st rs p payload
  (Hf : fresh_ok f) (He : make_entry f pk sk url = Ok e)
  (Hrs : Forall (fun fr => writes_domain fr.2 <> Some d) rs) :
  ask d (run rs (handle f (StoreKeys d n pk sk url) st).1) p
    (JObj [(js "direction", JStr (js "request")); (js "type", JStr (js "sign")); (js "payload", payload)]) =
  [ToPage (from_content (JObj
     [(js "type", JStr (js "signWithKeys")); (js "direction", JStr (js "request"));
      (js "privateKey", JStr sk); (js "publicKey", JStr pk); (js "message", payload)]))].
Proof.
  destruct (make_entry_opens f pk sk url e Hf He) as (k & Hk & H1 & H2 & H3).
  destruct (stored_entry f d n pk sk url e st rs He Hrs) as (He' & _ & Hno & _).
  set (st' := run _ _) in *.
  assert (getSigningKeys st' d =
    JObj [(js "success", JBool true); (js "privateKey", JStr sk); (js "publicKey", JStr pk)]) as Hk'.
  { eapply getSigningKeys_opens; [by rewrite Hno|done..]. }
  unfold ask. cbn -[getSigningKeys]. rewrite Hk'. done.
Qed.

(** ** Witnesses *)

Lemma submit_is_shown_witness :
  exists m, resVaultModal (handleCommitOperation (Page None None) (JObj [(js "amount", JStr (js "5"))])).1 = Some m /\
    handleTransactionSubmit (Transaction (js "5") None None) = handleTransactionSubmit (transactionData m) /\
    t_amount (transactionData m) = c_amount (shows m).
Proof.
  refine (proj2 (submit_is_shown (B := toy_browser) (js "a.org")
    (handleCommitOperation (Page None None) (JObj [(js "amount", JStr (js "5"))])).1
    (ModalClick (js "resVaultModalSubmit")) _ _ (handleTransactionSubmit (Transaction (js "5") None None)) _ eq_refl _ _)).
  - apply rtc_once. exists (Message true (JObj [(js "direction", JStr (js "commit")); (js "amount", JStr (js "5"))])), [].
    vm_compute. reflexivity.
  - left.
  - reflexivity.
Defined.

Lemma sign_hands_out_private_key_witness :
  ask (B := toy_browser) (js "b.org")
    (run [] (handle toy_fresh (StoreKeys (js "b.org") (js "main") (js "pk") (js "sk") (js "url")) toy_storage).1)
    (Page None None)
    (JObj [(js "direction", JStr (js "request")); (js "type", JStr (js "sign")); (js "payload", JStr (js "hi"))]) =
  [ToPage (from_content (JObj
     [(js "type", JStr (js "signWithKeys")); (js "direction", JStr (js "request"));
      (js "privateKey", JStr (js "sk")); (js "publicKey", JStr (js "pk")); (js "message", JStr (js "hi"))]))].
Proof.
  refine (sign_hands_out_private_key (B := toy_browser) (L := toy_laws) toy_fresh (js "b.org") (js "main")
    (js "pk") (js "sk") (js "url") (toy_entry (js "pk") (js "sk") (js "url")) toy_storage [] (Page None None)
    (JStr (js "hi")) _ _ _).
  - repeat split; repeat constructor.
  - vm_compute. reflexivity.
  - constructor.
Defined.
