(* ===== verification/DateTime.v ===== *)
(** * Dates and times

    [parseCreateTime] and [parseTimeToUnixEpoch] of
    src/ecosystem/monitoring/reslens-middleware/middleware/utils/time.js, and
    their copies in src/ecosystem/monitoring/reslens/src/static/encoding.ts,
    over the UTC half of the language's [Date]: the Gregorian calendar of days
    since 1970-01-01.  Times are whole numbers of microseconds below 2^53 in
    absolute value, where the number type of the language is exact; NaN is
    [None]. *)

From S2P Require Import Prelude JsString JsArray Codec.

Local Open Scope Z_scope.

(** ** The calendar *)

(** Years start in March here, so that the leap day is the last one. *)
Definition days_from_civil (y m d : Z) : Z :=
  let y := if m <=? 2 then y - 1 else y in
  let era := y / 400 in
  let yoe := y - era * 400 in
  let doy := (153 * (m + (if 2 <? m then -3 else 9)) + 2) / 5 + d - 1 in
  let doe := yoe * 365 + yoe / 4 - yoe / 100 + doy in
  era * 146097 + doe - 719468.

Definition civil_from_days (z : Z) : Z * Z * Z :=
  let z := z + 719468 in
  let era := z / 146097 in
  let doe := z - era * 146097 in
  let yoe := (doe - doe / 1460 + doe / 36524 - doe / 146096) / 365 in
  let doy := doe - (365 * yoe + yoe / 4 - yoe / 100) in
  let mp := (5 * doy + 2) / 153 in
  let d := doy - (153 * mp + 2) / 5 + 1 in
  let m := if mp <? 10 then mp + 3 else mp - 9 in
  (yoe + era * 400 + (if m <=? 2 then 1 else 0), m, d).

Definition msPerDay : Z := 86400000.

(** [TimeClip] *)
Definition timeClip (t : Z) : option Z := if Z.abs t <=? 8640000000000000 then Some t else None.

(** [Date.UTC(year, month, day, hour, minute, second)] for a month from 0 to
    11; a two-digit year is of the twentieth century. *)
Definition Date_UTC (year month day hour minute second : Z) : option Z :=
  let y := if (0 <=? year) && (year <=? 99) then 1900 + year else year in
  timeClip ((days_from_civil y (month + 1) 1 + day - 1) * msPerDay +
            hour * 3600000 + minute * 60000 + second * 1000).

(** ** time.js *)

Definition months : list str :=
  js <$> ["Jan"; "Feb"; "Mar"; "Apr"; "May"; "Jun"; "Jul"; "Aug"; "Sep"; "Oct"; "Nov"; "Dec"]%string.

Definition two_digits (n : Z) : str := if n <? 10 then js "0" ++ str_of_Z n else str_of_Z n.

(** The fields of an invalid date are NaN. *)
Definition invalid_date : str := js "NaN undefined NaN NaN:NaN:NaN GMT".

Definition parseCreateTime (createtime : option Z) : str :=
  match createtime ≫= fun t => timeClip (t / 1000) with
  | None => invalid_date
  | Some milliseconds =>
      let '(year, month, day) := civil_from_days (milliseconds / msPerDay) in
      let secs := (milliseconds mod msPerDay) / 1000 in
      two_digits day ++ js " " ++ coalesce (months !! (Z.to_nat (month - 1))) (js "undefined") ++ js " " ++
      str_of_Z year ++ js " " ++
      two_digits (secs / 3600) ++ js ":" ++ two_digits ((secs / 60) mod 60) ++ js ":" ++ two_digits (secs mod 60) ++
      js " GMT"
  end.

(** [parseInt(s, 10)]; [None] is NaN. *)
Fixpoint dec_digits (s : str) (acc : option Z) : option Z :=
  match s with
  | c :: s' => if is_digit c then dec_digits s' (Some (coalesce acc 0 * 10 + Z.of_N (code c - 48))) else acc
  | [] => acc
  end.
Definition parseInt10 (s : str) : option Z :=
  match trimStart s with
  | "-"%char :: s' => Z.opp <$> dec_digits s' None
  | "+"%char :: s' => dec_digits s' None
  | s' => dec_digits s' None
  end.

(** The argument of [parseInt] may be absent. *)
Definition parseInt_opt (s : option str) : option Z := s ≫= parseInt10.

Definition month_index (m : str) : option Z := Z.of_nat <$> (fst <$> list_find (eq m) months).

(** The microseconds, NaN, or the exception for a text of fewer than four
    words. *)
Definition parseTimeToUnixEpoch (timeString : str) : result (option Z) :=
  let parts := split timeString (js " ") in
  match parts !! 3%nat with
  | None => Throw (js "Cannot read properties of undefined (reading 'split')")
  | Some time =>
      let timeParts := split time (js ":") in
      Ok (day ← parseInt_opt (parts !! 0%nat);
          month ← parts !! 1%nat ≫= month_index;
          year ← parseInt_opt (parts !! 2%nat);
          hour ← parseInt_opt (timeParts !! 0%nat);
          minute ← parseInt_opt (timeParts !! 1%nat);
          second ← parseInt_opt (timeParts !! 2%nat);
          ms ← Date_UTC year month day hour minute second;
          Some (ms * 1000))
  end.

(** ** Lemmas *)

(** The year of a day of the 400-year cycle, and the day of that year. *)
Lemma cycle_day doe : 0 <= doe < 146097 ->
  let yoe := (doe - doe / 1460 + doe / 36524 - doe / 146096) / 365 in
  0 <= yoe <= 399 /\ 0 <= doe - (365 * yoe + yoe / 4 - yoe / 100) <= 365.
Proof.
  intros H yoe.
  destruct (Z.eqb_spec doe 146096) as [->|Hne]; [vm_compute; intuition discriminate|].
  assert (doe / 146096 = 0) as E by (Z.div_mod_to_equations; lia). subst yoe. rewrite E.
  assert (doe / 36524 = 0 \/ doe / 36524 = 1 \/ doe / 36524 = 2 \/ doe / 36524 = 3) as Hb
    by (Z.div_mod_to_equations; lia).
  destruct Hb as [Hb|[Hb|[Hb|Hb]]]; rewrite Hb; Z.div_mod_to_equations; lia.
Qed.

(** Month and day of a day of a year that starts in March. *)
Lemma month_day doy : 0 <= doy <= 365 ->
  let mp := (5 * doy + 2) / 153 in
  0 <= mp <= 11 /\ 1 <= doy - (153 * mp + 2) / 5 + 1 <= 31.
Proof. intros H mp. subst mp. Z.div_mod_to_equations. lia. Qed.

(** The day count undoes the calendar. *)
Lemma civil_days z :
  let '(y, m, d) := civil_from_days z in
  days_from_civil y m 1 + d - 1 = z /\ 1 <= m <= 12 /\ 1 <= d <= 31 /\ (0 <= z -> 1600 <= y).
Proof.
  unfold civil_from_days. set (era := (z + 719468) / 146097). set (doe := z + 719468 - era * 146097).
  assert (0 <= doe < 146097) as Hdoe by (unfold doe, era; Z.div_mod_to_equations; lia).
  destruct (cycle_day doe Hdoe) as [Hy Hd]. cbn zeta.
  set (yoe := (doe - doe / 1460 + doe / 36524 - doe / 146096) / 365) in *.
  set (doy := doe - (365 * yoe + yoe / 4 - yoe / 100)) in *.
  destruct (month_day doy Hd) as [Hm Hday]. set (mp := (5 * doy + 2) / 153) in *.
  split; [|split; [destruct (mp <? 10) eqn:E; split_bools; lia|split; [lia|]]].
  - unfold days_from_civil. cbn zeta.
    set (m := if mp <? 10 then mp + 3 else mp - 9).
    assert (m + (if 2 <? m then -3 else 9) = mp) as ->.
    { unfold m. destruct (mp <? 10) eqn:E; split_bools; destruct (2 <? _) eqn:E2; split_bools; lia. }
    assert ((if m <=? 2 then yoe + era * 400 + (if m <=? 2 then 1 else 0) - 1
             else yoe + era * 400 + (if m <=? 2 then 1 else 0)) = yoe + era * 400) as ->
      by (destruct (m <=? 2); lia).
    assert ((yoe + era * 400) / 400 = era) as -> by (rewrite Z.div_add by lia; rewrite Z.div_small; lia).
    replace (yoe + era * 400 - era * 400) with yoe by lia. unfold doy, doe. lia.
  - intros Hz. assert (4 <= era) by (unfold era; Z.div_mod_to_equations; lia).
    destruct (_ <=? 2); lia.
Qed.

(** *** Decimal digits *)

Lemma pretty_digit n : (n < 10)%N ->
  is_digit (pretty_N_char n) = true /\ Z.of_N (code (pretty_N_char n) - 48) = Z.of_N n.
Proof.
  intros Hn.
  apply (forall_N_lt (fun n => is_digit (pretty_N_char n) = true /\
    Z.of_N (code (pretty_N_char n) - 48) = Z.of_N n) 10); [by vm_compute|done].
Qed.

Lemma dec_digits_pretty x : forall s acc, (0 < x)%N -> coalesce acc 0 = 0 ->
  dec_digits (js (pretty_N_go x s)) acc = dec_digits (js s) (Some (Z.of_N x)).
Proof.
  induction (N.lt_wf_0 x) as [x _ IH]; intros s acc Hx Hacc.
  rewrite pretty_N_go_step by done.
  assert (x mod 10 < 10)%N as Hm by (by apply N.mod_lt). destruct (pretty_digit _ Hm) as [Hd Hv].
  assert (Z.of_N x = Z.of_N (x / 10) * 10 + Z.of_N (x mod 10)) as Hx10
    by (pose proof (N.div_mod x 10 ltac:(done)); lia).
  destruct (decide (x / 10 = 0)%N) as [E|E].
  - rewrite E, pretty_N_go_0. cbn -[is_digit code N.modulo pretty_N_char].
    rewrite Hd, Hv, Hacc. do 2 f_equal. lia.
  - rewrite IH; [|apply N.div_lt; lia|lia|done]. cbn -[is_digit code N.modulo N.div pretty_N_char].
    rewrite Hd, Hv. do 2 f_equal. lia.
Qed.

Lemma pretty_all_digits x : forall s, Forall (fun c => is_digit c = true) (js s) ->
  Forall (fun c => is_digit c = true) (js (pretty_N_go x s)).
Proof.
  induction (N.lt_wf_0 x) as [x _ IH]; intros s Hs.
  destruct (decide (x = 0)%N) as [->|Hx]; [by rewrite pretty_N_go_0|].
  rewrite pretty_N_go_step by lia. apply IH; [apply N.div_lt; lia|].
  constructor; [|done]. apply pretty_digit. by apply N.mod_lt.
Qed.

Lemma pretty_pos p : pretty (Z.pos p) = pretty_N_go (N.pos p) EmptyString.
Proof. done. Qed.

Lemma str_of_Z_digits z : 0 <= z ->
  Forall (fun c => is_digit c = true) (str_of_Z z) /\ dec_digits (str_of_Z z) None = Some z.
Proof.
  intros Hz. unfold str_of_Z. destruct z as [|p|p]; [| |lia].
  - split; [by repeat constructor|done].
  - rewrite pretty_pos. split; [by apply pretty_all_digits; constructor|].
    by rewrite dec_digits_pretty.
Qed.

Lemma parseInt10_digits s : Forall (fun c => is_digit c = true) s -> parseInt10 s = dec_digits s None.
Proof.
  intros Hs. destruct s as [|c s]; [done|]. apply Forall_cons in Hs as [Hc _].
  assert (is_space c = false /\ c <> "-"%char /\ c <> "+"%char) as (H1 & H2 & H3).
  { revert Hc. apply (forall_ascii (fun c => is_digit c = true ->
      is_space c = false /\ c <> "-"%char /\ c <> "+"%char)). by vm_compute. }
  unfold parseInt10. cbn [trimStart]. rewrite H1.
  destruct c as [[] [] [] [] [] [] [] []]; try done.
Qed.

Lemma parseInt10_Z z : 0 <= z -> parseInt10 (str_of_Z z) = Some z.
Proof. intros [Hd E]%str_of_Z_digits. by rewrite parseInt10_digits. Qed.

Lemma two_digits_ok z : 0 <= z ->
  Forall (fun c => is_digit c = true) (two_digits z) /\ parseInt10 (two_digits z) = Some z.
Proof.
  intros Hz. destruct (str_of_Z_digits z Hz) as [Hd E]. unfold two_digits. destruct (z <? 10).
  - assert (Forall (fun c => is_digit c = true) (js "0" ++ str_of_Z z)) as Hd' by (by constructor).
    split; [done|]. rewrite parseInt10_digits by done. cbn -[str_of_Z].
    destruct z as [|p|p]; [done| |lia]. unfold str_of_Z. rewrite pretty_pos.
    by rewrite dec_digits_pretty.
  - split; [done|]. by apply parseInt10_Z.
Qed.

Lemma digits_not_in c w : is_digit c = false -> Forall (fun c => is_digit c = true) w -> c ∉ w.
Proof. intros Hc Hw Hin. rewrite Forall_forall in Hw. rewrite (Hw c Hin) in Hc. done. Qed.

Lemma month_ok m : 1 <= m <= 12 ->
  exists name, months !! (Z.to_nat (m - 1)) = Some name /\ (" "%char ∉ name) /\ month_index name = Some (m - 1).
Proof.
  intros Hm.
  assert (m = 1 \/ m = 2 \/ m = 3 \/ m = 4 \/ m = 5 \/ m = 6 \/ m = 7 \/ m = 8 \/ m = 9 \/ m = 10 \/ m = 11 \/ m = 12)
    as H by lia.
  repeat (destruct H as [->|H]); [..|subst m];
    (eexists; split; [reflexivity|]; split; [eapply bool_decide_eq_true; by vm_compute|reflexivity]).
Qed.

(** The words of a formatted time. *)
Lemma parts_of day month year h m s :
  " "%char ∉ day -> " "%char ∉ month -> " "%char ∉ year ->
  Forall (fun c => is_digit c = true) h -> Forall (fun c => is_digit c = true) m ->
  Forall (fun c => is_digit c = true) s ->
  split (day ++ js " " ++ month ++ js " " ++ year ++ js " " ++ h ++ js ":" ++ m ++ js ":" ++ s ++ js " GMT") (js " ") =
    [day; month; year; h ++ js ":" ++ m ++ js ":" ++ s; js "GMT"] /\
  split (h ++ js ":" ++ m ++ js ":" ++ s) (js ":") = [h; m; s].
Proof.
  intros Hd Hm Hy Hh Hmi Hs.
  assert (forall w, Forall (fun c => is_digit c = true) w -> (" "%char ∉ w) /\ (":"%char ∉ w)) as Hw.
  { intros w H. split; by eapply digits_not_in. }
  split.
  - replace (h ++ js ":" ++ m ++ js ":" ++ s ++ js " GMT") with
      ((h ++ js ":" ++ m ++ js ":" ++ s) ++ " "%char :: js "GMT") by (by rewrite <- !app_assoc).
    change (js " ") with [" "%char]. cbn [app].
    assert (" "%char ∉ js "GMT") as Hg by (eapply bool_decide_eq_true; by vm_compute).
    rewrite !split_cons; [by rewrite split_single| |done..].
    destruct (Hw h Hh), (Hw m Hmi), (Hw s Hs). rewrite !elem_of_app. intros [?|[?|[?|[?|?]]]]; try done; set_solver.
  - change (js ":") with [":"%char]. cbn [app]. destruct (Hw h Hh), (Hw m Hmi), (Hw s Hs).
    rewrite !split_cons by done. by rewrite split_single.
Qed.

(** Formatting a whole number of seconds and parsing the text gives it
    back. *)
Lemma time_roundtrip s : 0 <= s -> s * 1000 <= 8640000000000000 ->
  parseTimeToUnixEpoch (parseCreateTime (Some (s * 1000000))) = Ok (Some (s * 1000000)).
Proof.
  intros Hs Hmax. unfold parseCreateTime. cbn [mbind option_bind].
  replace (s * 1000000 / 1000) with (s * 1000) by (Z.div_mod_to_equations; lia).
  unfold timeClip at 1. rewrite Z.abs_eq, (proj2 (Z.leb_le _ _) Hmax) by lia.
  set (z := s * 1000 / msPerDay).
  assert (0 <= z) as Hz by (unfold z, msPerDay; Z.div_mod_to_equations; lia).
  pose proof (civil_days z) as C. destruct (civil_from_days z) as [[y mo] d].
  destruct C as (Hday & Hmo & Hd & Hy). specialize (Hy Hz).
  set (secs := (s * 1000) mod msPerDay / 1000).
  assert (0 <= secs < 86400 /\ s = z * 86400 + secs) as [Hsecs Es].
  { unfold secs, z, msPerDay. Z.div_mod_to_equations. lia. }
  destruct (month_ok mo Hmo) as (name & -> & Hname & Hidx). cbn [coalesce].
  destruct (two_digits_ok d ltac:(lia)) as [D1 D2].
  destruct (two_digits_ok (secs / 3600) ltac:(Z.div_mod_to_equations; lia)) as [H1 H2].
  destruct (two_digits_ok ((secs / 60) mod 60) ltac:(Z.div_mod_to_equations; lia)) as [M1 M2].
  destruct (two_digits_ok (secs mod 60) ltac:(Z.div_mod_to_equations; lia)) as [S1 S2].
  destruct (str_of_Z_digits y ltac:(lia)) as [Y1 _].
  unfold parseTimeToUnixEpoch.
  destruct (parts_of (two_digits d) name (str_of_Z y) _ _ _ ltac:(by eapply digits_not_in) Hname
    ltac:(by eapply digits_not_in) H1 M1 S1) as [-> P2].
  change ([?a; ?b; ?c; ?t; ?g] !! 3%nat) with (Some t). cbv iota. rewrite P2. cbn -[str_of_Z two_digits Date_UTC Z.mul month_index parseInt10].
  rewrite D2, Hidx, H2, M2, S2, parseInt10_Z by lia. cbn -[Date_UTC Z.mul].
  unfold Date_UTC. replace ((0 <=? y) && (y <=? 99)) with false
    by (symmetry; apply andb_false_iff; right; apply Z.leb_gt; lia).
  replace (mo - 1 + 1) with mo by lia.
  replace ((days_from_civil y mo 1 + d - 1) * msPerDay + secs / 3600 * 3600000 + (secs / 60) mod 60 * 60000 +
    secs mod 60 * 1000) with (s * 1000).
  - unfold timeClip. rewrite Z.abs_eq by lia. rewrite (proj2 (Z.leb_le _ _) Hmax). cbn -[Z.mul].
    do 2 f_equal. lia.
  - rewrite Hday, Es. unfold msPerDay. Z.div_mod_to_equations. lia.
Qed.

(** A parsed time is a whole number of seconds, within the range of dates. *)
Lemma parsed_seconds text t :
  parseTimeToUnixEpoch text = Ok (Some t) -> exists s, t = s * 1000000 /\ Z.abs (s * 1000) <= 8640000000000000.
Proof.
  unfold parseTimeToUnixEpoch. destruct (_ !! 3%nat); [|done]. intros [= E].
  apply bind_Some in E as (day & _ & E). apply bind_Some in E as (mo & _ & E).
  apply bind_Some in E as (y & _ & E). apply bind_Some in E as (h & _ & E).
  apply bind_Some in E as (mi & _ & E). apply bind_Some in E as (sec & _ & E).
  apply bind_Some in E as (ms & Hms & [= <-]). unfold Date_UTC, timeClip in Hms. cbn zeta in Hms.
  destruct (Z.abs _ <=? 8640000000000000) eqn:Ea; [|done]. injection Hms as <-. split_bools.
  match type of Ea with Z.abs ((?days) * msPerDay + ?hh + ?mm + ?ss) <= _ =>
    exists (days * 86400 + h * 3600 + mi * 60 + sec)
  end.
  unfold msPerDay in *. split; lia.
Qed.
