(* ===== verification/DeltaEncoding.v ===== *)
(** * Delta encoding of time series

    src/ecosystem/monitoring/reslens-middleware/middleware/utils/encoding.js
    and the decoder the dashboard has in
    src/ecosystem/monitoring/reslens/src/static/encoding.ts.  Epochs are whole
    numbers of seconds in microseconds, as [parseTimeToUnixEpoch] gives them;
    NaN is [None].  The numbers are integers here, which is what the doubles
    of the language compute as long as an epoch is between 0 and 2^53 - 1
    (times up to the year 2255) and a volume too: then every difference,
    quotient and product of the two functions is an integer in the safe
    range, and no operation rounds.  The theorems have this range as a
    condition ([whole]); beyond it the doubles round and the model says
    nothing. *)

From S2P Require Import Prelude JsString JsArray Codec DateTime.

Local Open Scope Z_scope.

(** ** Numbers that may be NaN *)

Definition lift2 (f : Z -> Z -> Z) (a b : option Z) : option Z :=
  match a, b with Some x, Some y => Some (f x y) | _, _ => None end.

Definition TIME_MULTIPLIER : Z := 1000000.

Record TimeSeriesPoint := Point { epoch : option Z; volume : option Z }.

Record DeltaEncodedData := Encoded {
  startEpoch : option Z;
  startVolume : option Z;
  timeMultiplier : Z;
  epochs : list (option Z);
  volumes : list (option Z);
}.

(** A decoded point has the formatted time too. *)
Record DecodedPoint := Decoded { d_epoch : option Z; d_volume : option Z; createdAt : str }.

(** ** Encoding *)

(** The loop from the second point on: the deltas from the previous one. *)
Fixpoint deltas (prev : TimeSeriesPoint) (data : list TimeSeriesPoint) : list (option Z) * list (option Z) :=
  match data with
  | [] => ([], [])
  | p :: data' =>
      let '(es, vs) := deltas p data' in
      (lift2 Z.div (lift2 Z.sub (epoch p) (epoch prev)) (Some TIME_MULTIPLIER) :: es,
       lift2 Z.sub (volume p) (volume prev) :: vs)
  end.

Definition applyDeltaEncoding (data : list TimeSeriesPoint) : DeltaEncodedData :=
  match data with
  | [] => Encoded (Some 0) (Some 0) TIME_MULTIPLIER [] []
  | p :: data' =>
      let '(es, vs) := deltas p data' in
      Encoded (lift2 Z.div (epoch p) (Some TIME_MULTIPLIER)) (volume p) TIME_MULTIPLIER es vs
  end.

(** ** Decoding *)

Definition decoded (e v : option Z) : DecodedPoint := Decoded e v (parseCreateTime e).

(** The loop over [epochs]; a missing volume is [undefined], and adding it
    gives NaN. *)
Fixpoint decode_from (m : Z) (prev : DecodedPoint) (es vs : list (option Z)) : list DecodedPoint :=
  match es with
  | [] => []
  | e :: es' =>
      let currentEpoch := lift2 Z.add (lift2 Z.div (d_epoch prev) (Some m)) e in
      let p := decoded (lift2 Z.mul currentEpoch (Some m)) (lift2 Z.add (d_volume prev) (head vs ≫= id)) in
      p :: decode_from m p es' (tail vs)
  end.

Definition decodeDeltaEncoding (d : DeltaEncodedData) : list DecodedPoint :=
  let first := decoded (lift2 Z.mul (startEpoch d) (Some (timeMultiplier d))) (startVolume d) in
  first :: decode_from (timeMultiplier d) first (epochs d) (volumes d).

(** ** Lemmas *)

Definition MAX_SAFE_INTEGER : Z := 2 ^ 53 - 1.

(** Whole seconds, in the range where the doubles are exact. *)
Definition whole (p : TimeSeriesPoint) : Prop :=
  exists s v, p = Point (Some (s * TIME_MULTIPLIER)) (Some v) /\
    0 <= s * TIME_MULTIPLIER <= MAX_SAFE_INTEGER /\ 0 <= v <= MAX_SAFE_INTEGER.

Lemma decode_deltas data : forall s v,
  Forall whole data ->
  let p := Point (Some (s * TIME_MULTIPLIER)) (Some v) in
  decode_from TIME_MULTIPLIER (decoded (epoch p) (volume p)) (deltas p data).1 (deltas p data).2 =
  (fun p => decoded (epoch p) (volume p)) <$> data.
Proof.
  induction data as [|p data IH]; intros s v Hw; [done|].
  apply Forall_cons in Hw as [(s' & v' & -> & _) Hw]. specialize (IH s' v' Hw).
  cbn -[Z.div Z.mul Z.sub Z.add TIME_MULTIPLIER decoded] in *. destruct (deltas _ data) as [es vs] eqn:E.
  cbn -[Z.div Z.mul Z.sub Z.add TIME_MULTIPLIER decoded] in *.
  change (d_epoch (decoded ?e ?w)) with e. change (d_volume (decoded ?e ?w)) with w. cbn [lift2].
  assert ((s * TIME_MULTIPLIER / TIME_MULTIPLIER + (s' * TIME_MULTIPLIER - s * TIME_MULTIPLIER) / TIME_MULTIPLIER)
    * TIME_MULTIPLIER = s' * TIME_MULTIPLIER) as ->.
  { rewrite <- Z.mul_sub_distr_r, !Z.div_mul by done. lia. }
  replace (v + (v' - v)) with v' by lia. by rewrite IH.
Qed.

Lemma decode_encode data : Forall whole data -> data <> [] ->
  decodeDeltaEncoding (applyDeltaEncoding data) = (fun p => decoded (epoch p) (volume p)) <$> data.
Proof.
  intros Hw Hne. destruct data as [|p data]; [done|].
  apply Forall_cons in Hw as [(s & v & -> & _) Hw]. pose proof (decode_deltas data s v Hw) as H.
  unfold applyDeltaEncoding, decodeDeltaEncoding. destruct (deltas _ data) as [es vs] eqn:E.
  cbn -[Z.div Z.mul TIME_MULTIPLIER decoded] in *. rewrite E in H. cbn -[Z.div Z.mul TIME_MULTIPLIER decoded] in H.
  rewrite Z.div_mul by done. by rewrite H.
Qed.

(** ** The property *)

(** Decoding what was encoded gives the series back, with its times
    formatted, for every series that is not empty and whose times are whole
    seconds from 1970 to 2255; the encoding of the empty series, though, decodes to one point at
    the start of 1970. *)
Theorem delta_roundtrip data :
  (Forall whole data -> data <> [] ->
   decodeDeltaEncoding (applyDeltaEncoding data) = (fun p => decoded (epoch p) (volume p)) <$> data) /\
  decodeDeltaEncoding (applyDeltaEncoding []) = [Decoded (Some 0) (Some 0) (js "01 Jan 1970 00:00:00 GMT")].
Proof. split; [apply decode_encode|by vm_compute]. Qed.
