(* ===== verification/TxHistory.v ===== *)
(** * The transaction history of the ResLens middleware

    The job of
    src/ecosystem/monitoring/reslens-middleware/middleware/cron/syncTransactionHistory.js,
    which copies the blocks of the explorer into a SQLite table, and the
    endpoint of controllers/explorer.js that sends the table to the dashboard
    in delta encoding.  The table is its list of rows in the order of
    insertion; the explorer is a parameter.  The database does not fail, and a
    block has an identifier and a creation time, as the table requires.

    [syncTransactionHistory] is one run from start to end; [job_step] is the
    service, in which the scheduler starts a run without waiting for those
    under way. *)

From S2P Require Import Prelude JsString JsArray JsNum Json Codec DateTime DeltaEncoding.

Local Open Scope Z_scope.

(** ** Data *)

Record block := Block { id : Z; b_createdAt : str; transactions : option (list json) }.

Record row := Row { block_id : Z; row_volume : Z; created_at : str }.

Definition BATCH_SIZE : Z := 1000.

(** [SELECT MAX(block_id)], or 0 for an empty table; a maximum of 0 is 0
    either way. *)
Definition getLastProcessedBlockId (t : list row) : Z :=
  match t with [] => 0 | r :: t' => foldr Z.max (block_id r) (block_id <$> t') end.

(** ** The explorer *)

(** From the body of the answer to [/populatetable]: [blockNum] of its first
    element, or 0. *)
Definition getTotalBlocks (answer : result json) : result json :=
  match answer with
  | Throw e => Throw e
  | Ok body =>
      let data := match body with JArr (x :: _) => Some x | _ => Some (JObj [(js "numBlocks", JNum nzero)]) end in
      Ok (coalesce (js_or (opt_prop data (js "blockNum")) (Some (JNum nzero))) (JNum nzero))
  end.

(** The answer to [/v1/blocks/start/end]: an array of blocks, a falsy body, or
    something that has no [forEach]. *)
Inductive blocks_answer := Blocks (l : list block) | NoBody | NotArray.

Definition fetchBlockRange (fetch : Z -> Z -> result blocks_answer) (start end_ : Z) : result (list block) :=
  match fetch start end_ with
  | Throw e => Throw e
  | Ok (Blocks l) => Ok l
  | Ok NoBody => Ok []
  | Ok NotArray => Throw (js "blocks.forEach is not a function")
  end.

(** ** Storing *)

Definition row_of (b : block) : row :=
  Row (id b) (match transactions b with Some l => Z.of_nat (length l) | None => 0 end) (b_createdAt b).

Definition storeTransactions (t : list row) (blocks : list block) : list row := t ++ (row_of <$> blocks).

(** ** The job *)

Section sync.
Context (fetch : Z -> Z -> result blocks_answer).

(** The loop; an exception leaves it, and what was stored stays.  The fuel is
    the number of blocks that remain. *)
Fixpoint sync_loop (fuel : nat) (currentStart totalBlocks : Z) (t : list row) : list row :=
  match fuel with
  | O => t
  | S fuel' =>
      if currentStart <=? totalBlocks then
        let currentEnd := Z.min (currentStart + BATCH_SIZE - 1) totalBlocks in
        match fetchBlockRange fetch currentStart currentEnd with
        | Throw _ => t
        | Ok blocks => sync_loop fuel' (currentEnd + 1) totalBlocks (storeTransactions t blocks)
        end
      else t
  end.

(** [total] is what [getTotalBlocks] gave; the explorer counts its blocks
    with an integer. *)
Definition syncTransactionHistory (total : result Z) (t : list row) : list row :=
  let lastProcessedId := getLastProcessedBlockId t in
  match total with
  | Throw _ => t
  | Ok totalBlocks =>
      if lastProcessedId <? totalBlocks
      then sync_loop (Z.to_nat (totalBlocks - lastProcessedId)) (lastProcessedId + 1) totalBlocks t
      else t
  end.
End sync.

(** ** The status *)

(** [((lastProcessedId / totalBlocks) * 100).toFixed(2)], or [0]. *)
Definition syncProgress (lastProcessedId totalBlocks : Z) : str :=
  if 0 <? lastProcessedId
  then toFixed (nmul (ndiv (of_Z lastProcessedId) (of_Z totalBlocks)) (of_Z 100)) 2
  else js "0".
Definition blocks_remaining (lastProcessedId totalBlocks : Z) : Z := totalBlocks - lastProcessedId.

(** ** The endpoint of the chart *)

(** The queries of [getDataFromCache], all ordered by [block_id]. *)
Inductive range := Between (start end_ : Z) | Everything | Fallback.
Definition by_block_id (t : list row) : list row := sort_by (fun a b => block_id a <? block_id b) t.
Definition getDataFromCache (t : list row) (r : range) : list row :=
  match r with
  | Between s e => by_block_id (filterb (fun x => (s <=? block_id x) && (block_id x <=? e)) t)
  | Everything => by_block_id t
  | Fallback => take 100 (by_block_id t)
  end.

(** The record as a point. *)
Definition point_of (r : row) : result TimeSeriesPoint :=
  match parseTimeToUnixEpoch (created_at r) with
  | Ok e => Ok (Point e (Some (row_volume r)))
  | Throw m => Throw m
  end.

Fixpoint points_of (rows : list row) : result (list TimeSeriesPoint) :=
  match rows with
  | [] => Ok []
  | r :: rows' => (try! p <- point_of r; try! ps <- points_of rows'; Ok (p :: ps))%js
  end.

Inductive reply := Sent (d : DeltaEncodedData) | Status (code : Z) (error : str).

Definition getAllEncodedBlocks (t : list row) : reply :=
  match getDataFromCache t Everything with
  | [] => Status 404 (js "No cached block data available")
  | rows => match points_of rows with
            | Ok ps => Sent (applyDeltaEncoding ps)
            | Throw _ => Status 500 (js "Failed to fetch full block data")
            end
  end.

(** ** Lemmas *)

Lemma last_id_max t r : r ∈ t -> block_id r <= getLastProcessedBlockId t.
Proof.
  destruct t as [|r0 t]; [by intros ?%elem_of_nil|]. cbn. intros [->|H]%elem_of_cons; apply foldr_max_ge.
  - by left.
  - right. apply list_elem_of_fmap. eauto.
Qed.

Lemma last_id_spec t m :
  (forall r, r ∈ t -> block_id r <= m) -> (t = [] /\ m = 0 \/ exists r, r ∈ t /\ block_id r = m) ->
  getLastProcessedBlockId t = m.
Proof.
  intros Hle [[-> ->]|(r & Hr & <-)]; [done|]. apply Z.le_antisymm; [|by apply last_id_max].
  destruct t as [|r0 t]; [by apply elem_of_nil in Hr|]. cbn.
  destruct (foldr_max_in (block_id r0) (block_id <$> t)) as [E|E].
  - rewrite E. apply Hle. by left.
  - apply list_elem_of_fmap in E as (x & E & Hx). rewrite E. apply Hle. by right.
Qed.

(** ** The blocks of a chain *)

Section chain.
Context (chain : Z -> block) (chain_id : forall i, id (chain i) = i).

(** The rows of the blocks [start], ..., [start + n - 1]. *)
Definition rows_from (start n : Z) : list row := (fun i => row_of (chain i)) <$> seqZ start n.

(** The table holds the blocks up to [n], each once and in order. *)
Definition holds (n : Z) (t : list row) : Prop := t = rows_from 1 n.

(** The explorer answers a range with its blocks, or fails. *)
Definition exact (fetch : Z -> Z -> result blocks_answer) : Prop :=
  forall s e, (exists m, fetch s e = Throw m) \/ fetch s e = Ok (Blocks (chain <$> seqZ s (e - s + 1))).

Lemma rows_from_app start n m : 0 <= n -> 0 <= m ->
  rows_from start n ++ rows_from (start + n) m = rows_from start (n + m).
Proof. intros. unfold rows_from. rewrite <- fmap_app. by rewrite <- seqZ_app by lia. Qed.

Lemma holds_last n t : 0 <= n -> holds n t -> getLastProcessedBlockId t = n.
Proof.
  intros Hn ->. apply last_id_spec.
  - intros r (i & -> & Hi)%list_elem_of_fmap. apply elem_of_seqZ in Hi. cbn. rewrite chain_id. lia.
  - destruct (decide (n = 0)) as [->|]; [by left|right]. exists (row_of (chain n)). cbn. rewrite chain_id.
    split; [|done]. apply list_elem_of_fmap. exists n. split; [done|]. apply elem_of_seqZ. lia.
Qed.

(** The loop stores a run of batches, all of them unless a request fails. *)
Lemma sync_loop_spec fetch : exact fetch -> forall fuel n total t,
  0 <= n <= total -> total - n <= Z.of_nat fuel -> holds n t ->
  exists m, n <= m <= total /\ holds m (sync_loop fetch fuel (n + 1) total t) /\
    ((forall s e, is_ok (fetch s e) = true) -> m = total).
Proof.
  intros Hex fuel. induction fuel as [|fuel IH]; intros n total t Hn Hf Ht; cbn -[Z.add Z.sub].
  - exists n. split; [lia|]. split; [done|lia].
  - destruct (n + 1 <=? total) eqn:E; split_bools.
    2:{ exists n. split; [lia|]. split; [done|lia]. }
    set (last := Z.min (n + 1 + BATCH_SIZE - 1) total).
    assert (n < last <= total) as Hlast by (unfold last, BATCH_SIZE; lia).
    unfold fetchBlockRange. destruct (Hex (n + 1) last) as [[m Hm]|Hok].
    + rewrite Hm. exists n. split; [lia|]. split; [done|]. intros H. specialize (H (n + 1) last). by rewrite Hm in H.
    + rewrite Hok. destruct (IH last total (storeTransactions t (chain <$> seqZ (n + 1) (last - (n + 1) + 1)))) as
        (m & Hm & Hh & Hall); [lia|lia| |exists m; split; [lia|done]].
      unfold holds, storeTransactions in *. rewrite Ht, <- list_fmap_compose.
      replace (n + 1) with (1 + n) by lia.
      transitivity (rows_from 1 n ++ rows_from (1 + n) (last - (1 + n) + 1)); [done|].
      rewrite rows_from_app by lia. f_equal. lia.
Qed.

Lemma sync_spec fetch total n t :
  exact fetch -> 0 <= n -> holds n t ->
  exists m, n <= m <= Z.max n total /\ holds m (syncTransactionHistory fetch (Ok total) t) /\
    ((forall s e, is_ok (fetch s e) = true) -> m = Z.max n total).
Proof.
  intros Hex Hn Ht. unfold syncTransactionHistory. rewrite (holds_last n t Hn Ht).
  destruct (n <? total) eqn:E; split_bools.
  - destruct (sync_loop_spec fetch Hex (Z.to_nat (total - n)) n total t) as (m & Hm & Hh & Hall); [lia|lia|done|].
    exists m. split; [lia|]. split; [done|]. intros H. rewrite (Hall H). lia.
  - exists n. split; [lia|]. split; [done|]. lia.
Qed.
End chain.

(** A run of the job: the explorer as it answers then, and the block count. *)
Definition run_job (t : list row) (run : (Z -> Z -> result blocks_answer) * result Z) : list row :=
  syncTransactionHistory run.1 run.2 t.

(** ** The service *)

(** A run under way: it awaits the block count, having read the last
    identifier, or the blocks of its next batch. *)
Inductive job := Counting (last : Z) | Fetching (currentStart totalBlocks : Z).

Record service := Service { table : list row; active : list job }.

Section service.
(** The answers the explorer may give to a range, when asked for it. *)
Context (ask : Z -> Z -> result blocks_answer -> Prop).

Definition batch_end (currentStart totalBlocks : Z) : Z := Z.min (currentStart + BATCH_SIZE - 1) totalBlocks.

(** [cron.schedule] calls the job at its times, whether or not an earlier
    call is still under way; the runs interleave at their awaits. *)
Inductive job_step : service -> service -> Prop :=
| job_start t a : job_step (Service t a) (Service t (a ++ [Counting (getLastProcessedBlockId t)]))
| job_counted t a1 last a2 total :
    last < total ->
    job_step (Service t (a1 ++ Counting last :: a2)) (Service t (a1 ++ Fetching (last + 1) total :: a2))
| job_up_to_date t a1 last a2 :
    (* the count is not above [last], or the request for it failed *)
    job_step (Service t (a1 ++ Counting last :: a2)) (Service t (a1 ++ a2))
| job_batch t a1 start total a2 answer blocks :
    start <= total -> ask start (batch_end start total) answer ->
    fetchBlockRange (fun _ _ => answer) start (batch_end start total) = Ok blocks ->
    job_step (Service t (a1 ++ Fetching start total :: a2))
      (Service (storeTransactions t blocks) (a1 ++ Fetching (batch_end start total + 1) total :: a2))
| job_failed t a1 start total a2 answer e :
    start <= total -> ask start (batch_end start total) answer ->
    fetchBlockRange (fun _ _ => answer) start (batch_end start total) = Throw e ->
    job_step (Service t (a1 ++ Fetching start total :: a2)) (Service t (a1 ++ a2))
| job_finished t a1 start total a2 :
    total < start ->
    job_step (Service t (a1 ++ Fetching start total :: a2)) (Service t (a1 ++ a2)).

(** A step after which at most one run is under way. *)
Definition alone_step (s s' : service) : Prop := job_step s s' /\ (length (active s') <= 1)%nat.
End service.

(** A run that is alone does what [run_job] says. *)
Lemma sync_loop_steps fetch fuel : forall start total t,
  total + 1 - start <= Z.of_nat fuel -> start <= total + 1 ->
  rtc (alone_step (fun s e a => a = fetch s e)) (Service t [Fetching start total])
    (Service (sync_loop fetch fuel start total t) []).
Proof.
  assert (forall start total t, total < start ->
    rtc (alone_step (fun s e a => a = fetch s e)) (Service t [Fetching start total]) (Service t [])) as Hend.
  { intros start total t H. apply rtc_once. split; [by apply (job_finished _ t [])|cbn; lia]. }
  induction fuel as [|fuel IH]; intros start total t Hf Hs; cbn -[Z.add Z.sub]; [apply Hend; lia|].
  destruct (start <=? total) eqn:E; split_bools; [|by apply Hend].
  fold (batch_end start total). destruct (fetchBlockRange fetch start (batch_end start total)) as [l|e] eqn:Ef.
  - eapply rtc_l.
    + split; [by apply (job_batch _ t [] start total [] (fetch start (batch_end start total)))|cbn; lia].
    + apply IH; unfold batch_end, BATCH_SIZE; lia.
  - apply rtc_once.
    split; [by apply (job_failed _ t [] start total [] (fetch start (batch_end start total)) e)|cbn; lia].
Qed.

Lemma run_job_steps fetch total t :
  rtc (alone_step (fun s e a => a = fetch s e)) (Service t []) (Service (run_job t (fetch, total)) []).
Proof.
  eapply rtc_l; [split; [apply job_start|cbn; lia]|]. cbn [app].
  assert (rtc (alone_step (fun s e a => a = fetch s e)) (Service t [Counting (getLastProcessedBlockId t)])
    (Service t [])) as Hend.
  { apply rtc_once. split; [by apply (job_up_to_date _ t [])|cbn; lia]. }
  unfold run_job, syncTransactionHistory. cbn [fst snd]. destruct total as [total|]; [|done].
  destruct (_ <? total) eqn:E; split_bools; [|done].
  eapply rtc_l; [split; [by apply (job_counted _ t [])|cbn; lia]|]. apply sync_loop_steps; lia.
Qed.

Lemma singleton_app {A} (l1 l2 : list A) x y : l1 ++ x :: l2 = [y] -> l1 = [] /\ l2 = [] /\ x = y.
Proof. destruct l1 as [|z l1]; [by intros [= -> ->]|]. intros [= -> E]. by destruct l1. Qed.

(** ** The properties *)

Section alone.
Context (chain : Z -> block) (chain_id : forall i, id (chain i) = i).
Context (ask : Z -> Z -> result blocks_answer -> Prop).
Context (Hask : forall s e a, ask s e a -> (exists m, a = Throw m) \/ a = Ok (Blocks (chain <$> seqZ s (e - s + 1)))).

(** What is true of the service while runs do not overlap: the table holds
    the first [m] blocks, and the run under way continues there. *)
Definition service_at (m : Z) (s : service) : Prop :=
  0 <= m /\ holds chain m (table s) /\
  (active s = [] \/ active s = [Counting m] \/ exists total, active s = [Fetching (m + 1) total]).

Lemma alone_step_at m s s' : service_at m s -> alone_step ask s s' -> exists m', m <= m' /\ service_at m' s'.
Proof.
  intros (Hm & Ht & Ha) [Hs Hlen].
  assert (forall t, holds chain m t -> exists m', m <= m' /\ service_at m' (Service t [])) as Hidle.
  { intros t H. exists m. split; [lia|]. split; [done|]. split; [done|by left]. }
  destruct Hs as [t a|t a1 last a2 total Hl|t a1 last a2|t a1 start total a2 answer blocks Hle Hans Hf
                 |t a1 start total a2 answer e Hle Hans Hf|t a1 start total a2 Hgt]; cbn [table active] in *.
  - assert (a = []) as -> by (destruct a; [done|cbn in Hlen; rewrite length_app in Hlen; cbn in Hlen; lia]).
    exists m. split; [lia|]. split; [done|]. split; [done|]. right. left. cbn.
    by rewrite (holds_last chain chain_id m t Hm Ht).
  - destruct Ha as [Ha|[Ha|[tot Ha]]]; [by destruct a1| |by apply singleton_app in Ha as (_ & _ & [=])].
    apply singleton_app in Ha as (-> & -> & [= ->]). exists m. split; [lia|]. split; [done|].
    split; [done|]. right. right. by exists total.
  - destruct Ha as [Ha|[Ha|[tot Ha]]]; [by destruct a1| |by apply singleton_app in Ha as (_ & _ & [=])].
    apply singleton_app in Ha as (-> & -> & _). by apply Hidle.
  - destruct Ha as [Ha|[Ha|[tot Ha]]]; [by destruct a1|by apply singleton_app in Ha as (_ & _ & [=])|].
    apply singleton_app in Ha as (-> & -> & [= -> <-]). set (last := batch_end (m + 1) total) in *.
    assert (m < last) as Hlast by (unfold last, batch_end, BATCH_SIZE; lia).
    destruct (Hask _ _ _ Hans) as [[e ->]| ->]; [done|]. injection Hf as <-.
    exists last. split; [lia|]. split; [lia|]. split; [|by right; right; exists total].
    unfold holds, storeTransactions in *. cbn [table]. rewrite Ht, <- list_fmap_compose.
    replace (m + 1) with (1 + m) by lia.
    transitivity (rows_from chain 1 m ++ rows_from chain (1 + m) (last - (1 + m) + 1)); [done|].
    rewrite rows_from_app by lia. f_equal. lia.
  - destruct Ha as [Ha|[Ha|[tot Ha]]]; [by destruct a1|by apply singleton_app in Ha as (_ & _ & [=])|].
    apply singleton_app in Ha as (-> & -> & _). by apply Hidle.
  - destruct Ha as [Ha|[Ha|[tot Ha]]]; [by destruct a1|by apply singleton_app in Ha as (_ & _ & [=])|].
    apply singleton_app in Ha as (-> & -> & _). by apply Hidle.
Qed.

Lemma alone_at m s s' : service_at m s -> rtc (alone_step ask) s s' -> exists m', m <= m' /\ service_at m' s'.
Proof.
  intros Hs Hr. revert m Hs. induction Hr as [s|s1 s2 s3 H12 _ IH]; intros m Hs; [by exists m|].
  destruct (alone_step_at m s1 s2 Hs H12) as (m2 & H2 & Hs2).
  destruct (IH m2 Hs2) as (m3 & H3 & Hs3). exists m3. split; [lia|done].
Qed.
End alone.

(** C22: the table of a service whose runs do not overlap (no run starts
    while another is under way), against an explorer that answers each
    range either with exactly its blocks or with a failure.  After every
    step of a run the table holds the blocks from the first on, each exactly once
    and in order, with the number of their transactions, and never fewer than
    before; and a run from an idle service whose requests all succeed brings
    it up to the explorer's count (or leaves it, when it has more).  Runs
    that overlap store blocks twice, and a block missing from an answer is
    never fetched again. *)
Theorem history_complete chain n t ask
  (Hid : forall i, id (chain i) = i) (Hn : 0 <= n) (Ht : holds chain n t)
  (Hask : forall s e a, ask s e a ->
     (exists m, a = Throw m) \/ a = Ok (Blocks (chain <$> seqZ s (e - s + 1)))) :
  forall s, rtc (alone_step ask) (Service t []) s ->
  exists m, n <= m /\ holds chain m (table s) /\
    forall total fetch, (forall i j, ask i j (fetch i j)) -> (forall i j, is_ok (fetch i j) = true) ->
      holds chain (Z.max m total) (run_job (table s) (fetch, Ok total)).
Proof.
  intros s Hs. destruct (alone_at chain Hid ask Hask n (Service t []) s) as (m & Hm & H0 & Hh & _); [|done|].
  { split; [done|]. split; [done|by left]. }
  exists m. split; [done|]. split; [done|]. intros total fetch Hf Hok.
  destruct (sync_spec chain Hid fetch total m (table s)) as (m' & _ & Hh' & Hall); [|done|done|].
  { intros i j. by apply Hask. }
  by rewrite <- (Hall Hok).
Qed.

(** Two runs that overlap both store the block: each read the last
    identifier before the other stored anything. *)
Theorem overlapping_runs_duplicate (chain : Z -> block) (ask : Z -> Z -> result blocks_answer -> Prop)
  (Hone : ask 1 1 (Ok (Blocks [chain 1]))) :
  rtc (job_step ask) (Service [] []) (Service [row_of (chain 1); row_of (chain 1)] []).
Proof.
  eapply rtc_l; [apply job_start|]. eapply rtc_l; [apply job_start|]. cbn.
  eapply rtc_l; [apply (job_counted _ [] [] 0 [Counting 0] 1); lia|].
  eapply rtc_l; [apply (job_counted _ [] [Fetching 1 1] 0 [] 1); lia|]. cbn.
  eapply rtc_l; [apply (job_batch ask [] [] 1 1 [Fetching 1 1] (Ok (Blocks [chain 1])) [chain 1]); [lia|exact Hone|done]|].
  eapply rtc_l; [apply (job_batch ask _ [Fetching 2 1] 1 1 [] (Ok (Blocks [chain 1])) [chain 1]); [lia|exact Hone|done]|].
  eapply rtc_l; [apply (job_finished ask _ [] 2 1 [Fetching 2 1]); lia|].
  eapply rtc_l; [apply (job_finished ask _ [] 2 1 []); lia|]. apply rtc_refl.
Qed.

(** The explorer answers with blocks of the range it was asked for. *)
Definition in_range (fetch : Z -> Z -> result blocks_answer) : Prop :=
  forall s e l, fetch s e = Ok (Blocks l) -> Forall (fun b => s <= id b <= e) l.

Lemma sync_loop_keeps fetch : in_range fetch -> forall fuel start total t r,
  r ∈ sync_loop fetch fuel start total t -> r ∈ t \/ start <= block_id r <= total.
Proof.
  intros Hr fuel. induction fuel as [|fuel IH]; intros start total t r; cbn -[Z.add Z.sub]; [by left|].
  destruct (start <=? total) eqn:E; [|by left]. split_bools.
  set (last := Z.min (start + BATCH_SIZE - 1) total).
  assert (start <= last <= total) as Hl by (unfold last, BATCH_SIZE; lia).
  unfold fetchBlockRange. destruct (fetch start last) as [a|] eqn:Ef; [|by left].
  assert (forall l, (forall b, b ∈ l -> start <= id b <= last) ->
    r ∈ sync_loop fetch fuel (last + 1) total (storeTransactions t l) ->
    r ∈ t \/ start <= block_id r <= total) as Hgo.
  { intros l Hin [H|H]%IH; [|right; lia]. unfold storeTransactions in H.
    apply elem_of_app in H as [H|H]; [by left|]. apply list_elem_of_fmap in H as (b & -> & Hb).
    right. cbn. specialize (Hin b Hb). lia. }
  destruct a as [l| |]; [|apply Hgo|by left].
  - apply Hgo. specialize (Hr _ _ _ Ef). by rewrite Forall_forall in Hr.
  - intros b Hb. by apply elem_of_nil in Hb.
Qed.

Lemma sync_keeps fetch total t r : in_range fetch ->
  r ∈ syncTransactionHistory fetch total t -> r ∈ t \/ getLastProcessedBlockId t < block_id r.
Proof.
  intros Hr. unfold syncTransactionHistory. destruct total as [total|]; [|by left].
  destruct (_ <? total); [|by left]. intros [H|H]%sync_loop_keeps; [by left| |done]. right. lia.
Qed.

Lemma sync_loop_monotone fetch fuel : forall start total t r, r ∈ t -> r ∈ sync_loop fetch fuel start total t.
Proof.
  induction fuel as [|fuel IH]; intros start total t r H; cbn -[Z.add Z.sub]; [done|].
  destruct (start <=? total); [|done]. destruct (fetchBlockRange _ _ _); [|done].
  apply IH. unfold storeTransactions. apply elem_of_app. by left.
Qed.

Lemma sync_monotone fetch total t r : r ∈ t -> r ∈ syncTransactionHistory fetch total t.
Proof.
  intros H. unfold syncTransactionHistory. destruct total; [|done]. destruct (_ <? _); [|done].
  by apply sync_loop_monotone.
Qed.

(** The largest identifier in the table is the only memory of the job,
    so a block that was left out of an answer is never asked for again: once
    a later block is stored, no run brings the missing one in, however the
    explorer answers from then on. *)
Theorem gap_never_filled t k runs
  (Hlater : exists r, r ∈ t /\ k <= block_id r) (Hgap : k ∉ block_id <$> t)
  (Hruns : Forall (fun run => in_range run.1) runs) :
  k ∉ block_id <$> foldl run_job t runs.
Proof.
  revert t Hlater Hgap. induction Hruns as [|[f tot] runs Hf _ IH]; intros t Hlater Hgap; [done|].
  cbn [foldl]. apply IH; unfold run_job; cbn.
  - destruct Hlater as (r & Hr & Hk). exists r. split; [by apply sync_monotone|done].
  - intros (r & -> & [H|H]%sync_keeps)%list_elem_of_fmap; [|destruct Hlater as (r' & Hr' & Hk)|done].
    + by apply Hgap, list_elem_of_fmap_2.
    + pose proof (last_id_max t r' Hr'). lia.
Qed.

(** ** The chart *)

Section chart.
Context (chain : Z -> block) (chain_id : forall i, id (chain i) = i).

Lemma rows_sorted start n : by_block_id (rows_from chain start n) = rows_from chain start n.
Proof.
  apply sort_by_id. unfold rows_from. apply StronglySorted_fmap.
  assert (forall k start, StronglySorted (fun x y : Z => x <= y) (seqZ start (Z.of_nat k))) as H.
  { intros k. induction k as [|k IH]; intros s; [constructor|].
    rewrite seqZ_cons by lia. replace (Z.pred (Z.of_nat (S k))) with (Z.of_nat k) by lia.
    constructor; [apply IH|]. apply Forall_forall. intros y Hy%elem_of_seqZ. lia. }
  destruct (decide (n <= 0)); [rewrite seqZ_nil by lia; constructor|].
  specialize (H (Z.to_nat n) start). rewrite Z2Nat.id in H by lia.
  induction H as [|x l Hs IH Hx]; constructor; [done|]. eapply Forall_impl; [exact Hx|].
  intros y Hy. cbn. rewrite !chain_id. by apply Z.ltb_ge.
Qed.

(** The explorer formats the times of its blocks as the dashboard does, the
    times are in the range where the doubles are exact, and a block has fewer
    transactions than an array can hold. *)
Definition timed (s : Z -> Z) : Prop :=
  forall i, 0 <= s i * TIME_MULTIPLIER <= MAX_SAFE_INTEGER /\
    b_createdAt (chain i) = parseCreateTime (Some (s i * TIME_MULTIPLIER)) /\
    row_volume (row_of (chain i)) < 2 ^ 32.

Definition point_at (s : Z -> Z) (i : Z) : TimeSeriesPoint :=
  Point (Some (s i * TIME_MULTIPLIER)) (Some (row_volume (row_of (chain i)))).

Lemma points_of_rows s start n : timed s ->
  points_of (rows_from chain start n) = Ok (point_at s <$> seqZ start n).
Proof.
  intros Ht. unfold rows_from. induction (seqZ start n) as [|i l IH]; [done|].
  cbn [fmap list_fmap points_of]. unfold point_of. cbn [created_at row_of].
  destruct (Ht i) as (H1 & -> & _). unfold TIME_MULTIPLIER, MAX_SAFE_INTEGER in H1.
  unfold TIME_MULTIPLIER at 1. rewrite time_roundtrip by lia.
  rewrite IH. done.
Qed.
End chart.

(** C12: from the explorer to the chart nothing is lost: for a table that
    holds the blocks up to [n > 0], the endpoint's answer, decoded by the
    dashboard, is the series of the blocks in order, each with its creation
    time, in microseconds and as the explorer's text, and the number of its
    transactions.  The conditions are that the explorer gives the creation
    times as texts of the form [DD MMM YYYY HH:MM:SS GMT], and that they are
    whole seconds from 1970 up to 2^53 - 1 microseconds (the year 2255), so
    that the arithmetic of both sides is exact in doubles (a block has fewer
    than 2^32 transactions, as many as an array can hold). *)
Theorem chart_shows_history chain s n t
  (Hid : forall i, id (chain i) = i) (Htime : timed chain s) (Hn : 0 < n) (Ht : holds chain n t) :
  exists d, getAllEncodedBlocks t = Sent d /\
    decodeDeltaEncoding d = (fun i =>
      Decoded (Some (s i * TIME_MULTIPLIER)) (Some (row_volume (row_of (chain i)))) (b_createdAt (chain i)))
      <$> seqZ 1 n.
Proof.
  unfold getAllEncodedBlocks. cbn [getDataFromCache]. rewrite Ht, rows_sorted by done.
  pose proof (points_of_rows chain s 1 n Htime) as Hp.
  assert (exists k, n = Z.of_nat (S k)) as [k ->] by (exists (Z.to_nat (n - 1)); lia).
  destruct (rows_from chain 1 (Z.of_nat (S k))) as [|r rows] eqn:E.
  { unfold rows_from in E. rewrite seqZ_cons in E by lia. done. }
  rewrite Hp. eexists. split; [done|].
  rewrite decode_encode.
  - rewrite <- list_fmap_compose. apply list_fmap_ext. intros j i _. cbn.
    destruct (Htime i) as (_ & -> & _). done.
  - apply Forall_fmap, Forall_true. intros i. destruct (Htime i) as (H1 & _ & H2). cbn in H2.
    eexists _, _. split; [done|]. split; [exact H1|]. unfold MAX_SAFE_INTEGER. cbn. destruct (transactions _); lia.
  - rewrite seqZ_cons by lia. done.
Qed.

(** ** Witnesses *)

(** A chain whose blocks are one second apart. *)
Definition toy_time (i : Z) : Z := Z.max 0 (Z.min i 1000).
Definition toy_chain (i : Z) : block :=
  Block i (parseCreateTime (Some (toy_time i * TIME_MULTIPLIER))) (Some [JNull]).
Definition toy_explorer (s e : Z) : result blocks_answer := Ok (Blocks (toy_chain <$> seqZ s (e - s + 1))).

Lemma history_complete_witness :
  exists m, 0 <= m /\ holds toy_chain m [] /\ holds toy_chain (Z.max m 3) (run_job [] (toy_explorer, Ok 3)).
Proof.
  destruct (history_complete toy_chain 0 [] (fun s e a => a = toy_explorer s e)) with (s := Service [] [])
    as (m & H1 & H2 & H3).
  - reflexivity.
  - lia.
  - reflexivity.
  - intros s e a ->. right. reflexivity.
  - apply rtc_refl.
  - exists m. split; [exact H1|]. split; [exact H2|]. apply H3; reflexivity.
Defined.

Lemma overlapping_runs_duplicate_witness :
  rtc (job_step (fun s e a => a = toy_explorer s e)) (Service [] [])
    (Service [row_of (toy_chain 1); row_of (toy_chain 1)] []).
Proof. apply (overlapping_runs_duplicate toy_chain). reflexivity. Defined.

Lemma gap_never_filled_witness :
  2 ∉ block_id <$> foldl run_job [Row 3 1 (js "x")] [(toy_explorer, Ok 5)].
Proof.
  apply (gap_never_filled [Row 3 1 (js "x")] 2 [(toy_explorer, Ok 5)]).
  - exists (Row 3 1 (js "x")). split; [left|]. cbn. lia.
  - intros H. by apply list_elem_of_singleton in H.
  - constructor; [|constructor]. intros s e l [= <-]. apply Forall_fmap, Forall_forall.
    intros i Hi%elem_of_seqZ. cbn. lia.
Defined.

Lemma chart_shows_history_witness :
  exists d, getAllEncodedBlocks (rows_from toy_chain 1 2) = Sent d /\
    decodeDeltaEncoding d =
      [Decoded (Some 1000000) (Some 1) (js "01 Jan 1970 00:00:01 GMT");
       Decoded (Some 2000000) (Some 1) (js "01 Jan 1970 00:00:02 GMT")].
Proof.
  refine (chart_shows_history toy_chain toy_time 2 (rows_from toy_chain 1 2) _ _ _ _).
  - reflexivity.
  - intros i. unfold toy_time, TIME_MULTIPLIER, MAX_SAFE_INTEGER. split; [lia|]. split; [reflexivity|cbn; lia].
  - lia.
  - reflexivity.
Defined.
