(* ===== verification/Middleware.v ===== *)
(** * The controllers of the ResLens middleware

    [getEnv] of src/ecosystem/monitoring/reslens-middleware/middleware/utils/envParser.js,
    [calculateP99], [setValue] and [getValue] of controllers/transactions.js,
    [getBlocks] of controllers/explorer.js and [getTransactionData] of
    controllers/statsExporter.js.  A controller gives the answer it sends; the
    services behind it are parameters.  [getRandomInt] gives a whole number,
    response times are whole milliseconds. *)

From S2P Require Import Prelude JsString JsArray JsNum Json DateTime.

Local Open Scope Z_scope.

(** ** Environment *)

Definition required (name : str) : str :=
  js "Environment variable " ++ ["034"%char] ++ name ++ ["034"%char] ++ js " is required but not defined.".

(** [env] is [process.env]; an empty value counts as absent. *)
Definition getEnv (env : str -> option str) (name : str) (optional : option str) : result str :=
  match env name, optional with
  | Some (c :: v), _ => Ok (c :: v)
  | _, Some (c :: v) => Ok (c :: v)
  | _, _ => Throw (required name)
  end.

(** ** Answers *)

(** A body, or a status with its error. *)
Inductive reply (A : Type) := Send (body : A) | Fail (status : Z) (error : str).
Arguments Send {A} body.
Arguments Fail {A} status error.

(** ** Transactions *)

(** The identifier in the answer to a commit: what follows the first colon
    and space, up to the next one. *)
Definition setValue (answer : result str) : reply (option str) :=
  match answer with
  | Ok data => Send (split data (js ": ") !! 1%nat)
  | Throw e => Fail 500 e
  end.

Definition getValue (answer : result json) : reply json :=
  match answer with Ok data => Send data | Throw e => Fail 500 e end.

(** The requests of [calculateP99]: keys and values from random numbers. *)
Definition warm_requests (samples : Z) (random : nat -> Z) : list (str * str) :=
  (fun i => (js "key_" ++ str_of_Z (random i), js "value_" ++ str_of_Z (random i)))
    <$> seq 0 (Z.to_nat (Z.min 50 samples)).

(** [Math.ceil(0.99 * n) - 1] *)
Definition p99Index (n : nat) : Z := to_Z (nceil (nmul (dec 99 100) (of_Z (Z.of_nat n)))) - 1.

(** [l[i]]: a negative index is not one. *)
Definition at_Z {A} (l : list A) (i : Z) : option A := if i <? 0 then None else l !! (Z.to_nat i).

(** All response times, in the order of completion, or the first failure. *)
Definition calculateP99 (samples : Z) (times : result (list Z)) : reply (str * option Z) :=
  match times with
  | Throw _ => Fail 500 (js "Failed to warm cache.")
  | Ok responseTimes =>
      let sorted := sort_asc responseTimes in
      Send (js "Cache warmed with " ++ str_of_Z samples ++ js " random values successfully.",
            at_Z sorted (p99Index (length sorted)))
  end.

(** ** Blocks *)

Definition getBlocks (start end_ : option str) (fetch : Z -> Z -> result json) : reply json :=
  match parseInt_opt start, parseInt_opt end_ with
  | Some s, Some e =>
      match fetch s e with
      | Ok data => Send data
      | Throw m => Fail 500 (js "Failed to fetch block data")
      end
  | _, _ => Fail 400 (js "Pass valid start and end query params as part of the request")
  end.

(** ** LevelDB statistics *)

(** [headers.reduce((acc, header, index) => ...)]; a missing value is
    [undefined]. *)
Definition table_row (headers values : list str) : jsmap str (option str) :=
  foldl (fun acc '(i, h) => map_set acc h (values !! i)) [] (indexed headers).

Definition processStatsData (statsData : option str) : result (list (jsmap str (option str))) :=
  match statsData with
  | None | Some [] => Ok []
  | Some text =>
      let lines := split (trim text) nl in
      match lines !! 1%nat with
      | None => Throw (js "Cannot read properties of undefined (reading 'trim')")
      | Some line =>
          let headers := split_ws (trim line) in
          Ok ((fun row => table_row headers (split_ws (trim row))) <$> drop 3 lines)
      end
  end.

(** The statistics of an answer are replaced by the parsed table. *)
Definition getTransactionData (stats : result (option str)) : reply (list (jsmap str (option str))) :=
  match stats with
  | Throw e => Fail 500 e
  | Ok text => match processStatsData text with Ok rows => Send rows | Throw e => Fail 500 e end
  end.

(** ** Lemmas *)

Lemma length_warm_requests samples random :
  Z.of_nat (length (warm_requests samples random)) = Z.max 0 (Z.min 50 samples).
Proof. unfold warm_requests. rewrite length_fmap, length_seq. lia. Qed.

(** Up to 50 samples the index is the last one. *)
Lemma p99Index_last n : (n <= 50)%nat -> p99Index n = Z.of_nat n - 1.
Proof.
  intros Hn. assert (forallb (fun n => p99Index n =? Z.of_nat n - 1) (seq 0 51) = true) as H by (by vm_compute).
  rewrite forallb_forall in H. apply Z.eqb_eq, H, in_seq. lia.
Qed.

Lemma sorted_last (l : list Z) x : StronglySorted Z.le l -> last l = Some x -> forall y, y ∈ l -> y <= x.
Proof.
  intros Hs. induction Hs as [|z l Hs IH Hz]; [done|]. intros Hx y [->|Hy]%elem_of_cons.
  - destruct l as [|w l]; cbn in Hx; [injection Hx as ->; lia|].
    rewrite Forall_forall in Hz. apply Hz. apply last_Some_elem_of. done.
  - apply IH; [|done]. destruct l; [by apply elem_of_nil in Hy|done].
Qed.

(** ** The properties *)

(** The p99 latency the endpoint reports is the maximum of the response
    times, since it never takes more than 50 samples, however many were asked
    for; without samples it reports none.  Any failed request makes the whole
    measurement fail. *)
Theorem p99_is_maximum samples random times :
  length times = length (warm_requests samples random) ->
  (length times <= 50)%nat /\
  match calculateP99 samples (Ok times) with
  | Send (_, Some p99) => p99 ∈ times /\ forall t, t ∈ times -> t <= p99
  | Send (_, None) => times = [] /\ samples <= 0
  | Fail _ _ => False
  end /\
  (forall e, calculateP99 samples (Throw e) = Fail 500 (js "Failed to warm cache.")).
Proof.
  intros Hl. pose proof (length_warm_requests samples random) as Hw. rewrite <- Hl in Hw.
  split; [lia|]. split; [|done]. unfold calculateP99. cbn zeta. unfold sort_asc. rewrite length_sort_by.
  rewrite p99Index_last by lia. unfold at_Z.
  destruct times as [|t times]; [cbn in *; split; [done|lia]|].
  rewrite (proj2 (Z.ltb_ge _ _)) by (cbn; lia).
  replace (Z.to_nat (Z.of_nat (length (t :: times)) - 1)) with (pred (length (sort_asc (t :: times))))
    by (unfold sort_asc; rewrite length_sort_by; cbn; lia).
  fold (sort_asc (t :: times)). rewrite <- last_lookup.
  destruct (last (sort_asc (t :: times))) as [x|] eqn:E.
  - split.
    + apply last_Some_elem_of in E. unfold sort_asc in E. by rewrite elem_of_sort_by in E.
    + intros y Hy. eapply sorted_last; [apply sort_asc_sorted|exact E|].
      unfold sort_asc. by rewrite elem_of_sort_by.
  - apply last_None in E. apply (f_equal length) in E. unfold sort_asc in E. by rewrite length_sort_by in E.
Qed.

Lemma p99_is_maximum_witness :
  match calculateP99 2 (Ok [5; 3]) with
  | Send (_, Some p99) => p99 ∈ [5; 3] /\ forall t, t ∈ [5; 3] -> t <= p99
  | Send (_, None) => [5; 3] = [] /\ 2 <= 0
  | Fail _ _ => False
  end.
Proof. exact (proj1 (proj2 (p99_is_maximum 2 (fun _ => 0) [5; 3] eq_refl))). Defined.
