(* ===== verification/CodeComposer.v ===== *)
(** * The code composer's reranking agent

    [CodeComposerAgent] of
    src/ecosystem/ai-tools/nexus/src/lib/code-composer-agent.ts, with the token
    estimator of lib/token-estimator.ts: analysing retrieved chunks in batches
    with a language model, ranking them by a weighted score and cutting the
    list at a token budget.  The language model, the tokenizer and
    [JSON.parse] are parameters, and so is the conversion of a value to a
    number; token counts are far below 2^26, where the floor of a quotient of
    integers is the integer quotient. *)

From S2P Require Import Prelude JsString JsArray JsNum Json.

Definition CHUNK_TRUNCATION_LIMIT : Z := 1500.
Definition MAX_TOKENS : Z := 32000.

Definition IMPLEMENTATION_WEIGHT : num := dec 15 10.
Definition QUALITY_WEIGHT : num := of_Z 2.
Definition ALIGNMENT_WEIGHT : num := dec 18 10.
Definition CODE_BONUS_WEIGHT : num := dec 13 10.

(** ** Data *)

Record RetrievedNode := Node { content : str; metadata : option json; score : num }.

Record AgentOptions := Options { language : option str; scope : option (list str); o_maxTokens : option Z }.

(** The scores of a chunk as the model gave them; what it left out is
    [None]. *)
Record analysis := Analysis {
  ir : option json;
  cq : option json;
  qa : option json;
  ce : option json;
  r : option json;
}.

Record AnalyzedChunk := Analyzed {
  a_content : str;
  originalScore : num;
  scores : analysis;
  finalScore : num;
}.

Record AgentStats := Stats {
  totalChunks : nat;
  analyzedChunks : nat;
  selectedChunks : nat;
  totalTokens : Z;
  processingTime : Z;
}.

Definition resetStats : AgentStats := Stats 0 0 0 0 0.

(** ** Token estimates *)

(** [encode] is the tokenizer, which may be absent or throw; a quarter of the
    length, rounded up, then stands in. *)
Definition estimate (encode : str -> option nat) (text : str) : Z :=
  match encode text with
  | Some n => Z.of_nat n
  | None => (Z.of_nat (length text) + 3) / 4
  end.

(** ** Scores *)

(** [toNumber] is the conversion of an operand of a division. *)
Definition calculateFinalScore (toNumber : option json -> num) (original : num) (a : analysis) : num :=
  let normalized v := ndiv (toNumber v) (of_Z 10) in
  let weightedScore :=
    nadd (nadd (nmul (normalized (ir a)) IMPLEMENTATION_WEIGHT) (nmul (normalized (cq a)) QUALITY_WEIGHT))
      (nmul (normalized (qa a)) ALIGNMENT_WEIGHT) in
  let codeBonus := if truthy (ce a) then CODE_BONUS_WEIGHT else of_Z 1 in
  let enhancedScore := nadd (nmul original (dec 3 10)) (nmul (nmul weightedScore (dec 7 10)) codeBonus) in
  nmax enhancedScore (nmul original (dec 1 10)).

Definition fives (reason : str) : analysis :=
  let five := Some (JNum (of_Z 5)) in Analysis five five five (Some (JBool false)) (Some (JStr reason)).
Definition default_analysis : analysis := fives (js "Analysis failed, using default scores").

(** ** Reading the model's answer *)

(** The match of [/\{[\s\S]*\}/]: from the first opening brace to the last
    closing one. *)
Definition json_match (response : str) : option str :=
  match indexOf response (js "{") with
  | Some i =>
      let j := lastIndexOf response (js "}") (Z.of_nat (length response)) in
      if (Z.of_nat i <? j)%Z then Some (slice response (Z.of_nat i) (j + 1)) else None
  | None => None
  end.

Section agent.
Context (JSON_parse : str -> result json) (toNumber : option json -> num).
Context (encode : str -> option nat).
(** [this.llm.chat(...)] of a prompt: the content of the answer. *)
Context (chat : str -> result str).

Definition no_analyses : json := JObj [(js "analyses", JArr [])].

Definition parseAnalysisResponse (response : str) : json :=
  match json_match response with
  | Some text => match JSON_parse text with Ok v => v | Throw _ => no_analyses end
  | None => no_analyses
  end.

(** [analyses.find((a) => a.chunkIndex === idx)] *)
Fixpoint find_index (l : list json) (idx : nat) : result (option json) :=
  match l with
  | [] => Ok None
  | a :: l' =>
      match get_prop (Some a) (js "chunkIndex") with
      | Throw e => Throw e
      | Ok (Some (JNum n)) => if neq n (of_Z (Z.of_nat idx)) then Ok (Some a) else find_index l' idx
      | Ok _ => find_index l' idx
      end
  end.

(** The scores of an element of the answer. *)
Definition to_analysis (a : json) : analysis :=
  Analysis (prop a (js "ir")) (prop a (js "cq")) (prop a (js "qa")) (prop a (js "ce")) (prop a (js "r")).

Definition node_analysis (v : json) (idx : nat) : result analysis :=
  match prop v (js "analyses") with
  | Some (JArr l) => result_map (fun o => match o with Some a => to_analysis a | None => default_analysis end)
                       (find_index l idx)
  | None => Throw (js "Cannot read properties of undefined (reading 'find')")
  | Some JNull => Throw (js "Cannot read properties of null (reading 'find')")
  | Some _ => Throw (js "analysis.analyses.find is not a function")
  end.

Fixpoint analyze_nodes (v : json) (idx : nat) (batch : list RetrievedNode) : result (list AnalyzedChunk) :=
  match batch with
  | [] => Ok []
  | n :: batch' =>
      (try! a <- node_analysis v idx;
       try! rest <- analyze_nodes v (S idx) batch';
       Ok (Analyzed (content n) (score n) a (calculateFinalScore toNumber (score n) a) :: rest))%js
  end.

Definition answer_format : str := jsn "For each chunk, respond in this JSON format:|n{|n  " ++
  ["034"%char] ++ js "analyses" ++ ["034"%char] ++ jsn ": [|n    {|n      " ++
  ["034"%char] ++ js "chunkIndex" ++ ["034"%char] ++ jsn ": 0,|n      " ++
  ["034"%char] ++ js "ir" ++ ["034"%char] ++ jsn ": 8,|n      " ++
  ["034"%char] ++ js "cq" ++ ["034"%char] ++ jsn ": 7,|n      " ++
  ["034"%char] ++ js "qa" ++ ["034"%char] ++ jsn ": 9,|n      " ++
  ["034"%char] ++ js "ce" ++ ["034"%char] ++ jsn ": true,|n      " ++
  ["034"%char] ++ js "r" ++ ["034"%char] ++ js ": " ++
  ["034"%char] ++ js "Brief explanation of scores (~10 words)" ++ ["034"%char] ++ jsn "|n    }|n  ]|n}|n".

Definition batch_prompt (basePrompt : str) (batch : list RetrievedNode) : str :=
  basePrompt ++ nl ++ nl ++
  join (imap (fun idx n => js "CHUNK " ++ str_of_nat (idx + 1) ++ js ":" ++ nl ++
                substring (content n) 0 CHUNK_TRUNCATION_LIMIT ++ jsn "...|n---") batch) (nl ++ nl) ++
  nl ++ nl ++ answer_format.

(** When anything in the analysis throws, the chunks keep their scores. *)
Definition fallback_chunk (n : RetrievedNode) : AnalyzedChunk :=
  Analyzed (content n) (score n) (fives (js "Analysis failed, using original score")) (score n).

Definition analyzeBatch (batch : list RetrievedNode) (basePrompt : str) : list AnalyzedChunk :=
  match (try! response <- chat (batch_prompt basePrompt batch);
         analyze_nodes (parseAnalysisResponse response) 0 batch)%js with
  | Ok chunks => chunks
  | Throw _ => fallback_chunk <$> batch
  end.

(** ** Batches *)

Definition calculateOptimalBatchSize (maxTokens : Z) (basePrompt : str) (chunks : list RetrievedNode) : Z :=
  let sampleChunk := match chunks with n :: _ => substring (content n) 0 1500 | [] => [] end in
  let avgChunkTokens := (estimate encode sampleChunk + 50)%Z in
  let availableTokens := (maxTokens - estimate encode basePrompt - 500)%Z in
  Z.max 1 (Z.min (availableTokens / (avgChunkTokens + 150)) 8).

Definition analysis_prompt (query : str) (o : AgentOptions) : str :=
  let scopes := coalesce (scope o) [] in
  jsn "You are an expert code analysis agent. Analyze document chunks for their relevance to implementing code based on a user query.|n|nFor each chunk, evaluate:|n1. Implementation Relevance [ir] (0-10): How useful is this for actual code implementation?|n2. Code Quality [cq] (0-10): Does it contain high-quality, complete code examples?|n3. Query Alignment [qa] (0-10): How well does it match the specific user request?|n4. Has Code Examples [ce] (true/false): Contains actual code snippets or implementations?|n|nUser Query: "
  ++ ["034"%char] ++ query ++ ["034"%char] ++ jsn "|nTarget Language: " ++ str_or (language o) (js "typescript") ++ nl ++
  (match scopes with [] => [] | _ => js "Scope Focus: " ++ join scopes (js ", ") end) ++
  jsn "|n|nAnalyze each chunk and provide scores with brief reasoning. Do not include any other text in your response besides the expected JSON format.".

(** The loop over the batches; the fuel is the number of chunks. *)
Fixpoint analyze_loop (fuel : nat) (size : nat) (prompt : str) (nodes : list RetrievedNode) : list AnalyzedChunk :=
  match fuel, nodes with
  | S fuel', _ :: _ => analyzeBatch (take size nodes) prompt ++ analyze_loop fuel' size prompt (drop size nodes)
  | _, _ => []
  end.

Definition analyzeChunks (maxTokens : Z) (nodes : list RetrievedNode) (query : str) (o : AgentOptions)
    : list AnalyzedChunk :=
  let prompt := analysis_prompt query o in
  analyze_loop (length nodes) (Z.to_nat (calculateOptimalBatchSize maxTokens prompt nodes)) prompt nodes.

(** ** Ranking and the budget *)

(** The log of the best five cuts the reasons: one that is not a string
    throws. *)
Definition reasons_logged (l : list AnalyzedChunk) : bool :=
  forallb (fun c => bool_decide (is_Some (as_str (r (scores c))))) (take 5 l).

Definition reranked (c : AnalyzedChunk) : RetrievedNode :=
  Node (a_content c)
    (Some (JObj [(js "agentAnalysis", JObj (present
      [(js "ir", ir (scores c)); (js "cq", cq (scores c)); (js "qa", qa (scores c)); (js "r", r (scores c))]))]))
    (finalScore c).

Definition selectAndRankChunks (chunks : list AnalyzedChunk) : result (list RetrievedNode) :=
  let sorted := sort_desc finalScore chunks in
  if reasons_logged sorted then Ok (reranked <$> sorted)
  else Throw (js "Cannot read properties of undefined (reading 'substring')").

(** The loop of [applyTokenBudget], which stops at the first chunk that does
    not fit: the chunks taken and their tokens. *)
Fixpoint budget_loop (maxTokens total : Z) (l : list RetrievedNode) : list RetrievedNode * Z :=
  match l with
  | [] => ([], total)
  | n :: l' =>
      let t := estimate encode (content n) in
      if (total + t <=? maxTokens)%Z
      then let '(sel, tot) := budget_loop maxTokens (total + t) l' in (n :: sel, tot)
      else ([], total)
  end.
Definition applyTokenBudget (maxTokens : Z) (l : list RetrievedNode) : list RetrievedNode * Z :=
  budget_loop maxTokens 0 l.

(** ** rerank *)

(** [maxTokens] is the agent's budget, [elapsed] the time it took. *)
Definition rerank (maxTokens elapsed : Z) (st : AgentStats) (nodes : list RetrievedNode) (query : str)
    (o : AgentOptions) : list RetrievedNode * AgentStats :=
  let chunks := analyzeChunks maxTokens nodes query o in
  match selectAndRankChunks chunks with
  | Ok ranked =>
      let '(sel, tokens) := applyTokenBudget maxTokens ranked in
      (sel, Stats (length nodes) (length chunks) (length sel) tokens elapsed)
  | Throw _ =>
      (sort_desc score nodes,
       Stats (length nodes) (length chunks) (selectedChunks st) (totalTokens st) (processingTime st))
  end.

(** [options.maxTokens || MAX_TOKENS] of the constructor. *)
Definition budget_of (o : AgentOptions) : Z :=
  match o_maxTokens o with Some n => if (n =? 0)%Z then MAX_TOKENS else n | None => MAX_TOKENS end.
End agent.

(** ** Lemmas *)

Section lemmas.
Context (JSON_parse : str -> result json) (toNumber : option json -> num).
Context (encode : str -> option nat) (chat : str -> result str).
Local Abbreviation analyzeBatch := (analyzeBatch JSON_parse toNumber chat).
Local Abbreviation analyze_loop := (analyze_loop JSON_parse toNumber chat).
Local Abbreviation estimate := (estimate encode).

(** What stays of a node: its text and its score. *)
Definition origin (c : AnalyzedChunk) : str * num := (a_content c, originalScore c).
Definition ident (n : RetrievedNode) : str * num := (content n, score n).

Lemma analyze_nodes_origin v batch : forall idx chunks,
  analyze_nodes toNumber v idx batch = Ok chunks -> origin <$> chunks = ident <$> batch.
Proof.
  induction batch as [|n batch IH]; intros idx chunks; cbn; [by intros [= <-]|].
  destruct (node_analysis v idx); [|done]. destruct (analyze_nodes toNumber v (S idx) batch) eqn:E; [|done].
  intros [= <-]. cbn. by rewrite (IH _ _ E).
Qed.

Lemma analyzeBatch_origin batch prompt : origin <$> analyzeBatch batch prompt = ident <$> batch.
Proof.
  unfold CodeComposer.analyzeBatch.
  assert (origin <$> (fallback_chunk <$> batch) = ident <$> batch) as Hf by (by rewrite <- list_fmap_compose).
  destruct (chat _) as [resp|]; [|done].
  destruct (analyze_nodes toNumber (parseAnalysisResponse JSON_parse resp) 0 batch) eqn:E; [|done].
  by eapply analyze_nodes_origin.
Qed.

(** Every chunk is analysed once, in order, whatever the model does. *)
Lemma analyze_loop_origin size prompt : 1 <= size -> forall fuel nodes,
  length nodes <= fuel -> origin <$> analyze_loop fuel size prompt nodes = ident <$> nodes.
Proof.
  intros Hs fuel. induction fuel as [|fuel IH]; intros nodes Hl; [by destruct nodes; [|cbn in Hl; lia]|].
  destruct nodes as [|n nodes]; [done|]. cbn [CodeComposer.analyze_loop].
  rewrite fmap_app, analyzeBatch_origin, IH by (rewrite length_drop; cbn in *; lia).
  by rewrite <- fmap_app, take_drop.
Qed.

Lemma batch_size_range maxTokens prompt chunks :
  (1 <= calculateOptimalBatchSize encode maxTokens prompt chunks <= 8)%Z.
Proof. unfold calculateOptimalBatchSize. lia. Qed.

Lemma analyzeChunks_origin maxTokens nodes query o :
  origin <$> analyzeChunks JSON_parse toNumber encode chat maxTokens nodes query o = ident <$> nodes.
Proof.
  unfold analyzeChunks. apply analyze_loop_origin; [|done].
  pose proof (batch_size_range maxTokens (analysis_prompt query o) nodes). lia.
Qed.

(** *** The budget *)

Definition tokens (l : list RetrievedNode) : Z := foldr Z.add 0%Z ((fun n => estimate (content n)) <$> l).

Lemma budget_loop_spec maxTokens l : forall total,
  let '(sel, tot) := budget_loop encode maxTokens total l in
  tot = (total + tokens sel)%Z /\
  (sel = l \/ exists n rest, l = sel ++ n :: rest /\ (maxTokens < tot + estimate (content n))%Z) /\
  ((total <= maxTokens)%Z -> (tot <= maxTokens)%Z).
Proof.
  induction l as [|n l IH]; intros total; cbn [budget_loop].
  - cbn. split; [lia|]. split; [by left|done].
  - destruct (total + estimate (content n) <=? maxTokens)%Z eqn:E; split_bools.
    + specialize (IH (total + estimate (content n))%Z). destruct (budget_loop _ _ _ l) as [sel tot].
      destruct IH as (Ht & Hsel & Hle). split; [unfold tokens in *; cbn; lia|]. split.
      * destruct Hsel as [->|(n' & rest & -> & Hn')]; [by left|right]. by exists n', rest.
      * intros _. by apply Hle.
    + cbn. split; [lia|]. split; [right; exists n, l; split; [done|lia]|done].
Qed.
End lemmas.

(** ** The properties *)

(** Reranking keeps the chunks it was given.  Whatever the model answers,
    and whichever of its batches fail, every chunk is analysed exactly once;
    the result is the beginning of the chunks in descending order of their
    final scores, it fits the token budget, and it ends only at the end of the
    list or in front of a chunk that does not fit.  Only when a reason is
    missing among the best five is the result all chunks by their original
    scores instead. *)
Theorem rerank_selects JSON_parse toNumber encode chat maxTokens elapsed st nodes query o
  (Hmax : (0 <= maxTokens)%Z) :
  exists chunks, origin <$> chunks = ident <$> nodes /\
  let '(sel, st') := rerank JSON_parse toNumber encode chat maxTokens elapsed st nodes query o in
  if reasons_logged (sort_desc finalScore chunks) then
    (exists rest, reranked <$> sort_desc finalScore chunks = sel ++ rest /\
       (tokens encode sel <= maxTokens)%Z /\
       (rest = [] \/ exists n rest', rest = n :: rest' /\
          (maxTokens < tokens encode sel + estimate encode (content n))%Z)) /\
    st' = Stats (length nodes) (length nodes) (length sel) (tokens encode sel) elapsed
  else sel = sort_desc score nodes.
Proof.
  exists (analyzeChunks JSON_parse toNumber encode chat maxTokens nodes query o).
  pose proof (analyzeChunks_origin JSON_parse toNumber encode chat maxTokens nodes query o) as Ho.
  split; [done|]. unfold rerank, selectAndRankChunks. set (chunks := analyzeChunks _ _ _ _ _ _ _ _) in *.
  assert (length chunks = length nodes) as Hl.
  { apply (f_equal length) in Ho. by rewrite !length_fmap in Ho. }
  destruct (reasons_logged _); [|done].
  pose proof (budget_loop_spec encode maxTokens (reranked <$> sort_desc finalScore chunks) 0) as H.
  unfold applyTokenBudget. destruct (budget_loop _ _ _ _) as [sel tot]. destruct H as (Ht & Hsel & Hle).
  specialize (Hle Hmax). rewrite Hl. replace tot with (tokens encode sel) in * by lia. split; [|done].
  destruct Hsel as [->|(n & rest & E & Hn)].
  - exists []. rewrite app_nil_r. by split_and!; [done|done|left].
  - exists (n :: rest). split_and!; [done|done|right]. by exists n, rest.
Qed.

(** The model leaves the reason out of an otherwise complete analysis: the
    chunk is returned although it does not fit the budget. *)
Example missing_reason_ignores_budget :
  let n := Node (js "twelve chars") None (of_Z 1) in
  let chat := fun _ => Ok (js "{analysis}") in
  let parse := fun _ => Ok (JObj [(js "analyses", JArr [JObj [(js "chunkIndex", JNum nzero); (js "ir", JNum (of_Z 9));
    (js "cq", JNum (of_Z 9)); (js "qa", JNum (of_Z 9)); (js "ce", JBool true)]])]) in
  let toNumber := fun v => match v with Some (JNum x) => x | _ => nzero end in
  (rerank parse toNumber (fun _ => None) chat 2 0 resetStats [n] (js "q") (Options None None None)).1 = [n] /\
  (2 < tokens (fun _ => None) [n])%Z.
Proof. split; vm_compute; reflexivity. Qed.

Lemma rerank_selects_witness :
  exists chunks, origin <$> chunks = ident <$> [Node (js "abcd") None (of_Z 1); Node (js "efgh") None (of_Z 2)] /\
  let '(sel, st') := rerank (fun _ => Throw []) (fun _ => nzero) (fun _ => None) (fun _ => Throw []) 1 7 resetStats
    [Node (js "abcd") None (of_Z 1); Node (js "efgh") None (of_Z 2)] (js "q") (Options None None None) in
  if reasons_logged (sort_desc finalScore chunks) then
    (exists rest, reranked <$> sort_desc finalScore chunks = sel ++ rest /\
       (tokens (fun _ => None) sel <= 1)%Z /\
       (rest = [] \/ exists n rest', rest = n :: rest' /\
          (1 < tokens (fun _ => None) sel + estimate (fun _ => None) (content n))%Z)) /\
    st' = Stats 2 2 (length sel) (tokens (fun _ => None) sel) 7
  else sel = sort_desc score [Node (js "abcd") None (of_Z 1); Node (js "efgh") None (of_Z 2)].
Proof.
  apply (rerank_selects (fun _ => Throw []) (fun _ => nzero) (fun _ => None) (fun _ => Throw []) 1 7 resetStats
    [Node (js "abcd") None (of_Z 1); Node (js "efgh") None (of_Z 2)] (js "q") (Options None None None)).
  lia.
Defined.
