(* ===== verification/FactMemory.v ===== *)
(** * The fact memory of the Nexus agents

    [RobustFactExtractionMemoryBlock] of
    src/ecosystem/ai-tools/nexus/src/lib/robust-fact-memory.ts: facts that a
    language model extracts from a conversation, condensed by the model when
    there are more than [maxFacts].  The model and [JSON.parse] are
    parameters.  Calls of [put] run one after the other; one that throws keeps
    the changes it made before. *)

From S2P Require Import Prelude JsString JsArray Json.

(** ** Placeholders *)

Definition dollar : ascii := "$"%char.

(** The replacement of [s.replace(p, r)] for a string [p]: the patterns of a
    replacement that need no group.  [before] and [after] are the text around
    the match. *)
Fixpoint expand (before p after r : str) : str :=
  match r with
  | [] => []
  | c :: r' =>
      if bool_decide (c = dollar) then
        match r' with
        | d :: r'' =>
            if bool_decide (d = dollar) then dollar :: expand before p after r''
            else if bool_decide (d = "&"%char) then p ++ expand before p after r''
            else if bool_decide (d = "`"%char) then before ++ expand before p after r''
            else if bool_decide (d = "'"%char) then after ++ expand before p after r''
            else c :: expand before p after r'
        | [] => [c]
        end
      else c :: expand before p after r'
  end.

Definition replace_pattern (s p r : str) : str :=
  match indexOf s p with
  | Some i => let after := drop (i + length p) s in take i s ++ expand (take i s) p after r ++ after
  | None => s
  end.

(** ** Prompts *)

Definition conversation_mark : str := js "{{conversation}}".
Definition facts_mark : str := js "{{existing_facts}}".
Definition max_mark : str := js "{{max_facts}}".

Definition DEFAULT_EXTRACTION_PROMPT : str :=
  jsn "|nYou are a precise fact extraction system designed to identify key information from conversations.|n|nCONVERSATION SEGMENT:|n" ++
  conversation_mark ++ jsn "|n|nEXISTING FACTS:|n" ++ facts_mark ++
  jsn "|n|nINSTRUCTIONS: |n1. Review the conversation segment provided above.|n2. Extract specific, concrete facts the user has disclosed or important information discovered|n" ++
  jsn "3. Focus on factual information like preferences, personal details, requirements, constraints, or context|n4. Do not include opinions, summaries, or interpretations - only extract explicit information|n5. Do not duplicate facts that are already in the existing facts list|n|n" ++
  jsn "Respond with the new facts from the conversation segment using the following JSON format:|n{|n  " ++
  ["034"%char] ++ js "facts" ++ ["034"%char] ++ js ": [" ++ ["034"%char] ++ js "fact1" ++ ["034"%char] ++ js ", " ++
  ["034"%char] ++ js "fact2" ++ ["034"%char] ++ js ", " ++ ["034"%char] ++ js "fact3" ++ ["034"%char] ++ jsn ", ...]|n}|n".

Definition DEFAULT_SUMMARY_PROMPT : str :=
  jsn "|nYou are a precise fact condensing system designed to summarize facts in a concise manner.|n|nEXISTING FACTS:|n" ++
  facts_mark ++
  jsn "|n|nINSTRUCTIONS:|n1. Review the current list of existing facts|n2. Condense the facts into a more concise list, less than {{ max_facts }} facts|n" ++
  jsn "3. Focus on factual information like preferences, personal details, requirements, constraints, or context|n4. Do not include opinions, summaries, or interpretations - only extract explicit information|n5. Do not duplicate facts that are already in the existing facts list|n|n" ++
  jsn "Respond with the condensed facts using the following JSON format:|n{|n  " ++
  ["034"%char] ++ js "facts" ++ ["034"%char] ++ js ": [" ++ ["034"%char] ++ js "fact1" ++ ["034"%char] ++ js ", " ++
  ["034"%char] ++ js "fact2" ++ ["034"%char] ++ js ", " ++ ["034"%char] ++ js "fact3" ++ ["034"%char] ++ jsn ", ...]|n}|n".

(** ** JSON in the answers *)

Definition alnum (c : ascii) : bool := is_digit c || between 65 90 c || between 97 122 c.
Definition ticks : str := js "```".

(** A match of [/```[a-zA-Z0-9]*\s*/] at the head; it is removed. *)
Definition fence_match (s : str) : option (nat * str) :=
  if is_prefix ticks s then
    let s1 := drop 3 s in
    let n := run_length alnum s1 in
    Some (3 + n + run_length is_space (drop n s1), [])%nat
  else None.

Definition stripCodeFences (text : str) : str :=
  trim (replace_matches (fun s => if is_prefix ticks s then Some (3%nat, []) else None)
          (replace_matches fence_match text 0) 0).

(** [cleaned.substring(first, last + 1)] from the first [open] to the last
    [close]. *)
Definition enclosed (open close : str) (cleaned : str) : option str :=
  match indexOf cleaned open with
  | Some i =>
      let j := lastIndexOf cleaned close (Z.of_nat (length cleaned)) in
      if (Z.of_nat i <? j)%Z then Some (substring cleaned (Z.of_nat i) (j + 1)) else None
  | None => None
  end.

Definition no_json : str := js "Unable to parse JSON from LLM output".

Section memory.
Context (JSON_parse : str -> result json).
(** [String(v)] of a fact that is not a string. *)
Context (String_of : json -> str).
(** [this.llm.complete({ prompt })]: the text of the answer. *)
Context (complete : str -> result str).

Definition parse_enclosed (open close cleaned : str) : option json :=
  match enclosed open close cleaned with
  | Some candidate => match JSON_parse candidate with Ok v => Some v | Throw _ => None end
  | None => None
  end.

Definition extractFirstJson (text : str) : result json :=
  let cleaned := stripCodeFences text in
  match JSON_parse cleaned with
  | Ok v => Ok v
  | Throw _ =>
      match parse_enclosed (js "{") (js "}") cleaned with
      | Some v => Ok v
      | None =>
          match parse_enclosed (js "[") (js "]") cleaned with
          | Some v => Ok v
          | None => Throw no_json
          end
      end
  end.

(** ** The block *)

Record FactMemory := Memory {
  facts : list json;
  maxFacts : Z;
  extractionPrompt : str;
  summaryPrompt : str;
}.

Definition new_memory (max : Z) (extraction summary : option str) : FactMemory :=
  Memory [] max (coalesce extraction DEFAULT_EXTRACTION_PROMPT) (coalesce summary DEFAULT_SUMMARY_PROMPT).

(** An element of a list that is joined. *)
Definition item_text (v : json) : str :=
  match v with JNull => [] | JStr s => s | _ => String_of v end.
Definition join_facts (l : list json) (sep : str) : str := join (item_text <$> l) sep.

(** [get()]: the content of the one message it gives. *)
Definition get (m : FactMemory) : str := join_facts (facts m) nl.

Definition facts_str (l : list json) : str := js "{ facts: [" ++ join_facts l (js ", ") ++ js "] }".

Definition tab : str := ["009"%char].

(** [messages] are the contents; [undefined] and [null] join as nothing. *)
Definition conversation_of (messages : list (option str)) : str :=
  nl ++ tab ++ join ((fun c => coalesce c []) <$> messages) (nl ++ tab).

Definition extraction_prompt (m : FactMemory) (messages : list (option str)) : str :=
  replace_pattern (replace_pattern (extractionPrompt m) conversation_mark (conversation_of messages))
    facts_mark (facts_str (facts m)).

Definition summary_prompt (m : FactMemory) (l : list json) : str :=
  replace_pattern (replace_pattern (summaryPrompt m) facts_mark (facts_str l)) max_mark (str_of_Z (maxFacts m)).

Definition set_facts (m : FactMemory) (l : list json) : FactMemory :=
  Memory l (maxFacts m) (extractionPrompt m) (summaryPrompt m).

(** The facts of an answer: [parsed && Array.isArray(parsed.facts)]. *)
Definition facts_of (v : json) : option (list json) :=
  if truthy (Some v) then is_array (prop v (js "facts")) else None.

Definition condense (m : FactMemory) : FactMemory * result unit :=
  match (try! text <- complete (summary_prompt m (facts m)); extractFirstJson text)%js with
  | Throw e => (m, Throw e)
  | Ok condensed =>
      match facts_of condensed with
      | Some (f :: l) => (set_facts m (slice (f :: l) 0 (maxFacts m)), Ok tt)
      | _ => (m, Ok tt)
      end
  end.

Definition put (m : FactMemory) (messages : list (option str)) : FactMemory * result unit :=
  match messages with
  | [] => (m, Ok tt)
  | _ =>
      match (try! text <- complete (extraction_prompt m messages); extractFirstJson text)%js with
      | Throw e => (m, Throw e)
      | Ok parsed =>
          match facts_of parsed with
          | None => (m, Ok tt)
          | Some l =>
              let m' := set_facts m (facts m ++ l) in
              if (maxFacts m' <? Z.of_nat (length (facts m')))%Z then condense m' else (m', Ok tt)
          end
      end
  end.

End memory.

(** ** Reading an answer *)

Definition tick : ascii := "`"%char.

Lemma ticks_not_prefix c s : c <> tick -> is_prefix ticks (c :: s) = false.
Proof. intros Hc. cbn. by rewrite bool_decide_eq_false_2. Qed.

Lemma remove_fences_plain a s :
  tick ∉ a -> replace_matches fence_match (a ++ s) 0 = a ++ replace_matches fence_match s 0.
Proof.
  intros Ha. apply replace_matches_plain. intros a1 [|c a2] -> Hne; [done|]. unfold fence_match.
  cbn [app]. rewrite ticks_not_prefix; [done|]. set_solver.
Qed.

(** What a closing fence takes with it: the word and the white space that
    follow it. *)
Lemma remove_fence s : tick ∉ s -> exists t, t `suffix_of` s /\ replace_matches fence_match (ticks ++ s) 0 = t.
Proof.
  intros Hs. destruct (run_length_split alnum s) as (a & b & -> & Ha & _ & _).
  destruct (run_length_split is_space b) as (w & t & -> & Hw & _ & _).
  exists t. split; [exists (a ++ w); by rewrite <- app_assoc|].
  rewrite (app_assoc ticks), (app_assoc _ w), (replace_matches_at _ _ _ []); [|done|].
  - rewrite <- (app_nil_r t) at 1. rewrite remove_fences_plain by set_solver. apply app_nil_r.
  - unfold fence_match. rewrite <- !app_assoc, (proj2 (is_prefix_spec _ _)) by eauto.
    change 3%nat with (length ticks). rewrite drop_app_length, <- Ha, drop_app_length, <- Hw.
    rewrite !length_app. cbn. f_equal; lia.
Qed.

Lemma enclosed_found open close a mid b :
  open ∉ a -> close ∉ b ->
  enclosed [open] [close] (a ++ (open :: mid ++ [close]) ++ b) = Some (open :: mid ++ [close]).
Proof.
  intros Ha Hb. unfold enclosed. cbn [app]. rewrite indexOf_char by done. cbn zeta.
  assert (a ++ open :: (mid ++ [close]) ++ b = (a ++ open :: mid) ++ close :: b) as E
    by (by rewrite <- !app_assoc).
  replace (lastIndexOf _ _ _) with (Z.of_nat (length (a ++ open :: mid)))
    by (rewrite E; by rewrite lastIndexOf_char).
  rewrite length_app. cbn [length]. rewrite (proj2 (Z.ltb_lt _ _)) by lia. f_equal.
  rewrite <- (substring_app a (open :: mid ++ [close]) b). f_equal. cbn [length].
  rewrite length_app. cbn [length]. lia.
Qed.

Lemma trimStart_app a c s :
  is_space c = false -> exists a', a' `suffix_of` a /\ trimStart (a ++ c :: s) = a' ++ c :: s.
Proof.
  intros Hc. induction a as [|x a (a' & Ha & IH)]; cbn.
  - exists []. by rewrite Hc.
  - destruct (is_space x); [|by exists (x :: a)]. exists a'. split; [by apply suffix_cons_r|done].
Qed.

Lemma trim_app a c mid d b :
  is_space c = false -> is_space d = false ->
  exists a' b', a' `suffix_of` a /\ b' `prefix_of` b /\
    trim (a ++ (c :: mid ++ [d]) ++ b) = a' ++ (c :: mid ++ [d]) ++ b'.
Proof.
  intros Hc Hd. unfold trim. cbn [app]. destruct (trimStart_app a c ((mid ++ [d]) ++ b) Hc) as (a' & Ha & ->).
  unfold trimEnd. replace (rev (a' ++ c :: (mid ++ [d]) ++ b)) with (rev b ++ d :: rev (a' ++ c :: mid)).
  2:{ replace (a' ++ c :: (mid ++ [d]) ++ b) with ((a' ++ c :: mid) ++ d :: b) by (by rewrite <- !app_assoc).
      rewrite (rev_app_distr (a' ++ c :: mid)). cbn [rev]. by rewrite <- app_assoc. }
  destruct (trimStart_app (rev b) d (rev (a' ++ c :: mid)) Hd) as (b' & [k Hb] & ->).
  exists a', (rev b'). split_and!; [done| |].
  - exists (rev k). by rewrite <- rev_app_distr, <- Hb, rev_involutive.
  - rewrite rev_app_distr. cbn. rewrite rev_involutive. by rewrite <- !app_assoc.
Qed.

(** An object in a fenced block is found, whatever is said around it. *)
Lemma fenced_json_read JSON_parse pre mid post v :
  tick ∉ pre ++ mid ++ post -> "{"%char ∉ pre -> "}"%char ∉ post ->
  let body := "{"%char :: mid ++ ["}"%char] in
  JSON_parse body = Ok v ->
  let text := pre ++ js "```json" ++ nl ++ body ++ nl ++ ticks ++ post in
  extractFirstJson JSON_parse text =
    match JSON_parse (stripCodeFences text) with Ok v' => Ok v' | Throw _ => Ok v end.
Proof.
  intros Ht Hpre Hpost body Hv text.
  destruct (remove_fence post) as (t & [x Hx] & Et); [set_solver|].
  assert (replace_matches fence_match text 0 = pre ++ body ++ nl ++ t) as E1.
  { subst text. rewrite remove_fences_plain by set_solver. f_equal.
    rewrite (app_assoc (js "```json")), (replace_matches_at _ _ _ []); [|done|].
    - rewrite app_nil_l, remove_fences_plain by (subst body; set_solver). f_equal.
      rewrite remove_fences_plain by (unfold nl, newline, tick; set_solver). by rewrite Et.
    - unfold fence_match. rewrite <- app_assoc. rewrite (proj2 (is_prefix_spec _ _)) by (by eexists).
      reflexivity. }
  assert (tick ∉ pre ++ body ++ nl ++ t) as Hn.
  { subst body. rewrite Hx in Ht. unfold nl, newline, tick in *. set_solver. }
  destruct (trim_app pre "{"%char mid "}"%char (nl ++ t)) as (a & b & [pre' Ha] & [post' Hb] & Etrim); [done..|].
  assert (stripCodeFences text = a ++ body ++ b) as E2.
  { unfold stripCodeFences. rewrite E1, <- (app_nil_r (pre ++ _)), replace_matches_plain.
    - by rewrite app_nil_r.
    - intros a1 [|c a2] E Hne; [done|]. cbn [app]. rewrite ticks_not_prefix; [done|]. rewrite E in Hn. set_solver. }
  unfold extractFirstJson. cbn zeta. rewrite E2. destruct (JSON_parse (a ++ body ++ b)); [done|].
  assert (enclosed (js "{") (js "}") (a ++ body ++ b) = Some body) as E3.
  { apply enclosed_found; [rewrite Ha in Hpre; set_solver|].
    rewrite Hx in Hpost. assert ("}"%char ∉ nl ++ t) as H by (unfold nl, newline; set_solver).
    rewrite Hb in H. set_solver. }
  unfold parse_enclosed. by rewrite E3, Hv.
Qed.

(** ** The facts *)

Section facts.
Context (JSON_parse : str -> result json) (String_of : json -> str) (complete : str -> result str).

Abbreviation answer p := (try! text <- complete p; extractFirstJson JSON_parse text)%js.
Abbreviation puts := (foldl (fun m ms => (put JSON_parse String_of complete m ms).1)).

(** The fact is one of those in an answer of the model. *)
Definition given (f : json) : Prop := exists p v l, answer p = Ok v /\ facts_of v = Some l /\ f ∈ l.

(** The model answers every request to condense with some facts. *)
Definition condenses : Prop :=
  forall m, exists v f l, answer (summary_prompt String_of m (facts m)) = Ok v /\ facts_of v = Some (f :: l).

(** The model answers no request to condense with facts. *)
Definition refuses : Prop :=
  forall m v f l, answer (summary_prompt String_of m (facts m)) = Ok v -> facts_of v <> Some (f :: l).

Lemma condense_cases m :
  let m' := (condense JSON_parse String_of complete m).1 in
  m' = m \/
  exists v f l, answer (summary_prompt String_of m (facts m)) = Ok v /\ facts_of v = Some (f :: l) /\
    m' = set_facts m (slice (f :: l) 0 (maxFacts m)).
Proof.
  unfold condense. destruct (answer _) as [v|e] eqn:E; [|by left].
  destruct (facts_of v) as [[|f l]|] eqn:Ef; [by left| |by left]. right. by exists v, f, l.
Qed.

Lemma put_cases m ms :
  let m' := (put JSON_parse String_of complete m ms).1 in
  m' = m \/
  exists v l, answer (extraction_prompt String_of m ms) = Ok v /\ facts_of v = Some l /\
    let m1 := set_facts m (facts m ++ l) in
    m' = if (maxFacts m <? Z.of_nat (length (facts m ++ l)))%Z
         then (condense JSON_parse String_of complete m1).1 else m1.
Proof.
  unfold put. destruct ms as [|x ms]; [by left|]. destruct (answer _) as [v|e] eqn:E; [|by left].
  destruct (facts_of v) as [l|] eqn:El; [|by left]. right. exists v, l. split_and!; [done..|].
  cbn -[Z.of_nat]. by destruct (_ <? _)%Z.
Qed.

Lemma put_max m ms : maxFacts (put JSON_parse String_of complete m ms).1 = maxFacts m.
Proof.
  destruct (put_cases m ms) as [->|(v & l & _ & _ & ->)]; [done|]. destruct (_ <? _)%Z; [|done].
  by destruct (condense_cases (set_facts m (facts m ++ l))) as [->|(? & ? & ? & _ & _ & ->)].
Qed.

Lemma put_given m ms :
  Forall given (facts m) -> Forall given (facts (put JSON_parse String_of complete m ms).1).
Proof.
  intros Hm. destruct (put_cases m ms) as [->|(v & l & Ha & Hl & ->)]; [done|].
  assert (Forall given (facts m ++ l)) as Happ.
  { apply Forall_app. split; [done|]. apply Forall_forall. intros f Hf. by exists (extraction_prompt String_of m ms), v, l. }
  destruct (_ <? _)%Z; [|done].
  destruct (condense_cases (set_facts m (facts m ++ l))) as [->|(v' & f & l' & Ha' & Hl' & ->)]; [done|].
  apply Forall_forall. cbn [facts set_facts]. intros g Hg. eexists _, v', (f :: l'). split_and!; [done..|].
  revert Hg. unfold slice. intros Hg%elem_of_take_sub. by apply elem_of_drop_sub in Hg.
Qed.

Lemma put_bounded m ms :
  condenses -> (0 <= maxFacts m)%Z -> (Z.of_nat (length (facts m)) <= maxFacts m)%Z ->
  (Z.of_nat (length (facts (put JSON_parse String_of complete m ms).1)) <= maxFacts m)%Z.
Proof.
  intros Hc H0 Hm. destruct (put_cases m ms) as [->|(v & l & Ha & Hl & ->)]; [done|].
  destruct (Z.ltb_spec (maxFacts m) (Z.of_nat (length (facts m ++ l)))); [|done].
  set (m1 := set_facts m (facts m ++ l)). unfold condense.
  destruct (Hc m1) as (v' & f & l' & -> & ->). cbn [fst facts set_facts].
  subst m1. cbn [maxFacts set_facts]. destruct (length_slice_le (f :: l') 0 (maxFacts m)); lia.
Qed.

(** From an empty memory on, whatever is said, at most [maxFacts] facts
    are kept after every call, provided the model answers each request to
    condense them with some facts; and every fact that is kept is one the
    model gave in an answer. *)
Theorem facts_bounded max extraction summary batches
  (Hmax : (0 <= max)%Z) (Hc : condenses) :
  let m := puts (new_memory max extraction summary) batches in
  (Z.of_nat (length (facts m)) <= max)%Z /\ Forall given (facts m).
Proof.
  cbn zeta. assert (forall m, maxFacts m = max -> (Z.of_nat (length (facts m)) <= max)%Z -> Forall given (facts m) ->
    (Z.of_nat (length (facts (puts m batches))) <= max)%Z /\ Forall given (facts (puts m batches))) as H.
  { induction batches as [|ms batches IH]; intros m Hm Hl Hg; [done|]. cbn [foldl]. apply IH.
    - by rewrite put_max.
    - rewrite <- Hm. apply put_bounded; [done|lia..].
    - by apply put_given. }
  apply H; [done|cbn; lia|constructor].
Qed.

(** When the model answers no request to condense with facts, all facts are
    kept, however many they are. *)
Lemma refused_facts_kept m c ms v l :
  refuses -> answer (extraction_prompt String_of m (c :: ms)) = Ok v -> facts_of v = Some l ->
  facts (put JSON_parse String_of complete m (c :: ms)).1 = facts m ++ l.
Proof.
  intros Hr Ha Hl. unfold put. rewrite Ha, Hl. destruct (_ <? _)%Z; [|done].
  destruct (condense_cases (set_facts m (facts m ++ l))) as [->|(v' & f & l' & Ha' & Hl' & ->)]; [done|].
  exfalso. by eapply Hr.
Qed.
End facts.

(** ** The prompt to condense *)

Lemma expand_plain before p after r : dollar ∉ r -> expand before p after r = r.
Proof.
  induction r as [|c r IH]; intros Hr; [done|]. cbn. rewrite bool_decide_eq_false_2 by set_solver.
  rewrite IH by set_solver. done.
Qed.

Lemma includes_line a b p :
  newline ∉ p -> includes (a ++ newline :: b) p = true -> includes a p = true \/ includes b p = true.
Proof.
  intros Hp. rewrite !includes_spec. intros (x & y & E).
  apply app_eq_app in E as [k [[-> E]|[-> E]]].
  - left. symmetry in E. apply app_eq_app in E as [k' [[-> E]|[-> E]]]; [by exists x, k'|].
    destruct k' as [|c k']; [|injection E as <- _; set_solver].
    exists x, []. by rewrite !app_nil_r.
  - destruct k as [|c k]; cbn in E; [|injection E as <- ->; right; by exists k, y].
    destruct p as [|c p]; [left; by exists [], a|]. cbn in E. injection E as <- _. set_solver.
Qed.

Definition summary_head : str :=
  jsn "|nYou are a precise fact condensing system designed to summarize facts in a concise manner.|n|nEXISTING FACTS:".
Definition summary_tail : str := drop (length summary_head + 20) DEFAULT_SUMMARY_PROMPT.

(** The default prompt to condense does not say how many facts to keep: its
    placeholder is spelled with spaces, the one that is filled in without. *)
Lemma limit_not_in_prompt String_of ex l max max' :
  dollar ∉ facts_str String_of l -> includes (facts_str String_of l) max_mark = false ->
  summary_prompt String_of (Memory l max ex DEFAULT_SUMMARY_PROMPT) l =
  summary_prompt String_of (Memory l max' ex DEFAULT_SUMMARY_PROMPT) l.
Proof.
  intros Hd Hm. unfold summary_prompt. cbn [summaryPrompt maxFacts].
  assert (replace_pattern DEFAULT_SUMMARY_PROMPT facts_mark (facts_str String_of l) =
    summary_head ++ newline :: facts_str String_of l ++ newline :: summary_tail) as ->.
  { unfold replace_pattern.
    assert (indexOf DEFAULT_SUMMARY_PROMPT facts_mark = Some (S (length summary_head))) as -> by (by vm_compute).
    cbn zeta. rewrite expand_plain by done.
    assert (take (S (length summary_head)) DEFAULT_SUMMARY_PROMPT = summary_head ++ [newline]) as -> by (by vm_compute).
    assert (drop (S (length summary_head) + length facts_mark) DEFAULT_SUMMARY_PROMPT = newline :: summary_tail)
      as -> by (by vm_compute).
    by rewrite <- app_assoc. }
  unfold replace_pattern.
  destruct (indexOf _ max_mark) as [i|] eqn:E; [|done]. exfalso.
  assert (newline ∉ max_mark) as Hn by (apply (bool_decide_unpack _); vm_compute; exact I).
  assert (includes (summary_head ++ newline :: facts_str String_of l ++ newline :: summary_tail) max_mark = true) as Hi
    by (unfold includes; by rewrite E).
  apply includes_line in Hi as [Hi|Hi]; [by vm_compute in Hi| |done].
  apply includes_line in Hi as [Hi|Hi]; [congruence|by vm_compute in Hi|done].
Qed.

Definition toy_parse (text : str) : result json :=
  Ok (JObj [(js "facts", JArr [JStr (js "a"); JStr (js "b")])]).

Lemma facts_bounded_witness :
  let m := foldl (fun m ms => (put toy_parse (fun _ => []) Ok m ms).1) (new_memory 3 None None)
             [[Some (js "x")]; [Some (js "y")]] in
  (Z.of_nat (length (facts m)) <= 3)%Z /\ Forall (given toy_parse Ok) (facts m).
Proof.
  refine (facts_bounded toy_parse (fun _ => []) Ok 3 None None [[Some (js "x")]; [Some (js "y")]] _ _); [lia|].
  intros m. by eexists _, _, _.
Defined.
