(* ===== verification/BeaconIndex.v ===== *)
(** * The document index of Beacon

    [DocumentIndexer] of
    src/ecosystem/ai-tools/beacon/lib/documentIndexer.ts: the markdown files
    below a directory, cut into sections and chunks with their keywords, kept
    in a compressed file for an hour.

    The front matter reader (gray-matter), compression, JSON and dates are
    parameters.  The file tree is that of Loader.v; every entry of a directory
    that can be listed can be examined.  Paths have slashes. *)

From S2P Require Import Prelude JsString JsArray JsNum Json Chunking Loader.

(** ** Data *)

Record DocumentSection := Section_ {
  sec_id : str;
  sec_title : str;
  sec_level : nat;
  sec_content : str;
  sec_url : str;
}.

(** The front matter of a file. *)
Record Metadata := Meta {
  m_title : option str;
  description : option str;
  parent : option str;
  nav_order : option Z;
  tags : option (list str);
}.

Record DocumentChunk := Chunk_ {
  id : str;
  title : str;
  url : str;
  content : str;
  excerpt : str;
  sections : list DocumentSection;
  keywords : list str;
  metadata : Metadata;
  chunkIndex : nat;
  totalChunks : nat;
}.

Record DocumentIndex := Index {
  documents : list DocumentChunk;
  lastUpdated : str;
  totalDocuments : nat;
}.

(** ** Keywords *)

(** A character of [[\w\s-]] *)
Definition wordish (c : ascii) : bool := is_word c || is_space c || bool_decide (c = "-"%char).

(** [s.toLowerCase().replace(/[^\w\s-]/g, ' ').split(/\s+/)] *)
Definition blank_others (s : str) : str := (fun c => if wordish c then c else " "%char) <$> s.
Definition words (s : str) : list str := split_ws (blank_others (toLowerCase s)).

Definition longer (n : nat) (w : str) : bool := (n <? length w)%nat.

Definition stopWords : list str := js <$>
  ["the"; "and"; "or"; "but"; "in"; "on"; "at"; "to"; "for"; "of"; "with"; "by";
   "from"; "up"; "about"; "into"; "through"; "during"; "before"; "after";
   "above"; "below"; "between"; "among"; "this"; "that"; "these"; "those";
   "i"; "you"; "he"; "she"; "it"; "we"; "they"; "me"; "him"; "her"; "us"; "them";
   "my"; "your"; "his"; "her"; "its"; "our"; "their"; "mine"; "yours"; "ours"; "theirs";
   "am"; "is"; "are"; "was"; "were"; "be"; "been"; "being"; "have"; "has"; "had";
   "do"; "does"; "did"; "will"; "would"; "could"; "should"; "may"; "might"; "must";
   "can"; "shall"; "a"; "an"; "some"; "any"; "all"; "both"; "each"; "every"; "other";
   "another"; "such"; "no"; "nor"; "not"; "only"; "own"; "same"; "so"; "than"; "too";
   "very"; "just"; "now"; "here"; "there"; "where"; "when"; "why"; "how"; "what";
   "which"; "who"; "whom"; "whose"; "whether"; "if"; "because"; "as"; "until";
   "while"; "whereas"; "although"; "though"; "unless"; "since"; "once"; "whenever";
   "wherever"; "however"; "therefore"; "thus"; "hence"; "moreover"; "furthermore";
   "nevertheless"; "nonetheless"; "meanwhile"; "consequently"; "accordingly"]%string.

Definition isStopWord (word : str) : bool := bool_decide (word ∈ stopWords).

(** [wordCounts] *)
Definition count_words (l : list str) : jsmap str Z :=
  foldl (fun m w => map_set m w (coalesce (map_get m w) 0 + 1)%Z) [] l.

Definition extractKeywords (t c u : str) (md : Metadata) : list str :=
  let titleWords := filterb (longer 2) (words t) in
  let urlParts := filterb (longer 2) (words u) in
  let contentWords :=
    filterb (fun w => negb (isStopWord w))
      (filterb (longer 3) (split_ws (blank_others (substring (toLowerCase c) 0 500)))) in
  let frequent := (slice (sort_desc_Z snd (count_words contentWords)) 0 10).*1 in
  let s := set_adds (set_adds (set_adds [] titleWords) urlParts) frequent in
  let s := match tags md with Some l => set_adds s (toLowerCase <$> l) | None => s end in
  match parent md with Some (p :: ps) => set_add s (toLowerCase (p :: ps)) | _ => s end.

(** ** Sections *)

Definition is_hash (c : ascii) : bool := bool_decide (c = "#"%char).

(** [line.match(/^(#{1,6})\s+/)]: the level. *)
Definition header_level (line : str) : option nat :=
  let n := run_length is_hash line in
  if (1 <=? n)%nat && (n <=? 6)%nat && (1 <=? run_length is_space (drop n line))%nat then Some n else None.

(** [line.match(/^(#{1,6})\s+(.+)$/)]: the level and the second group.  When
    only white space follows, [\s+] leaves its last character to the group. *)
Definition header_match (line : str) : option (nat * str) :=
  match header_level line with
  | Some n =>
      let rest := drop n line in
      let w := run_length is_space rest in
      let t := drop w rest in
      match t with
      | _ :: _ => if existsb line_end t then None else Some (n, t)
      | [] => match last rest with
              | Some c => if (2 <=? w)%nat && negb (line_end c) then Some (n, [c]) else None
              | None => None
              end
      end
  | None => None
  end.

Definition hyphen : ascii := "-"%char.
Definition is_hyphen (c : ascii) : bool := bool_decide (c = hyphen).

(** [.replace(/^-|-$/g, '')] *)
Definition strip_hyphens (s : str) : str :=
  let s1 := match s with c :: s' => if is_hyphen c then s' else s | [] => [] end in
  match last s1 with
  | Some c => if is_hyphen c then removelast s1 else s1
  | None => []
  end.

Definition heading_id (t : str) : str :=
  strip_hyphens (collapse is_hyphen hyphen (collapse is_space hyphen (filterb wordish (toLowerCase t)) false) false).

Record heading := Heading { lineIndex : nat; level : nat; h_title : str; h_id : str }.

Definition headings_of (lines : list str) : list heading :=
  omap (fun il => match header_match il.2 with
                  | Some (n, t) => Some (Heading il.1 n (trim t) (heading_id (trim t)))
                  | None => None
                  end) (zip (seq 0 (length lines)) lines).

(** The lines of a section that are not blank, up to a line that looks like
    the start of a section of the same or a higher level. *)
Fixpoint section_lines (lvl : nat) (lines : list str) : list str :=
  match lines with
  | [] => []
  | line :: lines' =>
      if match header_level line with Some n => (n <=? lvl)%nat | None => false end then []
      else match trim line with [] => section_lines lvl lines' | _ => line :: section_lines lvl lines' end
  end.

Definition space : str := js " ".

(** The lines of the first paragraph, up to the one that makes it longer
    than 500 characters. *)
Fixpoint first_paragraph (acc lines : list str) : list str :=
  match lines with
  | [] => acc
  | line :: lines' =>
      match trim line with
      | [] => acc
      | _ => let acc' := acc ++ [line] in
             if (500 <? length (join acc' space))%nat then acc' else first_paragraph acc' lines'
      end
  end.

Definition limit_h1 (lvl : nat) (contentLines : list str) : list str :=
  if (lvl =? 1)%nat && negb (bool_decide (contentLines = [])) then
    let firstParagraph := first_paragraph [] contentLines in
    if negb (bool_decide (firstParagraph = [])) && (length (join firstParagraph space) <=? 500)%nat
    then firstParagraph
    else [substring (join contentLines space) 0 500]
  else contentLines.

Definition section_content (lines : list str) (h : heading) (next : option heading) : str :=
  let startLine := S (lineIndex h) in
  let endLine := match next with Some n => lineIndex n | None => length lines end in
  let contentLines := section_lines (level h) (take (endLine - startLine) (drop startLine lines)) in
  trim (join (limit_h1 (level h) contentLines) space).

Fixpoint sections_of (lines : list str) (baseUrl : str) (hs : list heading) : list DocumentSection :=
  match hs with
  | [] => []
  | h :: hs' =>
      let c := section_content lines h (head hs') in
      (if longer 10 c then [Section_ (h_id h) (h_title h) (level h) c (baseUrl ++ js "#" ++ h_id h)] else [])
      ++ sections_of lines baseUrl hs'
  end.

Definition extractSections (c baseUrl : str) : list DocumentSection :=
  let lines := split c nl in
  sections_of lines baseUrl (headings_of lines).

(** ** The text of a file *)

(** [/^---[\s\S]*?---\n/] *)
Definition strip_front (s : str) : str :=
  if is_prefix (js "---") s then
    match indexOf (drop 3 s) (js "---" ++ nl) with
    | Some i => drop (3 + i + 4) s
    | None => s
    end
  else s.

Definition ticks : str := js "```".
Definition not_char (c : ascii) : ascii -> bool := fun d => negb (bool_decide (d = c)).

(** [/```[\s\S]*?```/] *)
Definition code_block (s : str) : option (nat * str) :=
  if is_prefix ticks s then
    match indexOf (drop 3 s) ticks with Some i => Some (3 + i + 3, [])%nat | None => None end
  else None.

(** An opening mark, a run of at least one character other than [c], and a
    closing mark: the length of the match and the run. *)
Definition marked (open close : str) (c : ascii) (s : str) : option (nat * str) :=
  if is_prefix open s then
    let s1 := drop (length open) s in
    let n := run_length (not_char c) s1 in
    if (1 <=? n)%nat && is_prefix close (drop n s1)
    then Some (length open + n + length close, take n s1)%nat else None
  else None.

(** [/`[^`]+`/], removed *)
Definition inline_code (s : str) : option (nat * str) :=
  match marked (js "`") (js "`") "`"%char s with Some (n, _) => Some (n, []) | None => None end.

(** [/#{1,6}\s+/], removed *)
Definition header_mark (s : str) : option (nat * str) :=
  match header_level s with Some n => Some (n + run_length is_space (drop n s), [])%nat | None => None end.

Definition bold : str -> option (nat * str) := marked (js "**") (js "**") "*"%char.
Definition italic : str -> option (nat * str) := marked (js "*") (js "*") "*"%char.

(** [/\[([^\]]+)\]\([^)]+\)/] *)
Definition link (s : str) : option (nat * str) :=
  match marked (js "[") (js "](") "]"%char s with
  | Some (n, t) =>
      let s1 := drop n s in
      let m := run_length (not_char ")"%char) s1 in
      if (1 <=? m)%nat && is_prefix (js ")") (drop m s1) then Some (n + m + 1, t)%nat else None
  | None => None
  end.

Definition clean (c : str) : str :=
  let replace_all m s := replace_matches m s 0 in
  trim (collapse (fun c => bool_decide (c = newline)) " "%char
    (replace_all link (replace_all italic (replace_all bold (replace_all header_mark
      (replace_all inline_code (replace_all code_block (strip_front c))))))) false).

(** ** Chunks *)

Definition sentence_end (c : ascii) : bool := bool_decide (c ∈ [ "."; "!"; "?" ]%char).
Definition dot : str := js ".".

Fixpoint chunk_sentences (maxChunkSize : nat) (sentences : list str) (currentChunk : str) : list str :=
  match sentences with
  | [] => match trim currentChunk with [] => [] | c => [c] end
  | sentence :: sentences' =>
      if (maxChunkSize <? length currentChunk + length sentence)%nat && negb (bool_decide (currentChunk = []))
      then trim currentChunk :: chunk_sentences maxChunkSize sentences' sentence
      else chunk_sentences maxChunkSize sentences' (currentChunk ++ sentence ++ dot)
  end.

Definition chunkContent (maxChunkSize : nat) (c : str) : list str :=
  if (length c <=? maxChunkSize)%nat then [c]
  else chunk_sentences maxChunkSize (split_class sentence_end c) [].

(** ** Files *)

Definition is_markdown (name : str) : bool := endsWith name (js ".mdx") || endsWith name (js ".md").

(** The markdown files below a directory with their paths from the content
    directory, [dir] the one of the directory itself. *)
Fixpoint findMarkdownFiles (dir : option str) (n : node) : list (str * node) :=
  match n with
  | DirNode (Ok entries) =>
      (fix go (l : list (str * node)) : list (str * node) :=
         match l with
         | [] => []
         | (name, e) :: l' =>
             let path := match dir with Some d => joinPath d name | None => name end in
             match e with
             | DirNode _ => findMarkdownFiles (Some path) e
             | _ => if is_markdown name then [(path, e)] else []
             end ++ go l'
         end) entries
  | _ => []
  end.

Definition without_end (s p : str) : str := if endsWith s p then take (length s - length p) s else s.

Definition generateUrl (relativePath : str) : str :=
  let u := if endsWith relativePath (js ".mdx") then without_end relativePath (js ".mdx")
           else without_end relativePath (js ".md") in
  js "/docs/" ++ ((fun c => if bool_decide (c = "092"%char) then "/"%char else c) <$> without_end u (js "/index")).

Definition no_metadata : Metadata := Meta None None None None None.

Section indexer.
(** [matter(text)]: the text after the front matter and its data. *)
Context (matter : str -> result (str * Metadata)).

Definition read_node (n : node) : result str :=
  match n with FileNode r => r | _ => Throw (js "EISDIR: illegal operation on a directory, read") end.

Definition extractContent (n : node) : str :=
  match (try! text <- read_node n; matter text)%js with
  | Ok (c, _) => clean c
  | Throw _ => []
  end.

Definition extractMetadata (n : node) : Metadata :=
  match (try! text <- read_node n; matter text)%js with Ok (_, md) => md | Throw _ => no_metadata end.

Definition maxChunkSize : nat := 1000.

Definition make_chunk (base t u : str) (secs : list DocumentSection) (kws : list str) (md : Metadata) (total : nat)
    (ic : nat * str) : DocumentChunk :=
  let '(i, c) := ic in
  Chunk_ (base ++ js "-" ++ str_of_nat i) t u c
    (substring c 0 200 ++ (if longer 200 c then js "..." else []))
    secs kws (Meta None (description md) (parent md) (nav_order md) (Some (coalesce (tags md) [])))
    i total.

(** The chunks of a file; one that cannot be read has none. *)
Definition index_file (file : str * node) : list DocumentChunk :=
  let '(path, n) := file in
  match (try! text <- read_node n; matter text)%js with
  | Throw _ => []
  | Ok (rawContent, _) =>
      let md := extractMetadata n in
      let u := generateUrl path in
      match trim rawContent with
      | [] => []
      | _ =>
          let secs := extractSections rawContent u in
          let c := extractContent n in
          let chunks := chunkContent maxChunkSize c in
          let base := basenameWithout path (extname path) in
          let t := str_or (m_title md) base in
          let kws := extractKeywords t c u md in
          make_chunk base t u secs kws md (length chunks) <$> zip (seq 0 (length chunks)) chunks
      end
  end.

(** The index of the files below the content directory, made at a time
    written [iso]. *)
Definition build_index (root : node) (iso : str) : DocumentIndex :=
  let docs := findMarkdownFiles None root ≫= index_file in
  Index docs iso (length docs).

(** ** The index file *)

Context (stringify : DocumentIndex -> str) (parse : str -> result DocumentIndex).
Context (gzip : str -> str) (gunzip : str -> result str).
(** [new Date(ms).toISOString()], and [new Date(s).getTime()], [None] for
    NaN. *)
Context (toISO : Z -> str) (getTime : str -> option Z).

(** [writable] says whether the file can be written. *)
Definition saveIndex (writable : bool) (file : option str) (index : DocumentIndex) : option str :=
  if writable then Some (gzip (stringify index)) else file.

Definition loadIndex (file : option str) : option DocumentIndex :=
  match file with
  | None => None
  | Some data =>
      match (try! text <- gunzip data; parse text)%js with
      | Ok index => Some index
      | Throw _ => match parse data with Ok index => Some index | Throw _ => None end
      end
  end.

Definition oneHour : Z := 60 * 60 * 1000.

Definition needsUpdate (file : option str) (now : Z) : bool :=
  match loadIndex file with
  | None => true
  | Some index =>
      match getTime (lastUpdated index) with
      | Some indexTime => (oneHour <? now - indexTime)%Z
      | None => false
      end
  end.

Definition indexDocuments (writable : bool) (root : node) (now : Z) (file : option str) : option str * DocumentIndex :=
  let index := build_index root (toISO now) in
  (saveIndex writable file index, index).

End indexer.

(** ** Chunks keep the text *)

(** The characters that matter: neither white space nor the end of a
    sentence. *)
Definition kept (c : ascii) : bool := negb (sentence_end c) && negb (is_space c).

Lemma filterb_none {A} (f : A -> bool) l : Forall (fun x => f x = false) l -> filterb f l = [].
Proof. induction 1 as [|x l Hx _ IH]; [done|]. unfold filterb in *. cbn. by rewrite Hx. Qed.

Lemma kept_trim s : filterb kept (trim s) = filterb kept s.
Proof.
  destruct (trim_split s) as (w1 & w2 & E & H1 & H2). rewrite E at 2. rewrite !filterb_app.
  assert (forall w, Forall (fun c => is_space c = true) w -> filterb kept w = []) as Hw.
  { intros w Hs. apply filterb_none. eapply Forall_impl; [exact Hs|]. intros c Hc. unfold kept.
    by rewrite Hc, andb_false_r. }
  by rewrite (Hw w1 H1), (Hw w2 H2), app_nil_r.
Qed.

Lemma concat_split_go f s cur b :
  concat (split_class_go f s cur b) = rev cur ++ filterb (fun c => negb (f c)) s.
Proof.
  revert cur b. induction s as [|c s IH]; intros cur b; cbn; [done|].
  destruct (f c) eqn:E; cbn.
  - destruct b; cbn; by rewrite IH.
  - rewrite IH. cbn. by rewrite <- app_assoc.
Qed.

Lemma kept_sentences s : filterb kept (concat (split_class sentence_end s)) = filterb kept s.
Proof.
  unfold split_class. rewrite concat_split_go. cbn [rev app].
  induction s as [|c s IH]; [done|]. unfold filterb in *. cbn [List.filter].
  destruct (sentence_end c) eqn:E; cbn.
  - unfold kept at 2. by rewrite E.
  - rewrite IH. done.
Qed.

Lemma chunk_sentences_kept M ss cur :
  filterb kept (concat (chunk_sentences M ss cur)) = filterb kept cur ++ filterb kept (concat ss).
Proof.
  revert cur. induction ss as [|s ss IH]; intros cur; cbn [chunk_sentences concat].
  - rewrite <- (kept_trim cur). destruct (trim cur); cbn [concat]; by rewrite ?app_nil_r.
  - destruct (_ && _); cbn [concat].
    + by rewrite filterb_app, kept_trim, IH, filterb_app.
    + rewrite IH, !filterb_app, <- !app_assoc. done.
Qed.

(** A chunk is short, or a single sentence. *)
Definition fits (M : nat) (sentences : list str) (k : str) : Prop :=
  length k <= S M \/ exists s, s ∈ sentences /\ (k = trim s \/ k = trim (s ++ dot)).

Lemma chunk_sentences_fit M all ss cur :
  (forall s, s ∈ ss -> s ∈ all) ->
  length cur <= S M \/ (exists s, s ∈ all /\ (cur = s \/ cur = s ++ dot)) ->
  Forall (fits M all) (chunk_sentences M ss cur).
Proof.
  assert (forall cur, length cur <= S M \/ (exists s, s ∈ all /\ (cur = s \/ cur = s ++ dot)) ->
    fits M all (trim cur)) as Hfit.
  { intros cur' [H|(s0 & H0 & [-> | ->])]; [|right; exists s0; auto..].
    left. pose proof (length_trim_le cur'). lia. }
  revert cur. induction ss as [|s ss IH]; intros cur Hall Hcur; apply Hfit in Hcur as Hk.
  - cbn. destruct (trim cur); [constructor|]. by constructor.
  - cbn [chunk_sentences]. destruct (_ && _) eqn:E.
    + constructor; [done|]. apply IH; [set_solver|]. right. exists s. split; [set_solver|by left].
    + apply IH; [set_solver|]. apply andb_false_iff in E as [E|E].
      * left. apply Nat.ltb_ge in E. rewrite !length_app. cbn. lia.
      * apply negb_false_iff, bool_decide_eq_true in E as ->. right. exists s. split; [set_solver|by right].
Qed.

(** Cutting a text into chunks loses nothing but white space and the
    marks between sentences: all other characters are in the chunks, in order;
    and no chunk is longer than the limit and one character, except one that
    is a single sentence. *)
Theorem chunkContent_covers M c :
  filterb kept (concat (chunkContent M c)) = filterb kept c /\
  Forall (fits M (split_class sentence_end c)) (chunkContent M c).
Proof.
  unfold chunkContent. destruct (Nat.leb_spec (length c) M) as [H|H].
  - cbn. rewrite app_nil_r. split; [done|]. constructor; [left; lia|constructor].
  - split.
    + rewrite chunk_sentences_kept. apply kept_sentences.
    + apply chunk_sentences_fit; [done|]. left. cbn. lia.
Qed.

(** ** Identifiers *)

(** Chunks are named by the last component of the path alone. *)
Lemma index_file_ids matter path n d :
  d ∈ index_file matter (path, n) ->
  id d = basenameWithout path (extname path) ++ js "-" ++ str_of_nat (chunkIndex d) /\ url d = generateUrl path.
Proof.
  unfold index_file. destruct (_ : result _) as [[raw md]|e]; [|set_solver].
  destruct (trim raw); [set_solver|]. cbn zeta. intros ([i c] & -> & _)%list_elem_of_fmap. done.
Qed.
