(* ===== verification/BeaconSearch.v ===== *)
(** * The document search of Beacon

    src/ecosystem/ai-tools/beacon/app/api/ai-search/route.ts: documents are
    scored by the words of the query and by terms that synonyms and a language
    model add, the two scores are combined, and the best documents are
    returned with their best section.

    The language model's endpoint and regular expressions made from a word of
    the query are parameters. *)

From S2P Require Import Prelude JsString JsArray JsNum Json Loader BeaconIndex.

(** ** Synonyms *)

Definition SYNONYM_MAP : jsmap str (list str) :=
  map (fun kv : string * list string => (js kv.1, map js kv.2))
  [("caching", ["cache"; "node cache"; "python cache"; "memory"; "storage"; "performance"]);
   ("cache", ["caching"; "node cache"; "python cache"; "memory"; "storage"; "performance"]);
   ("storage", ["cache"; "caching"; "database"; "persistence"; "data"]);
   ("database", ["storage"; "data"; "persistence"; "resilientdb"]);
   ("consensus", ["agreement"; "pbft"; "consensus management"; "voting"]);
   ("network", ["communication"; "network communication"; "messaging"; "replica"]);
   ("transaction", ["txn"; "transaction execution"; "execution"; "processing"]);
   ("client", ["client interaction"; "kv client"; "utxo client"; "contract client"]);
   ("configuration", ["config"; "setup"; "resdbconfig"; "settings"]);
   ("checkpointing", ["checkpoint"; "recovery"; "backup"; "snapshot"]);
   ("graphql", ["resilientdb graphql"; "api"; "query"; "mutation"]);
   ("orm", ["resdb orm"; "object relational mapping"; "database orm"]);
   ("vault", ["resvault"; "secure storage"; "encryption"]);
   ("lens", ["reslens"; "monitoring"; "observability"; "metrics"]);
   ("cli", ["rescli"; "command line"; "terminal"; "tools"])]%string.

(** The properties of every object, among the words in lower case. *)
Definition inherited : list str := [js "constructor"; js "__proto__"].

(** [if (SYNONYM_MAP[term]) SYNONYM_MAP[term].forEach(...)]: an inherited
    property is not a list. *)
Definition synonyms_of (term : str) : result (list str) :=
  if bool_decide (term ∈ inherited) then Throw (js "SYNONYM_MAP[term].forEach is not a function")
  else Ok (coalesce (map_get SYNONYM_MAP term) []).

Fixpoint all_synonyms (terms : list str) : result (list str) :=
  match terms with
  | [] => Ok []
  | t :: terms' => (try! l <- synonyms_of t; try! rest <- all_synonyms terms'; Ok (l ++ rest))%js
  end.

(** The synonyms of the words that contain a term or are contained in it. *)
Definition partial_synonyms (term : str) : list str :=
  SYNONYM_MAP ≫= fun kv => if includes kv.1 term || includes term kv.1 then kv.2 else [].

Definition expandSearchTerms (query : str) : result (list str) :=
  let terms := split_ws (toLowerCase query) in
  (try! synonyms <- all_synonyms terms;
   Ok (set_adds (set_adds (set_adds [] terms) synonyms) (terms ≫= partial_synonyms)))%js.

(** ** Scores *)

Record scored := Scored { doc : DocumentChunk; relevanceScore : num; matchedContent : str }.

Definition related (t k : str) : bool := includes k t || includes t k.

(** 50 characters around a match of length [n] at [start]. *)
Definition snippet (d : DocumentChunk) (start n : nat) : str :=
  substring (content d) (Z.max 0 (Z.of_nat start - 50))
    (Z.min (Z.of_nat (length (content d))) (Z.of_nat start + Z.of_nat n + 50)).

(** The snippet at the first occurrence of [t] in the content. *)
Definition snippet_of (d : DocumentChunk) (t : str) : str :=
  match indexOf (toLowerCase (content d)) t with Some i => snippet d i (length t) | None => [] end.

(** [if (!matchedContent) matchedContent = m] *)
Definition if_none (matched m : str) : str := match matched with [] => m | _ => matched end.

(** What a term adds to the score of a document and does to the matched
    content, in [scoreDocumentsByKeywords]. *)
Definition keyword_term (d : DocumentChunk) (acc : Z * str) (term : str) : Z * str :=
  let t := toLowerCase term in
  let titleLower := toLowerCase (title d) in
  let '(score, matched) := acc in
  let '(score, matched) :=
    match List.find (related t) (keywords d) with
    | Some [] => (score + 20, matched)
    | Some k => (score + 20, if_none matched (js "Keyword match: " ++ k))
    | None => (score, matched)
    end%Z in
  let '(score, matched) :=
    (if bool_decide (titleLower = t) then (score + 25, title d)
     else if includes titleLower t then (score + 15, if_none matched (title d))
     else (score, matched))%Z in
  let '(score, matched) :=
    (if includes (toLowerCase (url d)) t then (score + 18, if_none matched (js "URL match: " ++ url d))
     else (score, matched))%Z in
  (if includes (toLowerCase (content d)) t then (score + 8, if_none matched (snippet_of d t))
   else (score, matched))%Z.

(** The exact phrase, and the excerpt when nothing else matched. *)
Definition phrase (inTitle inContent : Z) (d : DocumentChunk) (query : str) (acc : Z * str) : Z * str :=
  let q := toLowerCase query in
  let '(score, matched) := acc in
  let '(score, matched) :=
    (if includes (toLowerCase (title d)) q then (score + inTitle, title d) else (score, matched))%Z in
  let '(score, matched) :=
    (if includes (toLowerCase (content d)) q then (score + inContent, if_none matched (snippet_of d q))
     else (score, matched))%Z in
  (score, trim (if_none matched (excerpt d))).

Definition keyword_score (query : str) (terms : list str) (d : DocumentChunk) : Z * str :=
  phrase 30 12 d query (foldl (keyword_term d) (0%Z, []) terms).

(** What the term at a position adds in [scoreDocumentsByAI]: from the
    fourth of the terms on they are taken for the model's. *)
Definition ai_term (d : DocumentChunk) (terms : list str) (acc : Z * str) (term : str) : Z * str :=
  let t := toLowerCase term in
  let isAiTerm := (3 <? length terms)%nat &&
    match list_find (eq term) terms with Some (i, _) => (3 <=? i)%nat | None => false end in
  let points a b : Z := if isAiTerm then a else b in
  let '(score, matched) := acc in
  let '(score, matched) :=
    (if includes (toLowerCase (title d)) t then (score + points 12 8, if_none matched (title d))
     else (score, matched))%Z in
  let '(score, matched) :=
    (if includes (toLowerCase (url d)) t then (score + points 15 10, if_none matched (js "URL match: " ++ url d))
     else (score, matched))%Z in
  let '(score, matched) :=
    (if includes (toLowerCase (content d)) t then (score + points 6 4, if_none matched (snippet_of d t))
     else (score, matched))%Z in
  match List.find (related t) (keywords d) with
  | Some k => (score + points 10 6, if_none matched (js "Semantic match: " ++ k))%Z
  | None => (score, matched)
  end.

Definition ai_score (query : str) (terms : list str) (d : DocumentChunk) : Z * str :=
  phrase 20 10 d query (foldl (ai_term d terms) (0%Z, []) terms).

(** The documents with a positive score. *)
Definition positive (score : DocumentChunk -> Z * str) (d : DocumentChunk) : option scored :=
  if (0 <? (score d).1)%Z then Some (Scored d (of_Z (score d).1) (score d).2) else None.

Definition scoreDocumentsByKeywords (query : str) (terms : list str) (docs : list DocumentChunk) : list scored :=
  omap (positive (keyword_score query terms)) docs.

Definition scoreDocumentsByAI (query : str) (terms : list str) (docs : list DocumentChunk) : list scored :=
  omap (positive (ai_score query terms)) docs.

(** ** The combination *)

Definition weighted (w : num) (s : scored) : scored := Scored (doc s) (nmul (relevanceScore s) w) (matchedContent s).

Definition merge (existing s : scored) : scored :=
  Scored (doc existing) (nadd (relevanceScore existing) (nmul (relevanceScore s) (dec 4 10)))
    (if (length (matchedContent existing) <? length (matchedContent s))%nat
     then matchedContent s else matchedContent existing).

Definition add_keyword (m : jsmap str scored) (s : scored) : jsmap str scored :=
  map_set m (id (doc s)) (weighted (dec 6 10) s).

Definition add_ai (m : jsmap str scored) (s : scored) : jsmap str scored :=
  map_set m (id (doc s))
    match map_get m (id (doc s)) with
    | Some existing => merge existing s
    | None => weighted (dec 4 10) s
    end.

Definition combineSearchResults (keywordResults aiResults : list scored) : list scored :=
  map_values (foldl add_ai (foldl add_keyword [] keywordResults) aiResults).

(** ** Sections *)

Section search.
(** [(text.match(new RegExp(word, 'g')) || []).length]; a word that is no
    regular expression throws. *)
Context (count_matches : str -> str -> result Z).

Fixpoint word_frequency (ws : list str) (text : str) : result Z :=
  match ws with
  | [] => Ok 0%Z
  | w :: ws' => (try! n <- count_matches w text; try! m <- word_frequency ws' text; Ok (n + m)%Z)%js
  end.

Definition count_terms (points : Z) (text : str) (terms : list str) : Z :=
  (points * Z.of_nat (length (filterb (fun t => includes text (toLowerCase t)) terms)))%Z.

Definition level_bonus (lvl : nat) : Z :=
  if (lvl =? 1)%nat then (-2)%Z else if (lvl =? 2)%nat then 3%Z else if (lvl =? 3)%nat then 2%Z else 0%Z.

Definition section_score (query : str) (terms : list str) (s : DocumentSection) : result Z :=
  let q := toLowerCase query in
  let titleLower := toLowerCase (sec_title s) in
  let contentLower := toLowerCase (sec_content s) in
  (try! f <- word_frequency (filterb (longer 2) (split_ws q)) contentLower;
   Ok ((if includes titleLower q then 10 else 0) + count_terms 5 titleLower terms +
       count_terms 3 contentLower terms + f + level_bonus (sec_level s))%Z)%js.

Fixpoint best_section (query : str) (terms : list str) (secs : list DocumentSection)
    (best : option DocumentSection) (bestScore : Z) : result (option DocumentSection * Z) :=
  match secs with
  | [] => Ok (best, bestScore)
  | s :: secs' =>
      (try! score <- section_score query terms s;
       if (bestScore <? score)%Z then best_section query terms secs' (Some s) score
       else best_section query terms secs' best bestScore)%js
  end.

Definition findBestMatchingSection (query : str) (terms : list str) (secs : list DocumentSection)
    : result (option DocumentSection) :=
  (try! r <- best_section query terms secs None 0%Z;
   let minScore := match r.1 with Some s => if (sec_level s =? 1)%nat then 5 else 2 | None => 2 end%Z in
   Ok (if (minScore <? r.2)%Z then r.1 else None))%js.

(** ** The search *)

Record AISearchResult := Result {
  r_doc : DocumentChunk;
  r_url : str;
  r_score : num;
  r_matched : str;
  matchedSection : option DocumentSection;
}.

(** The body of the model's answer, or what went wrong. *)
Context (ask : str -> result json).

(** [data.choices[0]] *)
Definition first_choice (data : json) : result (option json) :=
  (try! choices <- get_prop (Some data) (js "choices");
   match choices with
   | None => Throw (js "Cannot read properties of undefined (reading '0')")
   | Some JNull => Throw (js "Cannot read properties of null (reading '0')")
   | Some (JArr l) => Ok (head l)
   | Some v => Ok (prop v (js "0"))
   end)%js.

(** The lines of the answer that are not blank. *)
Definition ai_terms (data : json) : result (list str) :=
  (try! choice <- first_choice data;
   match opt_prop (opt_prop choice (js "message")) (js "content") with
   | Some (JStr s) => Ok (filterb (longer 0) (trim <$> split s nl))
   | None | Some JNull => Ok []
   | Some _ => Throw (js "split is not a function")
   end)%js.

Definition generateSearchTerms (query : str) : result (list str) :=
  match (try! expandedTerms <- expandSearchTerms query;
         try! data <- ask query;
         try! aiTerms <- ai_terms data;
         Ok (slice (unique (expandedTerms ++ aiTerms)) 0 12))%js with
  | Ok terms => Ok terms
  | Throw _ => expandSearchTerms query
  end.

Definition to_result (query : str) (terms : list str) (s : scored) : result AISearchResult :=
  (try! sec <- findBestMatchingSection query terms (sections (doc s));
   Ok (Result (doc s) (match sec with Some x => sec_url x | None => url (doc s) end)
         (relevanceScore s) (matchedContent s) sec))%js.

Fixpoint to_results (query : str) (terms : list str) (l : list scored) : result (list AISearchResult) :=
  match l with
  | [] => Ok []
  | s :: l' => (try! r <- to_result query terms s; try! rs <- to_results query terms l'; Ok (r :: rs))%js
  end.

Definition searchTerms (query : str) : list str := filterb (longer 2) (words query).

Definition performHybridSearch (query : str) (docs : list DocumentChunk) (limit : Z) : result (list AISearchResult) :=
  (try! aiTerms <- generateSearchTerms query;
   let allSearchTerms := unique (searchTerms query ++ aiTerms) in
   let combinedResults :=
     combineSearchResults (scoreDocumentsByKeywords query (searchTerms query) docs)
       (scoreDocumentsByAI query allSearchTerms docs) in
   to_results query allSearchTerms (slice (sort_desc relevanceScore combinedResults) 0 limit))%js.

(** ** The endpoint *)

Inductive reply :=
| Found (results : list AISearchResult)
| Failed (status : Z) (error : str).

Context (matter : str -> result (str * Metadata)).
Context (stringify : DocumentIndex -> str) (parse : str -> result DocumentIndex).
Context (gzip : str -> str) (gunzip : str -> result str).
Context (toISO : Z -> str) (getTime : str -> option Z).

(** The index to search, from the file or made anew from the content
    directory [root]. *)
Definition current_index (writable : bool) (root : node) (now : Z) (file : option str)
    : option str * DocumentIndex :=
  match loadIndex parse gunzip file with
  | Some index =>
      if needsUpdate parse gunzip getTime file now
      then indexDocuments matter stringify gzip toISO writable root now file
      else (file, index)
  | None => indexDocuments matter stringify gzip toISO writable root now file
  end.

(** [query] is a property of the body; [limit] is a number. *)
Definition POST (writable : bool) (root : node) (now : Z) (file : option str) (query : option json) (limit : option Z)
    : option str * reply :=
  match query with
  | Some (JStr (c :: q)) =>
      let '(file', index) := current_index writable root now file in
      (file',
       match documents index with
       | [] => Failed 404 (js "No documents found in index")
       | docs =>
           match performHybridSearch (c :: q) docs (coalesce limit 10%Z) with
           | Ok results => Found results
           | Throw _ => Failed 500 (js "Failed to perform AI search")
           end
       end)
  | _ => (file, Failed 400 (js "Query is required and must be a string"))
  end.

End search.

(** ** Combining scores *)

Section upserts.
Context {A S : Type} (key : A -> str) (g : A -> option S) (skey : S -> str) (f : option S -> S -> S).
Context (Hg : forall a s, g a = Some s -> skey s = key a).

Definition upsert (m : jsmap str S) (s : S) : jsmap str S := map_set m (skey s) (f (map_get m (skey s)) s).

Lemma upserts_other l m k :
  k ∉ key <$> l -> map_get (foldl upsert m (omap g l)) k = map_get m k.
Proof.
  revert m. induction l as [|a l IH]; intros m Hk; [done|]. cbn [omap list_omap].
  rewrite fmap_cons, not_elem_of_cons in Hk. destruct Hk as [H1 H2].
  destruct (g a) as [s|] eqn:E; [|by apply IH]. cbn [foldl]. rewrite IH by done. unfold upsert.
  rewrite (Hg a s E). by rewrite map_get_set_ne.
Qed.

Lemma upserts_get l m a :
  NoDup (key <$> l) -> a ∈ l ->
  map_get (foldl upsert m (omap g l)) (key a) =
  match g a with Some s => Some (f (map_get m (key a)) s) | None => map_get m (key a) end.
Proof.
  revert m. induction l as [|b l IH]; intros m Hn Ha; [by apply not_elem_of_nil in Ha|].
  rewrite fmap_cons in Hn. apply NoDup_cons in Hn as [Hb Hn]. cbn [omap list_omap].
  apply elem_of_cons in Ha as [<-|Ha].
  - destruct (g a) as [s|] eqn:E; [|by apply upserts_other]. cbn [foldl].
    rewrite upserts_other by done. unfold upsert. rewrite (Hg a s E). apply map_get_set_eq.
  - assert (key b <> key a) as Hne by (intros E; apply Hb; rewrite E; by apply list_elem_of_fmap_2).
    destruct (g b) as [s|] eqn:E; [|by apply IH]. cbn [foldl]. rewrite IH by done.
    unfold upsert. rewrite (Hg b s E). by rewrite !map_get_set_ne.
Qed.

Lemma upserts_wf l m : map_wf m -> map_wf (foldl upsert m l).
Proof. revert m. induction l as [|s l IH]; intros m Hm; [done|]. apply IH. by apply map_set_wf. Qed.
End upserts.

Definition of_keyword (_ : option scored) (s : scored) : scored := weighted (dec 6 10) s.
Definition of_ai (existing : option scored) (s : scored) : scored :=
  match existing with Some e => merge e s | None => weighted (dec 4 10) s end.

Abbreviation sid := (fun s => id (doc s)).

Lemma combine_upserts ks ais :
  combineSearchResults ks ais = map_values (foldl (upsert sid of_ai) (foldl (upsert sid of_keyword) [] ks) ais).
Proof. done. Qed.

(** Every entry is under the identifier of its document. *)
Definition keyed (m : jsmap str scored) : Prop := Forall (fun e => e.1 = id (doc e.2)) m.

Lemma map_set_keyed m k v : keyed m -> k = id (doc v) -> keyed (map_set m k v).
Proof.
  intros Hm Hk. induction Hm as [|[k' v'] m Hh Hm IH]; cbn; [by constructor|].
  case_decide as E; constructor; [by subst k'|done..].
Qed.

Lemma keyed_get m k v : keyed m -> map_get m k = Some v -> id (doc v) = k.
Proof.
  induction 1 as [|[k' v'] m Hh _ IH]; cbn; [done|]. case_decide; [|done]. intros [= ->]. cbn in Hh. congruence.
Qed.

Lemma upserts_keyed f l m :
  (forall o s, match o with Some e => sid e = sid s | None => True end -> sid (f o s) = sid s) ->
  keyed m -> keyed (foldl (upsert sid f) m l).
Proof.
  intros Hf. revert m. induction l as [|s l IH]; intros m Hm; [done|]. cbn [foldl]. apply IH.
  apply map_set_keyed; [done|]. symmetry. apply Hf. destruct (map_get m _) eqn:E; [|done].
  by apply keyed_get in E.
Qed.

(** The map of [combineSearchResults]. *)
Definition combined_map (ks ais : list scored) : jsmap str scored :=
  foldl (upsert sid of_ai) (foldl (upsert sid of_keyword) [] ks) ais.

Lemma combined_keyed ks ais : keyed (combined_map ks ais).
Proof.
  apply upserts_keyed; [by intros [e|] s|]. apply upserts_keyed; [done|constructor].
Qed.

Lemma combined_wf ks ais : map_wf (combined_map ks ais).
Proof. apply upserts_wf, upserts_wf. constructor. Qed.

(** No two results have the same identifier. *)
Lemma combined_NoDup ks ais : NoDup (sid <$> combineSearchResults ks ais).
Proof.
  rewrite combine_upserts. fold (combined_map ks ais). pose proof (combined_wf ks ais) as H.
  unfold map_wf, map_keys in H. unfold map_values.
  assert (sid <$> (combined_map ks ais).*2 = (combined_map ks ais).*1) as ->; [|done].
  induction (combined_keyed ks ais) as [|[k v] m Hh _ IH]; [done|]. cbn in *. rewrite IH; [by rewrite Hh|].
  by apply NoDup_cons in H as [_ H].
Qed.

(** The score of a document from its two scores. *)
Definition total (kw ai : DocumentChunk -> option scored) (d : DocumentChunk) : option scored :=
  match kw d, ai d with
  | Some k, Some a => Some (merge (weighted (dec 6 10) k) a)
  | Some k, None => Some (weighted (dec 6 10) k)
  | None, Some a => Some (weighted (dec 4 10) a)
  | None, None => None
  end.

Lemma combined_elem kw ai docs x :
  NoDup (id <$> docs) -> (forall d s, kw d = Some s -> doc s = d) -> (forall d s, ai d = Some s -> doc s = d) ->
  x ∈ combineSearchResults (omap kw docs) (omap ai docs) <-> exists d, d ∈ docs /\ total kw ai d = Some x.
Proof.
  intros Hn Hk Ha. rewrite combine_upserts. fold (combined_map (omap kw docs) (omap ai docs)).
  rewrite elem_of_map_values by apply combined_wf.
  assert (forall d, d ∈ docs -> map_get (combined_map (omap kw docs) (omap ai docs)) (id d) = total kw ai d) as Hget.
  { intros d Hd. unfold combined_map, total.
    rewrite (upserts_get id ai sid of_ai) by (try done; by intros a s E; rewrite (Ha a s E)).
    rewrite (upserts_get id kw sid of_keyword) by (try done; by intros a s E; rewrite (Hk a s E)).
    by destruct (kw d), (ai d). }
  split.
  - intros [k E]. destruct (decide (k ∈ id <$> docs)) as [(d & -> & Hd)%list_elem_of_fmap|Hno].
    + exists d. split; [done|]. by rewrite <- Hget.
    + exfalso. revert E. unfold combined_map.
      rewrite (upserts_other id ai sid of_ai) by (try done; by intros a s E; rewrite (Ha a s E)).
      rewrite (upserts_other id kw sid of_keyword) by (try done; by intros a s E; rewrite (Hk a s E)). done.
  - intros (d & Hd & E). exists (id d). by rewrite Hget.
Qed.

Lemma positive_doc score d s : positive score d = Some s -> doc s = d /\ nonneg (relevanceScore s).
Proof.
  unfold positive. destruct (Z.ltb_spec 0 (score d).1); [|done]. intros [= <-]. split; [done|].
  apply of_Z_nonneg. lia.
Qed.

Lemma total_ok f g d x :
  total (positive f) (positive g) d = Some x -> doc x = d /\ nonneg (relevanceScore x).
Proof.
  unfold total. destruct (positive f d) as [k|] eqn:Ek, (positive g d) as [a|] eqn:Ea; [| | |done].
  all: intros [= <-]; cbn.
  all: try apply positive_doc in Ek as [<- Hk]; try apply positive_doc in Ea as [<- Ha].
  all: split; [done|]; repeat apply nadd_nonneg; by apply nmul_nonneg.
Qed.

(** ** When the search answers *)

Section answers.
Context (count_matches : str -> str -> result Z) (ask : str -> result json).
Implicit Types (query : str) (terms : list str).

(** No word of the query is the name of an inherited property. *)
Definition plain query : Prop := Forall (fun w => w ∉ inherited) (split_ws (toLowerCase query)).

(** Every word of the query is a regular expression. *)
Definition regular query : Prop :=
  forall w text, w ∈ split_ws (toLowerCase query) -> is_ok (count_matches w text) = true.

Lemma synonyms_plain terms : Forall (fun w => w ∉ inherited) terms -> is_ok (all_synonyms terms) = true.
Proof.
  induction 1 as [|w terms Hw _ IH]; [done|]. cbn. unfold synonyms_of.
  rewrite bool_decide_eq_false_2 by done. by destruct (all_synonyms terms).
Qed.

Lemma terms_plain query : plain query -> is_ok (generateSearchTerms ask query) = true.
Proof.
  intros H. unfold generateSearchTerms.
  assert (is_ok (expandSearchTerms query) = true) as Ho.
  { unfold expandSearchTerms. pose proof (synonyms_plain _ H) as Hs. by destruct (all_synonyms _). }
  by destruct (try! _ <- _; _)%js.
Qed.

Lemma section_regular query terms s : regular query -> is_ok (section_score count_matches query terms s) = true.
Proof.
  intros H. unfold section_score. cbn zeta.
  assert (forall ws text, (forall w, w ∈ ws -> w ∈ split_ws (toLowerCase query)) ->
    is_ok (word_frequency count_matches ws text) = true) as Hf.
  { induction ws as [|w ws IH]; intros text Hin; [done|]. cbn [word_frequency].
    pose proof (H w text (Hin w ltac:(set_solver))) as Hw. specialize (IH text ltac:(set_solver)).
    destruct (count_matches w text); [|done]. by destruct (word_frequency _ ws text). }
  specialize (Hf (filterb (longer 2) (split_ws (toLowerCase query))) (toLowerCase (sec_content s))).
  destruct (word_frequency _ _ _); [done|]. apply Hf. intros w Hw. by apply elem_of_filterb in Hw as [Hw _].
Qed.

Lemma best_regular query terms secs : regular query ->
  forall best score, is_ok (best_section count_matches query terms secs best score) = true.
Proof.
  intros H. induction secs as [|s secs IH]; intros best score; [done|]. cbn [best_section].
  pose proof (section_regular query terms s H). destruct (section_score _ _ _ s); [|done].
  cbn. by destruct (_ <? _)%Z.
Qed.

(** The results carry the documents, scores and texts they were made from. *)
Definition shown (r : AISearchResult) : scored := Scored (r_doc r) (r_score r) (r_matched r).

Lemma to_results_regular query terms l :
  regular query -> exists rs, to_results count_matches query terms l = Ok rs /\ shown <$> rs = l.
Proof.
  intros H. induction l as [|s l (rs & E & Hrs)]; [by exists []|]. cbn [to_results]. unfold to_result at 1.
  assert (is_ok (findBestMatchingSection count_matches query terms (sections (doc s))) = true) as Hs.
  { unfold findBestMatchingSection. pose proof (best_regular query terms (sections (doc s)) H None 0%Z).
    by destruct (best_section _ _ _ _ _ _). }
  destruct (findBestMatchingSection _ _ _ _) as [sec|]; [|done]. cbn. rewrite E. cbn.
  eexists. split; [done|]. cbn. rewrite Hrs. by destruct s.
Qed.

(** What cutting the sorted documents leaves. *)
Lemma ranked_results (docs : list DocumentChunk) (score : DocumentChunk -> option scored) combined limit rs :
  (0 <= limit)%Z -> (forall x, x ∈ combined <-> exists d, d ∈ docs /\ score d = Some x) ->
  (forall d x, score d = Some x -> doc x = d) -> NoDup (sid <$> combined) ->
  Forall (fun x => num_ok (relevanceScore x)) combined ->
  shown <$> rs = take (Z.to_nat limit) (sort_desc relevanceScore combined) ->
  (Z.of_nat (length rs) <= limit)%Z /\
  NoDup ((fun r => id (r_doc r)) <$> rs) /\
  StronglySorted (fun a b => nlt (r_score a) (r_score b) = false) rs /\
  (forall r, r ∈ rs -> r_doc r ∈ docs /\ score (r_doc r) = Some (shown r)) /\
  (forall d s, d ∈ docs -> score d = Some s ->
     (exists r, r ∈ rs /\ shown r = s) \/
     (Z.of_nat (length rs) = limit /\ forall r, r ∈ rs -> nlt (r_score r) (relevanceScore s) = false)).
Proof.
  intros Hlim Hin Hdoc Hnd Hok Hrs.
  assert (length rs = Nat.min (Z.to_nat limit) (length (sort_desc relevanceScore combined))) as Hlen
    by (rewrite <- (length_fmap shown rs), Hrs; apply length_take).
  assert (forall r, r ∈ rs -> shown r ∈ take (Z.to_nat limit) (sort_desc relevanceScore combined)) as Hr
    by (intros r H; rewrite <- Hrs; by apply list_elem_of_fmap_2).
  split_and!.
  - lia.
  - change (NoDup ((fun r => sid (shown r)) <$> rs)). rewrite (list_fmap_compose shown sid), Hrs.
    eapply sublist_NoDup; [|apply fmap_sublist, sublist_take].
    by rewrite sort_desc_perm.
  - assert (StronglySorted (ranked relevanceScore) (shown <$> rs)) as Hs
      by (rewrite Hrs; by apply StronglySorted_take, sort_desc_sorted).
    exact (proj1 (StronglySorted_fmap shown _ rs) Hs).
  - intros r H%Hr%elem_of_take_sub%elem_of_sort_desc. apply Hin in H as (d & Hd & E).
    pose proof (Hdoc d _ E) as Hrd. cbn in Hrd. by subst d.
  - intros d s Hd E. assert (s ∈ sort_desc relevanceScore combined) as Hs
      by (apply elem_of_sort_desc, Hin; eauto).
    rewrite <- (take_drop (Z.to_nat limit) (sort_desc relevanceScore combined)) in Hs.
    apply elem_of_app in Hs as [Hs|Hs]; [left|right].
    + rewrite <- Hrs in Hs. apply list_elem_of_fmap in Hs as (r & -> & H). eauto.
    + split.
      * assert (Z.to_nat limit < length (sort_desc relevanceScore combined)).
        { destruct (Nat.lt_ge_cases (Z.to_nat limit) (length (sort_desc relevanceScore combined))); [done|].
          rewrite drop_ge in Hs by done. by apply not_elem_of_nil in Hs. }
        lia.
      * intros r H%Hr. by apply (sort_desc_take_best relevanceScore (Z.to_nat limit) combined (shown r) s).
Qed.

(** C15: A search answers with the best documents.  When the query's words are
    neither names of inherited properties nor broken regular expressions, and
    the documents have distinct identifiers, then whatever the model answers
    the results are documents with a positive score, each once, with its
    combined score and the text that matched, in descending order, at most
    [limit] of them; and a document with a positive score that is missing is
    missing because [limit] others are at least as good. *)
Theorem search_best query docs limit
  (Hids : NoDup (id <$> docs)) (Hlim : (0 <= limit)%Z) (Hq : plain query) (Hre : regular query) :
  exists terms rs, performHybridSearch count_matches ask query docs limit = Ok rs /\
    let score := total (positive (keyword_score query (searchTerms query))) (positive (ai_score query terms)) in
    (Z.of_nat (length rs) <= limit)%Z /\
    NoDup ((fun r => id (r_doc r)) <$> rs) /\
    StronglySorted (fun a b => nlt (r_score a) (r_score b) = false) rs /\
    (forall r, r ∈ rs -> r_doc r ∈ docs /\ score (r_doc r) = Some (shown r)) /\
    (forall d s, d ∈ docs -> score d = Some s ->
       (exists r, r ∈ rs /\ shown r = s) \/
       (Z.of_nat (length rs) = limit /\ forall r, r ∈ rs -> nlt (r_score r) (relevanceScore s) = false)).
Proof.
  pose proof (terms_plain query Hq) as Ht. unfold performHybridSearch.
  destruct (generateSearchTerms ask query) as [aiTerms|]; [|done]. cbn zeta.
  set (terms := unique (searchTerms query ++ aiTerms)).
  set (kw := positive (keyword_score query (searchTerms query))). set (ai := positive (ai_score query terms)).
  change (scoreDocumentsByKeywords _ _ docs) with (omap kw docs).
  change (scoreDocumentsByAI _ _ docs) with (omap ai docs).
  set (combined := combineSearchResults _ _).
  assert (forall x, x ∈ combined <-> exists d, d ∈ docs /\ total kw ai d = Some x) as Hin.
  { intros x. apply combined_elem; [done|by intros ?? [? _]%positive_doc..]. }
  assert (Forall (fun x => num_ok (relevanceScore x)) combined) as Hok.
  { apply Forall_forall. intros x (d & _ & E)%Hin. by apply total_ok in E as [_ E%nonneg_ok]. }
  rewrite slice_0 by done.
  destruct (to_results_regular query terms (take (Z.to_nat limit) (sort_desc relevanceScore combined)) Hre)
    as (rs & -> & Hrs).
  exists terms, rs. split; [done|].
  apply (ranked_results docs (total kw ai) combined); try done; [|apply combined_NoDup].
  intros d x E. by apply total_ok in E as [E _].
Qed.
End answers.

(** ** Results that are missing *)

Lemma to_results_shown count_matches query terms l rs :
  to_results count_matches query terms l = Ok rs -> shown <$> rs = l.
Proof.
  revert rs. induction l as [|s l IH]; intros rs; cbn [to_results]; [by intros [= <-]|].
  unfold to_result. destruct (findBestMatchingSection _ _ _ _); [|done]. cbn.
  destruct (to_results _ _ _ l); [|done]. intros [= <-]. cbn. rewrite IH by done. by destruct s.
Qed.

(** Whatever the documents, no two results have the same identifier: of
    documents whose files have one name in different directories, at most one
    is found. *)
Lemma one_result_per_id count_matches ask query docs limit rs :
  (0 <= limit)%Z -> performHybridSearch count_matches ask query docs limit = Ok rs ->
  NoDup ((fun r => id (r_doc r)) <$> rs).
Proof.
  intros Hl. unfold performHybridSearch. destruct (generateSearchTerms _ _); [|done]. cbn zeta.
  intros H%to_results_shown. rewrite slice_0 in H by done.
  change (NoDup ((fun r => sid (shown r)) <$> rs)). rewrite (list_fmap_compose shown sid), H.
  eapply sublist_NoDup; [|apply fmap_sublist, sublist_take]. rewrite sort_desc_perm. apply combined_NoDup.
Qed.

Definition page (text : str) : node := FileNode (Ok text).

(** Two pages of different directories, both about the cache. *)
Definition two_pages : node := DirNode (Ok
  [(js "a", DirNode (Ok [(js "setup.md", page (js "How to set up the node cache."))]));
   (js "b", DirNode (Ok [(js "setup.md", page (js "How to set up the python cache."))]))]).

Example same_name_lost :
  let docs := documents (build_index (fun text => Ok (text, no_metadata)) two_pages []) in
  (id <$> docs = [js "setup-0"; js "setup-0"]) /\ (url <$> docs = [js "/docs/a/setup"; js "/docs/b/setup"]) /\
  result_map (fmap r_url) (performHybridSearch (fun _ _ => Ok 0%Z) (fun _ => Throw []) (js "node cache") docs 10)
    = Ok [js "/docs/b/setup"].
Proof. by vm_compute. Qed.

(** A query with a word that names an inherited property fails, whatever the
    documents and the model. *)
Lemma inherited_word_fails count_matches ask query docs limit w :
  w ∈ split_ws (toLowerCase query) -> w ∈ inherited ->
  performHybridSearch count_matches ask query docs limit =
    Throw (js "SYNONYM_MAP[term].forEach is not a function").
Proof.
  intros Hw Hi.
  assert (expandSearchTerms query = Throw (js "SYNONYM_MAP[term].forEach is not a function")) as E.
  { unfold expandSearchTerms. cbn zeta. assert (forall l, w ∈ l ->
      all_synonyms l = Throw (js "SYNONYM_MAP[term].forEach is not a function")) as ->; [|done..].
    induction l as [|x l IH]; intros H; [by apply not_elem_of_nil in H|]. cbn [all_synonyms].
    unfold synonyms_of at 1. case_bool_decide as Hx; [done|].
    apply elem_of_cons in H as [->|H]; [done|]. by rewrite IH. }
  unfold performHybridSearch, generateSearchTerms. by rewrite E.
Qed.

(** ** The age of the index *)

Section fresh.
Context (matter : str -> result (str * Metadata)).
Context (stringify : DocumentIndex -> str) (parse : str -> result DocumentIndex).
Context (gzip : str -> str) (gunzip : str -> result str).
Context (toISO : Z -> str) (getTime : str -> option Z).
Context (Hjson : forall i, parse (stringify i) = Ok i) (Hgzip : forall s, gunzip (gzip s) = Ok s).
Context (Hdate : forall t, getTime (toISO t) = Some t).

Abbreviation index_of := (current_index matter stringify parse gzip gunzip toISO getTime).

(** A request sees the content directory as it is at its time. *)
Record visit := Visit { v_writable : bool; v_root : node; v_now : Z }.

Definition visit_index (file : option str) (v : visit) : option str := (index_of (v_writable v) (v_root v) (v_now v) file).1.

(** The file holds an index made by one of the visits. *)
Definition made_by (vs : list visit) (file : option str) : Prop :=
  match file with
  | None => True
  | Some data => exists v, v ∈ vs /\ data = gzip (stringify (build_index matter (v_root v) (toISO (v_now v))))
  end.

Lemma load_saved i : loadIndex parse gunzip (Some (gzip (stringify i))) = Some i.
Proof. cbn. by rewrite Hgzip, Hjson. Qed.

Lemma current_index_made vs file v :
  made_by vs file ->
  let '(file', index) := index_of (v_writable v) (v_root v) (v_now v) file in
  made_by (v :: vs) file' /\
  exists u, u ∈ v :: vs /\ index = build_index matter (v_root u) (toISO (v_now u)) /\
    (v_now v - v_now u <= oneHour)%Z.
Proof.
  intros Hf. unfold current_index.
  assert (let '(file', index) := indexDocuments matter stringify gzip toISO (v_writable v) (v_root v) (v_now v) file in
    made_by (v :: vs) file' /\ exists u, u ∈ v :: vs /\ index = build_index matter (v_root u) (toISO (v_now u)) /\
    (v_now v - v_now u <= oneHour)%Z) as Hnew.
  { cbn. split.
    - unfold saveIndex. destruct (v_writable v); [exists v; split; [set_solver|done]|].
      destruct file; [|done]. destruct Hf as (u & Hu & ->). exists u. split; [set_solver|done].
    - exists v. split_and!; [set_solver|done|unfold oneHour; lia]. }
  destruct file as [data|]; [|done]. destruct Hf as (u & Hu & ->). rewrite load_saved.
  unfold needsUpdate. rewrite load_saved. cbn [lastUpdated build_index]. rewrite Hdate.
  destruct (Z.ltb_spec oneHour (v_now v - v_now u)); [done|]. split; exists u; split_and!; done || set_solver.
Qed.

(** The index a request searches was made from the content directory at
    most an hour before the request, whatever the requests before it were and
    whether or not the index could be written. *)
Theorem index_at_most_an_hour_old vs v :
  exists u, u ∈ v :: vs /\
    (index_of (v_writable v) (v_root v) (v_now v) (foldl visit_index None vs)).2 =
      build_index matter (v_root u) (toISO (v_now u)) /\
    (v_now v - v_now u <= oneHour)%Z.
Proof.
  assert (made_by vs (foldl visit_index None vs)) as Hf.
  { induction vs as [|w vs IH] using rev_ind; [done|]. rewrite foldl_app. cbn [foldl].
    pose proof (current_index_made vs (foldl visit_index None vs) w IH) as H. unfold visit_index at 1.
    destruct (index_of _ _ _ _) as [file' index]. destruct H as [H _]. cbn.
    destruct file'; [|done]. destruct H as (u & Hu & ->). exists u. split; [set_solver|done]. }
  pose proof (current_index_made vs _ v Hf) as H. destruct (index_of _ _ _ _). destruct H as [_ H]. done.
Qed.
End fresh.

(** ** Witnesses *)

Definition toy_doc (n t : string) : DocumentChunk :=
  Chunk_ (js n) (js t) (js "/docs/x") (js "The node cache stores blocks.") (js "The node") [] [js "cache"] no_metadata 0 1.
Definition toy_docs : list DocumentChunk := [toy_doc "a-0" "Node Cache"; toy_doc "b-0" "Consensus"]%string.

Lemma search_best_witness :
  exists terms rs,
    performHybridSearch (fun _ _ => Ok 1%Z) (fun _ => Throw []) (js "cache") toy_docs 1 = Ok rs /\
    let score := total (positive (keyword_score (js "cache") (searchTerms (js "cache"))))
                   (positive (ai_score (js "cache") terms)) in
    (Z.of_nat (length rs) <= 1)%Z /\
    NoDup ((fun r => id (r_doc r)) <$> rs) /\
    StronglySorted (fun a b => nlt (r_score a) (r_score b) = false) rs /\
    (forall r, r ∈ rs -> r_doc r ∈ toy_docs /\ score (r_doc r) = Some (shown r)) /\
    (forall d s, d ∈ toy_docs -> score d = Some s ->
       (exists r, r ∈ rs /\ shown r = s) \/
       (Z.of_nat (length rs) = 1 /\ forall r, r ∈ rs -> nlt (r_score r) (relevanceScore s) = false))%Z.
Proof.
  refine (search_best (fun _ _ => Ok 1%Z) (fun _ => Throw []) (js "cache") toy_docs 1 _ _ _ _).
  - apply (bool_decide_unpack _). vm_compute. exact I.
  - lia.
  - apply (bool_decide_unpack _). vm_compute. exact I.
  - done.
Defined.

(** A printing of indices and of dates that can be read back. *)

#[export] Instance DocumentSection_eq_dec : EqDecision DocumentSection. Proof. solve_decision. Defined.
#[export] Instance Metadata_eq_dec : EqDecision Metadata. Proof. solve_decision. Defined.
#[export] Instance DocumentChunk_eq_dec : EqDecision DocumentChunk. Proof. solve_decision. Defined.
#[export] Instance DocumentIndex_eq_dec : EqDecision DocumentIndex. Proof. solve_decision. Defined.

#[export] Instance DocumentSection_countable : Countable DocumentSection :=
  inj_countable' (fun s => (sec_id s, sec_title s, sec_level s, sec_content s, sec_url s))
    (fun '(a, b, c, d, e) => Section_ a b c d e) (fun '(Section_ _ _ _ _ _) => eq_refl).
#[export] Instance Metadata_countable : Countable Metadata :=
  inj_countable' (fun m => (m_title m, description m, parent m, nav_order m, tags m))
    (fun '(a, b, c, d, e) => Meta a b c d e) (fun '(Meta _ _ _ _ _) => eq_refl).
#[export] Instance DocumentChunk_countable : Countable DocumentChunk :=
  inj_countable'
    (fun d => (id d, title d, url d, content d, excerpt d, sections d, keywords d, metadata d, chunkIndex d, totalChunks d))
    (fun '(a, b, c, d, e, f, g, h, i, j) => Chunk_ a b c d e f g h i j) (fun '(Chunk_ _ _ _ _ _ _ _ _ _ _) => eq_refl).
#[export] Instance DocumentIndex_countable : Countable DocumentIndex :=
  inj_countable' (fun i => (documents i, lastUpdated i, totalDocuments i))
    (fun '(a, b, c) => Index a b c) (fun '(Index _ _ _) => eq_refl).

Definition toy_read `{Countable A} (s : str) : result A :=
  match read_bits s with Some a => Ok a | None => Throw (js "Unexpected token") end.
Definition toy_matter (text : str) : result (str * Metadata) := Ok (text, no_metadata).
Definition toy_visit (now : Z) : visit := Visit true two_pages now.

Lemma index_at_most_an_hour_old_witness :
  exists u, u ∈ [toy_visit 4000000; toy_visit 0; toy_visit 3900000] /\
    (current_index toy_matter print_bits toy_read (fun s => s) Ok print_bits read_bits true two_pages 4000000
       (foldl (visit_index toy_matter print_bits toy_read (fun s => s) Ok print_bits read_bits) None
          [toy_visit 0; toy_visit 3900000])).2 =
      build_index toy_matter (v_root u) (print_bits (v_now u)) /\
    (4000000 - v_now u <= oneHour)%Z.
Proof.
  refine (index_at_most_an_hour_old toy_matter print_bits toy_read (fun s => s) Ok print_bits read_bits _ _ _
            [toy_visit 0; toy_visit 3900000] (toy_visit 4000000)).
  - intros i. unfold toy_read. by rewrite read_print_bits.
  - done.
  - intros t. apply read_print_bits.
Defined.
