(* ===== verification/ApiClients.v ===== *)
(** * The clients of the drawing and file-sharing toolkits

    [DrawingClient] and [SocketClient] of src/ecosystem/tools/drawing-lib/src
    and [ResShareToolkitClient] of src/ecosystem/tools/reshare-lib/src: one
    call sends a request again until it succeeds, fails for good or has been
    tried often enough, and may ask the application for a new token.

    The other end is a parameter: what it answers to the i-th request of a
    call.  A request that is aborted by its timeout is one that fails. *)

From S2P Require Import Prelude JsString JsArray JsNum Json Http.

(** ** Answers and errors *)

Record answer := Answer {
  a_status : Z;
  statusText : str;
  contentType : option str;
  (** The [set-cookie] headers. *)
  setCookie : list str;
  (** [response.json()] *)
  a_json : result json;
}.

Definition a_ok (a : answer) : bool := ((200 <=? a_status a) && (a_status a <=? 299))%Z.

Inductive failure :=
| ApiError (status : Z) (body : json) (message : option str)
| OtherError (message : str).

(** Errors that are not worth another attempt. *)
Definition final (e : failure) : bool :=
  match e with
  | ApiError s _ _ => bool_decide (s ∈ [400; 401; 403; 404]%Z)
  | OtherError _ => false
  end.

(** What a call does, in order. *)
Inductive action :=
| Send (r : request)
| Sleep (ms : Z)
| Refresh.

Definition sends (l : list action) : list request :=
  omap (fun a => match a with Send r => Some r | _ => None end) l.
Definition slept (l : list action) : list Z :=
  omap (fun a => match a with Sleep ms => Some ms | _ => None end) l.

Definition is_json (a : answer) : bool :=
  match contentType a with Some t => includes t (js "application/json") | None => false end.

Definition error_body (a : answer) : json :=
  match a_json a with Ok v => v | Throw _ => JObj [(js "message", JStr (statusText a))] end.

Definition exhausted : failure := OtherError (js "Request failed after retries").

(** ** The drawing client *)

Module Drawing.

Record Config := MkConfig { baseUrl : str; apiVersion : str; retries : nat }.

(** [config.baseUrl.replace(/\/$/, '')] *)
Definition strip_slash (s : str) : str := if endsWith s (js "/") then removelast s else s.

Definition new_config (base : str) (version : option str) (r : option nat) : Config :=
  MkConfig (strip_slash base) (str_or version (js "v1"))
    (match r with Some (S n) => S n | _ => 3 end).

Definition apiBase (c : Config) : str := baseUrl c ++ js "/api/" ++ apiVersion c.

(** The request of a call, made before the first attempt. *)
Definition make_request (c : Config) (token : option str) (method path : str) (extra : jsmap str str)
    (body : option str) : request :=
  Request method (apiBase c ++ path)
    (auth_headers (foldl (fun m kv => map_set m kv.1 kv.2) json_headers extra) token) body.

Section client.
(** The answer to the i-th request of a call, or how sending it failed. *)
Context (server : nat -> request -> result answer).
(** [onTokenExpired], when there is one: the token it gives, [None] and the
    empty one for none, at the i-th attempt. *)
Context (onTokenExpired : option (nat -> result (option str))).

(** The error path of an attempt: thrown at once, or kept for later. *)
Definition caught (attempt retries : nat) (e : failure) : option (list action) :=
  if final e then None
  else if (attempt =? retries)%nat then None
  else Some [Sleep (2 ^ Z.of_nat attempt * 1000)%Z].

(** What one attempt does: the actions, the token, and the value to return,
    [None] to go on at once, or an error. *)
Definition one_attempt (r : request) (attempt : nat) (token : option str)
    : list action * option str * (option (option json) + failure) :=
  match server attempt r with
  | Throw e => ([Send r], token, inr (OtherError e))
  | Ok a =>
      if a_ok a then
        ([Send r], token,
         if is_json a then match a_json a with Ok v => inl (Some (Some v)) | Throw e => inr (OtherError e) end
         else inl (Some None))
      else
        let error := ApiError (a_status a) (error_body a) None in
        match onTokenExpired with
        | Some refresh =>
            if (a_status a =? 401)%Z then
              match refresh attempt with
              | Ok (Some (c :: t)) => ([Send r; Refresh], Some (c :: t), inl None)
              | Ok _ => ([Send r; Refresh], token, inr error)
              | Throw _ => ([Send r; Refresh], token,
                            inr (ApiError (a_status a) (error_body a) (Some (js "Token refresh failed"))))
              end
            else ([Send r], token, inr error)
        | None => ([Send r], token, inr error)
        end
  end.

(** The attempts from [attempt] on, [left] of them after this one; what was
    done, the token at the end and the result, [None] for [null]. *)
Fixpoint attempts (r : request) (retries left attempt : nat) (token : option str) (lastError : option failure)
    : list action * option str * (option json + failure) :=
  let '(acts, token, outcome) := one_attempt r attempt token in
  let again acts lastError :=
    match left with
    | O => (acts, token, inr (coalesce lastError exhausted))
    | S left' => let '(acts', token', res) := attempts r retries left' (S attempt) token lastError in
                 (acts ++ acts', token', res)
    end in
  match outcome with
  | inl (Some v) => (acts, token, inl v)
  | inl None => again acts lastError
  | inr e =>
      match caught attempt retries e with
      | None => (acts, token, inr e)
      | Some pause => again (acts ++ pause) (Some e)
      end
  end.

Definition _request (c : Config) (token : option str) (method path : str) (extra : jsmap str str)
    (body : option str) : list action * option str * (option json + failure) :=
  attempts (make_request c token method path extra body) (retries c) (retries c) 0 token None.

End client.

(** *** The modules that change the token *)

(** [if (response.token) setToken(response.token)] on the answer of a call;
    [null] has no properties. *)
Definition take_token (r : list action * option str * (option json + failure))
    : list action * option str * (option json + failure) :=
  match r with
  | (acts, token, inl None) =>
      (acts, token, inr (OtherError (js "Cannot read properties of null (reading 'token')")))
  | (acts, token, inl (Some v)) =>
      (acts, match as_str (prop v (js "token")) with Some (c :: t) => Some (c :: t) | _ => token end, inl (Some v))
  | (acts, token, inr e) => (acts, token, inr e)
  end.

Definition POST : str := js "POST".

Section auth.
Context (server : nat -> request -> result answer) (onTokenExpired : option (nat -> result (option str))).
Context (stringify : json -> str).

Abbreviation call c token path body := (_request server onTokenExpired c token POST (js path) [] body).

Definition login (c : Config) (token : option str) (username password : str) :=
  take_token (call c token "/auth/login"
    (Some (stringify (JObj [(js "username", JStr username); (js "password", JStr password)])))).

Definition register (c : Config) (token : option str) (username password : str) (walletPubKey : option json) :=
  take_token (call c token "/auth/register"
    (Some (stringify (JObj (present
       [(js "username", Some (JStr username)); (js "password", Some (JStr password));
        (js "walletPubKey", walletPubKey)]))))).

Definition refresh (c : Config) (token : option str) := take_token (call c token "/auth/refresh" None).

Definition logout (c : Config) (token : option str) :=
  match call c token "/auth/logout" None with
  | (acts, _, inl v) => (acts, None, inl v)
  | r => r
  end.
End auth.

End Drawing.

(** ** The file-sharing client *)

Module ReShare.

Record Config := MkConfig {
  baseUrl : str;
  apiPrefix : str;
  retries : nat;
  cookieJarEnabled : bool;
}.

(** [s.replace(/\/+$/, '')] *)
Definition strip_slashes (s : str) : str :=
  let n := run_length (fun c => bool_decide (c = "/"%char)) (rev s) in take (length s - n) s.

Definition _normalizePrefix (prefix : option str) : str :=
  match prefix with
  | None => []
  | Some p =>
      match trim p with
      | [] => []
      | t => strip_slashes (if startsWith t (js "/") then t else js "/" ++ t)
      end
  end.

Definition new_config (base : str) (prefix : option str) (r : option nat) (jar : bool) : Config :=
  MkConfig (strip_slashes base) (_normalizePrefix prefix) (coalesce r 2) jar.

Definition _buildUrl (c : Config) (path : str) : str :=
  baseUrl c ++ apiPrefix c ++
  match path with [] => [] | _ => if startsWith path (js "/") then path else js "/" ++ path end.

(** *** Cookies *)

Definition cookie_of (cookie : str) : option (str * str) :=
  let pair := coalesce (head (split cookie (js ";"))) [] in
  match indexOf pair (js "=") with
  | Some (S i) =>
      match trim (take (S i) pair) with
      | [] => None
      | name => Some (name, trim (drop (S (S i)) pair))
      end
  | _ => None
  end.

Definition _storeCookies (c : Config) (store : jsmap str str) (cookies : list str) : jsmap str str :=
  if cookieJarEnabled c then
    foldl (fun m kv => map_set m kv.1 kv.2) store (omap cookie_of cookies)
  else store.

Definition _buildCookieHeader (c : Config) (store : jsmap str str) : str :=
  if cookieJarEnabled c then join ((fun kv => kv.1 ++ js "=" ++ kv.2) <$> store) (js "; ") else [].

(** *** Bodies *)

Definition _normalizeResponse (data : json) : json :=
  match data with
  | JObj o =>
      match map_get o (js "status") with
      | None | Some JNull =>
          match js_or (map_get o (js "result")) (map_get o (js "message")) with
          | Some s => if truthy (Some s) then JObj (map_set o (js "status") s) else data
          | None => data
          end
      | Some _ => data
      end
  | _ => data
  end.

(** *** Requests *)

(** The state of the client. *)
Record state := State { token : option str; cookies : jsmap str str }.

(** A body: an object, which is sent as JSON, or text, form data or bytes,
    which are sent as they are. *)
Inductive sent_body := ObjectBody (v : json) | PlainBody (s : str).

Definition prepare (stringify : json -> str) (extra : jsmap str str) (b : option sent_body)
    : jsmap str str * option str :=
  match b with
  | Some (ObjectBody v) =>
      (match map_get extra (js "Content-Type") with
       | Some (_ :: _) => extra
       | _ => map_set extra (js "Content-Type") (js "application/json")
       end, Some (stringify v))
  | Some (PlainBody s) => (extra, Some s)
  | None => (extra, None)
  end.

Definition make_request (stringify : json -> str) (c : Config) (st : state) (method path : str)
    (extra : jsmap str str) (b : option sent_body) : request :=
  let '(extra, body) := prepare stringify extra b in
  let headers :=
    match map_get extra (js "Authorization") with
    | Some (_ :: _) => extra
    | _ => auth_headers extra (token st)
    end in
  let headers :=
    match _buildCookieHeader c (cookies st) with
    | [] => headers
    | h => map_set headers (js "Cookie")
             (match map_get headers (js "Cookie") with Some (x :: xs) => (x :: xs) ++ js "; " ++ h | _ => h end)
    end in
  Request method (_buildUrl c path) headers body.

Section client.
Context (server : nat -> request -> result answer).
Context (onAuthExpired : option (nat -> result (option str))).
Context (c : Config) (raw : bool).

(** The result of a call: a response as it is, or its body, [None] for
    [null]. *)
Inductive body := Raw (a : answer) | Body (v : option json).

(** What one attempt does; [sent] counts the requests of the call,
    [refreshed] says whether a new token was asked for. *)
Definition one_attempt (r : request) (sent : nat) (refreshed : bool) (st : state)
    : list action * state * bool * (option body + failure) :=
  match server sent r with
  | Throw e => ([Send r], st, refreshed, inr (OtherError e))
  | Ok a =>
      let st := State (token st) (_storeCookies c (cookies st) (setCookie a)) in
      if a_ok a then
        ([Send r], st, refreshed,
         if raw then inl (Some (Raw a))
         else if is_json a then
           match a_json a with
           | Ok v => inl (Some (Body (Some (_normalizeResponse v))))
           | Throw e => inr (OtherError e)
           end
         else inl (Some (Body None)))
      else
        let error := ApiError (a_status a) (_normalizeResponse (error_body a)) None in
        match onAuthExpired with
        | Some ask =>
            if (a_status a =? 401)%Z && negb refreshed then
              match ask sent with
              | Ok (Some (x :: t)) => ([Send r; Refresh], State (Some (x :: t)) (cookies st), true, inl None)
              | Ok _ => ([Send r; Refresh], st, true, inr error)
              | Throw e => ([Send r; Refresh], st, true, inr (OtherError e))
              end
            else ([Send r], st, refreshed, inr error)
        | None => ([Send r], st, refreshed, inr error)
        end
  end.

(** The attempt that gets a new token is not counted. *)
Fixpoint attempts (r : request) (maxRetries fuel attempt sent : nat) (refreshed : bool) (st : state)
    (lastError : option failure) : list action * state * (body + failure) :=
  match fuel with
  | O => ([], st, inr (coalesce lastError exhausted))
  | S fuel' =>
      let '(acts, st, refreshed, outcome) := one_attempt r sent refreshed st in
      match outcome with
      | inl (Some v) => (acts, st, inl v)
      | inl None =>
          let '(acts', st', res) := attempts r maxRetries fuel' attempt (S sent) refreshed st lastError in
          (acts ++ acts', st', res)
      | inr e =>
          if final e then (acts, st, inr e)
          else if (attempt =? maxRetries)%nat then (acts, st, inr e)
          else
            let '(acts', st', res) := attempts r maxRetries fuel' (S attempt) (S sent) refreshed st (Some e) in
            (acts ++ Sleep (2 ^ Z.of_nat attempt * 250)%Z :: acts', st', res)
      end
  end.

(** [maxRetries + 1] attempts that count and one that does not. *)
Definition _request (stringify : json -> str) (st : state) (method path : str) (extra : jsmap str str)
    (b : option sent_body) (retry : option nat) : list action * state * (body + failure) :=
  let maxRetries := coalesce retry (retries c) in
  attempts (make_request stringify c st method path extra b) maxRetries (maxRetries + 2) 0 0 false st None.
End client.

End ReShare.

(** ** The socket of the drawing client *)

Module Socket.

(** Sockets are numbered; [opened] are those that were made and not
    disconnected by the client, [handlers] the ones whose events reach it. *)
Record SocketClient := Client {
  socket : option nat;
  connected : bool;
  currentCanvases : list str;
  opened : list nat;
  made : nat;
}.

Definition new_client : SocketClient := Client None false [] [] 0.

Inductive event :=
| Connect
| OnConnect (s : nat)
| OnConnectError (s : nat)
| OnDisconnect (s : nat)
| Disconnect
| JoinCanvas (canvas : str)
| LeaveCanvas (canvas : str).

Definition not_connected : str := js "Socket not connected. Call connect() first.".

(** A message to the server: event, socket and canvas. *)
Definition emitted : Type := list (str * nat * str).

Definition connect (c : SocketClient) : SocketClient :=
  if connected c then c
  else Client (Some (made c)) (connected c) (currentCanvases c) (opened c ++ [made c]) (S (made c)).

Definition set_connected (b : bool) (c : SocketClient) : SocketClient :=
  Client (socket c) b (currentCanvases c) (opened c) (made c).

Definition disconnect (c : SocketClient) : SocketClient :=
  match socket c with
  | Some s => Client None false [] (filterb (fun x => negb (x =? s)%nat) (opened c)) (made c)
  | None => c
  end.

Definition joinCanvas (canvas : str) (c : SocketClient) : SocketClient * result emitted :=
  match socket c with
  | None => (c, Throw not_connected)
  | Some s => (Client (socket c) (connected c) (set_add (currentCanvases c) canvas) (opened c) (made c),
               Ok [(js "join_room", s, canvas)])
  end.

Definition leaveCanvas (canvas : str) (c : SocketClient) : SocketClient * result emitted :=
  match socket c with
  | None => (c, Ok [])
  | Some s => (Client (socket c) (connected c) (filterb (fun x => negb (bool_decide (x = canvas))) (currentCanvases c))
                 (opened c) (made c), Ok [(js "leave_room", s, canvas)])
  end.

(** The handlers are installed on every socket that was made; a socket that
    was disconnected reports nothing but that. *)
Definition handle (c : SocketClient) (e : event) : SocketClient :=
  match e with
  | Connect => connect c
  | OnConnect s => if bool_decide (s ∈ opened c) then set_connected true c else c
  | OnConnectError s => if bool_decide (s ∈ opened c) then set_connected false c else c
  | OnDisconnect s => set_connected false c
  | Disconnect => disconnect c
  | JoinCanvas x => (joinCanvas x c).1
  | LeaveCanvas x => (leaveCanvas x c).1
  end.

(** [new Set(this.currentRooms)]: there is no such property. *)
Definition getJoinedRooms (c : SocketClient) : list str := [].

End Socket.

Arguments sends : simpl never.
Arguments slept : simpl never.

(** ** Attempts of the drawing client *)

Definition backoff (unit : Z) (i : nat) : Z := (2 ^ Z.of_nat i * unit)%Z.

Lemma sends_app l1 l2 : sends (l1 ++ l2) = sends l1 ++ sends l2.
Proof. apply omap_app. Qed.
Lemma slept_app l1 l2 : slept (l1 ++ l2) = slept l1 ++ slept l2.
Proof. apply omap_app. Qed.

Section drawing.
Import Drawing.
Context (server : nat -> request -> result answer) (onTokenExpired : option (nat -> result (option str))).

Abbreviation one := (one_attempt server onTokenExpired).
Abbreviation loop := (attempts server onTokenExpired).

Lemma one_attempt_acts r i t : sends (one r i t).1.1 = [r] /\ slept (one r i t).1.1 = [].
Proof. unfold one_attempt. repeat (case_match; try done). Qed.

(** An attempt ends the call or leads to the next one, at once or after a
    pause. *)
Lemma attempts_step r n left i t e :
  i + left = n ->
  exists acts t', sends acts = [r] /\
  let res := loop r n left i t e in
  (slept acts = [] /\ exists x, res = (acts, t', x)) \/
  exists left' e', left = S left' /\ (slept acts = [] \/ slept acts = [backoff 1000 i]) /\
    res = let '(acts', t'', x) := loop r n left' (S i) t' e' in (acts ++ acts', t'', x).
Proof.
  intros Hn. pose proof (one_attempt_acts r i t) as [Hs Hz].
  destruct left as [|left]; cbn [attempts]; destruct (one r i t) as [[acts t'] out]; cbn [fst] in Hs, Hz.
  - exists acts, t'. split; [done|]. left. split; [done|]. unfold caught. rewrite (proj2 (Nat.eqb_eq i n)) by lia.
    destruct out as [[v|]|f]; [by eexists..|]. destruct (final f); by eexists.
  - unfold caught. rewrite (proj2 (Nat.eqb_neq i n)) by lia.
    destruct out as [[v|]|f]; [| |destruct (final f)].
    + exists acts, t'. split; [done|]. left. eauto.
    + exists acts, t'. split; [done|]. right. exists left, e. split; [done|]. split; [by left|].
      by destruct (loop _ _ _ _ _ _) as [[??]?].
    + exists acts, t'. split; [done|]. left. eauto.
    + exists (acts ++ [Sleep (backoff 1000 i)]), t'. rewrite sends_app, slept_app, Hs, Hz. split; [done|]. right.
      exists left, (Some f). split; [done|]. split; [by right|].
      unfold backoff. by destruct (loop _ _ _ _ _ _) as [[??]?].
Qed.

(** Every attempt sends the same request, and the pauses double. *)
Lemma attempts_acts r n left i t e :
  i + left = n ->
  let acts := (loop r n left i t e).1.1 in
  (exists k, 1 <= k <= S left /\ sends acts = replicate k r) /\
  sublist (slept acts) (backoff 1000 <$> seq i left).
Proof.
  revert i t e. induction left as [|left IH]; intros i t e Hn; cbn zeta.
  all: destruct (attempts_step r n _ i t e Hn) as (acts & t' & Hs & [[Hz [x ->]]|(left' & e' & Hl & Hz & ->)]).
  - cbn [fst]. rewrite Hz. split; [exists 1; by rewrite Hs|constructor].
  - done.
  - cbn [fst]. rewrite Hz. split; [exists 1; rewrite Hs; split; [lia|done]|apply sublist_nil_l].
  - injection Hl as <-. specialize (IH (S i) t' e' ltac:(lia)). cbn zeta in IH.
    destruct (loop _ _ _ _ _ _) as [[acts' t''] x]. cbn [fst] in *. rewrite sends_app, slept_app, Hs.
    destruct IH as [(k & Hk & ->) Hsub]. split; [exists (S k); split; [lia|done]|].
    cbn. destruct Hz as [-> | ->]; cbn; by constructor.
Qed.

(** A call of the drawing client sends one and the same request, with the
    token it had at the beginning, at least once and at most once more than
    its retries; between two attempts it waits not at all or twice as long as
    the time before, from one second on. *)
Theorem request_attempts c token method path extra body :
  let acts := (_request server onTokenExpired c token method path extra body).1.1 in
  (exists k, 1 <= k <= S (retries c) /\
     sends acts = replicate k (make_request c token method path extra body)) /\
  sublist (slept acts) (backoff 1000 <$> seq 0 (retries c)).
Proof. by apply attempts_acts. Qed.

(** An answer after which the request is sent again. *)
Definition transient (a : result answer) : Prop :=
  match a with
  | Throw _ => True
  | Ok a => a_ok a = false /\ a_status a ∉ [400; 401; 403; 404]%Z
  end.

Lemma attempts_survive r n left i t e k a v :
  i + left = n -> k <= left -> (forall j, i <= j < i + k -> transient (server j r)) ->
  server (i + k) r = Ok a -> a_ok a = true -> is_json a = true -> a_json a = Ok v ->
  exists acts, loop r n left i t e = (acts, t, inl (Some v)) /\ sends acts = replicate (S k) r.
Proof.
  intros Hn Hk Htr Ha Hok Hj Hv. revert i t e left Hn Hk Htr Ha. induction k as [|k IH]; intros i t e left Hn Hk Htr Ha.
  - rewrite Nat.add_0_r in Ha. exists [Send r]. split; [|done].
    destruct left; cbn [attempts]; unfold one_attempt; by rewrite Ha, Hok, Hj, Hv.
  - destruct left as [|left]; [lia|].
    destruct (IH (S i) t (match server i r with
        | Throw m => Some (OtherError m) | Ok b => Some (ApiError (a_status b) (error_body b) None) end) left)
      as (acts & E & Hs); [lia..|intros j Hj'; apply Htr; lia|by replace (S i + k) with (i + S k) by lia|].
    exists (([Send r] ++ [Sleep (backoff 1000 i)]) ++ acts). rewrite !sends_app, Hs. split; [|done].
    pose proof (Htr i ltac:(lia)) as Hi. cbn [attempts]. unfold one_attempt, caught.
    rewrite (proj2 (Nat.eqb_neq i n)) by lia.
    destruct (server i r) as [b|m] eqn:Eb; cbn in Hi.
    + destruct Hi as [-> Hst]. rewrite (proj2 (Z.eqb_neq (a_status b) 401)) by set_solver.
      cbn zeta. assert (final (ApiError (a_status b) (error_body b) None) = false) as Hf by
        (cbn; by rewrite bool_decide_eq_false_2).
      destruct onTokenExpired; rewrite Hf, E; done.
    + cbn. by rewrite E.
Qed.

(** C24: failures that pass are survived.  When at most [retries] requests of
    a call fail on the way or are answered with an error other than 400, 401,
    403 and 404, and the next one is answered with JSON, the call returns that
    value and leaves the token alone. *)
Theorem transient_failures_survived c token method path extra body k a v
  (Hk : k <= retries c)
  (Htr : forall j, j < k -> transient (server j (make_request c token method path extra body)))
  (Ha : server k (make_request c token method path extra body) = Ok a)
  (Hok : a_ok a = true) (Hj : is_json a = true) (Hv : a_json a = Ok v) :
  exists acts, _request server onTokenExpired c token method path extra body = (acts, token, inl (Some v)) /\
    length (sends acts) = S k.
Proof.
  unfold _request. edestruct (attempts_survive (make_request c token method path extra body) (retries c) (retries c) 0
    token None k a v) as (acts & -> & Hs); [done|done| |done..|].
  - intros j [_ Hj']. by apply Htr.
  - exists acts. by rewrite Hs, length_replicate.
Qed.
End drawing.

(** ** New tokens *)

(** The request carries the token, and the server refuses it. *)
Definition bears (r : request) (t : str) : Prop := map_get (headers r) (js "Authorization") = Some (js "Bearer " ++ t).
Definition refuses (server : nat -> request -> result answer) (t : str) : Prop :=
  forall i r, bears r t -> exists a, server i r = Ok a /\ a_status a = 401%Z.

Lemma drawing_refused server r old new n left i t :
  refuses server old -> bears r old -> new <> [] ->
  (Drawing.attempts server (Some (fun _ => Ok (Some new))) r n left i t None).1.2 = Some new /\
  (Drawing.attempts server (Some (fun _ => Ok (Some new))) r n left i t None).2 = inr exhausted.
Proof.
  intros Hs Hr Hn. destruct new as [|c new]; [done|]. clear Hn.
  revert i t. induction left as [|left IH]; intros i t; cbn [Drawing.attempts]; unfold Drawing.one_attempt.
  all: destruct (Hs i r Hr) as (a & -> & E); unfold a_ok; rewrite E; cbn.
  - done.
  - specialize (IH (S i) (Some (c :: new))). by destruct (Drawing.attempts _ _ _ _ _ _ _ _) as [[??]?].
Qed.

Lemma reshare_bears stringify c cs old method path b :
  old <> [] -> bears (ReShare.make_request stringify c (ReShare.State (Some old) cs) method path [] b) old.
Proof.
  destruct old as [|x old]; [done|]. intros _. unfold bears, ReShare.make_request.
  destruct (ReShare.prepare stringify [] b) as [h body] eqn:E.
  assert (map_get h (js "Authorization") = None) as Hh by (destruct b as [[]|]; injection E as <- _; done).
  cbn zeta. rewrite Hh. cbn [ReShare.token ReShare.cookies]. destruct (ReShare._buildCookieHeader c cs).
  - apply map_get_set_eq.
  - cbn [headers]. rewrite map_get_set_ne by done. apply map_get_set_eq.
Qed.

(** A new token is of no use to the call that asked for it.  Both clients
    put the old token into the request before the first attempt, so a server
    that refuses the old token refuses every attempt of the call, although the
    application hands out a new one each time it is asked; the drawing client
    then reports that its retries were used up, the file-sharing client that
    it is not authorised, and only the next call carries the new token. *)
Theorem refreshed_token_unused server stringify old new method path body b c c' raw cs
  (Hold : old <> []) (Hnew : new <> []) (Hs : refuses server old) :
  let fresh := Some (fun _ : nat => Ok (Some new)) in
  let '(acts, token, res) := Drawing._request server fresh c (Some old) method path [] body in
  let '(acts', st, res') :=
    ReShare._request server fresh c' raw stringify (ReShare.State (Some old) cs) method path [] b None in
  res = inr exhausted /\ token = Some new /\ Forall (fun r => bears r old) (sends acts) /\
  (exists v, res' = inr (ApiError 401 v None)) /\ ReShare.token st = Some new /\
  Forall (fun r => bears r old) (sends acts').
Proof.
  cbn zeta.
  assert (bears (Drawing.make_request c (Some old) method path [] body) old) as Hd.
  { destruct old as [|x old]; [done|]. apply map_get_set_eq. }
  pose proof (attempts_acts server (Some (fun _ => Ok (Some new))) (Drawing.make_request c (Some old) method path [] body)
    (Drawing.retries c) (Drawing.retries c) 0 (Some old) None eq_refl) as [(k & _ & Hk) _].
  pose proof (drawing_refused server _ old new (Drawing.retries c) (Drawing.retries c) 0 (Some old) Hs Hd Hnew) as [H1 H2].
  unfold Drawing._request in *. destruct (Drawing.attempts _ _ _ _ _ _ _ _) as [[acts token] res]. cbn in H1, H2, Hk.
  pose proof (reshare_bears stringify c' cs old method path b Hold) as Hr.
  unfold ReShare._request. set (r := ReShare.make_request _ _ _ _ _ _ _) in *.
  rewrite Nat.add_comm. cbn [Nat.add ReShare.attempts]. unfold ReShare.one_attempt at 1.
  destruct (Hs 0 r Hr) as (a & -> & E). unfold a_ok at 1. rewrite E. cbn.
  destruct new as [|x new]; [done|]. cbn. unfold ReShare.one_attempt at 1.
  destruct (Hs 1 r Hr) as (a' & -> & E'). unfold a_ok. rewrite E'. cbn.
  split_and!; [done|done| |by eexists|done|].
  - rewrite Hk. by apply Forall_replicate.
  - unfold sends. cbn. by repeat constructor.
Qed.

(** ** Attempts of the file-sharing client *)

Section reshare.
Import ReShare.
Context (server : nat -> request -> result answer) (onAuthExpired : option (nat -> result (option str))).
Context (c : ReShare.Config) (raw : bool).

Abbreviation one := (ReShare.one_attempt server onAuthExpired c raw).
Abbreviation loop := (ReShare.attempts server onAuthExpired c raw).

Lemma reshare_one_acts r i f st :
  sends (one r i f st).1.1.1 = [r] /\ slept (one r i f st).1.1.1 = [] /\
  ((one r i f st).2 = inl None -> f = false /\ (one r i f st).1.2 = true) /\ (f = true -> (one r i f st).1.2 = true).
Proof.
  unfold ReShare.one_attempt. destruct f; repeat (case_match; try done).
  by rewrite andb_false_r in *.
Qed.

(** The attempts that are left. *)
Definition needed (n attempt : nat) (refreshed : bool) : nat := n - attempt + (if refreshed then 1 else 2).

(** The fuel is never used up: more of it changes nothing. *)
Lemma reshare_fuel r n fuel more attempt i f st e :
  attempt <= n -> needed n attempt f <= fuel ->
  loop r n (fuel + more) attempt i f st e = loop r n fuel attempt i f st e.
Proof.
  revert attempt i f st e. induction fuel as [|fuel IH]; intros attempt i f st e Ha Hf.
  { unfold needed in Hf. destruct f; lia. }
  cbn [Nat.add ReShare.attempts]. pose proof (reshare_one_acts r i f st) as (_ & _ & Hnone & Hkeep).
  destruct (one r i f st) as [[[acts st'] f'] out]. cbn in Hnone, Hkeep.
  destruct out as [[v|]|e']; [done| |].
  - destruct (Hnone eq_refl) as [-> ->]. by rewrite IH by (unfold needed in *; lia).
  - destruct (final e'); [done|]. destruct (Nat.eqb_spec attempt n); [done|].
    assert (needed n (S attempt) f' <= fuel); [|by rewrite IH by lia].
    unfold needed in *. destruct f, f'; try lia; by specialize (Hkeep eq_refl).
Qed.

Lemma reshare_acts r n fuel attempt i f st e :
  attempt <= n -> needed n attempt f <= fuel ->
  let acts := (loop r n fuel attempt i f st e).1.1 in
  (exists k, 1 <= k <= needed n attempt f /\ sends acts = replicate k r) /\
  sublist (slept acts) (backoff 250 <$> seq attempt (n - attempt)).
Proof.
  revert attempt i f st e. induction fuel as [|fuel IH]; intros attempt i f st e Ha Hf; cbn zeta.
  { unfold needed in Hf. destruct f; lia. }
  cbn [ReShare.attempts]. pose proof (reshare_one_acts r i f st) as (Hs & Hz & Hnone & Hkeep).
  destruct (one r i f st) as [[[acts st'] f'] out]. cbn [fst snd] in Hs, Hz, Hnone, Hkeep.
  assert (forall x : body + failure, let acts := (acts, st', x).1.1 in
    (exists k, 1 <= k <= needed n attempt f /\ sends acts = replicate k r) /\
    sublist (slept acts) (backoff 250 <$> seq attempt (n - attempt))) as Hend.
  { intros x. cbn [fst]. rewrite Hs, Hz. split; [|apply sublist_nil_l]. exists 1. unfold needed. split; [|done].
    destruct f; lia. }
  destruct out as [[v|]|e']; [apply Hend| |].
  - destruct (Hnone eq_refl) as [-> ->]. specialize (IH attempt (S i) true st' e Ha).
    destruct (loop _ _ _ _ _ _ _ _) as [[acts' st''] x]. cbn [fst] in *. rewrite sends_app, slept_app, Hs, Hz.
    destruct IH as [(k & Hk & ->) Hsub]; [unfold needed in *; lia|].
    split; [exists (S k); split; [unfold needed in *; lia|done]|done].
  - destruct (final e'); [apply Hend|]. destruct (Nat.eqb_spec attempt n); [apply Hend|].
    assert (needed n (S attempt) f' <= fuel /\ needed n (S attempt) f' < needed n attempt f) as [Hf1 Hf2].
    { unfold needed in *. destruct f, f'; try lia; by specialize (Hkeep eq_refl). }
    specialize (IH (S attempt) (S i) f' st' (Some e') ltac:(lia) Hf1).
    destruct (loop _ _ _ _ _ _ _ _) as [[acts' st''] x]. cbn [fst] in *.
    change (Sleep ?z :: acts') with ([Sleep z] ++ acts'). rewrite !sends_app, !slept_app, Hs, Hz.
    destruct IH as [(k & Hk & ->) Hsub]. split; [exists (S k); split; [lia|done]|].
    replace (n - attempt) with (S (n - S attempt)) by lia. cbn. by constructor.
Qed.

(** A call of the file-sharing client sends one request at most twice more
    than its retries. *)
Lemma reshare_attempts stringify st method path extra b retry :
  let n := coalesce retry (retries c) in
  let acts := (ReShare._request server onAuthExpired c raw stringify st method path extra b retry).1.1 in
  (exists k, 1 <= k <= n + 2 /\ sends acts = replicate k (ReShare.make_request stringify c st method path extra b)) /\
  sublist (slept acts) (backoff 250 <$> seq 0 n).
Proof.
  cbn zeta. unfold ReShare._request. set (n := coalesce retry _).
  destruct (reshare_acts (ReShare.make_request stringify c st method path extra b) n (n + 2) 0 0 false st None)
    as [(k & Hk & E) Hs]; [lia|unfold needed; lia|].
  rewrite Nat.sub_0_r in Hs. split; [exists k; split; [unfold needed in Hk; lia|done]|done].
Qed.
End reshare.

(** ** Cookies *)

Lemma map_get_elem {K V} `{EqDecision K} (m : jsmap K V) k v : map_get m k = Some v -> (k, v) ∈ m.
Proof.
  induction m as [|[k' v'] m IH]; cbn; [done|]. case_decide; [intros [= ->]; subst; left|right; by apply IH].
Qed.

(** A cookie that a response sets is kept under its name, whatever attributes
    follow it. *)
Lemma cookie_of_pair name value attrs :
  name <> [] -> trim name = name -> trim value = value ->
  ";"%char ∉ name ++ value -> "="%char ∉ name ->
  ReShare.cookie_of (name ++ js "=" ++ value ++ js ";" ++ attrs) = Some (name, value).
Proof.
  intros Hne Hn Hv Hsemi Heq. unfold ReShare.cookie_of.
  assert (split (name ++ js "=" ++ value ++ js ";" ++ attrs) (js ";") =
    (name ++ "="%char :: value) :: split attrs (js ";")) as ->.
  { change (js ";") with [";"%char]. rewrite <- (split_cons ";"%char (name ++ "="%char :: value) attrs) by set_solver.
    f_equal. cbn. by rewrite <- app_assoc. }
  cbn [head coalesce]. change (js "=") with ["="%char]. rewrite indexOf_char by done.
  destruct name as [|x name]; [done|]. cbn [length]. cbn zeta.
  change (S (length name)) with (length (x :: name)). rewrite take_app_length, Hn.
  replace (S (length (x :: name))) with (length ((x :: name) ++ ["="%char])) by (rewrite length_app; cbn; lia).
  change ("="%char :: value) with (["="%char] ++ value). by rewrite app_assoc, drop_app_length, Hv.
Qed.

(** A cookie that a response sets is sent back: after the response the
    jar holds it, and the next request of the client names it with its
    value, other cookies and the attributes of this one notwithstanding. *)
Theorem cookie_sent_back stringify c store name value attrs others method path b
  (Hjar : ReShare.cookieJarEnabled c = true) (Hne : name <> []) (Hn : trim name = name) (Hv : trim value = value)
  (Hsemi : ";"%char ∉ name ++ value) (Heq : "="%char ∉ name)
  (Hothers : forall kv, kv ∈ omap ReShare.cookie_of others -> kv.1 <> name) :
  let cookies := ReShare._storeCookies c store ((name ++ js "=" ++ value ++ js ";" ++ attrs) :: others) in
  map_get cookies name = Some value /\
  exists h, map_get (headers (ReShare.make_request stringify c (ReShare.State None cookies) method path [] b)) (js "Cookie")
      = Some h /\ includes h (name ++ js "=" ++ value) = true.
Proof.
  cbn zeta. unfold ReShare._storeCookies. rewrite Hjar. cbn [omap list_omap].
  rewrite (cookie_of_pair name value attrs) by done. cbn [foldl fst snd].
  set (m0 := map_set store name value).
  assert (forall l m, (forall kv, kv ∈ l -> kv.1 <> name) -> map_get m name = Some value ->
    map_get (foldl (fun m kv => map_set m kv.1 kv.2) m l) name = Some value) as Hkeep.
  { induction l as [|kv l IH]; intros m Hl Hm; [done|]. cbn. apply IH; [set_solver|].
    rewrite map_get_set_ne; [done|]. apply Hl. set_solver. }
  specialize (Hkeep (omap ReShare.cookie_of others) m0 Hothers ltac:(apply map_get_set_eq)).
  set (jar := foldl _ m0 _) in *. split; [done|].
  unfold ReShare.make_request. destruct (ReShare.prepare stringify [] b) as [h body] eqn:E.
  assert (map_get h (js "Cookie") = None /\ map_get h (js "Authorization") = None) as [Hc Ha]
    by (destruct b as [[]|]; injection E as <- _; done).
  cbn zeta. rewrite Ha. cbn [ReShare.token ReShare.cookies auth_headers].
  assert (includes (ReShare._buildCookieHeader c jar) (name ++ js "=" ++ value) = true) as Hin.
  { unfold ReShare._buildCookieHeader. rewrite Hjar. apply map_get_elem in Hkeep.
    apply join_includes. apply list_elem_of_fmap. by exists (name, value). }
  destruct (ReShare._buildCookieHeader c jar) as [|x hd] eqn:Eh.
  { apply includes_spec in Hin as (u & v & Huv). destruct u, name; done. }
  eexists. cbn [headers]. rewrite map_get_set_eq. split; [done|]. by rewrite Hc.
Qed.

(** ** The socket *)

(** Two calls of [connect] before the first connection make two sockets, and
    [disconnect] closes the second.  When the first one connects after that,
    the client counts as connected without a socket: it cannot join a canvas,
    and [connect] does nothing. *)
Example stale_socket_blocks :
  let c := foldl Socket.handle Socket.new_client
    [Socket.Connect; Socket.Connect; Socket.Disconnect; Socket.OnConnect 0] in
  Socket.connected c = true /\ Socket.socket c = None /\ Socket.opened c = [0] /\
  Socket.connect c = c /\ (Socket.joinCanvas (js "x") c).2 = Throw Socket.not_connected.
Proof. by vm_compute. Qed.

(** ** Witnesses *)

Definition toy_answer (status : Z) : answer := Answer status (js "x") (Some (js "application/json")) [] (Ok JNull).
(** Two requests fail, then the server answers. *)
Definition toy_server (i : nat) (r : request) : result answer :=
  if (i <? 1)%nat then Throw (js "network") else if (i <? 2)%nat then Ok (toy_answer 503) else Ok (toy_answer 200).
Definition toy_config : Drawing.Config := Drawing.new_config (js "https://x/") None None.

Lemma transient_failures_survived_witness :
  exists acts, Drawing._request toy_server None toy_config None (js "GET") (js "/a") [] None = (acts, None, inl (Some JNull)) /\
    length (sends acts) = 3.
Proof.
  refine (transient_failures_survived toy_server None toy_config None (js "GET") (js "/a") [] None 2 (toy_answer 200) JNull
            _ _ _ _ _ _); try reflexivity.
  - cbn. lia.
  - intros [|[|j]] Hj; [exact I| |lia]. split; [reflexivity|]. apply (bool_decide_unpack _). vm_compute. exact I.
Defined.

Lemma refreshed_token_unused_witness :
  let c := ReShare.new_config (js "https://x") None None true in
  let fresh := Some (fun _ : nat => Ok (Some (js "new"))) in
  let server := fun (_ : nat) (_ : request) => Ok (toy_answer 401) in
  let '(acts, token, res) := Drawing._request server fresh toy_config (Some (js "old")) (js "GET") (js "/a") [] None in
  let '(acts', st, res') :=
    ReShare._request server fresh c false (fun _ => []) (ReShare.State (Some (js "old")) []) (js "GET") (js "/a") [] None None in
  res = inr exhausted /\ token = Some (js "new") /\ Forall (fun r => bears r (js "old")) (sends acts) /\
  (exists v, res' = inr (ApiError 401 v None)) /\ ReShare.token st = Some (js "new") /\
  Forall (fun r => bears r (js "old")) (sends acts').
Proof.
  refine (refreshed_token_unused (fun _ _ => Ok (toy_answer 401)) (fun _ => []) (js "old") (js "new") (js "GET") (js "/a")
            None None toy_config (ReShare.new_config (js "https://x") None None true) false [] _ _ _).
  - discriminate.
  - discriminate.
  - intros i r _. by eexists.
Defined.

Lemma cookie_sent_back_witness :
  let c := ReShare.new_config (js "https://x") None None true in
  let cookies := ReShare._storeCookies c [] [js "session" ++ js "=" ++ js "abc" ++ js ";" ++ js " Path=/"; js "theme=dark"] in
  map_get cookies (js "session") = Some (js "abc") /\
  exists h, map_get (headers (ReShare.make_request (fun _ => []) c (ReShare.State None cookies) (js "GET") (js "/a") [] None))
      (js "Cookie") = Some h /\ includes h (js "session" ++ js "=" ++ js "abc") = true.
Proof.
  refine (cookie_sent_back (fun _ => []) (ReShare.new_config (js "https://x") None None true) [] (js "session") (js "abc")
            (js " Path=/") [js "theme=dark"] (js "GET") (js "/a") None _ _ _ _ _ _ _); try reflexivity.
  - discriminate.
  - apply (bool_decide_unpack _). vm_compute. exact I.
  - apply (bool_decide_unpack _). vm_compute. exact I.
  - intros kv Hkv. vm_compute in Hkv. apply list_elem_of_singleton in Hkv as ->. discriminate.
Defined.
