(* ===== verification/ContractCli.v ===== *)
(** * The contract operations of the smart-contract GraphQL server

    src/ecosystem/smart-contract/smart-contract-graphql: the mutations of
    schema.js call the operations of cli-functions.js.  Each runs the
    command-line tool [rescontract], with the configuration or the source in a
    temporary file when the caller sent it as data, and reads the tool's
    output.

    The tool is a parameter: from its arguments and the files to the files it
    leaves and how it ended; so are [path.join], [path.basename], [JSON.parse]
    and [String] on objects.  The files are a finite map from paths to
    contents, and writing a temporary file succeeds. *)

From S2P Require Import Prelude JsString JsArray JsNum Json.

Create HintDb keepsdb.

Abbreviation files := (gmap str str).

(** How the tool ended: it could not be started, or it closed with a code
    ([None] when a signal ended it) and what it wrote. *)
Inductive process :=
| SpawnError (message : str)
| Closed (code : option Z) (stdout stderr : str).

(** What is thrown: a text, or an error object. *)
Inductive thrown := Text (s : str) | ErrorObject (name message : str).

(** [new Error(e).message], that is [String(e)] *)
Definition String_thrown (e : thrown) : str :=
  match e with
  | Text s => s
  | ErrorObject n [] => n
  | ErrorObject n m => n ++ js ": " ++ m
  end.

Definition new_Error (m : str) : thrown := ErrorObject (js "Error") m.
Definition TypeError (m : str) : thrown := ErrorObject (js "TypeError") m.

(** ** Operations on files *)

(** What an operation does to the files, and its result. *)
Definition F (A : Type) : Type := files -> files * (A + thrown).
#[export] Instance F_ret : MRet F := fun A a fs => (fs, inl a).
#[export] Instance F_bind : MBind F := fun A B k c fs =>
  match c fs with (fs', inl a) => k a fs' | (fs', inr e) => (fs', inr e) end.

#[export] Instance F_fmap : FMap F := fun A B f c => a ← c; mret (f a).

Definition throw {A} (e : thrown) : F A := fun fs => (fs, inr e).
Definition lift {A} (r : A + thrown) : F A := fun fs => (fs, r).
Definition writeFileSync (path content : str) : F unit := fun fs => (<[path := content]> fs, inl tt).
Definition unlinkSync (path : str) : F unit := fun fs =>
  match fs !! path with
  | Some _ => (delete path fs, inl tt)
  | None => (fs, inr (new_Error (js "ENOENT: no such file or directory, unlink '" ++ path ++ js "'")))
  end.

(** [if (fs.existsSync(path)) fs.unlinkSync(path)] *)
Definition unlink_if_exists (path : str) : F unit := fun fs =>
  match fs !! path with Some _ => unlinkSync path fs | None => (fs, inl tt) end.

(** [try { c } finally { f }], and [try { c } catch (e) { f; throw e }] *)
Definition finally {A} (c : F A) (f : F unit) : F A := fun fs =>
  let '(fs1, r) := c fs in
  match f fs1 with (fs2, inl _) => (fs2, r) | (fs2, inr e) => (fs2, inr e) end.
Definition on_error {A} (c : F A) (f : F unit) : F A := fun fs =>
  match c fs with
  | (fs1, inl a) => (fs1, inl a)
  | (fs1, inr e) => match f fs1 with (fs2, inl _) => (fs2, inr e) | (fs2, inr e') => (fs2, inr e') end
  end.

(** ** Reading the output *)

Definition quote : ascii := "034"%char.
Definition is_hex (c : ascii) : bool := is_digit c || between 65 70 c || between 97 102 c.

(** [(0x[0-9a-fA-F]+)] between quotation marks *)
Definition quoted_hex (s : str) : option str :=
  if is_prefix (quote :: js "0x") s then
    let s1 := drop 3 s in
    let n := run_length is_hex s1 in
    if (1 <=? n)%nat && is_prefix [quote] (drop n s1) then Some (js "0x" ++ take n s1) else None
  else None.

Definition skip_spaces (s : str) : str := drop (run_length is_space s) s.
Definition skip_quote (s : str) : str := if is_prefix [quote] s then drop 1 s else s.

(** The word [address], quoted or not, a colon and a quoted hexadecimal. *)
Definition address_at (s : str) : option str :=
  let s := skip_quote s in
  if is_prefix (js "address") s then
    let s := skip_spaces (skip_quote (drop 7 s)) in
    if is_prefix (js ":") s then quoted_hex (skip_spaces (drop 1 s)) else None
  else None.

(** [label: ] and a quoted hexadecimal. *)
Definition labelled_hex (label : string) (s : str) : option str :=
  let l := js label ++ js ": " in if is_prefix l s then quoted_hex (drop (length l) s) else None.

(** [contract_name: ] and a quoted text. *)
Definition name_at (s : str) : option str :=
  let l := js "contract_name: " ++ [quote] in
  if is_prefix l s then
    let s1 := drop (length l) s in
    let n := run_length (fun c => negb (bool_decide (c = quote))) s1 in
    if (1 <=? n)%nat && is_prefix [quote] (drop n s1) then Some (take n s1) else None
  else None.

(** [/Compiled successfully to (\/[^\s]+)/]: the whole match *)
Definition compiled_at (s : str) : option str :=
  let l := js "Compiled successfully to /" in
  if is_prefix l s then
    let n := run_length (fun c => negb (is_space c)) (drop (length l) s) in
    if (1 <=? n)%nat then Some (take (length l + n) s) else None
  else None.

(** [result.match(re)[i]] *)
Definition match_or_throw (i : string) (at_ : str -> option str) (s : str) : F str :=
  match first_match at_ s with
  | Some g => mret g
  | None => throw (TypeError (js "Cannot read properties of null (reading '" ++ js i ++ js "')"))
  end.

(** ** The operations *)

Section cli.
Context (rescontract : list str -> files -> files * process).
Context (JSON_parse : str -> result json) (String_of : json -> str).
Context (path_join : str -> str -> str) (path_basename : str -> str).
(** [os.tmpdir()] and the directory of compiled contracts. *)
Context (tmpdir compiledContractsDir : str).

Definition handleExecFile (args : list str) : F str := fun fs =>
  let '(fs', p) := rescontract args fs in
  (fs', match p with
        | SpawnError m => inr (Text (js "Error spawning child process: " ++ m))
        | Closed (Some 0%Z) out err => inl (trim (out ++ err))
        | Closed code out err =>
            inr (Text (js "Process exited with code "
                       ++ match code with Some c => str_of_Z c | None => js "null" end ++ nl ++ err))
        end).

(** [type === 'data'] *)
Definition is_data (t : option str) : bool := bool_decide (t = Some (js "data")).

(** A temporary file, named with a fresh identifier. *)
Definition temp_config (uuid : str) : str := path_join tmpdir (js "config-" ++ uuid ++ js ".tmp").
Definition temp_source (uuid : str) : str := path_join tmpdir (js "contract-" ++ uuid ++ js ".sol").

(** The configuration sent as data is written to a temporary file. *)
Definition config_path (t : option str) (uuid config : str) : F str :=
  if is_data t then _ ← writeFileSync (temp_config uuid) config; mret (temp_config uuid)
  else mret config.

Definition if_data (t : option str) (c : F unit) : F unit := if is_data t then c else mret tt.

Definition createAccount (uuid config : str) (t : option str) : F str :=
  configPath ← config_path t uuid config;
  on_error
    (output ← handleExecFile [js "create"; js "--config"; configPath];
     _ ← if_data t (unlinkSync configPath);
     match first_match address_at output with
     | Some address => mret address
     | None => throw (new_Error (js "Failed to parse address from output: " ++ output))
     end)
    (if_data t (unlink_if_exists configPath)).

Definition added : str := js "Address added successfully".

Definition addAddress (uuid config address : str) (t : option str) : F str :=
  configPath ← config_path t uuid config;
  finally
    (output ← handleExecFile [js "add_address"; js "-c"; configPath; js "-e"; address];
     if includes output added then mret added
     else throw (new_Error (js "Failed to add address. Unexpected output: " ++ output)))
    (if_data t (unlink_if_exists configPath)).

Definition source_path (t : option str) (uuid source : str) : F str :=
  if is_data t then _ ← writeFileSync (temp_source uuid) source; mret (temp_source uuid)
  else mret source.

Definition output_path (t : option str) (uuid : str) : str :=
  path_join compiledContractsDir
    (if is_data t then js "contract-" ++ uuid ++ js ".json" else js "MyContract.json").

Definition compileContract (uuid source : str) (t : option str) : F str :=
  let outputPath := output_path t uuid in
  sourcePath ← source_path t uuid source;
  finally
    (output ← handleExecFile [js "compile"; js "--sol"; sourcePath; js "--output"; outputPath];
     if is_data t then mret (path_basename outputPath) else match_or_throw "0" compiled_at output)
    (if_data t (unlink_if_exists sourcePath)).

(** [args.split(',').map((arg) => arg.trim()).join(',')] *)
Definition comma : str := js ",".
Definition tidy_args (args : str) : str := join (trim <$> split args comma) comma.

Record deployed := Deployed { ownerAddress : str; contractAddress : str; contractName : str }.

Definition deployContract (uuid config contract name args owner : str) (t : option str) : F deployed :=
  configPath ← config_path t uuid config;
  let contractPath := if is_data t then path_join compiledContractsDir contract else contract in
  finally
    (output ← handleExecFile [js "deploy"; js "--config"; configPath; js "--contract"; contractPath; js "--name"; name;
                              js "--arguments"; tidy_args args; js "--owner"; owner];
     ownerAddress ← match_or_throw "1" (labelled_hex "owner_address") output;
     contractAddress ← match_or_throw "1" (labelled_hex "contract_address") output;
     contractName ← match_or_throw "1" name_at output;
     mret (Deployed ownerAddress contractAddress contractName))
    (if_data t (unlink_if_exists configPath)).

(** ** The result of an execution *)

Definition String_json (v : json) : str := match v with JStr s => s | _ => String_of v end.

(** [s.split('\n')[0].trim()] *)
Definition first_line (s : str) : str := trim (coalesce (head (split s nl)) []).

(** [if (o.result != null) ...] *)
Definition value_result (o : json) : option (str + thrown) :=
  match opt_prop (Some o) (js "result") with
  | None | Some JNull => None
  | Some v =>
      Some (inl (match first_line (String_json v) with [] => trim (String_json v) | l => l end))
  end.

(** What a line of the output settles: an error, a value, or nothing. *)
Definition line_result (line : str) : option (str + thrown) :=
  let line := trim line in
  if startsWith line (js "{") && includes line (quote :: js "result" ++ [quote]) then
    match JSON_parse line with
    | Throw _ => None
    | Ok o =>
        match opt_prop (Some o) (js "error") with
        | Some e as error =>
            if truthy error then Some (inr (new_Error (String_json e))) else value_result o
        | None => value_result o
        end
    end
  else None.

(** The lines, from the last. *)
Fixpoint scan (lines : list str) : option (str + thrown) :=
  match lines with
  | [] => None
  | line :: rest => match line_result line with Some r => Some r | None => scan rest end
  end.

Definition result_mark : str := js "execute result:".

(** The text after the last mark, else the whole output. *)
Definition marked_result (output : str) : str :=
  let idx := lastIndexOf output result_mark (Z.of_nat (length output)) in
  let after := trim (drop (Z.to_nat idx + length result_mark) output) in
  if (idx =? -1)%Z then trim output
  else match first_line after with [] => trim output | l => l end.

Definition execution_result (output : str) : str + thrown :=
  if includes output (js "execute contract fail") then inr (new_Error output)
  else match scan (rev (split output nl)) with
       | Some r => r
       | None => inl (marked_result output)
       end.

Definition executeContract (uuid config sender contract functionName args : str) (t : option str) : F str :=
  configPath ← config_path t uuid config;
  finally
    (output ← handleExecFile [js "execute"; js "--config"; configPath; js "--sender"; sender; js "--contract"; contract;
                              js "--function-name"; functionName; js "--arguments"; tidy_args args];
     lift (execution_result output))
    (if_data t (unlink_if_exists configPath)).

(** ** The mutations *)

Inductive mutation :=
| CreateAccount (config : str)
| AddAddress (config address : str)
| CompileContract (source : str)
| DeployContract (config contract name arguments owner : str)
| ExecuteContract (config sender contract functionName arguments : str).

Inductive answer := Str (s : str) | DeployContractOutput (d : deployed).

(** [try { return await c } catch (error) { throw new Error(error) }] *)
Definition rethrow {A} (c : F A) : F A := fun fs =>
  match c fs with
  | (fs', inl a) => (fs', inl a)
  | (fs', inr e) => (fs', inr (new_Error (String_thrown e)))
  end.

Definition resolve (uuid : str) (m : mutation) (t : option str) : F answer :=
  rethrow
    match m with
    | CreateAccount config => Str <$> createAccount uuid config t
    | AddAddress config address => Str <$> addAddress uuid config address t
    | CompileContract source => Str <$> compileContract uuid source t
    | DeployContract config contract name args owner =>
        DeployContractOutput <$> deployContract uuid config contract name args owner t
    | ExecuteContract config sender contract functionName args =>
        Str <$> executeContract uuid config sender contract functionName args t
    end.

(** ** Temporary files *)

(** The temporary file of a mutation, and what it holds. *)
Definition temp_of (uuid : str) (m : mutation) : str :=
  match m with CompileContract _ => temp_source uuid | _ => temp_config uuid end.
Definition content_of (m : mutation) : str :=
  match m with
  | CompileContract s => s
  | CreateAccount c | AddAddress c _ | DeployContract c _ _ _ _ | ExecuteContract c _ _ _ _ => c
  end.

(** An operation that leaves the files alone. *)
Definition keeps {A} (c : F A) : Prop := forall fs, (c fs).1 = fs.

Lemma keeps_ret {A} (a : A) : keeps (mret a).
Proof. done. Qed.

Lemma keeps_throw {A} e : keeps (throw (A:=A) e).
Proof. done. Qed.

Lemma keeps_lift {A} (r : A + thrown) : keeps (lift r).
Proof. done. Qed.

Lemma keeps_bind {A B} (c : F A) (k : A -> F B) : keeps c -> (forall a, keeps (k a)) -> keeps (c ≫= k).
Proof.
  intros Hc Hk fs. pose proof (Hc fs) as E. unfold mbind, F_bind.
  destruct (c fs) as [fs' [a|e]]; cbn in E; subst; [apply Hk|done].
Qed.

Lemma keeps_match i f s : keeps (match_or_throw i f s).
Proof. unfold match_or_throw. by destruct (first_match f s). Qed.

Lemma bind_files {A B} (c : F A) (k : A -> F B) fs : (forall a, keeps (k a)) -> ((c ≫= k) fs).1 = (c fs).1.
Proof. intros Hk. unfold mbind, F_bind. destruct (c fs) as [fs' [a|e]]; [apply Hk|done]. Qed.

Lemma exec_files {B} args (k : str -> F B) fs :
  (forall out, keeps (k out)) -> ((handleExecFile args ≫= k) fs).1 = (rescontract args fs).1.
Proof.
  intros Hk. rewrite bind_files by done. unfold handleExecFile. by destruct (rescontract args fs) as [? ?].
Qed.

Lemma unlink_if_exists_files p fs : unlink_if_exists p fs = (delete p fs, inl tt).
Proof.
  unfold unlink_if_exists, unlinkSync. destruct (fs !! p) eqn:E; [done|].
  by rewrite delete_id.
Qed.

Lemma finally_files {A} (c : F A) p fs :
  (finally c (unlink_if_exists p) fs).1 = delete p (c fs).1.
Proof. unfold finally. destruct (c fs) as [fs1 r]. by rewrite unlink_if_exists_files. Qed.

Lemma rethrow_files {A} (c : F A) fs : (rethrow c fs).1 = (c fs).1.
Proof. unfold rethrow. by destruct (c fs) as [fs' [a|e]]. Qed.

Lemma fmap_files {A B} (f : A -> B) (c : F A) fs : ((f <$> c) fs).1 = (c fs).1.
Proof. apply bind_files. intros a. apply keeps_ret. Qed.

(** The account operation removes the file before it reads the output, and
    again when something failed. *)
Lemma unlink_then_read {A} args p (k : str -> F A) fs :
  (forall out, keeps (k out)) ->
  (on_error (output ← handleExecFile args; _ ← unlinkSync p; k output) (unlink_if_exists p) fs).1
  = delete p (rescontract args fs).1.
Proof.
  intros Hk. unfold on_error, mbind, F_bind, unlinkSync.
  assert (E : (handleExecFile args fs).1 = (rescontract args fs).1)
    by (unfold handleExecFile; by destruct (rescontract args fs)).
  destruct (handleExecFile args fs) as [fs1 [out|e]]; cbn in E; subst fs1;
    [|by rewrite unlink_if_exists_files].
  destruct (_ !! p) eqn:L; [|by rewrite unlink_if_exists_files].
  pose proof (Hk out (delete p (rescontract args fs).1)) as K.
  destruct (k out _) as [fs2 [a|e]]; cbn in K; subst fs2; [done|].
  rewrite unlink_if_exists_files. cbn. apply delete_id, lookup_delete_eq.
Qed.

#[local] Hint Resolve keeps_ret keeps_throw keeps_lift keeps_match keeps_bind : keepsdb.

(** C31: A mutation that sends its configuration or its source as data runs the
    tool once, names the temporary file to it, and the file holds the text
    that was sent; afterwards the files are those the tool left, without the
    temporary file, whatever the tool did and however the mutation ended. *)
Theorem temporary_removed uuid m fs :
  exists args, temp_of uuid m ∈ args /\
    (resolve uuid m (Some (js "data")) fs).1
    = delete (temp_of uuid m) (rescontract args (<[temp_of uuid m := content_of m]> fs)).1.
Proof.
  destruct m; unfold resolve; rewrite rethrow_files, fmap_files; cbn [temp_of content_of];
    eexists; (split; [|first
      [ apply unlink_then_read; intros ?; case_match; auto with keepsdb
      | etrans; [apply finally_files|]; f_equal; apply exec_files; intros ?;
        try case_match; auto 10 with keepsdb ]]).
  all: cbn; set_solver.
Qed.

(** ** Which line is the result *)

Lemma scan_last b line a r :
  Forall (fun l => line_result l = None) b -> line_result line = Some r -> scan (b ++ line :: a) = Some r.
Proof. intros Hb Hl. induction Hb as [|x b Hx Hb IH]; cbn; [by rewrite Hl|by rewrite Hx]. Qed.

(** The result read from a successful run is the one of the last line that
    has one. *)
Lemma execution_result_last output a line b r :
  split output nl = a ++ line :: b -> includes output (js "execute contract fail") = false ->
  line_result line = Some r -> Forall (fun l => line_result l = None) b ->
  execution_result output = r.
Proof.
  intros E Hf Hl Hb. unfold execution_result. rewrite Hf, E, rev_app_distr.
  change (rev (line :: b)) with (rev b ++ [line]). rewrite <- app_assoc.
  assert (S : scan (rev b ++ line :: rev a) = Some r); [|by change ([line] ++ rev a) with (line :: rev a); rewrite S].
  apply scan_last; [|done].
  by apply Forall_rev.
Qed.

(** When the tool succeeds and its output has a line with a result, a
    contract execution returns (or throws) what the last such line says,
    whatever the lines around it are. *)
Theorem last_result_wins uuid config sender contract fn args t fs fs1 out err a line b r :
  (forall argv fs0, rescontract argv fs0 = (fs1 fs0, Closed (Some 0%Z) out err)) ->
  split (trim (out ++ err)) nl = a ++ line :: b ->
  includes (trim (out ++ err)) (js "execute contract fail") = false ->
  line_result line = Some r -> Forall (fun l => line_result l = None) b ->
  (executeContract uuid config sender contract fn args t fs).2 = r.
Proof.
  intros Htool E Hf Hl Hb. pose proof (execution_result_last _ _ _ _ _ E Hf Hl Hb) as R.
  unfold executeContract, config_path, if_data. destruct (is_data t);
    unfold mbind, F_bind, finally, handleExecFile, lift; cbn; rewrite Htool; cbn;
    rewrite ?unlink_if_exists_files; cbn; done.
Qed.
End cli.

(** ** A run *)

(** A tool that logs a line before and after its result, and a parser that
    knows that line. *)
Definition toy_line : str := js "{" ++ [quote] ++ js "result" ++ [quote] ++ js ":7}".
Definition toy_tool : list str -> files -> files * process :=
  fun _ fs => (fs, Closed (Some 0%Z) (js "start" ++ nl ++ toy_line ++ nl ++ js "done") []).
Definition toy_parse (s : str) : result json :=
  if decide (s = toy_line) then Ok (JObj [(js "result", JStr (js "7"))]) else Throw (js "SyntaxError").

Lemma last_result_wins_witness :
  (executeContract toy_tool toy_parse (fun _ => []) (fun d f => d ++ js "/" ++ f) (js "/tmp")
     (js "1") (js "host") (js "0x1") (js "0x2") (js "get()") [] (Some (js "data")) ∅).2 = inl (js "7").
Proof.
  apply (last_result_wins _ _ _ _ _ _ _ _ _ _ _ _ _ (fun fs => fs)
           (js "start" ++ nl ++ toy_line ++ nl ++ js "done") [] [js "start"] toy_line [js "done"]);
    [done|by vm_compute..|by repeat constructor].
Defined.
