(* ===== verification/ChatStream.v ===== *)
(** * The chat of the Nexus research page

    src/ecosystem/ai-tools/nexus/src: app/api/research/chat/route.ts turns the
    events of an agent into a stream of text in which tool calls are written as
    control blocks; app/research/page.tsx reads the stream in chunks, takes the
    blocks out and shows the rest, either as a message or, for the code
    composer, in the sections of a code generation.

    The bytes arrive cut at arbitrary places; a chunk is what the decoder makes
    of one read, and since the page decodes with [{ stream: true }] the chunks
    join to the text that was sent.  [JSON.stringify] and [JSON.parse] are parameters.  A state
    updater that throws does so while the page is rendered, which takes the page
    down: this is [None]. *)

From S2P Require Import Prelude JsString JsArray JsNum Json.

Definition mark : str := js "__TOOL_CALL__".
Definition gap : str := nl ++ nl.

(** ** The server *)

Record RequestData := MkRequest {
  rq_query : option str;
  rq_documentPath : option str;
  (** [None]: absent; [Some None]: not an array. *)
  rq_documentPaths : option (option (list str));
}.

Definition validateRequest (deepSeekApiKey : option str) (d : RequestData) : option str :=
  match str_or (rq_query d) [] with
  | [] => Some (js "Query is required")
  | _ =>
      match str_or (rq_documentPath d) [], rq_documentPaths d with
      | [], None => Some (js "Either documentPath or documentPaths is required")
      | _, Some (None | Some []) => Some (js "documentPaths must be a non-empty array")
      | _, _ =>
          match str_or deepSeekApiKey [] with
          | [] => Some (js "DeepSeek API key is required")
          | _ => None
          end
      end
  end.

Definition contextualQuery (query : str) (documentPaths : option (list str)) (preferWebSearch : bool) : str :=
  let q := if preferWebSearch then js "[Web Search Priority] " ++ query else query in
  match documentPaths with
  | Some ((_ :: _) as ps) =>
      js "[Context: User has selected these documents: " ++ join ps (js ", ") ++ js "]" ++ gap
      ++ js "User Query: " ++ q
  | _ => q
  end.

(** The error of [catch], when it is an [Error]. *)
Definition getErrorMessage (error : option str) : str :=
  match error with
  | None => js "Failed to process your question"
  | Some m =>
      if includes m (js "401") || includes m (js "unauthorized")
      then js "Invalid API key. Please check your DeepSeek API key."
      else if includes m (js "402") || includes m (js "payment")
      then js "Insufficient credits. Please check your DeepSeek account balance."
      else js "Failed to process your question"
  end.

Inductive event :=
| ToolCall (toolId toolName : str) (toolKwargs : option json)
| ToolResult (toolId toolName : str) (failed : bool)
| Stream (delta : str).

Definition part_of (id name state : str) (input : option json) : json :=
  JObj (present [(js "id", Some (JStr id)); (js "type", Some (JStr name)); (js "state", Some (JStr state));
                 (js "input", input)]).

Definition callPart (id name : str) (kwargs : option json) : json := part_of id name (js "input-available") kwargs.
Definition updatePart (id name : str) (failed : bool) : json :=
  part_of id name (if failed then js "output-error" else js "output-available") None.

Definition control_block (stringify : json -> str) (part : json) : str := gap ++ mark ++ stringify part ++ gap.

(** What one event adds to the stream. *)
Definition enqueue (stringify : json -> str) (e : event) : str :=
  match e with
  | ToolCall id name kwargs => control_block stringify (callPart id name kwargs)
  | ToolResult id name failed => control_block stringify (updatePart id name failed)
  | Stream delta => delta
  end.

Definition streamed (stringify : json -> str) (evs : list event) : str := concat (enqueue stringify <$> evs).

(** ** The page *)

Inductive phase := ReadingDocuments | Plan | Pseudocode | Implementation.
#[export] Instance phase_eq_dec : EqDecision phase.
Proof. solve_decision. Defined.

Record Document := MkDocument { d_id : str; d_name : str; d_path : str; d_displayTitle : option str }.
Record Source := MkSource { s_path : str; s_name : str; s_displayTitle : str }.

Record Message := MkMessage {
  m_id : str;
  m_content : str;
  m_user : bool;
  m_loading : bool;
  m_docPaths : list str;
  m_toolParts : list json;
  m_toolInserts : list (nat * json);
}.

Record CodeGeneration := MkGeneration {
  g_id : str;
  g_language : str;
  g_query : str;
  g_topic : str;
  g_plan : str;
  g_pseudocode : str;
  g_implementation : str;
  g_hasStructuredResponse : bool;
  g_isStreaming : bool;
  g_currentSection : option phase;
  g_sources : list Source;
}.

Record Page := MkPage {
  p_messages : list Message;
  p_generations : list CodeGeneration;
  p_selected : list Document;
  p_input : str;
  p_loading : bool;
  p_preparing : bool;
  p_codeComposer : bool;
  p_preferWebSearch : bool;
}.

Record Payload := MkPayload {
  y_query : str;
  y_documentPaths : list str;
  y_preferWebSearch : bool;
  y_code : bool;
  y_language : option str;
}.

Definition set_content (content : str) (m : Message) : Message :=
  MkMessage (m_id m) content (m_user m) false (m_docPaths m) (m_toolParts m) (m_toolInserts m).
Definition set_parts (parts : list json) (inserts : list (nat * json)) (m : Message) : Message :=
  MkMessage (m_id m) (m_content m) (m_user m) (m_loading m) (m_docPaths m) parts inserts.

(** [setMessages(prev => prev.map(msg => msg.id === id ? f(msg) : msg))] *)
Definition on_message (id : str) (f : Message -> Message) (p : Page) : Page :=
  MkPage ((fun m => if decide (m_id m = id) then f m else m) <$> p_messages p)
    (p_generations p) (p_selected p) (p_input p) (p_loading p) (p_preparing p) (p_codeComposer p) (p_preferWebSearch p).

Definition set_generations (f : list CodeGeneration -> list CodeGeneration) (p : Page) : Page :=
  MkPage (p_messages p) (f (p_generations p)) (p_selected p) (p_input p) (p_loading p) (p_preparing p)
    (p_codeComposer p) (p_preferWebSearch p).
Definition on_generation (id : str) (f : CodeGeneration -> CodeGeneration) (p : Page) : Page :=
  set_generations (fmap (fun g => if decide (g_id g = id) then f g else g)) p.
Definition drop_generation (id : option str) (p : Page) : Page :=
  match id with
  | Some id => set_generations (filterb (fun g => negb (bool_decide (g_id g = id)))) p
  | None => p
  end.

Definition set_loading (b : bool) (p : Page) : Page :=
  MkPage (p_messages p) (p_generations p) (p_selected p) (p_input p) b (p_preparing p) (p_codeComposer p) (p_preferWebSearch p).
Definition set_research (p : Page) : Page :=
  MkPage (p_messages p) (p_generations p) (p_selected p) (p_input p) (p_loading p) (p_preparing p) false (p_preferWebSearch p).
Definition set_selected (l : list Document) (p : Page) : Page :=
  MkPage (p_messages p) (p_generations p) l (p_input p) (p_loading p) (p_preparing p) (p_codeComposer p) (p_preferWebSearch p).

(** *** Control blocks *)

(** [buffer.match(/__TOOL_CALL__([\s\S]*?)\n\n/)]: what is before the match,
    its payload, and what is after it. *)
Definition block_in (b : str) : option (str * str * str) :=
  match indexOf b mark with
  | Some i =>
      let rest := drop (i + length mark) b in
      match indexOf rest gap with
      | Some e => Some (take i b, take e rest, drop (e + length gap) rest)
      | None => None
      end
  | None => None
  end.

(** The loop that takes the blocks out of the buffer, with the text around
    each when it was found. *)
Fixpoint extract (fuel : nat) (b : str) : str * list (str * str * str) :=
  match fuel with
  | O => (b, [])
  | S fuel =>
      match block_in b with
      | Some (before, payload, after) =>
          let '(b', bs) := extract fuel (before ++ after) in (b', (before, payload, after) :: bs)
      | None => (b, [])
      end
  end.

Definition isAlphaNum (c : ascii) : bool := between 65 90 c || between 97 122 c || is_digit c.

(** Where a part is inserted: at its block, or at the end of the word the block
    was in. *)
Definition insertIndex (before after : str) : nat :=
  match last before with
  | Some c => if isAlphaNum c then length before + run_length isAlphaNum after else length before
  | None => length before
  end.

(** [a === b] for values that came from different texts: objects and arrays
    are never the same. *)
Definition strict_eq (a b : option json) : bool :=
  match a, b with
  | None, None | Some JNull, Some JNull => true
  | Some (JBool x), Some (JBool y) => Bool.eqb x y
  | Some (JNum x), Some (JNum y) => neq x y
  | Some (JStr x), Some (JStr y) => bool_decide (x = y)
  | _, _ => false
  end.

(** [{ ...p, ...q }] *)
Definition entries (v : json) : jsmap str json :=
  match v with
  | JObj o => o
  | JArr l => imap (fun i v => (str_of_nat i, v)) l
  | JStr s => imap (fun i c => (str_of_nat i, JStr [c])) s
  | _ => []
  end.
Definition spread (p q : json) : json :=
  JObj (foldl (fun o kv => map_set o kv.1 kv.2) (foldl (fun o kv => map_set o kv.1 kv.2) [] (entries p)) (entries q)).

Definition id_of (p : json) : option json := prop p (js "id").

(** [findIndex], then the element there is replaced, or a new one added. *)
Fixpoint upsert {A} (same : A -> bool) (f : A -> A) (new : A) (l : list A) : list A :=
  match l with
  | [] => [new]
  | x :: l' => if same x then f x :: l' else x :: upsert same f new l'
  end.

Definition add_part (part : json) (index : nat) (m : Message) : Message :=
  set_parts
    (upsert (fun p => truthy (id_of p) && strict_eq (id_of p) (id_of part)) (fun p => spread p part) part (m_toolParts m))
    (upsert (fun i => strict_eq (id_of i.2) (id_of part)) (fun i => (i.1, spread i.2 part)) (index, part) (m_toolInserts m))
    m.

(** *** Reading the stream *)

(** The variables of [handleCodeComposerStream]. *)
Record Live := MkLive {
  l_buffer : str;
  l_current : option str;
  l_phase : phase;
  l_prev : nat;
  l_plan : str;
  l_pseudo : str;
  l_impl : str;
  l_initialized : bool;
}.

Definition start : Live := MkLive [] None ReadingDocuments 0 [] [] [] false.

Definition set_buffer (b : str) (l : Live) : Live :=
  MkLive b (l_current l) (l_phase l) (l_prev l) (l_plan l) (l_pseudo l) (l_impl l) (l_initialized l).
Definition set_phase (ph : phase) (l : Live) : Live :=
  MkLive (l_buffer l) (l_current l) ph (l_prev l) (l_plan l) (l_pseudo l) (l_impl l) (l_initialized l).
Definition set_current (id : str) (l : Live) : Live :=
  MkLive (l_buffer l) (Some id) (l_phase l) (l_prev l) (l_plan l) (l_pseudo l) (l_impl l) true.

Definition has (part : json) (key value : string) : bool :=
  strict_eq (prop part (js key)) (Some (JStr (js value))).

(** The phase after a part of a code generation. *)
Definition next_phase (part : json) (ph : phase) : phase :=
  let ph :=
    if has part "type" "handOff" && has part "state" "input-available" then
      let toAgent := opt_prop (prop part (js "input")) (js "toAgent") in
      if strict_eq toAgent (Some (JStr (js "PseudoCodeAgent"))) then Pseudocode
      else if strict_eq toAgent (Some (JStr (js "CodeAgent"))) then Implementation
      else ph
    else ph in
  if (has part "type" "search_documents" || has part "type" "retrieve_documents")
     && has part "state" "output-available"
  then match ph with ReadingDocuments => Plan | _ => ph end
  else ph.

Definition source_of (selected : list Document) (fileId : str) : Source :=
  let doc := List.find (fun d => bool_decide (d_id d = fileId)) selected in
  let name := str_or (d_name <$> doc) [] in
  MkSource fileId (str_or (Some name) fileId)
    (str_or (d ← doc; d_displayTitle d) (str_or (Some name) fileId)).

Definition set_sources (l : list Source) (g : CodeGeneration) : CodeGeneration :=
  MkGeneration (g_id g) (g_language g) (g_query g) (g_topic g) (g_plan g) (g_pseudocode g) (g_implementation g)
    (g_hasStructuredResponse g) (g_isStreaming g) (g_currentSection g) l.

Definition topic_of (plan : str) : str :=
  coalesce (List.find (fun s => (0 <? length s)%nat) (trim <$> split plan nl)) [].

Definition set_sections (l : Live) (g : CodeGeneration) : CodeGeneration :=
  MkGeneration (g_id g) (g_language g) (g_query g) (topic_of (l_plan l)) (l_plan l) (l_pseudo l) (l_impl l)
    (g_hasStructuredResponse g) (g_isStreaming g) (Some (l_phase l)) (g_sources g).

Definition finish_sections (l : Live) (g : CodeGeneration) : CodeGeneration :=
  MkGeneration (g_id g) (g_language g) (g_query g) (topic_of (l_plan l)) (l_plan l) (l_pseudo l) (l_impl l)
    (match l_plan l ++ l_pseudo l ++ l_impl l with [] => false | _ => true end) false None (g_sources g).

(** A control block that is not complete is not shown. *)
Definition safe (b : str) : str :=
  let i := lastIndexOf b mark (Z.of_nat (length b)) in
  if (i =? -1)%Z then b
  else if endsWith (drop (Z.to_nat i) b) gap then b else take (Z.to_nat i) b.

Definition meta : str := js "__CODE_COMPOSER_META__".

(** [/__CODE_COMPOSER_META__({[\s\S]*?})\n\n/], and the pattern that is removed *)
Definition meta_at (s : str) : option str :=
  if is_prefix (meta ++ js "{") s then
    let rest := drop (length meta) s in
    match indexOf (drop 1 rest) (js "}" ++ gap) with
    | Some e => Some (take (e + 2) rest)
    | None => None
    end
  else None.
Definition remove_meta (b : str) : str :=
  match indexOf b meta with
  | Some i =>
      match indexOf (drop (i + length meta) b) gap with
      | Some e => take i b ++ drop (i + length meta + e + length gap) b
      | None => b
      end
  | None => b
  end.

Section page.
Context (JSON_parse : str -> result json).

Definition strip_meta (b : str) : str :=
  if includes b meta then
    match first_match meta_at b with
    | Some j => match JSON_parse j with Ok _ => remove_meta b | Throw _ => b end
    | None => b
    end
  else b.

(** A block of a message: a payload that is not JSON is only reported. *)
Definition message_block (id : str) (blk : str * str * str) (p : Page) : option Page :=
  let '(before, payload, after) := blk in
  match JSON_parse payload with
  | Throw _ => Some p
  | Ok JNull => if bool_decide (id ∈ m_id <$> p_messages p) then None else Some p
  | Ok part => Some (on_message id (add_part part (insertIndex before after)) p)
  end.

Fixpoint message_blocks (id : str) (bs : list (str * str * str)) (p : Page) : option Page :=
  match bs with
  | [] => Some p
  | b :: bs => p ← message_block id b p; message_blocks id bs p
  end.

(** A block of a code generation. *)
Definition code_block (payload : Payload) (blk : str * str * str) (st : Live * Page) : Live * Page :=
  let '(l, p) := st in
  match JSON_parse blk.1.2 with
  | Throw _ => (l, p)
  | Ok part =>
      let ph := next_phase part (l_phase l) in
      let marked := (has part "type" "search_documents" || has part "type" "retrieve_documents")
                    && has part "state" "output-available"
                    && match l_phase l with ReadingDocuments => true | _ => false end in
      (set_phase ph l,
       match l_current l with
       | Some g => if marked then on_generation g (set_sources (source_of (p_selected p) <$> y_documentPaths payload)) p else p
       | None => p
       end)
  end.

(** The text that is new goes to the section of the current phase. *)
Definition append_live (l : Live) : Live * bool :=
  let s := safe (l_buffer l) in
  let newText := drop (l_prev l) s in
  let '(pl, ps, im) := match l_phase l with
    | ReadingDocuments => (l_plan l, l_pseudo l, l_impl l)
    | Plan => (l_plan l ++ newText, l_pseudo l, l_impl l)
    | Pseudocode => (l_plan l, l_pseudo l ++ newText, l_impl l)
    | Implementation => (l_plan l, l_pseudo l, l_impl l ++ newText)
    end in
  (MkLive (l_buffer l) (l_current l) (l_phase l) (length s) pl ps im (l_initialized l),
   match newText with [] => false | _ => true end).

Definition started : str :=
  js "Code generation started. Check the preview panel to see live progress. You may continue chatting after the code generation is complete.".

Definition new_generation (id : str) (y : Payload) : CodeGeneration :=
  MkGeneration id (str_or (y_language y) (js "ts")) (y_query y) [] [] [] [] false true (Some ReadingDocuments) [].

(** [id]: the placeholder message; [early]: the generation made before the
    request; [fresh]: the identifier made otherwise. *)
Definition on_chunk (id : str) (y : Payload) (early : option str) (fresh : str) (chunk : str) (st : Live * Page)
  : option (Live * Page) :=
  let '(l, p) := st in
  let l := set_buffer (l_buffer l ++ chunk) l in
  let '(l, p) :=
    if y_code y && negb (l_initialized l) then
      let '(g, p) := match early with
        | Some g => (g, p)
        | None => (fresh, set_generations (fun gs => gs ++ [new_generation fresh y]) p)
        end in
      (set_current g l, set_research (on_message id (set_content started) p))
    else (l, p) in
  let '(b, bs) :=
    if includes (l_buffer l) mark then extract (length (l_buffer l)) (l_buffer l) else (l_buffer l, []) in
  let l := set_buffer b l in
  if y_code y then
    let '(l, p) := foldl (fun st blk => code_block y blk st) (l, p) bs in
    let '(l, new) := append_live l in
    Some (l, match l_current l with
             | Some g => if new then on_generation g (set_sections l) p else p
             | None => p
             end)
  else
    p ← message_blocks id bs p;
    let l := set_buffer (strip_meta (l_buffer l)) l in
    Some (l, on_message id (set_content (safe (l_buffer l))) p).

Fixpoint on_chunks (id : str) (y : Payload) (early : option str) (fresh : str) (chunks : list str) (st : Live * Page)
  : option (Live * Page) :=
  match chunks with
  | [] => Some st
  | c :: cs => st ← on_chunk id y early fresh c st; on_chunks id y early fresh cs st
  end.

(** [handleCodeComposerStream] for a response with a body: its chunks, and
    whether reading ended with an error.  The flag of the result says whether
    the call threw. *)
Definition handleCodeComposerStream (id : str) (y : Payload) (early : option str) (fresh : str) (chunks : list str)
    (broken : bool) (p : Page) : option (Page * bool) :=
  st ← on_chunks id y early fresh chunks (start, on_message id (set_content []) p);
  let '(l, p) := st in
  if broken then Some (p, true)
  else Some (match l_current l with
             | Some g => if y_code y then on_generation g (finish_sections l) p else p
             | None => p
             end, false).

(** *** Sending a message *)

Inductive reply :=
| FetchFailed
| NotOk
| NoBody
| Body (chunks : list str) (broken : bool).

Definition user_message (id query : str) : Message := MkMessage id query true false [] [] [].
Definition placeholder (id : str) (y : Payload) : Message :=
  MkMessage id
    (if y_code y
     then js "Reading and analyzing documents to generate code. Check the preview panel to see live progress."
     else [])
    false (negb (y_code y)) (y_documentPaths y) [] [].

(** The state when the request is sent. *)
Definition sent (uid aid gid : str) (y : Payload) (p : Page) : Page :=
  MkPage (p_messages p ++ [user_message uid (y_query y); placeholder aid y])
    (if y_code y then p_generations p ++ [new_generation gid y] else p_generations p)
    (p_selected p) [] true (p_preparing p) (p_codeComposer p) (p_preferWebSearch p).

Definition sorry (m : Message) : Message :=
  if m_loading m then set_content (js "Sorry, an error occurred. Please try again.") m else m.

(** The [catch] and [finally] of [handleSendMessage]. *)
Definition failed (aid : str) (early : option str) (p : Page) : Page :=
  set_loading false (drop_generation early (on_message aid sorry p)).

Definition handleSendMessage (uid aid gid fresh : str) (y : Payload) (r : reply) (p : Page) : option Page :=
  let p := sent uid aid gid y p in
  let early := if y_code y then Some gid else None in
  match r with
  | FetchFailed => Some (failed aid early p)
  | NotOk =>
      let p := on_message aid (set_content (js "Sorry, I couldn't get a response. Please try again.")) p in
      Some (failed aid early (drop_generation early p))
  | NoBody =>
      let p := on_message aid (set_content (js "Sorry, there was an issue with the response stream.")) p in
      Some (failed aid early (drop_generation early p))
  | Body chunks broken =>
      r ← handleCodeComposerStream aid y early fresh chunks broken p;
      let '(p, thrown) := r in
      Some (if thrown : bool then failed aid early p else set_loading false p)
  end.

(** [handleSubmit]: the payload, unless there is nothing to send or a message
    is under way. *)
Definition handleSubmit (language : str) (p : Page) : option (Payload * Page) :=
  if bool_decide (trim (p_input p) = []) || bool_decide (p_selected p = []) || p_loading p || p_preparing p then None
  else Some (MkPayload (p_input p) (d_path <$> p_selected p) (p_preferWebSearch p) (p_codeComposer p)
               (if p_codeComposer p then Some language else None),
             MkPage (p_messages p) (p_generations p) (p_selected p) (p_input p) (p_loading p) (p_preparing p)
               (p_codeComposer p) false).
End page.

(** *** The selected documents *)

Definition handleDocumentSelect (d : Document) (p : Page) : Page :=
  if bool_decide (d_id d ∈ d_id <$> p_selected p) then p else set_selected (p_selected p ++ [d]) p.
Definition handleDocumentDeselect (d : Document) (p : Page) : Page :=
  set_selected (filterb (fun d' => negb (bool_decide (d_id d' = d_id d))) (p_selected p)) p.
Definition handleSelectAll (documents : list (list Document)) (p : Page) : Page := set_selected (concat documents) p.
Definition handleDeselectAll (p : Page) : Page := set_selected [] p.

(** *** Showing a message *)

Inductive node := TextNode (s : str) | ToolNode (part : json).

(** The text between the inserted parts, which come in the order of their
    positions. *)
Fixpoint nodes_from (content : str) (cursor : nat) (inserts : list (nat * json)) : list node :=
  let text (s : str) := match s with [] => [] | _ => [TextNode s] end in
  match inserts with
  | [] => text (drop cursor content)
  | (i, part) :: inserts' =>
      let clamped := Nat.min i (length content) in
      text (slice content (Z.of_nat cursor) (Z.of_nat clamped)) ++ ToolNode part :: nodes_from content clamped inserts'
  end.

Definition rendered (m : Message) : list node :=
  match sort_by (fun a b : nat * json => (a.1 <? b.1)%nat) (m_toolInserts m) with
  | [] => [TextNode (m_content m)]
  | inserts => nodes_from (m_content m) 0 inserts
  end.

(** ** Control blocks and chunks *)

Lemma block_in_app b c x pl y : block_in b = Some (x, pl, y) -> block_in (b ++ c) = Some (x, pl, y ++ c).
Proof.
  unfold block_in. destruct (indexOf b mark) as [i|] eqn:Ei; [|done].
  destruct (indexOf (drop (i + length mark) b) gap) as [e|] eqn:Ee; [|done]. intros [= <- <- <-].
  destruct (indexOf_Some _ _ _ Ei) as (t & Ht & Hi).
  assert (i + length mark <= length b) as Hl.
  { apply (f_equal length) in Ht. rewrite !length_app, length_take in Ht. lia. }
  destruct (indexOf_Some _ _ _ Ee) as (u & Hu & He).
  assert (e + length gap <= length (drop (i + length mark) b)) as Hg.
  { apply (f_equal length) in Hu. rewrite !length_app, length_take in Hu. lia. }
  rewrite (indexOf_app _ _ c _ Ei), drop_app_le by done. rewrite (indexOf_app _ _ c _ Ee).
  by rewrite !take_app_le, drop_app_le by lia.
Qed.

Lemma block_in_spec b x pl y : block_in b = Some (x, pl, y) -> b = x ++ mark ++ pl ++ gap ++ y.
Proof.
  unfold block_in. destruct (indexOf b mark) as [i|] eqn:Ei; [|done].
  destruct (indexOf (drop (i + length mark) b) gap) as [e|] eqn:Ee; [|done]. intros [= <- <- <-].
  destruct (indexOf_Some _ _ _ Ei) as (t & Ht & Hi). destruct (indexOf_Some _ _ _ Ee) as (u & Hu & He).
  assert (drop (i + length mark) b = t) as D.
  { rewrite Ht at 1. rewrite app_assoc. apply drop_app_length'. rewrite length_app, length_take. lia. }
  change (length mark) with 13 in *. change (length gap) with 2 in *. rewrite D in Hu, He |- *.
  assert (drop (e + 2) t = u) as D2.
  { rewrite Hu at 1. rewrite app_assoc. apply drop_app_length'. rewrite length_app, length_take. cbn. lia. }
  rewrite D2, <- Hu. exact Ht.
Qed.

Lemma block_in_none b : includes b mark = false -> block_in b = None.
Proof.
  unfold includes, block_in. destruct (indexOf b mark) eqn:E; [|done].
  rewrite bool_decide_eq_false. intros []. eauto.
Qed.

Lemma extract_more fuel b : length b <= fuel -> extract fuel b = extract (length b) b.
Proof.
  remember (length b) as n eqn:Hn. revert fuel b Hn.
  induction (lt_wf n) as [n _ IH]. intros fuel b -> Hf.
  destruct fuel as [|fuel], (length b) as [|k] eqn:Hb; try lia; [done| |].
  - destruct b; [|done]. done.
  - cbn [extract]. destruct (block_in b) as [[[x pl] y]|] eqn:E; [|done].
    apply block_in_spec in E. apply (f_equal length) in E. rewrite !length_app, Hb in E. cbn in E.
    rewrite (IH (length (x ++ y)) ltac:(rewrite length_app; lia) fuel (x ++ y)), (IH (length (x ++ y)) ltac:(rewrite length_app; lia) k (x ++ y));
      rewrite ?length_app; lia || done.
Qed.

Abbreviation extract_all b := (extract (length b) b).

Lemma extract_eq b :
  extract_all b =
  match block_in b with
  | Some (x, pl, y) => let '(b', bs) := extract_all (x ++ y) in (b', (x, pl, y) :: bs)
  | None => (b, [])
  end.
Proof.
  destruct (length b) as [|n] eqn:L; [by destruct b|]. cbn [extract].
  destruct (block_in b) as [[[x pl] y]|] eqn:E; [|done].
  apply block_in_spec in E. apply (f_equal length) in E. rewrite !length_app, L in E. cbn in E.
  rewrite extract_more by (rewrite length_app; lia). done.
Qed.

Definition extend (c : str) (blk : str * str * str) : str * str * str := (blk.1, blk.2 ++ c).

(** Taking the blocks out of a buffer before a chunk arrives makes no
    difference. *)
Lemma extract_app b c :
  extract_all (b ++ c) =
  ((extract_all ((extract_all b).1 ++ c)).1,
   (extend c <$> (extract_all b).2) ++ (extract_all ((extract_all b).1 ++ c)).2).
Proof.
  remember (length b) as n eqn:Hn. revert b Hn. induction (lt_wf n) as [n _ IH]. intros b ->.
  rewrite (extract_eq b). destruct (block_in b) as [[[x pl] y]|] eqn:E.
  - rewrite (extract_eq (b ++ c)), (block_in_app _ _ _ _ _ E).
    apply block_in_spec in E. apply (f_equal length) in E. rewrite !length_app in E. cbn in E.
    rewrite app_assoc, (IH (length (x ++ y)) ltac:(rewrite length_app; lia) (x ++ y)) by done.
    destruct (extract_all (x ++ y)) as [b' bs]. done.
  - cbn. by destruct (extract_all (b ++ c)).
Qed.

(** ** What the server writes *)

Lemma extract_plain b : block_in b = None -> extract_all b = (b, []).
Proof. intros H. by rewrite extract_eq, H. Qed.

(** At most one newline, at the end. *)
Definition gapless (q : str) : Prop := forall a b, q <> a ++ gap ++ b.

Lemma tail_gapless j q : newline ∉ j -> q `prefix_of` (mark ++ j ++ nl) -> gapless q.
Proof.
  intros Hj [w E] a b ->. rewrite app_assoc in E. assert (newline ∉ mark ++ j) as Hm.
  { rewrite elem_of_app. intros [H|H]; [|done]. vm_compute in H. by repeat (apply elem_of_cons in H as [H|H]; [done|]); inversion H. }
  set (m := mark ++ j) in *. clearbody m. cbn in E.
  assert (forall k, (m ++ nl) !! k = Some newline -> k = length m) as Hone.
  { intros k Hk. destruct (le_lt_dec (length m) k) as [Hl|Hl].
    - rewrite lookup_app_r in Hk by done. destruct (k - length m) eqn:D; cbn in Hk; [lia|done].
    - rewrite lookup_app_l in Hk by done. by apply list_elem_of_lookup_2 in Hk. }
  pose proof (Hone (length a)) as H1. pose proof (Hone (S (length a))) as H2.
  rewrite E, <- !app_assoc in H1, H2.
  rewrite lookup_app_r, Nat.sub_diag in H1 by lia. rewrite lookup_app_r in H2 by lia.
  replace (S (length a) - length a) with 1 in H2 by lia. specialize (H1 eq_refl). specialize (H2 eq_refl). lia.
Qed.

Lemma newline_marks : (newline ∉ mark) /\ (newline ∉ meta).
Proof.
  split; intros H; vm_compute in H; by repeat (apply elem_of_cons in H as [H|H]; [done|]); inversion H.
Qed.

(** A buffer whose last block is not complete. *)
Lemma pending_block s q :
  includes (s ++ gap) mark = false -> gapless q -> block_in (s ++ gap ++ q) = None.
Proof.
  intros Hs Hq. destruct (block_in (s ++ gap ++ q)) as [[[x pl] y]|] eqn:E; [exfalso|done].
  apply block_in_spec in E. rewrite includes_false in Hs.
  replace (s ++ gap ++ q) with ((s ++ nl) ++ newline :: q) in E by (by rewrite <- app_assoc).
  pose proof E as E0. apply occurrence_beside in E as [[d Hd]|[d ->]]; [| |apply newline_marks].
  - apply (Hs x (d ++ nl)). unfold gap. rewrite app_assoc, Hd. by rewrite <- !app_assoc.
  - rewrite <- !app_assoc in E0. apply app_inv_head in E0. cbn in E0. injection E0 as E0.
    apply (Hq (d ++ mark ++ pl) y). by rewrite <- !app_assoc.
Qed.

Section delivery.
Context (stringify : json -> str) (JSON_parse : str -> result json).

(** What the reader of the page sees of an event, and its part. *)
Definition shown1 (e : event) : str := match e with Stream d => d | _ => gap end.
Definition shown (evs : list event) : str := concat (shown1 <$> evs).
Definition part1 (e : event) : option json :=
  match e with
  | ToolCall id name kwargs => Some (callPart id name kwargs)
  | ToolResult id name failed => Some (updatePart id name failed)
  | Stream _ => None
  end.

(** The text of a part has no line break and is read back. *)
Definition readable (part : json) : Prop :=
  (newline ∉ stringify part) /\ JSON_parse (stringify part) = Ok part.

Lemma enqueue_part e part : part1 e = Some part -> enqueue stringify e = control_block stringify part /\ shown1 e = gap.
Proof. by destruct e; intros [= <-]. Qed.

Lemma extract_event s e :
  includes (s ++ shown1 e) mark = false -> (forall part, part1 e = Some part -> readable part) ->
  extract_all (s ++ enqueue stringify e) =
  (s ++ shown1 e, match part1 e with Some part => [(s ++ gap, stringify part, [])] | None => [] end).
Proof.
  intros Hs He. destruct (part1 e) as [part|] eqn:E.
  - destruct (enqueue_part _ _ E) as [-> Hsh]. rewrite Hsh in *. destruct (He _ eq_refl) as [Hn _].
    assert (block_in (s ++ control_block stringify part) = Some (s ++ gap, stringify part, [])) as B.
    { unfold control_block, block_in.
      replace (s ++ gap ++ mark ++ stringify part ++ gap) with ((s ++ gap) ++ mark ++ (stringify part ++ gap))
        by (by rewrite <- !app_assoc).
      rewrite indexOf_intro.
      - rewrite take_app_length, (app_assoc (s ++ gap) mark), drop_app_length' by (by rewrite !length_app).
        replace (stringify part ++ gap) with (stringify part ++ gap ++ []) by (by rewrite app_nil_r).
        rewrite indexOf_intro.
        + rewrite take_app_length, drop_ge by (rewrite !length_app; cbn; lia). done.
        + intros a' b' E'. destruct (le_lt_dec (length (stringify part)) (length a')) as [|Hl]; [done|exfalso].
          apply Hn. apply list_elem_of_lookup_2 with (length a').
          apply (f_equal (fun l => l !! length a')) in E'.
          rewrite lookup_app_l in E' by done. by rewrite lookup_app_r, Nat.sub_diag in E' by lia.
      - intros a' b' E'. destruct (le_lt_dec (length (s ++ gap)) (length a')) as [|Hl]; [done|exfalso].
        replace ((s ++ gap) ++ mark ++ stringify part ++ gap) with ((s ++ nl) ++ newline :: (mark ++ stringify part ++ gap))
          in E' by (by rewrite <- !app_assoc).
        apply occurrence_beside in E' as [[d Hd]|[d ->]]; [| |apply newline_marks].
        + rewrite includes_false in Hs. apply (Hs a' (d ++ nl)). unfold gap. rewrite app_assoc, Hd. by rewrite <- !app_assoc.
        + rewrite !length_app in Hl. cbn in Hl. lia. }
    rewrite extract_eq, B, app_nil_r, extract_plain; [done|]. by apply block_in_none.
  - destruct e; [done..|]. apply extract_plain, block_in_none. done.
Qed.

Lemma shown_cons s e evs : s ++ shown (e :: evs) = (s ++ shown1 e) ++ shown evs.
Proof. by rewrite <- app_assoc. Qed.
Lemma streamed_cons s e evs : s ++ streamed stringify (e :: evs) = (s ++ enqueue stringify e) ++ streamed stringify evs.
Proof. by rewrite <- app_assoc. Qed.

Definition readable_events (evs : list event) : Prop :=
  Forall (fun e => forall part, part1 e = Some part -> readable part) evs.

(** The buffer after a part of the stream: a beginning of what is shown, and a
    block that is not complete. *)
Lemma buffer_form evs : forall s p,
  p `prefix_of` streamed stringify evs -> includes (s ++ shown evs) mark = false -> readable_events evs ->
  exists s' v, (extract_all (s ++ p)).1 = s' ++ v /\ s' `prefix_of` (s ++ shown evs) /\ gapless v /\
    (v = [] \/ exists s0, s' = s0 ++ nl).
Proof.
  induction evs as [|e evs IH]; intros s p Hp Hs Hr.
  - apply prefix_nil_inv in Hp as ->. rewrite !app_nil_r in *. exists s, [].
    rewrite extract_plain by (by apply block_in_none). rewrite app_nil_r. repeat split; [done| |by left].
    intros [] b; done.
  - apply Forall_cons in Hr as [He Hr]. rewrite shown_cons in Hs |- *.
    assert (includes (s ++ shown1 e) mark = false) as Hse by (eapply includes_prefix; [by eexists|done]).
    destruct (decide (enqueue stringify e `prefix_of` p)) as [[p' ->]|Hnot].
    + apply prefix_app_inv in Hp. rewrite app_assoc, extract_app, extract_event by done. by apply IH.
    + assert (p `prefix_of` enqueue stringify e) as Hpe.
      { destruct (prefix_weak_total _ _ _ Hp (prefix_app_r _ _ (streamed stringify evs) (reflexivity _))) as [|]; done. }
      destruct (part1 e) as [part|] eqn:Ep.
      * destruct (enqueue_part _ _ Ep) as [Eq Esh]. rewrite Eq in Hpe, Hnot. rewrite Esh in *.
        destruct (He _ eq_refl) as [Hn _]. unfold control_block in *.
        destruct (decide (gap `prefix_of` p)) as [[q ->]|Hg].
        -- apply prefix_app_inv in Hpe. assert (gapless q) as Hq.
           { apply (tail_gapless (stringify part)); [done|]. destruct Hpe as [w Hw].
             destruct w as [|c w] using rev_ind; [exfalso; apply Hnot; rewrite app_nil_r in Hw; by rewrite Hw|].
             assert (gap = nl ++ [newline]) as Hgap by done. rewrite Hgap, !app_assoc in Hw.
             apply app_inj_tail in Hw as [Hw _]. exists w. by rewrite <- Hw, !app_assoc. }
           exists (s ++ gap), q. rewrite extract_plain by (by apply pending_block). repeat split; [by rewrite app_assoc| |done|].
           ++ by eexists.
           ++ right. exists (s ++ nl). by rewrite <- app_assoc.
        -- assert (p `prefix_of` gap) as Hpg.
           { destruct (prefix_weak_total _ _ _ Hpe (prefix_app_r _ _ (mark ++ stringify part ++ gap) (reflexivity _))) as [|]; done. }
           exists (s ++ p), []. rewrite app_nil_r. rewrite extract_plain.
           ++ repeat split; [|intros [] ?; done|by left]. apply prefix_app_r. by apply prefix_app.
           ++ apply block_in_none. eapply includes_prefix; [|apply Hse]. by apply prefix_app.
      * destruct e; [done..|]. cbn in *. exists (s ++ p), []. rewrite app_nil_r. rewrite extract_plain.
        -- repeat split; [|intros [] ?; done|by left]. apply prefix_app_r. by apply prefix_app.
        -- apply block_in_none. eapply includes_prefix; [|apply Hse]. by apply prefix_app.
Qed.

(** *** The page's side *)

Lemma meta_clean s v :
  includes s meta = false -> gapless v -> (v = [] \/ exists s0, s = s0 ++ nl) -> strip_meta JSON_parse (s ++ v) = s ++ v.
Proof.
  intros Hs Hv Hend. unfold strip_meta. destruct (includes (s ++ v) meta); [|done].
  destruct (first_match meta_at (s ++ v)) as [j|] eqn:E; [exfalso|done].
  apply first_match_found in E as (a & t & E & Hm). unfold meta_at in Hm.
  destruct (is_prefix (meta ++ js "{") t) eqn:P; [|done]. apply is_prefix_spec in P as [u ->].
  rewrite <- app_assoc, drop_app_length in Hm. cbn [app js] in Hm.
  destruct (indexOf _ (js "}" ++ gap)) as [e|] eqn:Ee in Hm; [|done]. clear Hm.
  apply indexOf_Some in Ee as (w & Hw & _). rewrite includes_false in Hs. rewrite <- app_assoc in E.
  destruct Hend as [->|[s0 ->]].
  - rewrite app_nil_r in E. by eapply Hs.
  - rewrite <- app_assoc in E. change (nl ++ v) with (newline :: v) in E. pose proof E as E0.
    apply occurrence_beside in E as [[d Hd]|[d ->]]; [| |apply newline_marks].
    + apply (Hs a (d ++ nl)). rewrite Hd. by rewrite <- !app_assoc.
    + rewrite <- !app_assoc in E0. apply app_inv_head in E0. cbn [app] in E0. injection E0 as E0.
      set (x := take e _) in Hw. rewrite <- app_assoc in Hw. change (drop 1 (js "{" ++ u)) with u in Hw. rewrite Hw in E0.
      apply (Hv (d ++ meta ++ js "{" ++ x ++ js "}") w). rewrite E0. by rewrite <- !app_assoc.
Qed.

Definition parse_block (blk : str * str * str) : option (nat * json) :=
  match JSON_parse blk.1.2 with Ok part => Some (length blk.1.1, part) | Throw _ => None end.
Definition sound_block (h : str * str) : Prop :=
  last h.1 = Some newline /\ exists part, JSON_parse h.2 = Ok part /\ part <> JNull.
Definition apply_parts (l : list (nat * json)) (m : Message) : Message := foldl (fun m ip => add_part ip.2 ip.1 m) m l.
Definition parts_in (t : str) : list (nat * json) := omap parse_block (extract_all t).2.

Lemma on_message_compose id f g p :
  (forall m, m_id (g m) = m_id m) -> on_message id f (on_message id g p) = on_message id (fun m => f (g m)) p.
Proof.
  intros Hg. unfold on_message. cbn. f_equal. rewrite <- list_fmap_compose. apply list_fmap_ext. intros _ m _. cbn.
  destruct (decide (m_id m = id)) as [E|E]; [by rewrite decide_True by (by rewrite Hg)|by rewrite decide_False].
Qed.

Lemma apply_parts_id l m : m_id (apply_parts l m) = m_id m.
Proof. revert m. induction l as [|ip l IH]; intros m; [done|]. exact (IH (add_part ip.2 ip.1 m)). Qed.

Lemma apply_parts_content l c m : apply_parts l (set_content c m) = set_content c (apply_parts l m).
Proof. revert m. induction l as [|ip l IH]; intros m; [done|]. exact (IH (add_part ip.2 ip.1 m)). Qed.

Lemma message_blocks_sound id bs p :
  Forall sound_block bs.*1 ->
  message_blocks JSON_parse id bs p = Some (on_message id (apply_parts (omap parse_block bs)) p).
Proof.
  revert p. induction bs as [|[[x pl] y] bs IH]; intros p Hb.
  - cbn. f_equal. unfold on_message. destruct p; cbn. f_equal. rewrite <- (list_fmap_id p_messages0) at 1.
    apply list_fmap_ext. intros _ m _. by destruct (decide _).
  - apply Forall_cons in Hb as [[Hl (part & Hp & Hnull)] Hb]. cbn in Hl, Hp. cbn [message_blocks message_block].
    unfold parse_block at 1. cbn. rewrite Hp.
    assert (insertIndex x y = length x) as -> by (unfold insertIndex; by rewrite Hl).
    destruct part; [done|..]; cbn; rewrite (IH _ Hb), on_message_compose; done.
Qed.

Lemma parts_in_app p c : parts_in (p ++ c) = parts_in p ++ omap parse_block (extract_all ((extract_all p).1 ++ c)).2.
Proof.
  unfold parts_in. rewrite extract_app. cbn. rewrite omap_app. f_equal.
  induction (extract_all p).2 as [|blk bs IH]; [done|].
  cbn [fmap list_fmap omap list_omap] in *. rewrite IH. reflexivity.
Qed.

Lemma heads_app p c : (extract_all (p ++ c)).2.*1 = (extract_all p).2.*1 ++ (extract_all ((extract_all p).1 ++ c)).2.*1.
Proof. rewrite extract_app. cbn. rewrite fmap_app, <- list_fmap_compose. done. Qed.

Lemma extract_guard b : (if includes b mark then extract_all b else (b, [])) = extract_all b.
Proof. destruct (includes b mark) eqn:E; [done|]. rewrite extract_plain; [done|]. by apply block_in_none. Qed.

(** The message after a part [t] of the stream. *)
Definition message_at (t : str) (m : Message) : Message :=
  set_content (safe (extract_all t).1) (apply_parts (parts_in t) m).

Lemma message_at_id t m : m_id (message_at t m) = m_id m.
Proof. apply apply_parts_id. Qed.

Lemma on_message_ext id f g p : (forall m, f m = g m) -> on_message id f p = on_message id g p.
Proof. intros H. unfold on_message. f_equal. apply list_fmap_ext. intros _ m _. by rewrite H. Qed.

Lemma on_chunk_message id y early fresh c t l p0 :
  y_code y = false -> l_buffer l = (extract_all t).1 ->
  Forall sound_block (extract_all (t ++ c)).2.*1 ->
  strip_meta JSON_parse (extract_all (t ++ c)).1 = (extract_all (t ++ c)).1 ->
  on_chunk JSON_parse id y early fresh c (l, on_message id (message_at t) p0)
  = Some (set_buffer (extract_all (t ++ c)).1 l, on_message id (message_at (t ++ c)) p0).
Proof.
  intros Hy Hl Hb Hm. rewrite heads_app in Hb. apply Forall_app in Hb as [_ Hb].
  unfold on_chunk. rewrite Hy. cbn [andb l_buffer set_buffer]. rewrite Hl, extract_guard.
  unfold message_at at 2. rewrite parts_in_app. rewrite (extract_app t c) in Hm |- *.
  destruct (extract_all ((extract_all t).1 ++ c)) as [b bs] eqn:E. rewrite ?E in *. cbn [fst snd] in *.
  rewrite message_blocks_sound by done. cbn [mbind option_bind set_buffer l_buffer]. rewrite Hm. do 2 f_equal.
  rewrite !on_message_compose by (intros; by rewrite ?apply_parts_id, ?message_at_id).
  apply on_message_ext. intros m. unfold message_at. rewrite apply_parts_content.
  unfold apply_parts. by rewrite foldl_app.
Qed.

(** However the stream is cut, the page shows the same. *)
Lemma on_chunks_message id y early fresh cs : forall t l p0,
  y_code y = false -> l_buffer l = (extract_all t).1 ->
  Forall sound_block (extract_all (t ++ concat cs)).2.*1 ->
  (forall t', t' `prefix_of` (t ++ concat cs) -> strip_meta JSON_parse (extract_all t').1 = (extract_all t').1) ->
  exists l', l_current l' = l_current l /\
    on_chunks JSON_parse id y early fresh cs (l, on_message id (message_at t) p0)
    = Some (l', on_message id (message_at (t ++ concat cs)) p0).
Proof.
  induction cs as [|c cs IH]; intros t l p0 Hy Hl Hb Hm.
  - rewrite app_nil_r. by exists l.
  - cbn [concat] in *. rewrite app_assoc in Hb, Hm |- *. cbn [on_chunks].
    rewrite on_chunk_message; [|done|done| |apply Hm; by eexists].
    + cbn [mbind option_bind]. destruct (IH (t ++ c) (set_buffer (extract_all (t ++ c)).1 l) p0) as (l' & ? & ?); eauto.
    + rewrite heads_app in Hb. by apply Forall_app in Hb as [? _].
Qed.

(** The parts of the events, each with the length of what is shown before
    it. *)
Fixpoint parts_at (pos : nat) (evs : list event) : list (nat * json) :=
  match evs with
  | [] => []
  | e :: evs' =>
      match part1 e with
      | Some part => (pos + length gap, part) :: parts_at (pos + length gap) evs'
      | None => parts_at (pos + length (shown1 e)) evs'
      end
  end.

Lemma extract_events evs : forall s,
  includes (s ++ shown evs) mark = false -> readable_events evs ->
  (extract_all (s ++ streamed stringify evs)).1 = s ++ shown evs /\
  omap parse_block (extract_all (s ++ streamed stringify evs)).2 = parts_at (length s) evs /\
  Forall sound_block (extract_all (s ++ streamed stringify evs)).2.*1.
Proof.
  induction evs as [|e evs IH]; intros s Hs Hr.
  - cbn in *. rewrite !app_nil_r in *. by rewrite extract_plain by (by apply block_in_none).
  - apply Forall_cons in Hr as [He Hr]. rewrite shown_cons in Hs. rewrite streamed_cons, shown_cons.
    assert (includes (s ++ shown1 e) mark = false) as Hse by (eapply includes_prefix; [by eexists|done]).
    destruct (IH (s ++ shown1 e) Hs Hr) as (I1 & I2 & I3).
    rewrite extract_app, extract_event by done. cbn [fst snd]. split; [done|]. rewrite omap_app, fmap_app, I2.
    cbn [parts_at]. destruct (part1 e) as [part|] eqn:Ep.
    + destruct (He _ eq_refl) as [_ Hpart]. destruct (enqueue_part _ _ Ep) as [_ Hsh]. rewrite Hsh in *.
      assert (forall c, parse_block (extend c (s ++ gap, stringify part, [])) = Some (length s + length gap, part)) as Hpb
        by (intros c; unfold parse_block, extend; cbn [fst snd]; by rewrite Hpart, length_app).
      cbn [fmap list_fmap omap list_omap]. rewrite Hpb, length_app.
      split; [done|]. constructor; [|done]. split.
      * cbn [fst extend]. replace (s ++ gap) with ((s ++ nl) ++ [newline]) by (by rewrite <- app_assoc). apply last_snoc.
      * exists part. split; [done|]. by destruct e; simplify_eq/=.
    + rewrite length_app. done.
Qed.

Lemma meta_clean_stream evs t :
  t `prefix_of` streamed stringify evs -> includes (shown evs) mark = false -> includes (shown evs) meta = false ->
  readable_events evs -> strip_meta JSON_parse (extract_all t).1 = (extract_all t).1.
Proof.
  intros Ht Hm Hme Hr. destruct (buffer_form evs [] t Ht Hm Hr) as (s & v & E & Hs & Hv & Hend). cbn [app] in *.
  rewrite E. apply meta_clean; [|done|done]. by eapply includes_prefix.
Qed.

Lemma safe_plain b : includes b mark = false -> safe b = b.
Proof.
  intros H. unfold safe, lastIndexOf. destruct (last_index_upto b mark _) as [i|] eqn:E; [exfalso|done].
  apply last_index_upto_Some in E as (_ & E). apply is_prefix_spec in E as [t Ht].
  rewrite includes_false in H. apply (H (take i b) t). by rewrite <- Ht, take_drop.
Qed.

Lemma on_message_other id f (ms : list Message) :
  id ∉ m_id <$> ms -> (fun m => if decide (m_id m = id) then f m else m) <$> ms = ms.
Proof.
  intros H. rewrite <- (list_fmap_id ms) at 2. apply list_fmap_ext. intros i m Hi.
  rewrite decide_False; [done|]. intros E. apply H. apply list_elem_of_fmap. exists m. split; [done|].
  by eapply list_elem_of_lookup_2.
Qed.

(** However the stream is cut, the last message has all the text that is
    shown and the parts with their positions. *)
Lemma message_delivered evs chunks uid aid gid fresh y p
  (Hy : y_code y = false) (Hid : aid ∉ uid :: (m_id <$> p_messages p))
  (Hcut : concat chunks = streamed stringify evs)
  (Hmark : includes (shown evs) mark = false) (Hmeta : includes (shown evs) meta = false)
  (Hread : readable_events evs) :
  exists p', handleSendMessage JSON_parse uid aid gid fresh y (Body chunks false) p = Some p' /\
    p_messages p' = p_messages p ++
      [user_message uid (y_query y); set_content (shown evs) (apply_parts (parts_at 0 evs) (placeholder aid y))] /\
    p_generations p' = p_generations p /\ p_loading p' = false /\ p_input p' = [].
Proof.
  apply not_elem_of_cons in Hid as [Hu Hid]. unfold handleSendMessage, handleCodeComposerStream.
  destruct (extract_events evs [] Hmark Hread) as (X1 & X2 & X3). cbn [app length] in *.
  destruct (on_chunks_message aid y (if y_code y then Some gid else None) fresh chunks [] start (sent uid aid gid y p))
    as (l' & _ & E); [done|done|by rewrite Hcut| |].
  { intros t Ht. rewrite Hcut in Ht. by apply (meta_clean_stream evs). }
  cbn [app] in E. rewrite Hcut in E. change (message_at []) with (set_content []) in E. rewrite E. cbn [mbind option_bind].
  rewrite Hy. eexists. split; [by destruct (l_current l')|]. cbn. rewrite Hy. split; [|done].
  rewrite fmap_app, on_message_other by done. cbn. rewrite decide_False, decide_True by done. do 3 f_equal.
  unfold message_at. rewrite X1, safe_plain by done. unfold parts_in. by rewrite X2.
Qed.

(** *** What the reader sees *)

(** The calls have different identifiers, and a result belongs to a call. *)
Fixpoint paired (known : list str) (evs : list event) : Prop :=
  match evs with
  | [] => True
  | ToolCall id _ _ :: evs' => (id ∉ known) /\ paired (known ++ [id]) evs'
  | ToolResult id _ _ :: evs' => id ∈ known /\ paired known evs'
  | Stream _ :: evs' => paired known evs'
  end.

(** The part of a call once its results are in. *)
Definition settle (id : str) (part : json) (evs : list event) : json :=
  foldl (fun p e => match e with
                    | ToolResult id' name f => if decide (id' = id) then spread p (updatePart id' name f) else p
                    | _ => p
                    end) part evs.

Fixpoint calls_at (pos : nat) (evs : list event) : list (nat * json) :=
  match evs with
  | [] => []
  | ToolCall id name kw :: evs' =>
      (pos + length gap, settle id (callPart id name kw) evs') :: calls_at (pos + length gap) evs'
  | e :: evs' => calls_at (pos + length (shown1 e)) evs'
  end.

(** The events as nodes: the text since the last call, then the call with its
    final state. *)
Definition text_node (s : str) : list node := match s with [] => [] | _ => [TextNode s] end.
Fixpoint view (acc : str) (evs : list event) : list node :=
  match evs with
  | [] => text_node acc
  | ToolCall id name kw :: evs' =>
      text_node (acc ++ gap) ++ ToolNode (settle id (callPart id name kw) evs') :: view [] evs'
  | e :: evs' => view (acc ++ shown1 e) evs'
  end.
Definition is_call (e : event) : bool := match e with ToolCall _ _ _ => true | _ => false end.
Definition view_all (evs : list event) : list node :=
  if existsb is_call evs then view [] evs else [TextNode (shown evs)].

Lemma upsert_new {A} (same : A -> bool) f new l : Forall (fun x => same x = false) l -> upsert same f new l = l ++ [new].
Proof. induction 1 as [|x l Hx Hl IH]; cbn; [done|]. by rewrite Hx, IH. Qed.

Lemma upsert_old {A B} `{EqDecision B} (key : A -> B) k f new (l : list A) :
  NoDup (key <$> l) -> k ∈ key <$> l ->
  upsert (fun x => bool_decide (key x = k)) f new l = (fun x => if decide (key x = k) then f x else x) <$> l.
Proof.
  induction l as [|x l IH]; cbn; intros Hnd Hk; [by apply not_elem_of_nil in Hk|].
  apply NoDup_cons in Hnd as [Hx Hnd]. destruct (decide (key x = k)) as [E|E].
  - rewrite bool_decide_true by done. f_equal. rewrite <- (list_fmap_id l) at 1. apply list_fmap_ext. intros i z Hz.
    rewrite decide_False; [done|]. intros E'. apply Hx. rewrite E, <- E'. apply list_elem_of_fmap.
    exists z. split; [done|]. by eapply list_elem_of_lookup_2.
  - rewrite bool_decide_false by done. rewrite IH; [done|done|]. by apply elem_of_cons in Hk as [->|?].
Qed.

Lemma id_callPart id name kw : id_of (callPart id name kw) = Some (JStr id).
Proof. done. Qed.
Lemma id_spread p id name f : id_of (spread p (updatePart id name f)) = Some (JStr id).
Proof.
  unfold id_of, spread, updatePart, part_of, prop, entries. cbn [present omap list_omap foldl fst snd].
  by rewrite !map_get_set_ne, map_get_set_eq by done.
Qed.

(** The identifier of an insert. *)
Definition key_of (ip : nat * json) : str := match id_of ip.2 with Some (JStr k) => k | _ => [] end.
Definition keyed (l : list (nat * json)) : Prop := Forall (fun ip => id_of ip.2 = Some (JStr (key_of ip))) l.

Lemma upsert_ext {A} (same same' : A -> bool) f new l :
  Forall (fun x => same x = same' x) l -> upsert same f new l = upsert same' f new l.
Proof. induction 1 as [|x l Hx Hl IH]; cbn; [done|]. rewrite Hx. by destruct (same' x); rewrite ?IH. Qed.

Definition settled (evs : list event) (ip : nat * json) : nat * json := (ip.1, settle (key_of ip) ip.2 evs).

Lemma same_key l id :
  keyed l -> Forall (fun i : nat * json => strict_eq (id_of i.2) (Some (JStr id)) = bool_decide (key_of i = id)) l.
Proof. intros Hl. eapply Forall_impl; [exact Hl|]. intros ip E. cbn in E. by rewrite E. Qed.

Lemma inserts_call id name kw pos m :
  keyed (m_toolInserts m) -> id ∉ key_of <$> m_toolInserts m ->
  m_toolInserts (add_part (callPart id name kw) pos m) = m_toolInserts m ++ [(pos, callPart id name kw)].
Proof.
  intros Hk Hid. unfold add_part, set_parts. cbn [m_toolInserts]. rewrite id_callPart. apply upsert_new. pose proof (same_key _ id Hk) as Hs.
  rewrite Forall_forall in Hs |- *. intros ip Hip. rewrite Hs by done. apply bool_decide_eq_false. intros <-.
  apply Hid. by apply list_elem_of_fmap_2.
Qed.

Lemma inserts_result id name f pos m :
  keyed (m_toolInserts m) -> NoDup (key_of <$> m_toolInserts m) -> id ∈ key_of <$> m_toolInserts m ->
  m_toolInserts (add_part (updatePart id name f) pos m) =
  (fun ip => if decide (key_of ip = id) then (ip.1, spread ip.2 (updatePart id name f)) else ip) <$> m_toolInserts m.
Proof.
  intros Hk Hnd Hid. unfold add_part, set_parts. cbn [m_toolInserts]. change (id_of (updatePart id name f)) with (Some (JStr id)).
  rewrite (upsert_ext _ _ _ _ _ (same_key _ id Hk)). by apply upsert_old.
Qed.

Lemma inserts_after evs : forall pos m,
  keyed (m_toolInserts m) -> NoDup (key_of <$> m_toolInserts m) -> paired (key_of <$> m_toolInserts m) evs ->
  m_toolInserts (apply_parts (parts_at pos evs) m) = (settled evs <$> m_toolInserts m) ++ calls_at pos evs.
Proof.
  induction evs as [|e evs IH]; intros pos m Hk Hnd Hp.
  - cbn. rewrite app_nil_r. symmetry. rewrite <- (list_fmap_id (m_toolInserts m)) at 2. apply list_fmap_ext.
    intros _ [i part] _. done.
  - destruct e as [id name kw|id name f|d]; cbn [paired part1 parts_at calls_at shown1] in *.
    + destruct Hp as [Hid Hp].
      change (apply_parts (?ip :: ?l) m) with (apply_parts l (add_part ip.2 ip.1 m)). cbn [fst snd].
      pose proof (inserts_call id name kw (pos + length gap) m Hk Hid) as E. rewrite IH; rewrite ?E.
      * rewrite fmap_app, <- app_assoc. done.
      * apply Forall_app. split; [done|]. by constructor.
      * rewrite fmap_app. apply NoDup_app. split; [done|]. split; [|apply NoDup_singleton].
        intros k Hin ->%list_elem_of_singleton. done.
      * by rewrite fmap_app.
    + destruct Hp as [Hid Hp].
      change (apply_parts (?ip :: ?l) m) with (apply_parts l (add_part ip.2 ip.1 m)). cbn [fst snd].
      pose proof (inserts_result id name f (pos + length gap) m Hk Hnd Hid) as E.
      assert (forall ip, key_of (if decide (key_of ip = id) then (ip.1, spread ip.2 (updatePart id name f)) else ip) = key_of ip) as Hkey.
      { intros ip. destruct (decide (key_of ip = id)) as [<-|]; [|done]. unfold key_of at 1. cbn [snd]. by rewrite id_spread. }
      assert (key_of <$> m_toolInserts (add_part (updatePart id name f) (pos + length gap) m) = key_of <$> m_toolInserts m) as Ek.
      { rewrite E, <- list_fmap_compose. apply list_fmap_ext. intros _ ip _. apply Hkey. }
      rewrite IH; rewrite ?Ek; [|..|done|done].
      * rewrite E, <- list_fmap_compose. f_equal. apply list_fmap_ext. intros _ ip _. unfold settled, compose.
        rewrite Hkey. cbn. destruct (decide (key_of ip = id)) as [<-|]; [by rewrite decide_True|by rewrite decide_False].
      * rewrite E. apply Forall_fmap. eapply Forall_impl; [exact Hk|]. intros ip Hip. unfold compose. rewrite Hkey.
        destruct (decide (key_of ip = id)) as [<-|]; [apply id_spread|done].
    + rewrite IH by done. done.
Qed.

Lemma calls_positions pos evs i part : (i, part) ∈ calls_at pos evs -> pos <= i.
Proof.
  revert pos. induction evs as [|e evs IH]; intros pos; cbn; [by intros ?%not_elem_of_nil|].
  destruct e; cbn; [|intros H%IH; lia|intros H%IH; lia].
  intros [[= -> ->]|H%IH]%elem_of_cons; lia.
Qed.

Lemma calls_sorted pos evs : StronglySorted (fun a b : nat * json => (b.1 <? a.1)%nat = false) (calls_at pos evs).
Proof.
  revert pos. induction evs as [|e evs IH]; intros pos; cbn; [constructor|]. destruct e; cbn; [|apply IH..].
  constructor; [apply IH|]. apply Forall_forall. intros [i part] H%calls_positions. cbn in *. apply Nat.ltb_ge. lia.
Qed.

Lemma nodes_view evs : forall pre acc,
  nodes_from (pre ++ acc ++ shown evs) (length pre) (calls_at (length (pre ++ acc)) evs) = view acc evs.
Proof.
  induction evs as [|e evs IH]; intros pre acc.
  - cbn. rewrite app_nil_r, drop_app_length. done.
  - destruct e as [id name kw|id name f|d]; cbn [calls_at view].
    + cbn [nodes_from].
      rewrite Nat.min_l by (rewrite !length_app; cbn; lia).
      replace (pre ++ acc ++ shown (ToolCall id name kw :: evs)) with (((pre ++ acc ++ gap)) ++ [] ++ shown evs) by (by rewrite <- !app_assoc).
      replace (length (pre ++ acc) + length gap) with (length (pre ++ acc ++ gap)) by (rewrite !length_app; cbn; lia).
      specialize (IH (pre ++ acc ++ gap) []). rewrite app_nil_r in IH. rewrite IH. f_equal.
      rewrite slice_take_drop by (rewrite !length_app; cbn; lia).
      rewrite Nat2Z.id, <- Nat2Z.inj_sub, Nat2Z.id by (rewrite !length_app; lia).
      rewrite <- app_assoc, drop_app_length, take_app_length' by (rewrite !length_app; lia). done.
    + replace (pre ++ acc ++ shown (ToolResult id name f :: evs)) with (pre ++ (acc ++ gap) ++ shown evs) by (by rewrite <- !app_assoc).
      cbn [shown1]. rewrite <- (IH pre). do 2 f_equal. rewrite !length_app. cbn. lia.
    + replace (pre ++ acc ++ shown (Stream d :: evs)) with (pre ++ (acc ++ d) ++ shown evs) by (by rewrite <- !app_assoc).
      cbn [shown1]. rewrite <- (IH pre). do 2 f_equal. rewrite !length_app. cbn. lia.
Qed.

Lemma calls_none pos evs : existsb is_call evs = false <-> calls_at pos evs = [].
Proof. revert pos. induction evs as [|e evs IH]; intros pos; cbn; [done|]. destruct e; cbn; [done|apply IH..]. Qed.

Lemma rendered_view aid y evs : paired [] evs ->
  rendered (set_content (shown evs) (apply_parts (parts_at 0 evs) (placeholder aid y))) = view_all evs.
Proof.
  intros Hp. unfold rendered. cbn [m_toolInserts set_content m_content].
  rewrite inserts_after by (done || constructor). cbn [m_toolInserts placeholder fmap list_fmap app].
  rewrite sort_by_id by apply calls_sorted. unfold view_all. destruct (existsb is_call evs) eqn:E.
  - pose proof (nodes_view evs [] []) as N. cbn [app length] in N. rewrite <- N.
    destruct (calls_at 0 evs) eqn:C; [|done]. apply calls_none in C. congruence.
  - by rewrite (proj1 (calls_none 0 evs) E).
Qed.

(** C8: the answer in full, in the ordinary mode (not code generation), when
    the text of the tools and the model contains neither of the control
    markers [__TOOL_CALL__] and [__CODE_COMPOSER_META__], every tool call has
    an identifier of its own and every result the identifier of a call made
    before it, the JSON of each control block has no line break and parses
    back, and the identifier of the new message is not in use.  However the
    network cuts the stream into chunks, the page ends with one more
    message by the user and one by the assistant, which shows what happened in
    the order it happened: the text, a paragraph break for each control block,
    and every tool call at its place and in its final state.  No control text
    is left, and the page is ready for the next message. *)
Theorem chat_delivered evs chunks uid aid gid fresh y p
  (Hy : y_code y = false) (Hid : aid ∉ uid :: (m_id <$> p_messages p))
  (Hcut : concat chunks = streamed stringify evs)
  (Hmark : includes (shown evs) mark = false) (Hmeta : includes (shown evs) meta = false)
  (Hread : readable_events evs) (Hpair : paired [] evs) :
  exists p' m, handleSendMessage JSON_parse uid aid gid fresh y (Body chunks false) p = Some p' /\
    p_messages p' = p_messages p ++ [user_message uid (y_query y); m] /\
    m_id m = aid /\ m_content m = shown evs /\ m_loading m = false /\ rendered m = view_all evs /\
    p_generations p' = p_generations p /\ p_loading p' = false /\ p_input p' = [].
Proof.
  destruct (message_delivered evs chunks uid aid gid fresh y p Hy Hid Hcut Hmark Hmeta Hread) as (p' & E & Hm & Hrest).
  do 2 eexists. split; [exact E|]. split; [exact Hm|]. rewrite rendered_view by done. split; [apply apply_parts_id|]. done.
Qed.

(** ** The sections of a code generation *)

Definition phase_after (e : event) (ph : phase) : phase :=
  match part1 e with Some part => next_phase part ph | None => ph end.

(** The text of the events that happen in the phase [want]. *)
Fixpoint section (want ph : phase) (evs : list event) : str :=
  match evs with
  | [] => []
  | e :: evs' =>
      let ph' := phase_after e ph in
      (if decide (ph' = want) then shown1 e else []) ++ section want ph' evs'
  end.

Fixpoint last_phase (ph : phase) (evs : list event) : phase :=
  match evs with [] => ph | e :: evs' => last_phase (phase_after e ph) evs' end.

(** A page whose last generation is the one of the current request. *)
Record coding (old : list CodeGeneration) (ms : list Message) (gid : str) (y : Payload) (p : Page) : Prop := {
  co_messages : p_messages p = ms;
  co_generations : exists g, p_generations p = old ++ [g] /\ g_id g = gid /\
    g_language g = str_or (y_language y) (js "ts") /\ g_query g = y_query y;
}.

Section coding.
Context (old : list CodeGeneration) (ms : list Message) (gid : str) (y : Payload).
Context (Hgid : gid ∉ g_id <$> old).

Lemma on_generation_last f g : g_id g = gid ->
  (fun g => if decide (g_id g = gid) then f g else g) <$> (old ++ [g]) = old ++ [f g].
Proof.
  intros Hg. rewrite fmap_app. cbn. rewrite decide_True by done. f_equal.
  rewrite <- (list_fmap_id old) at 2. apply list_fmap_ext. intros i g' Hi. rewrite decide_False; [done|].
  intros E. apply Hgid, list_elem_of_fmap. exists g'. split; [done|]. by eapply list_elem_of_lookup_2.
Qed.

Lemma on_generation_coding f p :
  (forall g, g_id (f g) = g_id g /\ g_language (f g) = g_language g /\ g_query (f g) = g_query g) ->
  coding old ms gid y p -> coding old ms gid y (on_generation gid f p).
Proof.
  intros Hf [Hm (g & E & Hg & Hl & Hq)]. split; [done|]. destruct (Hf g) as (F1 & F2 & F3). exists (f g).
  cbn. rewrite E, on_generation_last by done. by rewrite F1, F2, F3.
Qed.

Lemma code_blocks_event l p s e :
  (forall part, part1 e = Some part -> readable part) -> l_current l = Some gid -> coding old ms gid y p ->
  exists p', foldl (fun st blk => code_block JSON_parse y blk st) (l, p)
      (match part1 e with Some part => [(s ++ gap, stringify part, [])] | None => [] end)
    = (set_phase (phase_after e (l_phase l)) l, p') /\ coding old ms gid y p'.
Proof.
  intros He Hcur Hp. unfold phase_after. destruct (part1 e) as [part|] eqn:E; cbn [foldl].
  - destruct (He _ eq_refl) as [_ Hparse]. unfold code_block. cbn [fst snd]. rewrite Hparse, Hcur.
    eexists. split; [done|]. case_match; [|done]. by apply on_generation_coding.
  - exists p. split; [|done]. by destruct l.
Qed.

(** The variables of the reader after the events so far. *)
Definition read_so_far (evs : list event) (l : Live) : Prop :=
  l_buffer l = shown evs /\ l_prev l = length (shown evs) /\ l_phase l = last_phase ReadingDocuments evs /\
  l_plan l = section Plan ReadingDocuments evs /\ l_pseudo l = section Pseudocode ReadingDocuments evs /\
  l_impl l = section Implementation ReadingDocuments evs.

Lemma section_snoc want ph evs e :
  section want ph (evs ++ [e]) =
  section want ph evs ++ (if decide (phase_after e (last_phase ph evs) = want) then shown1 e else []).
Proof.
  revert ph. induction evs as [|e' evs IH]; intros ph; cbn.
  - by rewrite app_nil_r.
  - by rewrite IH, app_assoc.
Qed.

Lemma last_phase_snoc ph evs e : last_phase ph (evs ++ [e]) = phase_after e (last_phase ph evs).
Proof. revert ph. induction evs as [|e' evs IH]; intros ph; cbn; [done|]. apply IH. Qed.

Lemma shown_app evs1 evs2 : shown (evs1 ++ evs2) = shown evs1 ++ shown evs2.
Proof. unfold shown. by rewrite fmap_app, concat_app. Qed.

Lemma shown_snoc evs e : shown (evs ++ [e]) = shown evs ++ shown1 e.
Proof. rewrite shown_app. cbn. by rewrite app_nil_r. Qed.

(** One more event, in a chunk of its own. *)
Lemma on_chunk_event id fresh evs e l p :
  y_code y = true -> l_current l = Some gid -> l_initialized l = true -> read_so_far evs l -> coding old ms gid y p ->
  includes (shown (evs ++ [e])) mark = false -> (forall part, part1 e = Some part -> readable part) ->
  exists l' p', on_chunk JSON_parse id y (Some gid) fresh (enqueue stringify e) (l, p) = Some (l', p') /\
    l_current l' = Some gid /\ l_initialized l' = true /\ read_so_far (evs ++ [e]) l' /\ coding old ms gid y p'.
Proof.
  intros Hy Hcur Hin Hread Hp Hm He. destruct l as [b cur ph pr pl ps im ini].
  unfold read_so_far in Hread. cbn in Hcur, Hin, Hread. destruct Hread as (-> & -> & -> & -> & -> & ->). subst cur ini.
  unfold on_chunk. rewrite Hy. cbn [andb negb l_initialized set_buffer l_buffer]. rewrite shown_snoc in Hm.
  rewrite extract_guard, extract_event by done.
  set (l0 := set_buffer _ _).
  destruct (code_blocks_event l0 p (shown evs) e He eq_refl Hp) as (p' & -> & Hp').
  unfold append_live. cbn [l_buffer set_phase l_prev l_phase l0 set_buffer l_current l_plan l_pseudo l_impl l_initialized].
  rewrite safe_plain by done. rewrite drop_app_length.
  set (ph := phase_after e _).
  unfold read_so_far. rewrite !section_snoc, last_phase_snoc, shown_snoc. fold ph.
  destruct ph; (do 2 eexists; split; [reflexivity|]); cbn; rewrite ?app_nil_r; repeat (split; [done|]);
    (destruct (shown1 e); [done|by apply on_generation_coding]).
Qed.

Lemma on_chunks_events id fresh evs2 : forall evs1 l p,
  y_code y = true -> l_current l = Some gid -> l_initialized l = true -> read_so_far evs1 l -> coding old ms gid y p ->
  includes (shown (evs1 ++ evs2)) mark = false -> readable_events evs2 ->
  exists l' p', on_chunks JSON_parse id y (Some gid) fresh (enqueue stringify <$> evs2) (l, p) = Some (l', p') /\
    l_current l' = Some gid /\ read_so_far (evs1 ++ evs2) l' /\ coding old ms gid y p'.
Proof.
  induction evs2 as [|e evs2 IH]; intros evs1 l p Hy Hc Hi Hr Hp Hm He.
  - rewrite app_nil_r. exists l, p. done.
  - apply Forall_cons in He as [He1 He]. replace (evs1 ++ e :: evs2) with ((evs1 ++ [e]) ++ evs2) in * by (by rewrite <- app_assoc).
    destruct (on_chunk_event id fresh evs1 e l p) as (l' & p' & E & ? & ? & ? & ?); [done..| |done|].
    { eapply includes_prefix; [|apply Hm]. rewrite (shown_app (evs1 ++ [e])). by eexists. }
    cbn [fmap list_fmap on_chunks]. rewrite E. cbn [mbind option_bind]. by apply IH.
Qed.
End coding.

(** When every event of a code generation arrives in a chunk of its own, the
    sections hold exactly the texts of their phases: the plan what the planner
    wrote after the documents were read, then the pseudocode and the
    implementation, each from the hand-over on; the topic is the first line of
    the plan and the generation is marked as finished. *)
Theorem code_sections e0 evs uid aid gid fresh y p
  (Hy : y_code y = true) (Hid : aid ∉ uid :: (m_id <$> p_messages p)) (Hg : gid ∉ g_id <$> p_generations p)
  (Hmark : includes (shown (e0 :: evs)) mark = false) (Hread : readable_events (e0 :: evs)) :
  let plan := section Plan ReadingDocuments (e0 :: evs) in
  let pseudo := section Pseudocode ReadingDocuments (e0 :: evs) in
  let impl := section Implementation ReadingDocuments (e0 :: evs) in
  exists p' srcs, handleSendMessage JSON_parse uid aid gid fresh y (Body (enqueue stringify <$> e0 :: evs) false) p = Some p' /\
    p_generations p' = p_generations p ++
      [MkGeneration gid (str_or (y_language y) (js "ts")) (y_query y) (topic_of plan) plan pseudo impl
         (match plan ++ pseudo ++ impl with [] => false | _ => true end) false None srcs] /\
    p_messages p' = p_messages p ++ [user_message uid (y_query y); set_content started (placeholder aid y)] /\
    p_loading p' = false.
Proof.
  intros plan pseudo impl. apply not_elem_of_cons in Hid as [Hu Hid].
  set (p0 := on_message aid (set_content []) (sent uid aid gid y p)).
  set (p1 := set_research (on_message aid (set_content started) p0)).
  set (ms := p_messages p ++ [user_message uid (y_query y); set_content started (placeholder aid y)]).
  assert (coding (p_generations p) ms gid y p1) as Hc.
  { split.
    - cbn. rewrite !fmap_app, !on_message_other by (by rewrite ?on_message_other). cbn.
      by rewrite !(decide_False (P := uid = aid)), !(decide_True (P := aid = aid)) by done.
    - exists (new_generation gid y). cbn. by rewrite Hy. }
  destruct (on_chunks_events (p_generations p) ms gid y Hg aid fresh (e0 :: evs) [] (set_current gid start) p1)
    as (l' & p' & E & Hcur & (Hb & Hpr & Hph & Hpl & Hps & Him) & [Hm (g & Hg' & H1 & H2 & H3)]);
    [done|done|done|done|done|done|done|].
  assert (on_chunks JSON_parse aid y (Some gid) fresh (enqueue stringify <$> e0 :: evs) (start, p0) = Some (l', p')) as E'.
  { rewrite <- E. cbn [fmap list_fmap on_chunks]. f_equal. unfold on_chunk. by rewrite Hy. }
  exists (set_loading false (on_generation gid (finish_sections l') p')), (g_sources g).
  unfold handleSendMessage, handleCodeComposerStream. rewrite Hy. fold p0. rewrite E'. cbn [mbind option_bind].
  rewrite Hcur. split; [done|]. cbn. rewrite Hg', on_generation_last by done. split; [|done].
  unfold finish_sections. rewrite Hpl, Hps, Him, H1, H2, H3. done.
Qed.
End delivery.

(** ** Runs *)

Definition empty_page : Page := MkPage [] [] [] [] false false false false.

(** A printer that writes the type and state of a part, and its inverse on the
    given parts. *)
Definition toy_stringify (v : json) : str :=
  str_or (as_str (prop v (js "type"))) [] ++ js ":" ++ str_or (as_str (prop v (js "state"))) [].
Definition toy_parse (parts : list json) (s : str) : result json :=
  match List.find (fun p => bool_decide (toy_stringify p = s)) parts with Some p => Ok p | None => Throw (js "SyntaxError") end.

Definition toy_call : event := ToolCall (js "1") (js "search_web") None.
Definition toy_done : event := ToolResult (js "1") (js "search_web") false.
Definition toy_parts : list json := [callPart (js "1") (js "search_web") None; updatePart (js "1") (js "search_web") false].
Definition toy_events : list event := [Stream (js "Let me look."); toy_call; toy_done; Stream (js "Found it.")].
Definition toy_payload (code : bool) : Payload := MkPayload (js "q") [js "d"] false code None.

(** The stream cut in the middle of the first marker. *)
Definition toy_chunks : list str :=
  let t := streamed toy_stringify toy_events in [take 18 t; drop 18 t].

(** Concrete events are readable. *)
Ltac solve_readable :=
  cbv [readable_events toy_events]; repeat (apply Forall_cons; split;
    [intros part Hpart; vm_compute in Hpart;
     first [discriminate Hpart
           |injection Hpart as <-; split; [apply (bool_decide_unpack _); vm_compute; exact I|vm_compute; reflexivity]]|]);
  apply Forall_nil_2.

Lemma chat_delivered_witness : exists p' m,
  handleSendMessage (toy_parse toy_parts) (js "u") (js "a") (js "g") (js "f") (toy_payload false) (Body toy_chunks false) empty_page
    = Some p' /\ p_messages p' = [user_message (js "u") (js "q"); m] /\ rendered m = view_all toy_events.
Proof.
  destruct (chat_delivered toy_stringify (toy_parse toy_parts) toy_events toy_chunks (js "u") (js "a") (js "g") (js "f")
              (toy_payload false) empty_page) as (p' & m & E & Hm & _ & _ & _ & Hr & _).
  - reflexivity.
  - apply (bool_decide_unpack _). vm_compute. exact I.
  - vm_compute. reflexivity.
  - vm_compute. reflexivity.
  - vm_compute. reflexivity.
  - solve_readable.
  - cbn. split; [apply not_elem_of_nil|]. split; [by constructor|done].
  - exists p', m. exact (conj E (conj Hm Hr)).
Defined.

(** A code generation: the documents are read, the planner writes, and hands
    over. *)
Definition toy_read : event := ToolResult (js "1") (js "retrieve_documents") false.
Definition toy_handOff : event :=
  ToolCall (js "2") (js "handOff") (Some (JObj [(js "toAgent", JStr (js "PseudoCodeAgent"))])).
Definition code_parts : list json :=
  [updatePart (js "1") (js "retrieve_documents") false;
   callPart (js "2") (js "handOff") (Some (JObj [(js "toAgent", JStr (js "PseudoCodeAgent"))]))].
Definition code_events : list event := [toy_read; Stream (js "the plan"); toy_handOff; Stream (js "the steps")].

Definition sections_of (chunks : list str) : list (str * str) :=
  match handleSendMessage (toy_parse code_parts) (js "u") (js "a") (js "g") (js "f") (toy_payload true) (Body chunks false) empty_page with
  | Some p => (fun g => (trim (g_plan g), trim (g_pseudocode g))) <$> p_generations p
  | None => []
  end.

Lemma code_sections_witness :
  section Plan ReadingDocuments code_events = gap ++ js "the plan" /\
  exists p' srcs,
  handleSendMessage (toy_parse code_parts) (js "u") (js "a") (js "g") (js "f") (toy_payload true)
    (Body (enqueue toy_stringify <$> code_events) false) empty_page = Some p' /\
  p_generations p' = [MkGeneration (js "g") (js "ts") (js "q") (js "the plan") (gap ++ js "the plan")
    (gap ++ js "the steps") [] true false None srcs].
Proof.
  split; [vm_compute; reflexivity|].
  destruct (code_sections toy_stringify (toy_parse code_parts) toy_read [Stream (js "the plan"); toy_handOff; Stream (js "the steps")]
              (js "u") (js "a") (js "g") (js "f") (toy_payload true) empty_page) as (p' & srcs & E & Hg & _).
  - reflexivity.
  - apply (bool_decide_unpack _). vm_compute. exact I.
  - apply not_elem_of_nil.
  - vm_compute. reflexivity.
  - solve_readable.
  - exists p', srcs. split; [exact E|]. rewrite Hg. vm_compute. reflexivity.
Defined.

(** When the hand-over arrives in the same chunk as the end of the plan, that
    text is taken for pseudocode. *)
Example plan_taken_for_pseudocode :
  let t e := enqueue toy_stringify e in
  sections_of [t toy_read; t (Stream (js "the plan")) ++ t toy_handOff; t (Stream (js "the steps"))]
  = [([], jsn "the plan|n|nthe steps")].
Proof. vm_compute. reflexivity. Qed.

(** When a marker is cut in two, its first half is shown in the plan, and the
    text after the block is lost. *)
Example cut_marker_loses_text :
  let t := streamed toy_stringify code_events in
  sections_of [enqueue toy_stringify toy_read; js "the plan" ++ take 9 (enqueue toy_stringify toy_handOff);
               drop 9 (enqueue toy_stringify toy_handOff) ++ js "steps"]
  = [(jsn "the plan|n|n__TOOL_", [])].
Proof. vm_compute. reflexivity. Qed.
