(* ===== verification/NexusService.v ===== *)
(** * The services behind the Nexus research page

    src/ecosystem/ai-tools/nexus/src: lib/llama-service.ts ingests documents
    and retrieves passages, lib/agent.ts keeps one agent per session, and the
    routes app/api/research/prepare-index and app/api/research/chat call them.

    Parameters: the parsing service, the ingestion pipeline and the vector index
    (LlamaIndex), the table of parsed documents (a class, with the laws the
    service relies on) and the construction of an agent.  Creating the service
    and the agents' prompts are configuration and are not modelled. *)

From S2P Require Import Prelude JsString JsArray JsNum Json ChatStream.

(** ** Ingestion *)

Inductive parsing_status := Success (pagesCount chunksCount : nat) | Failed (parsing_error : str).
Definition is_success (s : parsing_status) : bool := match s with Success _ _ => true | Failed _ => false end.

(** What a query for the successful row of a file answers. *)
Inductive lookup_answer := RowFound | RowMissing | LookupError.

(** The table [parsed_documents], with a row per file. *)
Class ParsedTable (D : Type) := {
  select_success : D -> str -> lookup_answer;
  upsert_row : D -> str -> parsing_status -> D * bool;
  delete_all : D -> D * bool;
}.

(** A document given to the pipeline. *)
Record PageDocument := MkPage_ { pd_text : json; pd_id : str; pd_file : str; pd_page : json }.

Section ingestion.
Context {D V : Type} `{ParsedTable D}.
(** [reader.loadJson], [pipeline.run] on the vector store, and [String]. *)
Context (loadJson : str -> result (list json)) (pipeline_run : V -> list PageDocument -> V * result unit).
Context (String_of : json -> str).

(** The second component: the database reported no error. *)
Definition clearCache (d : D) : D := (delete_all d).1.

Definition isFileParsed (d : D) (file : str) : bool :=
  match select_success d file with RowFound => true | RowMissing | LookupError => false end.

Definition markFileParsed (d : D) (file : str) (pages chunks : nat) : D := (upsert_row d file (Success pages chunks)).1.
Definition markFileFailed (d : D) (file errorMessage : str) : D := (upsert_row d file (Failed errorMessage)).1.

(** [if (page && page.md && page.page !== undefined)] *)
Definition page_document (file : str) (page : json) : option PageDocument :=
  match prop page (js "md"), prop page (js "page") with
  | Some md, Some n =>
      if truthy (Some md) then Some (MkPage_ md (file ++ js "_page_" ++ String_of n) file n) else None
  | _, _ => None
  end.

(** The loop over the objects of a file: the documents so far, the number of
    pages of the last object that has pages; reading a property of [null]
    throws, and the documents so far are kept. *)
Fixpoint collect (file : str) (objs : list json) (docs : list PageDocument) (pages : nat)
  : list PageDocument * result nat :=
  match objs with
  | [] => (docs, Ok pages)
  | obj :: objs' =>
      match get_prop (Some obj) (js "pages") with
      | Throw e => (docs, Throw e)
      | Ok (Some (JArr ps)) => collect file objs' (docs ++ omap (page_document file) ps) (length ps)
      | Ok _ => collect file objs' docs pages
      end
  end.

(** One file: the documents it adds. *)
Definition ingest_file (vercel force : bool) (file : str) (d : D) : D * list PageDocument :=
  let isAlreadyParsed := isFileParsed d file in
  if negb vercel && (negb isAlreadyParsed || force) then
    match loadJson file with
    | Throw e => (markFileFailed d file e, [])
    | Ok objs =>
        let '(docs, r) := collect file objs [] 0 in
        (match r with
         | Ok pages => markFileParsed d file pages (length docs)
         | Throw e => markFileFailed d file e
         end, docs)
    end
  else (d, []).

Fixpoint ingest_files (vercel force : bool) (files : list str) (d : D) : D * list PageDocument :=
  match files with
  | [] => (d, [])
  | f :: fs =>
      let '(d, docs) := ingest_file vercel force f d in
      let '(d, rest) := ingest_files vercel force fs d in
      (d, docs ++ rest)
  end.

(** [ingestDocs]: errors of the pipeline are logged only. *)
Definition ingestDocs (vercel : bool) (files : list str) (force : bool) (d : D) (v : V) : D * V :=
  let '(d, docs) := ingest_files vercel force files d in
  match docs with
  | [] => (d, v)
  | _ => (d, (pipeline_run v docs).1)
  end.

(** ** Preparing an index *)

Inductive reply :=
| Failure (status : Z) (error : str)
| Prepared (documentPaths : list str).

(** [request]: the two fields of the body, when it is JSON. *)
Definition prepare_index (vercel : bool) (deepSeekApiKey llamaCloudApiKey : option str)
    (request : option (option str * option (option (list str)))) (d : D) (v : V) : D * V * reply :=
  match request with
  | None => (d, v, Failure 500 (js "Internal server error"))
  | Some (documentPath, documentPaths) =>
      match str_or documentPath [], documentPaths with
      | [], None => (d, v, Failure 400 (js "Either documentPath or documentPaths is required"))
      | _, Some (None | Some []) => (d, v, Failure 400 (js "documentPaths must be a non-empty array"))
      | path, paths =>
          match str_or deepSeekApiKey [], str_or llamaCloudApiKey [] with
          | [], _ => (d, v, Failure 500 (js "DeepSeek API key is required"))
          | _, [] => (d, v, Failure 500 (js "LlamaCloud API key is required"))
          | _, _ =>
              let toProcess := match paths with Some (Some ps) => ps | _ => [path] end in
              let '(d, v) := ingestDocs vercel toProcess false d v in
              (d, v, Prepared toProcess)
          end
      end
  end.
End ingestion.

(** ** Retrieval *)

Record Passage := MkPassage { ps_content : str; ps_metadata : json }.

Section retrieval.
(** The retriever for one document (the best five), and the postprocessor with
    its cut-off, over the nodes of the index. *)
Context {N : Type} (retrieve_document : str -> str -> result (list N)) (postprocess : list N -> list N).
Context (passage : N -> Passage).

Fixpoint retrieve_all (query : str) (paths : list str) : result (list N) :=
  match paths with
  | [] => Ok []
  | p :: ps => (try! nodes <- retrieve_document p query; try! rest <- retrieve_all query ps; Ok (nodes ++ rest))%js
  end.

Definition retrieve (query : str) (paths : list str) : result (list Passage) :=
  (try! nodes <- retrieve_all query paths; Ok (passage <$> postprocess nodes))%js.
End retrieval.

(** ** Agents *)

Section agents.
(** A workflow and a memory, as made for a session: [agent] and
    [createMemory] with a counter that tells the objects apart. *)
Context {W M : Type} (create_memory : nat -> str -> M) (create_workflow : nat -> M -> W).
Context (memory_add : M -> str -> M).
(** The workflow of the code agent for a language and documents. *)
Context (create_code_agent : nat -> str -> list str -> W).

Record NexusAgent := Agent { workflows : jsmap str W; memories : jsmap str M }.

(** The singleton, and how many objects were made. *)
Record world := World { instance : option NexusAgent; made : nat }.

Definition create (configured : bool) (w : world) : world * result NexusAgent :=
  match instance w with
  | Some a => (w, Ok a)
  | None =>
      if configured then (World (Some (Agent [] [])) (made w), Ok (Agent [] []))
      else (w, Throw (js "Supabase URL and Key are required"))
  end.

Definition getInstance (w : world) : result NexusAgent :=
  match instance w with Some a => Ok a | None => Throw (js "NexusAgent must be created with create() method first") end.

(** [createAgent] of the instance. *)
Definition createAgent (documents : list str) (sessionId : str) (w : world) : world * result W :=
  match instance w with
  | None => (w, Throw (js "no instance"))
  | Some a =>
      match documents with
      | [] => (w, Throw (js "Documents array cannot be empty"))
      | _ =>
          match map_get (workflows a) sessionId with
          | Some wf => (w, Ok wf)
          | None =>
              let memory := create_memory (made w) sessionId in
              let wf := create_workflow (made w) memory in
              (World (Some (Agent (map_set (workflows a) sessionId wf) (map_set (memories a) sessionId memory))) (S (made w)),
               Ok wf)
          end
      end
  end.

Definition resetInstance (w : world) : world := World None (made w).

Definition getMemory (sessionId : str) (w : world) : option M := a ← instance w; map_get (memories a) sessionId.

Definition addDocumentUpdateToMemory (sessionId : str) (paths : list str) (w : world) : world :=
  match instance w with
  | Some a =>
      match map_get (memories a) sessionId with
      | Some m =>
          let message := js "Updated documents:" ++ nl ++ join ((fun p => js "- " ++ p) <$> paths) nl in
          World (Some (Agent (workflows a) (map_set (memories a) sessionId (memory_add m message)))) (made w)
      | None => w
      end
  | None => w
  end.

(** ** The chat route *)

Record ChatRequest := MkChat {
  c_data : RequestData;
  c_preferWebSearch : bool;
  c_tool : option str;
  c_language : option str;
  c_sessionId : option str;
}.

Inductive chat_reply :=
| ChatError (status : Z) (error : str)
| ChatStarted (workflow : W) (sessionId : str) (query : str).

(** [request]: the body of the request, when it is JSON; [now]: the time, as a
    text. *)
Definition POST (deepSeekApiKey : option str) (configured : bool) (now : str) (request : option ChatRequest) (w : world)
  : world * chat_reply :=
  match request with
  | None => (w, ChatError 500 (js "Internal server error"))
  | Some c =>
      match validateRequest deepSeekApiKey (c_data c) with
      | Some error => (w, ChatError 400 error)
      | None =>
          let paths := match rq_documentPaths (c_data c) with
                       | Some (Some ps) => ps
                       | _ => [str_or (rq_documentPath (c_data c)) []]
                       end in
          let sessionId := str_or (c_sessionId c) now in
          let '(w, r) :=
            if bool_decide (c_tool c = Some (js "code-composer"))
            then (World (instance w) (S (made w)), Ok (create_code_agent (made w) (str_or (c_language c) (js "ts")) paths))
            else match create configured w with
                 | (w, Throw e) => (w, Throw e)
                 | (w, Ok _) => createAgent paths sessionId w
                 end in
          (w, match r with
              | Throw e => ChatError 500 (getErrorMessage (Some e))
              | Ok wf => ChatStarted wf sessionId
                  (contextualQuery (str_or (rq_query (c_data c)) []) (Some paths) (c_preferWebSearch c))
              end)
      end
  end.
End agents.

(** ** What is ingested *)

(** What the service relies on: a row is found after it was written without an
    error, a write that is reported as failed changes nothing, and other files
    keep their rows. *)
Class ParsedLaws (D : Type) `{ParsedTable D} := {
  upsert_same : forall d f s, (upsert_row d f s).2 = true ->
    select_success (upsert_row d f s).1 f = if is_success s then RowFound else RowMissing;
  upsert_error : forall d f s, (upsert_row d f s).2 = false -> (upsert_row d f s).1 = d;
  upsert_other : forall d f g s, f <> g -> select_success (upsert_row d f s).1 g = select_success d g;
}.

Section ingested.
Context {D V : Type} `{PL : ParsedLaws D}.
Context (loadJson : str -> result (list json)) (String_of : json -> str).

(** The documents of a file, and whether all of it could be read. *)
Definition read_file (file : str) : list PageDocument * bool :=
  match loadJson file with
  | Throw _ => ([], false)
  | Ok objs => let '(docs, r) := collect String_of file objs [] 0 in (docs, is_ok r)
  end.

Abbreviation file_step := (ingest_file loadJson String_of false false).
Abbreviation files_step := (ingest_files loadJson String_of false false).

(** Writing rows never fails. *)
Definition reliable : Prop := forall d f s, (upsert_row d f s).2 = true.

Lemma ingest_file_docs f d : (file_step f d).2 = if isFileParsed d f then [] else (read_file f).1.
Proof.
  unfold ingest_file, read_file. destruct (isFileParsed d f); cbn; [done|].
  destruct (loadJson f) as [objs|e]; [|done]. by destruct (collect _ f objs [] 0) as [docs r].
Qed.

Lemma ingest_file_other f g d : f <> g -> isFileParsed (file_step f d).1 g = isFileParsed d g.
Proof.
  intros Hne. unfold ingest_file. case_match; [|done]. unfold isFileParsed, markFileParsed, markFileFailed.
  destruct (loadJson f) as [objs|e]; [destruct (collect _ f objs [] 0) as [docs [pages|e]]|]; cbn; by rewrite upsert_other.
Qed.

Lemma ingest_file_row f d : reliable -> isFileParsed (file_step f d).1 f = isFileParsed d f || (read_file f).2.
Proof.
  intros Hr. unfold ingest_file, read_file. destruct (isFileParsed d f) eqn:E; cbn; [done|].
  unfold isFileParsed, markFileParsed, markFileFailed.
  destruct (loadJson f) as [objs|e]; [destruct (collect _ f objs [] 0) as [docs [pages|e]]|]; cbn; by rewrite upsert_same.
Qed.

Lemma ingest_files_other fs g d : g ∉ fs -> isFileParsed (files_step fs d).1 g = isFileParsed d g.
Proof.
  revert d. induction fs as [|f fs IH]; intros d; cbn; [done|]. intros [Hne Hg]%not_elem_of_cons.
  pose proof (ingest_file_other f g d) as E. destruct (file_step f d) as [d1 docs]. specialize (IH d1 Hg).
  destruct (files_step fs d1) as [d2 rest]. cbn in *. rewrite IH. by apply E.
Qed.

(** The documents handed to the pipeline are those of the files that were not
    parsed before, in order; afterwards a file counts as parsed when it did
    before or could be read. *)
Lemma ingest_files_spec fs d :
  reliable -> NoDup fs ->
  (files_step fs d).2 = concat ((fun f => if isFileParsed d f then [] else (read_file f).1) <$> fs) /\
  forall f, f ∈ fs -> isFileParsed (files_step fs d).1 f = isFileParsed d f || (read_file f).2.
Proof.
  intros Hr. revert d. induction fs as [|f fs IH]; intros d Hnd; [split; [done|set_solver]|].
  apply NoDup_cons in Hnd as [Hf Hnd]. pose proof (ingest_file_docs f d) as E1. pose proof (ingest_file_row f d Hr) as E2.
  assert (forall g, g ∈ fs -> isFileParsed (file_step f d).1 g = isFileParsed d g) as E3.
  { intros g Hg. apply ingest_file_other. by intros ->. }
  cbn [ingest_files]. destruct (file_step f d) as [d1 docs]. destruct (IH d1 Hnd) as [I1 I2].
  pose proof (ingest_files_other fs f d1 Hf) as E4. destruct (files_step fs d1) as [d2 rest]. cbn in *. subst. split.
  - f_equal. f_equal. apply list_fmap_ext. intros i g Hg. rewrite E3; [done|]. by eapply list_elem_of_lookup_2.
  - intros g [->|Hg]%elem_of_cons; [by rewrite E4|]. rewrite I2, E3 by done. done.
Qed.

(** All of the files are parsed already. *)
Lemma ingest_files_parsed fs d : Forall (fun f => isFileParsed d f = true) fs -> files_step fs d = (d, []).
Proof.
  induction 1 as [|f fs Hf Hfs IH]; [done|]. cbn. unfold ingest_file at 1. rewrite Hf. cbn. by rewrite IH.
Qed.

(** C39: A failed ingestion is reported as a success and never repaired: when the
    pipeline fails for files that could be read, the request is answered as
    prepared, nothing is in the vector store, and no later request for any of
    the files runs the pipeline again, even one that would work. *)
Theorem failed_pipeline_never_retried fails works k1 k2 f fs d (v : V)
  (Hk1 : k1 <> []) (Hk2 : k2 <> []) (Hr : reliable) (Hnd : NoDup (f :: fs))
  (Hread : Forall (fun g => (read_file g).2 = true) (f :: fs))
  (Hfail : forall docs, fails v docs = (v, Throw (js "embedding failed"))) :
  let request := Some (None, Some (Some (f :: fs))) in
  exists d', prepare_index loadJson fails String_of false (Some k1) (Some k2) request d v = (d', v, Prepared (f :: fs)) /\
    forall gs, gs <> [] -> Forall (fun g => g ∈ f :: fs) gs ->
      prepare_index loadJson works String_of false (Some k1) (Some k2) (Some (None, Some (Some gs))) d' v
      = (d', v, Prepared gs).
Proof.
  intros request. destruct k1 as [|a k1], k2 as [|b k2]; [done..|]. clear Hk1 Hk2.
  exists (files_step (f :: fs) d).1. split.
  - unfold prepare_index, request. cbn [str_or]. unfold ingestDocs.
    destruct (files_step (f :: fs) d) as [d1 [|x docs]]; [done|]. by rewrite Hfail.
  - intros [|g gs] Hne Hgs; [done|]. unfold prepare_index. cbn [str_or]. unfold ingestDocs.
    rewrite ingest_files_parsed; [done|]. destruct (ingest_files_spec (f :: fs) d Hr Hnd) as [_ Hall].
    eapply Forall_impl; [exact Hgs|]. cbn beta. intros h Hh. rewrite Hall by done.
    rewrite Forall_forall in Hread. rewrite Hread by done. apply orb_true_r.
Qed.
End ingested.

(** ** Sessions *)

Section sessions.
Context {W M : Type} (create_memory : nat -> str -> M) (create_workflow : nat -> M -> W).
Context (create_code_agent : nat -> str -> list str -> W) (deepSeekApiKey : option str).

Abbreviation workflow n s := (create_workflow n (create_memory n s)).
Abbreviation post := (POST create_memory create_workflow create_code_agent deepSeekApiKey).

(** The requests in order, each with the time and whether the database is
    configured. *)
Fixpoint posts (rs : list (bool * str * option ChatRequest)) (w : world (W := W) (M := M))
  : world * list (chat_reply (W := W)) :=
  match rs with
  | [] => (w, [])
  | (configured, now, r) :: rs =>
      let '(w, a) := post configured now r w in
      let '(w, l) := posts rs w in (w, a :: l)
  end.

(** The sessions so far, each with the number of its agent. *)
Definition sessions_ok (g : jsmap str nat) (w : world (W := W) (M := M)) : Prop :=
  NoDup g.*1 /\ NoDup g.*2 /\ Forall (fun e => e.2 < made w) g /\
  match instance w with
  | Some a => workflows a = (fun e => (e.1, workflow e.2 e.1)) <$> g
              /\ memories a = (fun e => (e.1, create_memory e.2 e.1)) <$> g
  | None => g = []
  end.

Lemma map_get_keyed {A B} (f : str -> A -> B) (g : jsmap str A) k :
  map_get ((fun e => (e.1, f e.1 e.2)) <$> g) k = f k <$> map_get g k.
Proof.
  induction g as [|[k' a] g IH]; cbn; [done|]. destruct (decide (k = k')) as [->|]; [done|]. exact IH.
Qed.

(** The answer of an agent that is not the code composer belongs to a session. *)
Definition served (g : jsmap str nat) (r : option ChatRequest) (a : chat_reply (W := W)) : Prop :=
  match r, a with
  | Some c, ChatStarted wf s _ =>
      c_tool c <> Some (js "code-composer") -> exists n, map_get g s = Some n /\ wf = workflow n s
  | None, ChatStarted _ _ _ => False
  | _, ChatError _ _ => True
  end.

Lemma createAgent_ok g docs s w : sessions_ok g w -> is_Some (instance w) ->
  exists g', sessions_ok g' (createAgent create_memory create_workflow docs s w).1 /\ g `prefix_of` g' /\
    is_Some (instance (createAgent create_memory create_workflow docs s w).1) /\
    forall wf, (createAgent create_memory create_workflow docs s w).2 = Ok wf ->
      exists n, map_get g' s = Some n /\ wf = workflow n s.
Proof.
  intros Hok [a E]. pose proof Hok as (Hk & Hn & Hlt & Ha). rewrite E in Ha. destruct Ha as [Hw Hm]. unfold createAgent. rewrite E.
  destruct docs as [|doc docs].
  { exists g. split; [done|]. split; [done|]. split; [cbn; by rewrite E|done]. }
  rewrite Hw, (map_get_keyed (fun k n => workflow n k)). destruct (map_get g s) as [n|] eqn:G; cbn [fmap option_fmap option_map].
  - exists g. split; [done|]. split; [done|]. split; [cbn; by rewrite E|]. intros wf [= <-]. eauto.
  - exists (g ++ [(s, made w)]). cbn [fst snd instance made].
    assert (s ∉ g.*1) as Hs. { intros [v Hv]%elem_of_map_keys. congruence. }
    assert (made w ∉ g.*2) as Hmade.
    { intros ([k n] & E2 & He)%list_elem_of_fmap. rewrite Forall_forall in Hlt. specialize (Hlt _ He). cbn in *. lia. }
    repeat split.
    + rewrite fmap_app. apply NoDup_app. split; [done|]. split; [|apply NoDup_singleton]. intros k Hin ->%list_elem_of_singleton. done.
    + rewrite fmap_app. apply NoDup_app. split; [done|]. split; [|apply NoDup_singleton]. intros k Hin ->%list_elem_of_singleton. done.
    + apply Forall_app. split; [|repeat constructor]. eapply Forall_impl; [exact Hlt|]. cbn. lia.
    + pose proof (map_get_keyed (fun k n => workflow n k) g s) as Eg. rewrite G in Eg.
      cbn [workflows]. rewrite (map_set_fresh _ _ _ Eg). by rewrite fmap_app.
    + pose proof (map_get_keyed (fun k n => create_memory n k) g s) as Eg. rewrite G in Eg.
      cbn [memories]. rewrite Hm, (map_set_fresh _ _ _ Eg). by rewrite fmap_app.
    + by eexists.
    + by eexists.
    + intros wf [= <-]. exists (made w). split; [|done]. clear -Hs. induction g as [|[k n] g IH]; cbn in *; [by rewrite decide_True|].
      apply not_elem_of_cons in Hs as [? ?]. rewrite decide_False by done. by apply IH.
Qed.

Lemma POST_ok g configured now r w : sessions_ok g w ->
  exists g', sessions_ok g' (post configured now r w).1 /\ g `prefix_of` g' /\ served g' r (post configured now r w).2.
Proof.
  intros Hg. unfold POST. destruct r as [c|]; [|by exists g]. destruct (validateRequest _ _); [by exists g|].
  destruct (bool_decide_reflect (c_tool c = Some (js "code-composer"))) as [Ht|Ht].
  - exists g. cbn. split; [|by split]. destruct Hg as (? & ? & Hlt & ?). repeat split; [done|done| |done].
    eapply Forall_impl; [exact Hlt|]. cbn. lia.
  - set (s := str_or (c_sessionId c) now). 
    set (paths := match rq_documentPaths (c_data c) with Some (Some ps) => ps | _ => [str_or (rq_documentPath (c_data c)) []] end).
    assert (exists w', sessions_ok g w' /\ ((create configured w = (w', Throw (js "Supabase URL and Key are required")))
      \/ (is_Some (instance w') /\ exists a, create configured w = (w', Ok a)))) as (w' & Hw' & Hc).
    { unfold create. destruct (instance w) as [a|] eqn:E; [exists w; split; [done|right; rewrite E; eauto]|].
      destruct configured; [|exists w; auto].
      exists (World (Some (Agent [] [])) (made w)). split; [|right; split; [by eexists|by eexists]].
      destruct Hg as (? & ? & ? & Hi). rewrite E in Hi. subst g. by repeat split. }
    destruct Hc as [->|[Hi [a ->]]]; [by exists g|].
    destruct (createAgent_ok g paths s w' Hw' Hi) as (g' & Hg' & Hpre & _ & Hwf).
    destruct (createAgent _ _ paths s w') as [w2 [wf|e]]; cbn in *; exists g'; (split; [done|]); (split; [done|]); [|done].
    intros _. by apply Hwf.
Qed.

Lemma served_prefix g g' r a : g `prefix_of` g' -> served g r a -> served g' r a.
Proof.
  intros [ext ->] Hs. destruct r as [c|], a as [|wf s q]; try done. intros Ht. destruct (Hs Ht) as (n & Hn & ->).
  exists n. split; [|done]. clear -Hn. induction g as [|[k v] g IH]; cbn in *; [done|]. by case_decide; auto.
Qed.

Lemma posts_ok rs : forall g w, sessions_ok g w ->
  exists g', sessions_ok g' (posts rs w).1 /\ g `prefix_of` g' /\
    Forall2 (fun r a => served g' r.2 a) rs (posts rs w).2.
Proof.
  induction rs as [|[[configured now] r] rs IH]; intros g w Hg; [exists g; split; [done|split; [done|constructor]]|].
  destruct (POST_ok g configured now r w Hg) as (g1 & Hg1 & P1 & S1). cbn [posts].
  destruct (post configured now r w) as [w1 a]. destruct (IH g1 w1 Hg1) as (g2 & Hg2 & P2 & S2).
  destruct (posts rs w1) as [w2 l]. exists g2. split; [done|]. split; [by etrans|].
  constructor; [by eapply served_prefix|done].
Qed.

(** C11: sessions are kept apart and kept: over any requests since the start of the
    server, two answers of the research agent come from the same workflow,
    with the same memory, when their sessions are the same, and from workflows
    and memories made separately when they differ. *)
Theorem sessions_isolated rs i j ri rj wfi wfj si sj qi qj n0
  (Hi : rs !! i = Some ri) (Hj : rs !! j = Some rj)
  (Ai : (posts rs (World None n0)).2 !! i = Some (ChatStarted wfi si qi))
  (Aj : (posts rs (World None n0)).2 !! j = Some (ChatStarted wfj sj qj))
  (Ti : forall c, ri.2 = Some c -> c_tool c <> Some (js "code-composer"))
  (Tj : forall c, rj.2 = Some c -> c_tool c <> Some (js "code-composer")) :
  exists ni nj, wfi = workflow ni si /\ wfj = workflow nj sj /\ (ni = nj <-> si = sj).
Proof.
  destruct (posts_ok rs [] (World None n0)) as (g & (Hk & Hn & _) & _ & Hall); [by repeat split; constructor|].
  assert (forall k r wf s q, rs !! k = Some r -> (posts rs (World None n0)).2 !! k = Some (ChatStarted wf s q) ->
    (forall c, r.2 = Some c -> c_tool c <> Some (js "code-composer")) -> exists n, map_get g s = Some n /\ wf = workflow n s) as H.
  { intros k r wf s q Hr Ha Ht. pose proof (Forall2_lookup_lr _ _ _ _ _ _ Hall Hr Ha) as Hs. unfold served in Hs.
    destruct r as [? [c|]]; cbn in *; [by apply Hs, Ht|done]. }
  destruct (H i ri wfi si qi Hi Ai Ti) as (ni & Gi & ->). destruct (H j rj wfj sj qj Hj Aj Tj) as (nj & Gj & ->).
  exists ni, nj. split; [done|]. split; [done|]. split; [intros <-|intros <-; congruence].
  apply (elem_of_map_get g) in Gi, Gj; [|done|done].
  apply list_elem_of_lookup in Gi as [a Ga], Gj as [b Gb]. assert (a = b) as <-; [|congruence].
  eapply NoDup_lookup; [exact Hn|..]; by rewrite list_lookup_fmap, ?Ga, ?Gb.
Qed.
End sessions.

(** ** Runs *)

(** A table that never fails, and files that have one page. *)
#[local] Instance toy_table : ParsedTable (jsmap str parsing_status) := {
  select_success d f := match map_get d f with Some (Success _ _) => RowFound | _ => RowMissing end;
  upsert_row d f s := (map_set d f s, true);
  delete_all d := ([], true);
}.
#[local] Instance toy_table_laws : ParsedLaws (jsmap str parsing_status).
Proof.
  split; cbn.
  - intros d f s _. rewrite map_get_set_eq. by destruct s.
  - done.
  - intros d f g s Hne. by rewrite map_get_set_ne.
Qed.

Definition toy_json (f : str) : result (list json) :=
  Ok [JObj [(js "pages", JArr [JObj [(js "md", JStr f); (js "page", JStr (js "1"))]])]].

Lemma failed_pipeline_never_retried_witness : exists d',
  prepare_index toy_json (fun (v : nat) _ => (v, Throw (js "embedding failed"))) (fun _ => []) false (Some (js "k")) (Some (js "k"))
    (Some (None, Some (Some [js "a.pdf"]))) [] 0 = (d', 0, Prepared [js "a.pdf"]) /\
  prepare_index toy_json (fun (v : nat) docs => (v + length docs, Ok tt)) (fun _ => []) false (Some (js "k")) (Some (js "k"))
    (Some (None, Some (Some [js "a.pdf"]))) d' 0 = (d', 0, Prepared [js "a.pdf"]).
Proof.
  destruct (failed_pipeline_never_retried (V := nat) toy_json (fun _ => []) (fun v _ => (v, Throw (js "embedding failed")))
    (fun v docs => (v + length docs, Ok tt)) (js "k") (js "k") (js "a.pdf") [] [] 0) as (d' & H1 & H2).
  - discriminate.
  - discriminate.
  - intros d f s. reflexivity.
  - apply NoDup_singleton.
  - repeat constructor.
  - reflexivity.
  - exists d'. split; [exact H1|]. apply H2; [discriminate|]. repeat constructor.
Defined.

Definition toy_chat (session : string) : ChatRequest :=
  MkChat (MkRequest (Some (js "q")) (Some (js "d.pdf")) None) false None None (Some (js session)).
Definition toy_requests : list (bool * str * option ChatRequest) :=
  [(true, js "0", Some (toy_chat "s")); (true, js "1", Some (toy_chat "t")); (true, js "2", Some (toy_chat "s"))].
(** Memories and workflows that record how they were made. *)
Abbreviation toy_posts := (posts (fun n s => (n, s)) (fun n m => (n, m)) (fun n _ _ => (n, (n, []))) (Some (js "k"))).

Lemma sessions_isolated_witness :
  (exists q, (toy_posts toy_requests (World None 0)).2 !! 0 = Some (ChatStarted (0, (0, js "s")) (js "s") q)) /\
  exists ni nj, (0, (0, js "s")) = (ni, (ni, js "s")) /\ (1, (1, js "t")) = (nj, (nj, js "t")) /\ (ni = nj <-> js "s" = js "t").
Proof.
  split; [eexists; vm_compute; reflexivity|].
  eapply (sessions_isolated (fun n s => (n, s)) (fun n m => (n, m)) (fun n _ _ => (n, (n, []))) (Some (js "k")) toy_requests 0 1).
  - reflexivity.
  - reflexivity.
  - vm_compute. reflexivity.
  - vm_compute. reflexivity.
  - intros c [= <-]. discriminate.
  - intros c [= <-]. discriminate.
Defined.
