(* ===== verification/Rescontract.v ===== *)
(** * The contract command line and the contract kit

    src/ecosystem/smart-contract: rescontract/index.js (with config.js) runs
    the contract tool of the database, or the Solidity compiler, and keeps a
    registry of the deployed contracts; resilient-contract-kit/src/index.ts is
    the client of the GraphQL server of ContractCli.v, which runs this command
    line.

    Parameters: the tool, the compiler, the parsing of the arguments
    (commander), [path.join], the YAML and JSON libraries.  A child process
    writes a sequence of chunks on its two outputs. *)

From S2P Require Import Prelude JsString JsArray JsNum Json ContractCli.

Create HintDb stabledb.

Inductive child :=
| ChildError (message : str)
| Child (code : option Z) (chunks : list (bool * str)).

Inductive command :=
| Create (config : str)
| Compile (sol output : str)
| Deploy (config contract name arguments owner : str)
| Execute (config sender contract functionName arguments : str)
| AddAddressTo (config externalAddress : str)
| ListDeployments
| ClearRegistry.

(** The state of the process: the files, what it wrote, the registry, the
    environment variable [ResDB_Home] and the clock. *)
Record world := World {
  w_files : files;
  w_out : str;
  w_err : str;
  w_registry : jsmap str deployed;
  w_env : option str;
  w_now : str;
}.

(** A command ends early: the process exits, or an error is thrown. *)
Inductive stop := Exit (code : Z) | Raised (message : str).

Definition C (A : Type) : Type := world -> world * (A + stop).
#[export] Instance C_ret : MRet C := fun A a w => (w, inl a).
#[export] Instance C_bind : MBind C := fun A B k c w =>
  match c w with (w', inl a) => k a w' | (w', inr e) => (w', inr e) end.

Definition raise {A} (message : str) : C A := fun w => (w, inr (Raised message)).
Definition exit {A} (code : Z) : C A := fun w => (w, inr (Exit code)).
Definition get_world : C world := fun w => (w, inl w).
Definition set_files (f : files -> files) : C unit := fun w =>
  (World (f (w_files w)) (w_out w) (w_err w) (w_registry w) (w_env w) (w_now w), inl tt).
Definition write (out : bool) (s : str) : C unit := fun w =>
  (if out then World (w_files w) (w_out w ++ s) (w_err w) (w_registry w) (w_env w) (w_now w)
   else World (w_files w) (w_out w) (w_err w ++ s) (w_registry w) (w_env w) (w_now w), inl tt).
Definition console_log (s : str) : C unit := write true (s ++ nl).
Definition console_error (s : str) : C unit := write false (s ++ nl).
Definition set_registry (r : jsmap str deployed) : C unit := fun w =>
  (World (w_files w) (w_out w) (w_err w) r (w_env w) (w_now w), inl tt).
Definition set_env (e : str) : C unit := fun w =>
  (World (w_files w) (w_out w) (w_err w) (w_registry w) (Some e) (w_now w), inl tt).

(** [try { c } catch (error) { h(error.message) }], [try { c } finally { f }] *)
Definition catch (c : C unit) (h : str -> C unit) : C unit := fun w =>
  match c w with (w', inr (Raised m)) => h m w' | r => r end.
Definition ensuring {A} (c : C A) (f : C unit) : C A := fun w =>
  match c w with
  | (w1, inr (Exit n)) => (w1, inr (Exit n))
  | (w1, r) => match f w1 with (w2, inl _) => (w2, r) | (w2, inr e) => (w2, inr e) end
  end.

Definition fail_with (s : str) : C unit := _ ← console_error s; exit 1.
Definition error_line (m : str) : C unit := fail_with (js "Error: " ++ m).

(** ** Reading the output of the tool *)

(** [line.replace(/^.*\] /, '').trim()] *)
Definition strip_log (line : str) : str :=
  let i := lastIndexOf line (js "] ") (Z.of_nat (run_length (fun c => negb (line_end c)) line)) in
  trim (if (i =? -1)%Z then line else drop (Z.to_nat i + 2) line).

(** [/label:\s*QUOTE(.+)QUOTE$/] at the head *)
Definition value_at (label : string) (s : str) : option str :=
  let l := js label ++ js ":" in
  if is_prefix l s then
    let s1 := skip_spaces (drop (length l) s) in
    if is_prefix [quote] s1 && endsWith (drop 1 s1) [quote] then
      let v := removelast (drop 1 s1) in
      if (1 <=? length v)%nat && forallb (fun c => negb (line_end c)) v then Some v else None
    else None
  else None.

Definition read_line (d : deployed) (line : str) : deployed :=
  let content := strip_log line in
  match first_match (value_at "owner_address") content with
  | Some v => Deployed v (contractAddress d) (contractName d)
  | None =>
      match first_match (value_at "contract_address") content with
      | Some v => Deployed (ownerAddress d) v (contractName d)
      | None =>
          match first_match (value_at "contract_name") content with
          | Some v => Deployed (ownerAddress d) (contractAddress d) v
          | None => d
          end
      end
  end.

Definition parse_deployment (output : str) : deployed := foldl read_line (Deployed [] [] []) (split output nl).

(** [result.replace(/^\[[^\]]+\]\s*/m, '')]: the first bracketed prefix of a
    line. *)
Definition bracket_at (s : str) : option nat :=
  if is_prefix (js "[") s then
    let n := run_length (fun c => negb (bool_decide (c = "]"%char))) (drop 1 s) in
    if (1 <=? n)%nat && is_prefix (js "]") (drop (1 + n) s)
    then Some (2 + n + run_length is_space (drop (2 + n) s)) else None
  else None.
Fixpoint strip_bracket (bol : bool) (s : str) : str :=
  match (if bol then bracket_at s else None), s with
  | Some n, _ => drop n s
  | None, c :: s' => c :: strip_bracket (line_end c) s'
  | None, [] => []
  end.

Definition execution_text (output : str) : option str :=
  let idx := lastIndexOf output result_mark (Z.of_nat (length output)) in
  if (idx =? -1)%Z then None
  else Some (trim (strip_bracket true (trim (drop (Z.to_nat idx + length result_mark) output)))).

(** ** The commands *)

Section cli.
Context (contract_tool : str -> list str -> files -> files * child).
Context (solc : str -> list str -> files -> files * result str) (SOLC_PATH : option str).
Context (path_joins : list str -> str) (stringify stringify2 : json -> str) (yaml_home : str -> result (option str)).
Context (print_registry : jsmap str deployed -> str) (read_registry : str -> result (jsmap str deployed)).
Context (cwd homedir tmpdir : str).

Definition registryFilePath : str := path_joins [homedir; js ".rescontract_deployed_contracts.json"].

Definition loadDeployedContracts (fs : files) : result (jsmap str deployed) :=
  match fs !! registryFilePath with Some data => read_registry data | None => Ok [] end.
Definition saveDeployedContracts : C unit :=
  w ← get_world; set_files (fun fs => <[registryFilePath := print_registry (w_registry w)]> fs).

Definition no_home : str := js "ResDB_Home is not set and config.yaml file not found. Please set ResDB_Home environment variable or provide a config.yaml file.".
Definition home_undefined : str := js "ResDB_Home is not defined in config.yaml. Please define ResDB_Home in your config.yaml file.".

(** [getResDBHome] of config.js *)
Definition getResDBHome : C str :=
  w ← get_world;
  match str_or (w_env w) [] with
  | (_ :: _) as home => mret home
  | [] =>
      let local := path_joins [cwd; js "config.yaml"] in
      let user := path_joins [homedir; js "config.yaml"] in
      match (match w_files w !! local with Some t => Some t | None => w_files w !! user end) with
      | None => raise no_home
      | Some text =>
          match yaml_home text with
          | Throw m => raise m
          | Ok home =>
              match str_or home [] with
              | [] => raise home_undefined
              | home => _ ← set_env home; mret home
              end
          end
      end
  end.

Definition ensureResDBHome : C str := fun w =>
  match getResDBHome w with
  | (w', inr (Raised m)) =>
      let '(w2, _) := console_error (js "Error: " ++ m) w' in (w2, inr (Exit 1))
  | r => r
  end.

Definition commandPath (home : str) : str :=
  path_joins [home; js "bazel-bin"; js "service"; js "tools"; js "kv"; js "api_tools"; js "contract_service_tools"].

(** The chunks go to the outputs as they arrive. *)
Fixpoint forward (chunks : list (bool * str)) : C unit :=
  match chunks with [] => mret tt | (out, s) :: cs => _ ← write out s; forward cs end.

Definition run_tool (path : str) (args : list str) : C child := fun w =>
  let '(fs, p) := contract_tool path args (w_files w) in
  (World fs (w_out w) (w_err w) (w_registry w) (w_env w) (w_now w), inl p).

Definition code_text (code : option Z) : str := match code with Some c => str_of_Z c | None => js "null" end.

(** The whole output, in the order it arrived. *)
Definition handleSpawnProcess (path : str) (args : list str) : C str :=
  p ← run_tool path args;
  match p with
  | ChildError m => raise m
  | Child code chunks =>
      _ ← forward chunks;
      if bool_decide (code = Some 0%Z) then mret (concat chunks.*2)
      else raise (js "Process exited with code " ++ code_text code)
  end.

Definition handleExecFile (path : str) (args : list str) : C unit :=
  _ ← handleSpawnProcess path args; mret tt.

(** A command file for the tool, removed afterwards. *)
Definition with_command_file {A} (name : string) (config : json) (run : str -> C A) : C A :=
  w ← get_world;
  let jsonConfigPath := path_joins [tmpdir; js name ++ js "_" ++ w_now w ++ js ".json"] in
  _ ← set_files (fun fs => <[jsonConfigPath := stringify2 config]> fs);
  ensuring (run jsonConfigPath) (set_files (delete jsonConfigPath)).

Definition require_config (config : str) : C unit :=
  w ← get_world;
  match w_files w !! config with
  | Some _ => mret tt
  | None => fail_with (js "Error: Config file not found at " ++ config)
  end.

Definition obj (fields : list (string * str)) : json := JObj ((fun kv => (js kv.1, JStr kv.2)) <$> fields).

Definition create (config : str) : C unit :=
  catch
    (home ← ensureResDBHome;
     _ ← require_config config;
     output ← with_command_file "create_account" (obj [("command", js "create_account")])
                (fun f => handleSpawnProcess (commandPath home) [js "-c"; config; js "--config_file"; f]);
     match first_match address_at output with
     | Some address => console_log (stringify (obj [("address", address)]))
     | None => fail_with (stringify (obj [("error", js "Failed to parse account address from output.")]))
     end)
    error_line.

Definition run_solc (path : str) (args : list str) : C (result str) := fun w =>
  let '(fs, r) := solc path args (w_files w) in
  (World fs (w_out w) (w_err w) (w_registry w) (w_env w) (w_now w), inl r).

Definition compile (sol output : str) : C unit :=
  catch
    (w ← get_world;
     match w_files w !! sol with
     | None => fail_with (js "Error: Solidity file not found at " ++ sol)
     | Some _ =>
         r ← run_solc (str_or SOLC_PATH (js "solc"))
               [js "--evm-version"; js "homestead"; js "--combined-json"; js "bin,hashes"; js "--pretty-json"; js "--optimize"; sol];
         match r with
         | Throw m => _ ← console_error (js "Error: Compilation failed: " ++ m); raise m
         | Ok text =>
             _ ← set_files (fun fs => <[output := text]> fs);
             console_log (js "Compiled successfully to " ++ output)
         end
     end)
    error_line.

Definition deploymentKey (owner name : str) : str := owner ++ js ":" ++ name.

Definition json_error (m : str) : C unit := fail_with (stringify (obj [("error", m)])).

Definition already_deployed (name owner address : str) : str :=
  js "Contract " ++ [quote] ++ name ++ [quote] ++ js " is already deployed by owner " ++ [quote] ++ owner ++ [quote]
  ++ js " at address " ++ [quote] ++ address ++ [quote] ++ js ".".

Definition complete (d : deployed) : bool :=
  negb (bool_decide (ownerAddress d = [])) && negb (bool_decide (contractAddress d = [])) && negb (bool_decide (contractName d = [])).

(** The run of the tool. *)
Definition run_deploy (config contract name arguments owner : str) : C str :=
  home ← ensureResDBHome;
  with_command_file "deploy"
    (obj [("command", js "deploy"); ("contract_path", contract); ("contract_name", name); ("init_params", arguments);
          ("owner_address", owner)])
    (fun f => handleSpawnProcess (commandPath home) [js "-c"; config; js "--config_file"; f]).

Definition deploy (config contract name arguments owner : str) : C unit :=
  catch
    (w ← get_world;
     match map_get (w_registry w) (deploymentKey owner name) with
     | Some d => json_error (already_deployed name owner (contractAddress d))
     | None =>
         output ← run_deploy config contract name arguments owner;
         let d := parse_deployment output in
         if complete d then
           w ← get_world;
           _ ← set_registry (map_set (w_registry w) (deploymentKey owner name) d);
           _ ← saveDeployedContracts;
           console_log (stringify (obj [("owner_address", ownerAddress d); ("contract_address", contractAddress d);
                                        ("contract_name", contractName d)]))
         else json_error (js "Failed to parse deployment output.")
     end)
    json_error.

Definition execute (config sender contract functionName arguments : str) : C unit :=
  catch
    (_ ← require_config config;
     home ← ensureResDBHome;
     output ← with_command_file "execute"
       (obj [("command", js "execute"); ("caller_address", sender); ("contract_address", contract);
             ("func_name", functionName); ("params", arguments)])
       (fun f => handleSpawnProcess (commandPath home) [js "-c"; config; js "--config_file"; f]);
     if includes output (js "execute contract fail")
     then json_error (js "Contract execution failed (see stderr output above).")
     else console_log (match execution_text output with
                       | Some ((_ :: _) as r) => stringify (obj [("result", r)])
                       | _ => stringify (obj [("output", trim output)])
                       end))
    json_error.

Definition add_address (config externalAddress : str) : C unit :=
  catch
    (home ← ensureResDBHome;
     _ ← require_config config;
     with_command_file "add_address" (obj [("command", js "add_address"); ("address", externalAddress)])
       (fun f => handleExecFile (commandPath home) [js "-c"; config; js "--config_file"; f]))
    error_line.

Fixpoint log_lines (ls : list str) : C unit :=
  match ls with [] => mret tt | l :: ls => _ ← console_log l; log_lines ls end.

Definition list_deployments : C unit :=
  w ← get_world;
  match w_registry w with
  | [] => console_log (js "No contracts have been deployed yet.")
  | r => log_lines (js "Deployed Contracts:" :: concat ((fun e : str * deployed =>
           [js "Owner: " ++ ownerAddress e.2; js "Contract Name: " ++ contractName e.2;
            js "Contract Address: " ++ contractAddress e.2; js "---"]) <$> r))
  end.

Definition clear_registry : C unit :=
  w ← get_world;
  match w_files w !! registryFilePath with
  | Some _ =>
      _ ← set_files (delete registryFilePath);
      _ ← set_registry [];
      console_log (js "Deployed contracts registry cleared.")
  | None => console_log (js "Deployed contracts registry is already empty.")
  end.

Definition action (c : command) : C unit :=
  match c with
  | Create config => create config
  | Compile sol output => compile sol output
  | Deploy config contract name arguments owner => deploy config contract name arguments owner
  | Execute config sender contract functionName arguments => execute config sender contract functionName arguments
  | AddAddressTo config address => add_address config address
  | ListDeployments => list_deployments
  | ClearRegistry => clear_registry
  end.

(** A run of the command line: the registry is read first, and an error there
    is not caught. *)
Definition run (now : str) (env : option str) (c : command) (fs : files) : files * process :=
  match loadDeployedContracts fs with
  | Throw m => (fs, Closed (Some 1%Z) [] m)
  | Ok r =>
      let '(w, e) := action c (World fs [] [] r env now) in
      (w_files w, Closed (Some (match e with inl _ => 0%Z | inr (Exit n) => n | inr (Raised _) => 1%Z end)) (w_out w) (w_err w))
  end.

Context (parse_args : list str -> option command).

(** The command line as the GraphQL server calls it. *)
Definition rescontract (now : str) (env : option str) (argv : list str) (fs : files) : files * process :=
  match parse_args argv with
  | Some c => run now env c fs
  | None => (fs, Closed (Some 1%Z) [] (js "error: unknown command or missing option"))
  end.

(** ** The registry over a sequence of runs *)

Section registry.
(** The registry is read as it was written, and the tool, the compiler and
    the command files leave it alone. *)
Context (read_print : forall r, read_registry (print_registry r) = Ok r).
Context (tool_keeps : forall path args fs, (contract_tool path args fs).1 !! registryFilePath = fs !! registryFilePath).
Context (solc_keeps : forall path args fs, (solc path args fs).1 !! registryFilePath = fs !! registryFilePath).
Context (elsewhere : forall name, path_joins [tmpdir; name] <> registryFilePath).

(** An action that leaves the registry and its file alone, and exits only with
    an error. *)
Definition stable {A} (c : C A) : Prop :=
  forall w, w_registry (c w).1 = w_registry w /\ w_files (c w).1 !! registryFilePath = w_files w !! registryFilePath /\
    match (c w).2 with inr (Exit n) => n = 1%Z | _ => True end.

Lemma stable_ret {A} (a : A) : stable (mret a).
Proof. done. Qed.

Lemma stable_raise {A} m : stable (raise (A:=A) m).
Proof. done. Qed.

Lemma stable_exit {A} : stable (exit (A:=A) 1).
Proof. done. Qed.

Lemma stable_get : stable get_world.
Proof. done. Qed.

Lemma stable_env e : stable (set_env e).
Proof. done. Qed.

Lemma stable_write o s : stable (write o s).
Proof. intros w. by destruct o. Qed.

Lemma stable_files f : (forall fs, f fs !! registryFilePath = fs !! registryFilePath) -> stable (set_files f).
Proof. intros H w. split; [done|]. split; [apply H|done]. Qed.

Lemma stable_bind {A B} (c : C A) (k : A -> C B) : stable c -> (forall a, stable (k a)) -> stable (c ≫= k).
Proof.
  intros Hc Hk w. unfold mbind, C_bind. pose proof (Hc w) as (E1 & E2 & E3).
  destruct (c w) as [w' [a|e]]; cbn in *; [|done]. pose proof (Hk a w') as (F1 & F2 & F3). by rewrite F1, F2.
Qed.

Lemma stable_catch c h : stable c -> (forall m, stable (h m)) -> stable (catch c h).
Proof.
  intros Hc Hh w. unfold catch. pose proof (Hc w) as (E1 & E2 & E3).
  destruct (c w) as [w' [a|[n|m]]]; cbn in *; [done..|]. pose proof (Hh m w') as (F1 & F2 & F3). by rewrite F1, F2.
Qed.

Lemma stable_ensuring {A} (c : C A) f : stable c -> stable f -> stable (ensuring c f).
Proof.
  intros Hc Hf w. unfold ensuring. pose proof (Hc w) as (E1 & E2 & E3).
  destruct (c w) as [w' r]; cbn in *. pose proof (Hf w') as (F1 & F2 & F3).
  destruct r as [a|[n|m]]; [|done|]; (destruct (f w') as [w2 [?|?]]; cbn in *; by rewrite F1, F2).
Qed.

Lemma stable_tool path args : stable (run_tool path args).
Proof.
  intros w. unfold run_tool. pose proof (tool_keeps path args (w_files w)) as E.
  by destruct (contract_tool path args (w_files w)) as [fs p].
Qed.

Lemma stable_solc path args : stable (run_solc path args).
Proof.
  intros w. unfold run_solc. pose proof (solc_keeps path args (w_files w)) as E.
  by destruct (solc path args (w_files w)) as [fs p].
Qed.

#[local] Hint Resolve stable_ret stable_raise stable_exit stable_get stable_env stable_write stable_files stable_bind
  stable_catch stable_ensuring stable_tool stable_solc : stabledb.
#[local] Hint Unfold console_log console_error fail_with error_line json_error : stabledb.

(** One step of the goal at a time, with the case analyses of the code. *)
Ltac stable := repeat first
  [ progress autounfold with stabledb | done
  | apply stable_bind; [|intros ?] | apply stable_catch; [|intros ?] | apply stable_ensuring
  | solve [auto with stabledb]
  | apply stable_files; intros ?; first [by apply lookup_insert_ne | apply lookup_insert_ne, elsewhere | apply lookup_delete_ne, elsewhere]
  | case_match ].

Lemma stable_forward chunks : stable (forward chunks).
Proof. induction chunks as [|[o s] cs IH]; cbn; stable. Qed.

Lemma stable_log_lines ls : stable (log_lines ls).
Proof. induction ls as [|l ls IH]; cbn; stable. Qed.

Lemma stable_home : stable getResDBHome.
Proof. unfold getResDBHome. stable. Qed.

Lemma stable_ensure : stable ensureResDBHome.
Proof.
  intros w. unfold ensureResDBHome. pose proof (stable_home w) as (E1 & E2 & E3).
  by destruct (getResDBHome w) as [w' [?|[?|?]]].
Qed.

Lemma stable_spawn path args : stable (handleSpawnProcess path args).
Proof. unfold handleSpawnProcess. pose proof stable_forward. stable. Qed.

Lemma stable_command_file {A} name config (k : str -> C A) :
  (forall f, stable (k f)) -> stable (with_command_file name config k).
Proof. intros Hk. unfold with_command_file. stable. Qed.

#[local] Hint Resolve stable_forward stable_log_lines stable_ensure stable_spawn stable_command_file : stabledb.

(** Commands other than [deploy] and [clear_registry]. *)
Definition reads (c : command) : Prop :=
  match c with Deploy _ _ _ _ _ | ClearRegistry => False | Compile _ output => output <> registryFilePath | _ => True end.

Lemma stable_action c : reads c -> stable (action c).
Proof.
  destruct c; cbn [reads action]; intros H; try done;
    unfold create, compile, execute, add_address, list_deployments, require_config, handleExecFile; stable.
Qed.

(** A deployment either ends with an error and keeps the registry, or records
    what the tool said under its key. *)
Lemma deploy_spec config contract name arguments owner w :
  let key := deploymentKey owner name in
  let '(w', e) := deploy config contract name arguments owner w in
  (e = inr (Exit 1) /\ w_registry w' = w_registry w /\ w_files w' !! registryFilePath = w_files w !! registryFilePath)
  \/ (e = inl tt /\ map_get (w_registry w) key = None /\ exists d, complete d = true /\
       w_registry w' = map_set (w_registry w) key d /\
       w_files w' !! registryFilePath = Some (print_registry (w_registry w'))).
Proof.
  intros key. assert (S : stable (run_deploy config contract name arguments owner)) by (unfold run_deploy; stable).
  destruct (S w) as (E1 & E2 & E3). unfold deploy, catch, get_world, mbind, C_bind. cbn. fold key.
  destruct (map_get (w_registry w) key) as [d|] eqn:K; [by left|].
  destruct (run_deploy config contract name arguments owner w) as [w1 [output|[n|m]]]; cbn in *; subst; [|by left..].
  destruct (complete (parse_deployment output)) eqn:D; [|by left].
  right. rewrite E1. split_and!; [done..|]. exists (parse_deployment output). split_and!; [done..|].
  cbn. apply lookup_insert_eq.
Qed.

(** The runs one after the other, each with its clock and its environment. *)
Fixpoint session (runs : list (str * option str * command)) (fs : files) : files * list (command * process) :=
  match runs with
  | [] => (fs, [])
  | (now, env, c) :: runs =>
      let '(fs1, p) := run now env c fs in
      let '(fs2, ps) := session runs fs1 in (fs2, (c, p) :: ps)
  end.

(** The key of a deployment that succeeded. *)
Definition deployed_key (cp : command * process) : option str :=
  match cp with
  | (Deploy _ _ name _ owner, Closed (Some 0%Z) _ _) => Some (deploymentKey owner name)
  | _ => None
  end.

Lemma load_file fs fs' : fs' !! registryFilePath = fs !! registryFilePath -> loadDeployedContracts fs' = loadDeployedContracts fs.
Proof. unfold loadDeployedContracts. by intros ->. Qed.

(** The registry after a run of a command: what it was, and the deployment
    when there was one, under a new key. *)
Lemma run_registry now env c fs r :
  loadDeployedContracts fs = Ok r -> map_wf r ->
  c <> ClearRegistry -> (forall sol output, c = Compile sol output -> output <> registryFilePath) ->
  exists ds, loadDeployedContracts (run now env c fs).1 = Ok (r ++ ds) /\ map_wf (r ++ ds) /\
    Forall (fun e => complete e.2 = true) ds /\ ds.*1 = omap deployed_key [(c, (run now env c fs).2)].
Proof.
  intros L W Hc Ho. unfold run. rewrite L.
  assert (D : reads c \/ exists cfg ct nm ar ow, c = Deploy cfg ct nm ar ow)
    by (destruct c; cbn; try (by left); [left; by eapply Ho|right; eauto 10]).
  destruct D as [R|(cfg & ct & nm & ar & ow & ->)].
  - destruct (stable_action c R (World fs [] [] r env now)) as (_ & E & _).
    destruct (action c _) as [w e]. exists []. rewrite app_nil_r. cbn in *. rewrite (load_file _ _ E), L.
    split_and!; [done..|]. by destruct c.
  - pose proof (deploy_spec cfg ct nm ar ow (World fs [] [] r env now)) as S. cbn [action].
    destruct (deploy cfg ct nm ar ow _) as [w e]. cbn in S.
    destruct S as [(-> & _ & E)|(-> & K & d & Hd & E & F)].
    + exists []. rewrite app_nil_r. cbn. by rewrite (load_file _ _ E), L.
    + exists [(deploymentKey ow nm, d)]. rewrite map_set_fresh in E by done. cbn. unfold loadDeployedContracts.
      rewrite F, read_print, E. split_and!; [done| |by repeat constructor|done].
      rewrite <- (map_set_fresh _ _ _ K). by apply map_set_wf.
Qed.

(** C10: A sequence of commands without [clear_registry] only adds to the registry:
    one complete record for every deployment that succeeded, in the order of
    the runs, and no owner deploys the same name twice, in the sequence or
    again after it was registered. *)
Theorem deployed_once runs fs r :
  loadDeployedContracts fs = Ok r -> map_wf r ->
  Forall (fun x => x.2 <> ClearRegistry /\ forall sol output, x.2 = Compile sol output -> output <> registryFilePath) runs ->
  exists ds, loadDeployedContracts (session runs fs).1 = Ok (r ++ ds) /\
    ds.*1 = omap deployed_key (session runs fs).2 /\ NoDup (r ++ ds).*1 /\ Forall (fun e => complete e.2 = true) ds.
Proof.
  intros L W H. revert fs r L W. induction H as [|[[now env] c] runs [Hc Ho] _ IH]; intros fs r L W; cbn.
  { exists []. by rewrite app_nil_r. }
  destruct (run_registry now env c fs r L W Hc Ho) as (ds & L1 & W1 & C1 & K1).
  destruct (run now env c fs) as [fs1 p]. cbn in *.
  destruct (IH fs1 _ L1 W1) as (ds' & L2 & K2 & N2 & C2). destruct (session runs fs1) as [fs2 ps]. cbn in *.
  exists (ds ++ ds'). rewrite app_assoc. split_and!; [done| |done|by apply Forall_app].
  rewrite fmap_app, K1, K2. by case_match.
Qed.
End registry.
End cli.

(** ** The contract kit *)

Record ExecuteParams := MkParams {
  x_config : str; x_sender : str; x_contractAddress : str; x_functionName : str; x_arguments : list str;
}.

(** [executeSmartContract]: the request is a mutation of the server, without a
    type. *)
Definition executeSmartContract (server : mutation -> option str -> result answer) (p : ExecuteParams) : result str :=
  match server (ExecuteContract (x_config p) (x_sender p) (x_contractAddress p) (x_functionName p)
                  (join (x_arguments p) comma)) None with
  | Ok (Str s) => Ok s
  | Ok (DeployContractOutput _) => Throw (js "Error executing smart contract: unexpected answer")
  | Throw m => Throw (js "Error executing smart contract: " ++ m)
  end.

Definition parseResilientURL (url : str) : result str :=
  let p := js "resilient://" in
  let rest := drop (length p) url in
  if is_prefix p url && (1 <=? length rest)%nat && forallb (fun c => negb (line_end c)) rest
  then Ok (js "https://" ++ rest)
  else Throw (js "Invalid Resilient URL format. Expected resilient://<host>").

(** ** From the kit to the tool *)

(** The first line of a text that starts with a visible character. *)
Lemma first_line_ne c s : is_space c = false -> first_line (c :: s) <> [].
Proof.
  intros Hc. unfold first_line, split. cbn [split_go].
  assert (is_prefix nl (c :: s) = false) as ->
    by (apply not_true_iff_false; intros (t & [= -> _])%is_prefix_spec; done).
  destruct (split_go_head nl s [c]) as [t ->]. cbn [coalesce rev app]. intros E%trim_nil_spaces.
  apply Forall_cons in E as [E _]. congruence.
Qed.

Section end_to_end.
Context (contract_tool : str -> list str -> files -> files * child).
Context (solc : str -> list str -> files -> files * result str) (SOLC_PATH : option str).
Context (path_joins : list str -> str) (stringify stringify2 : json -> str) (yaml_home : str -> result (option str)).
Context (print_registry : jsmap str deployed -> str) (read_registry : str -> result (jsmap str deployed)).
Context (cwd homedir tmpdir : str) (parse_args : list str -> option command).
Context (JSON_parse : str -> result json) (String_of : json -> str).
Context (path_join : str -> str -> str) (path_basename : str -> str) (compiledContractsDir : str).

Definition command_line (now : str) (env : option str) : list str -> files -> files * process :=
  rescontract contract_tool solc SOLC_PATH path_joins stringify stringify2 yaml_home print_registry read_registry
    cwd homedir tmpdir parse_args now env.

(** The server as the kit sees it: the answer, or the message of the error. *)
Definition serve (now : str) (env : option str) (uuid : str) (fs : files) (m : mutation) (t : option str) : files * result answer :=
  match resolve (command_line now env) JSON_parse String_of path_join path_basename tmpdir compiledContractsDir uuid m t fs with
  | (fs', inl a) => (fs', Ok a)
  | (fs', inr (Text s)) => (fs', Throw s)
  | (fs', inr (ErrorObject _ s)) => (fs', Throw s)
  end.

(** The command file of an execution. *)
Definition execute_file (now : str) : str := path_joins [tmpdir; js "execute_" ++ now ++ js ".json"].
Definition execute_request (p : ExecuteParams) : json :=
  obj [("command", js "execute"); ("caller_address", x_sender p); ("contract_address", x_contractAddress p);
       ("func_name", x_functionName p); ("params", tidy_args (join (x_arguments p) comma))].

Lemma bind_inl {A B} (c : C A) (k : A -> C B) w w' a : c w = (w', inl a) -> (c ≫= k) w = k a w'.
Proof. unfold mbind, C_bind. by intros ->. Qed.

Lemma forward_err chunks w : Forall (fun c => c.1 = false) chunks ->
  forward chunks w = (World (w_files w) (w_out w) (w_err w ++ concat chunks.*2) (w_registry w) (w_env w) (w_now w), inl tt).
Proof.
  intros H. revert w. induction H as [|[o s] cs Hs _ IH]; intros w; cbn in *.
  - rewrite app_nil_r. by destruct w.
  - subst o. unfold mbind, C_bind. cbn. rewrite IH. cbn. by rewrite <- app_assoc.
Qed.

Lemma spawn_ok path args w fs1 chunks :
  contract_tool path args (w_files w) = (fs1, Child (Some 0%Z) chunks) -> Forall (fun c => c.1 = false) chunks ->
  handleSpawnProcess contract_tool path args w
  = (World fs1 (w_out w) (w_err w ++ concat chunks.*2) (w_registry w) (w_env w) (w_now w), inl (concat chunks.*2)).
Proof.
  intros Ht He. unfold handleSpawnProcess. erewrite bind_inl by (unfold run_tool; rewrite Ht; reflexivity).
  cbn beta iota. erewrite bind_inl by (by apply forward_err). done.
Qed.

Lemma home_ok w home : w_env w = Some home -> home <> [] ->
  ensureResDBHome path_joins yaml_home cwd homedir w = (w, inl home).
Proof.
  intros E H. unfold ensureResDBHome, getResDBHome. erewrite bind_inl by reflexivity. rewrite E.
  destruct home; [done|]. done.
Qed.

(** The run of the command line on an execution that succeeds. *)
Lemma execute_run now home p fs fs1 config_text r chunks text :
  loadDeployedContracts path_joins read_registry homedir fs = Ok r -> home <> [] -> fs !! x_config p = Some config_text ->
  contract_tool (commandPath path_joins home) [js "-c"; x_config p; js "--config_file"; execute_file now]
    (<[execute_file now := stringify2 (execute_request p)]> fs) = (fs1, Child (Some 0%Z) chunks) ->
  Forall (fun c => c.1 = false) chunks ->
  includes (concat chunks.*2) (js "execute contract fail") = false ->
  execution_text (concat chunks.*2) = Some text -> text <> [] ->
  run contract_tool solc SOLC_PATH path_joins stringify stringify2 yaml_home print_registry read_registry
    cwd homedir tmpdir now (Some home)
    (Execute (x_config p) (x_sender p) (x_contractAddress p) (x_functionName p) (tidy_args (join (x_arguments p) comma))) fs
  = (delete (execute_file now) fs1, Closed (Some 0%Z) (stringify (obj [("result", text)]) ++ nl) (concat chunks.*2)).
Proof.
  intros L Hh Hc Ht He Hf Hx Hn. unfold run. rewrite L. cbn [action]. unfold execute, catch.
  set (w := World fs [] [] r (Some home) now).
  erewrite bind_inl; [|unfold require_config; erewrite bind_inl by reflexivity; cbn [w w_files]; rewrite Hc; reflexivity].
  erewrite bind_inl by (by apply home_ok).
  erewrite bind_inl; [|unfold with_command_file; erewrite bind_inl by reflexivity; erewrite bind_inl by reflexivity;
    unfold ensuring; erewrite spawn_ok by (apply Ht || apply He); reflexivity].
  cbn beta. rewrite Hf, Hx. by destruct text.
Qed.

Lemma execution_text_visible output text : execution_text output = Some text -> not_blank output.
Proof.
  unfold execution_text, lastIndexOf. destruct (last_index_upto _ _ _) as [i|] eqn:E; [|done].
  intros _. apply last_index_upto_Some in E as (_ & Hp). apply is_prefix_spec in Hp as [t Ht].
  exists "e"%char. split; [|done]. rewrite <- (take_drop i output), Ht. set_solver.
Qed.

(** The line that says the result: [JSON.stringify] writes one line, an object
    that [JSON.parse] reads back. *)
Record result_line (text j : str) : Prop := {
  line_parse : JSON_parse j = Ok (obj [("result", text)]);
  line_single : newline ∉ j;
  line_object : exists t, j = js "{" ++ t;
  line_trimmed : trim j = j;
  line_key : includes j (quote :: js "result" ++ [quote]) = true;
  line_clean : includes j (js "execute contract fail") = false;
}.

Lemma result_line_result text j : result_line text j -> trim text = text -> text <> [] ->
  line_result JSON_parse String_of j = Some (inl (first_line text)).
Proof.
  intros [Hj _ Ho Ht Hk _] Htx Hne. unfold line_result.
  rewrite Ht, Hk, (proj2 (startsWith_spec j _) Ho). cbn [andb]. rewrite Hj.
  change (opt_prop (Some (obj [("result", text)])) (js "error")) with (@None json).
  unfold value_result. change (opt_prop (Some (obj [("result", text)])) (js "result")) with (Some (JStr text)).
  cbn [String_json]. destruct (first_line text) eqn:E; [|done].
  destruct text as [|c text]; [done|]. apply first_line_ne in E; [done|]. by eapply trim_head.
Qed.

Lemma log_line_result s line : includes s (quote :: js "result" ++ [quote]) = false -> line ∈ split s nl ->
  line_result JSON_parse String_of line = None.
Proof.
  intros Hs Hl. unfold line_result. destruct (includes (trim line) _) eqn:E; [|by rewrite andb_false_r].
  exfalso. apply includes_spec in E as (a & b & E). destruct (trim_split line) as (w1 & w2 & El & _).
  rewrite E in El. erewrite line_includes in Hs; [done|apply Hl|].
  apply includes_spec. exists (w1 ++ a), (b ++ w2). rewrite El. by rewrite <- !app_assoc.
Qed.

(** The result line and the log after it, as the server gets them. *)
Lemma server_reads j err text :
  result_line text j -> trim text = text -> text <> [] -> not_blank err ->
  includes err (js "execute contract fail") = false -> includes err (quote :: js "result" ++ [quote]) = false ->
  execution_result JSON_parse String_of (trim ((j ++ nl) ++ err)) = inl (first_line text).
Proof.
  intros Hj Htx Hne Hv Hf Hr. pose proof (result_line_result _ _ Hj Htx Hne) as R.
  destruct Hj as [_ Hn [t Hb] _ _ Hc]. change (js "{" ++ t) with ("{"%char :: t) in Hb.
  assert (trim ((j ++ nl) ++ err) = j ++ newline :: trimEnd err) as ->.
  { rewrite Hb. change (("{"%char :: t) ++ nl) with ("{"%char :: (t ++ nl)). rewrite trim_app_end by done.
    cbn. by rewrite <- app_assoc. }
  pose proof (trimEnd_prefix err) as Hp. apply (includes_prefix _ _ _ Hp) in Hf, Hr.
  eapply (execution_result_last _ _ _ [] j (split (trimEnd err) nl)); [by apply split_cons| |done|].
  - apply includes_false. intros a b E.
    apply occurrence_beside in E as E'; [|by apply (bool_decide_unpack _); vm_compute].
    destruct E' as [[d ->]|[d ->]].
    + rewrite includes_false in Hc. by eapply Hc.
    + rewrite <- !app_assoc in E. apply app_inv_head in E. injection E as E.
      rewrite includes_false in Hf. exact (Hf d b E).
  - apply Forall_forall. intros line. by apply log_line_result.
Qed.

(** A mutation on a configuration that is a path. *)
Lemma serve_execute now env uuid fs fs1 config sender contract fn args out err x :
  command_line now env [js "execute"; js "--config"; config; js "--sender"; sender; js "--contract"; contract;
                        js "--function-name"; fn; js "--arguments"; tidy_args args] fs
  = (fs1, Closed (Some 0%Z) out err) ->
  execution_result JSON_parse String_of (trim (out ++ err)) = inl x ->
  serve now env uuid fs (ExecuteContract config sender contract fn args) None = (fs1, Ok (Str x)).
Proof.
  intros Hc Hx. unfold serve, resolve, rethrow, executeContract, fmap, F_fmap, mbind, F_bind,
    config_path, finally, if_data, is_data, ContractCli.handleExecFile, lift.
  rewrite bool_decide_false by done. unfold mret, F_ret. cbv beta iota. rewrite Hc. cbn -[trim execution_result]. by rewrite Hx.
Qed.

(** C16: executing a contract through the kit, the server, the command line and the
    tool: when the tool logs its result on its error output and succeeds, the
    caller gets the first line of that result, and the command file is
    removed. *)
Theorem execute_end_to_end now home uuid p fs fs1 config_text r chunks text :
  (* the command line *)
  parse_args [js "execute"; js "--config"; x_config p; js "--sender"; x_sender p; js "--contract"; x_contractAddress p;
              js "--function-name"; x_functionName p; js "--arguments"; tidy_args (join (x_arguments p) comma)]
  = Some (Execute (x_config p) (x_sender p) (x_contractAddress p) (x_functionName p) (tidy_args (join (x_arguments p) comma))) ->
  loadDeployedContracts path_joins read_registry homedir fs = Ok r -> home <> [] -> fs !! x_config p = Some config_text ->
  (* the tool *)
  contract_tool (commandPath path_joins home) [js "-c"; x_config p; js "--config_file"; execute_file now]
    (<[execute_file now := stringify2 (execute_request p)]> fs) = (fs1, Child (Some 0%Z) chunks) ->
  Forall (fun c => c.1 = false) chunks ->
  includes (concat chunks.*2) (js "execute contract fail") = false ->
  includes (concat chunks.*2) (quote :: js "result" ++ [quote]) = false ->
  execution_text (concat chunks.*2) = Some text -> text <> [] ->
  (* JSON *)
  result_line text (stringify (obj [("result", text)])) ->
  let answer := serve now (Some home) uuid fs in
  executeSmartContract (fun m t => (answer m t).2) p = Ok (first_line text) /\
  (answer (ExecuteContract (x_config p) (x_sender p) (x_contractAddress p) (x_functionName p) (join (x_arguments p) comma))
     None).1 = delete (execute_file now) fs1.
Proof.
  intros Hargs L Hh Hc Ht He Hf Hq Hx Hn Hj answer.
  pose proof (execute_run _ _ _ _ _ _ _ _ _ L Hh Hc Ht He Hf Hx Hn) as Hrun.
  assert (trim text = text) as Htx.
  { unfold execution_text in Hx. case_match; [done|]. injection Hx as <-. apply trim_idem. }
  pose proof (server_reads _ _ _ Hj Htx Hn (execution_text_visible _ _ Hx) Hf Hq) as R.
  assert (E : answer _ None = _) by (eapply serve_execute; [unfold command_line, rescontract; rewrite Hargs; exact Hrun|exact R]).
  unfold executeSmartContract. by rewrite E.
Qed.
End end_to_end.

(** ** Runs *)

#[export] Instance deployed_eq_dec : EqDecision deployed.
Proof. solve_decision. Defined.
#[export] Instance deployed_countable : Countable deployed :=
  inj_countable' (fun d => (ownerAddress d, contractAddress d, contractName d))
    (fun '(o, a, n) => Deployed o a n) ltac:(by intros []).

(** A machine whose registry is printed bit by bit, and whose tool logs a
    deployment, or the result of an execution. *)
Definition toy_joins (l : list str) : str := join l (js "/").
Definition toy_read (s : str) : result (jsmap str deployed) :=
  match read_bits s with Some r => Ok r | None => Throw (js "SyntaxError") end.
Definition field (name value : string) : str := js "I0101 log.cpp:7] " ++ js name ++ js ": " ++ [quote] ++ js value ++ [quote] ++ nl.
Definition toy_deploy : str -> list str -> files -> files * child := fun _ _ fs =>
  (fs, Child (Some 0%Z) [(false, field "owner_address" "0x1" ++ field "contract_address" "0x9"); (false, field "contract_name" "T")]).
Definition toy_solc : str -> list str -> files -> files * result str := fun _ _ fs => (fs, Throw (js "not installed")).
Definition toy_home : str := js "/home/u".
Definition toy_tmp : str := js "/tmp".

Definition toy_runs : list (str * option str * command) :=
  let d owner name := Deploy (js "c") (js "m.json") (js name) [] (js owner) in
  [(js "1", Some (js "/r"), d "0x1" "T"); (js "2", Some (js "/r"), d "0x1" "T"); (js "3", None, d "0x2" "T");
   (js "4", None, ListDeployments); (js "5", Some (js "/r"), d "0x2" "T")].

Abbreviation toy_session := (session toy_deploy toy_solc None toy_joins (fun _ => []) (fun _ => []) (fun _ => Ok None)
  print_bits toy_read (js "/w") toy_home toy_tmp).

Lemma deployed_once_witness : exists ds,
  loadDeployedContracts toy_joins toy_read toy_home (toy_session toy_runs ∅).1 = Ok ([] ++ ds) /\
  ds.*1 = [js "0x1:T"; js "0x2:T"] /\ NoDup ([] ++ ds).*1 /\ Forall (fun e => complete e.2 = true) ds.
Proof.
  assert (E : omap deployed_key (toy_session toy_runs ∅).2 = [js "0x1:T"; js "0x2:T"]) by (vm_compute; reflexivity).
  rewrite <- E. apply deployed_once.
  - intros r. unfold toy_read. by rewrite read_print_bits.
  - done.
  - done.
  - intros name [=].
  - done.
  - apply NoDup_nil_2.
  - repeat constructor; cbn; by intros.
Defined.

(** An execution whose result has two lines. *)
Definition toy_log : list (bool * str) := [(false, js "I0101 log.cpp:7] execute resu"); (false, js "lt: 0x2a" ++ nl ++ js "gas 3" ++ nl)].
Definition toy_execute : str -> list str -> files -> files * child := fun _ _ fs => (fs, Child (Some 0%Z) toy_log).
Definition toy_text : str := js "0x2a" ++ nl ++ js "gas 3".
Definition toy_json : str := js "{" ++ [quote] ++ js "result" ++ [quote] ++ js ":" ++ [quote] ++ js "0x2a\ngas 3" ++ [quote] ++ js "}".
Definition toy_reads (s : str) : result json :=
  if decide (s = toy_json) then Ok (obj [("result", toy_text)]) else Throw (js "SyntaxError").
Definition toy_args (argv : list str) : option command :=
  match argv with
  | [_; _; a; _; b; _; c; _; d; _; e] => Some (Execute a b c d e)
  | _ => None
  end.
Definition toy_params : ExecuteParams := MkParams (js "c.config") (js "0x1") (js "0x9") (js "get()") [js "1"; js " 2"].

Lemma execute_end_to_end_witness :
  let answer := serve toy_execute toy_solc None toy_joins (fun _ => toy_json) (fun _ => []) (fun _ => Ok None) print_bits toy_read
    (js "/w") toy_home toy_tmp toy_args toy_reads (fun _ => []) (fun d f => toy_joins [d; f]) (fun f => f) (js "/out")
    (js "7") (Some (js "/r")) (js "u") {[ js "c.config" := js "host" ]} in
  executeSmartContract (fun m t => (answer m t).2) toy_params = Ok (js "0x2a") /\
  (answer (ExecuteContract (js "c.config") (js "0x1") (js "0x9") (js "get()") (js "1, 2")) None).1
  = delete (execute_file toy_joins toy_tmp (js "7"))
      (<[execute_file toy_joins toy_tmp (js "7") := []]> {[ js "c.config" := js "host" ]}).
Proof.
  change (js "0x2a") with (first_line toy_text).
  refine (execute_end_to_end _ _ _ _ _ _ _ _ _ _ _ _ _ _ _ _ _ _ _ _ _ toy_params _ _ (js "host") [] toy_log _ _ _ _ _ _ _ _ _ _ _ _).
  all: try (vm_compute; reflexivity).
  - by vm_compute.
  - by repeat constructor.
  - by vm_compute.
  - split; try (vm_compute; reflexivity).
    + apply (bool_decide_unpack _). by vm_compute.
    + by eexists.
Defined.
