(* ===== verification/Profiling.v ===== *)
(** * Profiles and metrics of the ResLens middleware

    src/ecosystem/monitoring/reslens-middleware/middleware:
    utils/pprofConverter.js reads the text report of [go tool pprof] and writes
    it as markdown, utils/profileAnalyzer.js asks a model about it,
    controllers/pyroscope.js answers profiles and their explanation,
    controllers/nodeExporter.js and controllers/processExporter.js answer
    series of the metrics server.

    Parameters: the HTTP services, the [pprof] program, the model, the printing
    of numbers, the building of a URL.  An answer of the metrics server has its
    documented shape: series of pairs of a time in seconds and a text; [None]
    is an absent field.  Sample counts are whole numbers of any size. *)

From Stdlib Require Import SpecFloat.
From S2P Require Import Prelude JsString JsArray JsNum Json Nexus DateTime Middleware.

(** ** Reading the report *)

Record entry := Entry {
  flat_samples : Z; flat_percent : num; sum_percent : num; cum_samples : Z; cum_percent : num; function : str;
}.

Record metadata := Metadata {
  time : str; total_samples : Z; shown_samples : Z; shown_percent : num; dropped_nodes : Z;
}.

Definition digit_or_dot (c : ascii) : bool := is_digit c || bool_decide (c = "."%char).
Definition not_line_end (c : ascii) : bool := negb (line_end c).

(** A run of at least one character of a class, and what follows. *)
Definition run (f : ascii -> bool) (s : str) : option (str * str) :=
  match run_length f s with O => None | n => Some (take n s, drop n s) end.
(** A text, and what follows. *)
Definition literal (p : string) (s : str) : option str :=
  if is_prefix (js p) s then Some (drop (length (js p)) s) else None.

Definition time_at (s : str) : option str :=
  r ← literal "Time: " s; Some (take (run_length not_line_end r) r).

(** [/Showing nodes accounting for (\d+)samples, ([\d.]+)% of (\d+)samples total/] *)
Definition shown_at (s : str) : option (str * str * str) :=
  s ← literal "Showing nodes accounting for " s; '(a, s) ← run is_digit s;
  s ← literal "samples, " s; '(p, s) ← run digit_or_dot s;
  s ← literal "% of " s; '(t, s) ← run is_digit s;
  _ ← literal "samples total" s; Some (a, p, t).

(** [/Dropped (\d+) nodes \(cum <= (\d+)samples\)/] *)
Definition dropped_at (s : str) : option str :=
  s ← literal "Dropped " s; '(n, s) ← run is_digit s;
  s ← literal " nodes (cum <= " s; '(_, s) ← run is_digit s;
  _ ← literal "samples)" s; Some n.

(** [lineRegex] on a line without spaces at its ends: each class ends where
    the next part begins, so the longest runs are the only ones. *)
Definition row_at (s : str) : option entry :=
  '(flat, s) ← run is_digit s; s ← literal "samples" s; '(_, s) ← run is_space s;
  '(flatp, s) ← run digit_or_dot s; s ← literal "%" s; '(_, s) ← run is_space s;
  '(sump, s) ← run digit_or_dot s; s ← literal "%" s; '(_, s) ← run is_space s;
  '(cum, s) ← run is_digit s; s ← literal "samples" s; '(_, s) ← run is_space s;
  '(cump, s) ← run digit_or_dot s; s ← literal "%" s; '(_, s) ← run is_space s;
  '(fn, _) ← run not_line_end s;
  Some (Entry (digits_value flat) (parseFloat flatp) (parseFloat sump) (digits_value cum) (parseFloat cump) (trim fn)).

(** The lines after the first one that starts with the titles; all of them
    when there is none. *)
Fixpoint after_titles (lines : list str) : option (list str) :=
  match lines with
  | [] => None
  | l :: ls => if startsWith (trim l) (js "flat  flat%") then Some ls else after_titles ls
  end.

Definition read_rows (lines : list str) : list entry := omap (fun l => first_match row_at (trim l)) lines.

Definition parsePprofText (content : str) : metadata * list entry :=
  let '(shown, percent, total) :=
    match first_match shown_at content with
    | Some (a, p, t) => (digits_value a, parseFloat p, digits_value t)
    | None => (0%Z, nzero, 0%Z)
    end in
  let dropped := match first_match dropped_at content with Some n => digits_value n | None => 0%Z end in
  let lines := split content nl in
  (Metadata (coalesce (first_match time_at content) (js "Unknown")) total shown percent dropped,
   read_rows (coalesce (after_titles lines) lines)).

(** ** Writing markdown *)

Section profiling.
Context (showNum : num -> str).

Definition tick : str := js "`".

Definition table_line (e : entry) : str :=
  js "| " ++ str_of_Z (flat_samples e) ++ js " | " ++ showNum (flat_percent e) ++ js "% | " ++ showNum (sum_percent e)
  ++ js "% | " ++ str_of_Z (cum_samples e) ++ js " | " ++ showNum (cum_percent e) ++ js "% | " ++ tick ++ function e ++ tick
  ++ js " |" ++ nl.

Definition flatTop (es : list entry) : list entry := take 5 (sort_desc_Z flat_samples es).
Definition cumTop (es : list entry) : list entry := take 5 (sort_desc_Z cum_samples es).

Definition top_line (percent : entry -> num) (ie : nat * entry) : str :=
  str_of_nat (S ie.1) ++ js ". " ++ tick ++ function ie.2 ++ tick ++ js " - " ++ showNum (percent ie.2)
  ++ js "% of total time" ++ nl.

Definition toMarkdown (data : metadata * list entry) : str :=
  let m := data.1 in let es := data.2 in
  concat
    ([js "# CPU Profile Analysis" ++ nl ++ nl;
      js "**Time:** " ++ time m ++ nl ++ nl;
      js "**Samples:** " ++ str_of_Z (shown_samples m) ++ js " of " ++ str_of_Z (total_samples m) ++ js " ("
      ++ showNum (shown_percent m) ++ js "%)" ++ nl ++ nl;
      js "**Dropped Nodes:** " ++ str_of_Z (dropped_nodes m) ++ nl ++ nl;
      js "## Profile Data" ++ nl ++ nl;
      js "| Flat Samples | Flat % | Sum % | Cum Samples | Cum % | Function |" ++ nl;
      js "|-------------|--------|-------|-------------|-------|----------|" ++ nl]
     ++ (table_line <$> es)
     ++ [nl ++ js "## Performance Insights" ++ nl ++ nl; js "### Top Functions by Self Time" ++ nl ++ nl]
     ++ (top_line flat_percent <$> indexed (flatTop es))
     ++ [nl ++ js "### Top Functions by Cumulative Time" ++ nl ++ nl]
     ++ (top_line cum_percent <$> indexed (cumTop es))).

(** ** Explaining a profile *)

Abbreviation disk := (gmap str str).

(** [pprof] reads the file; the model answers a prompt. *)
Context (pprof : option str -> result str) (generateContent : str -> str -> result str).
Context (env : str -> option str) (buildUrl : str -> list (str * str) -> result str).
Context (axios : str -> result str) (path_join : str -> str -> str) (dirname : str).

Definition convertPprofToMarkdown (profilePath : str) (fs : disk) : result str :=
  match pprof (fs !! profilePath) with
  | Ok stdout => Ok (toMarkdown (parsePprofText stdout))
  | Throw m => Throw (js "Failed to convert profile: " ++ m)
  end.

Definition prompt (markdownContent : str) : str :=
  join [[]; js "You are an expert performance engineer. Please analyze this CPU profile data and provide insights:";
        js "1. What are the main performance bottlenecks?";
        js "2. Which functions or areas of code need optimization?";
        js "3. What specific recommendations would you make to improve performance?"; [];
        js "Profile data:"; markdownContent; [];
        js "Please provide a concise, actionable analysis based on this profile data."; []] nl.

Definition analyzeProfileContent (markdownContent : str) : result str :=
  match getEnv env (js "GOOGLE_API_KEY") None with
  | Throw m => Throw (js "Failed to analyze profile: " ++ m)
  | Ok apiKey =>
      match generateContent apiKey (prompt markdownContent) with
      | Ok text => Ok text
      | Throw m => Throw (js "Failed to analyze profile: " ++ m)
      end
  end.

Record profile_request := ProfileRequest {
  q_query : option str; q_from : option str; q_until : option str; q_format : option str; q_test : bool;
}.

(** [`${query}`] *)
Definition template (s : option str) : str := coalesce s (js "undefined").

Definition profile_url (format : string) (q : profile_request) : result str :=
  match getEnv env (js "PYROSCOPE_BASE_URL") None with
  | Throw m => Throw m
  | Ok base =>
      buildUrl base [(js "query", template (q_query q) ++ js ".cpu"); (js "from", coalesce (q_from q) (js "now-5m"));
                     (js "until", coalesce (q_until q) (js "now")); (js "format", coalesce (q_format q) (js format))]
  end.

(** [error.message || text] *)
Definition message_or (m : str) (text : string) : str := match m with [] => js text | _ => m end.

(** An error before the [try] rejects the handler: nothing is answered. *)
Definition getProfilingData (q : profile_request) : result (reply str) :=
  match profile_url "json" q with
  | Throw m => Throw m
  | Ok url =>
      Ok (match axios url with
          | Ok data => Send data
          | Throw m => Fail 500 (message_or m "An error occurred while fetching profiling data")
          end)
  end.

(** [cpuUsage] of processExporter.js *)
Definition cpuUsage (q : profile_request) : result (reply str) :=
  match profile_url "json" q with
  | Throw m => Throw m
  | Ok url =>
      Ok (match axios url with
          | Ok data => Send data
          | Throw m => Fail 500 (message_or m "An error occurred while fetching CPU profiling data")
          end)
  end.

(** What an explanation answers: a markdown text, or an object with an error
    and the status 200. *)
Inductive explained := Markdown (s : str) | NotParsed.

Definition profileDir : str := path_join dirname (js "../tmp").
Definition profile_path (now : str) : str := path_join profileDir (js "profile-" ++ now ++ js ".pprof").

Definition explainFlamegraph (now : str) (q : profile_request) (fs : disk) : disk * result (reply explained) :=
  match profile_url "pprof" q with
  | Throw m => (fs, Throw m)
  | Ok url =>
      if q_test q then
        match fs !! path_join dirname (js "../tmp/dummy_analysis.md") with
        | Some data => (fs, Ok (Send (Markdown data)))
        | None => (fs, Throw (js "ENOENT: no such file or directory"))
        end
      else
        match axios url with
        | Throw m => (fs, Ok (Fail 500 (message_or m "Error fetching profiling data")))
        | Ok data =>
            let profilePath := profile_path now in
            let fs1 := <[profilePath := data]> fs in
            let answer :=
              match convertPprofToMarkdown profilePath fs1 with
              | Throw _ => NotParsed
              | Ok markdown =>
                  match analyzeProfileContent markdown with
                  | Ok insights => Markdown insights
                  | Throw _ => Markdown markdown
                  end
              end in
            (delete profilePath fs1, Ok (Send answer))
        end
  end.
End profiling.

(** ** Metrics *)

(** The milliseconds of a number of seconds, as [new Date] takes them: towards
    zero, [None] for NaN and the infinities. *)
Definition millis (seconds : num) : option Z :=
  match nmul seconds (of_Z 1000) with
  | S754_zero _ => Some 0%Z
  | S754_finite false m e => Some (floor1 false m e)
  | S754_finite true m e => Some (- floor1 false m e)%Z
  | _ => None
  end.

Definition digits (n : nat) (z : Z) : str := let d := str_of_Z z in repeat "0"%char (n - length d) ++ d.

(** [toISOString()] *)
Definition toISOString (t : option Z) : result str :=
  match t ≫= timeClip with
  | None => Throw (js "Invalid time value")
  | Some ms =>
      let '(year, month, day) := civil_from_days (ms / msPerDay) in
      let rest := (ms mod msPerDay)%Z in
      let y := if (0 <=? year)%Z && (year <=? 9999)%Z then digits 4 year
               else (if (year <? 0)%Z then js "-" else js "+") ++ digits 6 (Z.abs year) in
      Ok (y ++ js "-" ++ digits 2 month ++ js "-" ++ digits 2 day ++ js "T" ++ digits 2 (rest / 3600000) ++ js ":"
          ++ digits 2 ((rest / 60000) mod 60) ++ js ":" ++ digits 2 ((rest / 1000) mod 60) ++ js "." ++ digits 3 (rest mod 1000) ++ js "Z")
  end.

(** [parseFloat]: spaces and a sign, then [Infinity] or the longest decimal
    literal. *)
Definition exponent (s : str) : Z :=
  match s with
  | c :: s' =>
      if bool_decide (c = "e"%char) || bool_decide (c = "E"%char) then
        match s' with
        | "-"%char :: d => (- digits_value (take (run_length is_digit d) d))%Z
        | "+"%char :: d => digits_value (take (run_length is_digit d) d)
        | d => digits_value (take (run_length is_digit d) d)
        end
      else 0%Z
  | [] => 0%Z
  end.

Definition unsigned_float (s : str) : num :=
  if is_prefix (js "Infinity") s then S754_infinity false else
  let whole := take (run_length is_digit s) s in
  let r := drop (length whole) s in
  let frac := match r with "."%char :: t => take (run_length is_digit t) t | _ => [] end in
  match whole ++ frac with
  | [] => S754_nan
  | ds =>
      let tail := match r with "."%char :: t => drop (length frac) t | _ => r end in
      let k := (exponent tail - Z.of_nat (length frac))%Z in
      if (0 <=? k)%Z then of_Z (digits_value ds * 10 ^ k) else decimal (digits_value ds) (Z.to_nat (- k))
  end.

Definition parse_float (s : str) : num :=
  match trimStart s with
  | "-"%char :: s => SFopp (unsigned_float s)
  | "+"%char :: s => unsigned_float s
  | s => unsigned_float s
  end.

(** A series of the metrics server: its labels and its points, a time in
    seconds and a text. *)
Record series := Series { metric : jsmap str str; values : option (list (num * str)) }.

Section metrics.
Context (env : str -> option str) (buildUrl : str -> list (str * str) -> result str).
Context (prometheus : str -> result (option (list series))).

Record metrics_request := MetricsRequest {
  m_query : option str; m_from : option str; m_until : option str; m_step : option str;
}.

Definition metrics_url (from : string) (query : str) (q : metrics_request) : result str :=
  match getEnv env (js "NODE_EXPORTER_BASE_URL") None with
  | Throw m => Throw m
  | Ok base =>
      buildUrl base [(js "query", query); (js "start", coalesce (m_from q) (js from));
                     (js "end", coalesce (m_until q) (js "now")); (js "step", coalesce (m_step q) (js "28"))]
  end.

(** [l.map(f)] where [f] may throw *)
Fixpoint map_result {A B} (f : A -> result B) (l : list A) : result (list B) :=
  match l with
  | [] => Ok []
  | a :: l =>
      match f a with
      | Throw m => Throw m
      | Ok b => match map_result f l with Ok bs => Ok (b :: bs) | Throw m => Throw m end
      end
  end.

(** A point with its time as a text, its value read by [show]. *)
Definition point_of {B} (show : num -> B) (p : num * str) : result (str * B) :=
  match toISOString (millis p.1) with Ok t => Ok (t, show (parse_float p.2)) | Throw m => Throw m end.

Definition undefined_length : str := js "Cannot read properties of undefined (reading 'length')".

Definition is_label (s : series) (key value : string) : bool :=
  bool_decide (map_get (metric s) (js key) = Some (js value)).

(** The points of the first series of the process. *)
Definition getCpuUsage (q : metrics_request) : result (reply (option (list (num * str)))) :=
  match metrics_url "now-5m" (template (m_query q)) q with
  | Throw m => Throw m
  | Ok url =>
      Ok (match prometheus url with
          | Throw m => Fail 400 (message_or m "An error occurred")
          | Ok None => Fail 400 undefined_length
          | Ok (Some result) =>
              match filterb (fun s => is_label s "groupname" "kv_service") result with
              | [] => Send (Some [])
              | s :: _ => Send (values s)
              end
          end)
  end.

Definition iops_query : str := js "rate(node_disk_writes_completed_total{device='vda',job='node_exporter'}[5m])".

Definition getDiskIOPS (q : metrics_request) : result (reply (list (str * str))) :=
  match metrics_url "now-12h" iops_query q with
  | Throw m => Throw m
  | Ok url =>
      Ok (match prometheus url with
          | Throw m => Fail 400 (message_or m "An error occurred while fetching the DiskIOPS data")
          | Ok None => Fail 400 undefined_length
          | Ok (Some result) =>
              match filterb (fun s => is_label s "device" "vda" && is_label s "job" "node_exporter") result with
              | [] => Send []
              | Series _ None :: _ => Fail 400 (js "Cannot read properties of undefined (reading 'map')")
              | Series _ (Some vs) :: _ =>
                  match map_result (point_of (fun x => toFixed x 2)) vs with
                  | Ok l => Send l
                  | Throw m => Fail 400 m
                  end
              end
          end)
  end.

(** [response?.data?.data?.result?.[0]?.values || []] *)
Definition first_values (answer : option (list series)) : list (num * str) :=
  coalesce (l ← answer; s ← head l; values s) [].

(** The points of the answer to a query; the URL is made inside the [try]. *)
Definition fetch_points (query : str) (q : metrics_request) : result (list (num * str)) :=
  match metrics_url "now-5m" query q with
  | Throw m => Throw m
  | Ok url => match prometheus url with Throw m => Throw m | Ok a => Ok (first_values a) end
  end.

(** [Promise.all] over the queries, then the points of each under its key. *)
Definition keyed_points (text : string) (queries : list (str * str)) (q : metrics_request)
  : reply (list (str * list (str * num))) :=
  match map_result (fun kq => match fetch_points kq.2 q with Ok l => Ok (kq.1, l) | Throw m => Throw m end) queries with
  | Throw m => Fail 400 (message_or m text)
  | Ok responses =>
      match map_result (fun kl => match map_result (point_of id) kl.2 with Ok l => Ok (kl.1, l) | Throw m => Throw m end)
              responses with
      | Throw m => Fail 400 (message_or m text)
      | Ok data => Send data
      end
  end.

Definition getDiskWaitTime (q : metrics_request) : reply (list (str * list (str * num))) :=
  keyed_points "An error occurred while fetching Disk Wait Time data"
    [(js "readWaitTime", js "rate(node_disk_read_time_seconds_total{device='vda'}[5m]) / rate(node_disk_reads_completed_total{device='vda'}[5m])");
     (js "writeWaitTime", js "rate(node_disk_write_time_seconds_total{device='vda'}[5m]) / rate(node_disk_writes_completed_total{device='vda'}[5m])")] q.

Definition getDiskRWData (q : metrics_request) : reply (list (str * list (str * num))) :=
  keyed_points "An error occurred while fetching Disk Merged Data"
    [(js "readMerged", js "rate(node_disk_reads_merged_total{device='vda'}[5m])");
     (js "writeMerged", js "rate(node_disk_writes_merged_total{device='vda'}[5m])")] q.

Definition io_query : str := js "rate(node_disk_io_time_seconds_total{device='vda', job='node_exporter'}[5m])".

Definition getTimeSpentDoingIO (q : metrics_request) : reply (list (str * num)) :=
  match fetch_points io_query q with
  | Throw m => Fail 400 (message_or m "Failed to fetch Disk IO Time data")
  | Ok l =>
      match map_result (point_of id) l with
      | Ok data => Send data
      | Throw m => Fail 400 (message_or m "Failed to fetch Disk IO Time data")
      end
  end.
End metrics.

(** ** Reports *)

(** A row as [pprof] prints it: columns of text between runs of blanks. *)
Record row := Row {
  r_flat : str; r_flatp : str; r_sump : str; r_cum : str; r_cump : str; r_fn : str;
  r_indent : nat; r_gaps : nat * nat * nat * nat * nat;
}.

Definition blanks (n : nat) : str := repeat " "%char n.

Definition row_body (r : row) : str :=
  let '(g1, g2, g3, g4, g5) := r_gaps r in
  r_flat r ++ js "samples" ++ blanks (S g1) ++ r_flatp r ++ js "%" ++ blanks (S g2) ++ r_sump r ++ js "%" ++ blanks (S g3)
  ++ r_cum r ++ js "samples" ++ blanks (S g4) ++ r_cump r ++ js "%" ++ blanks (S g5) ++ r_fn r.
Definition row_text (r : row) : str := blanks (r_indent r) ++ row_body r.

Definition entry_of (r : row) : entry :=
  Entry (digits_value (r_flat r)) (parseFloat (r_flatp r)) (parseFloat (r_sump r)) (digits_value (r_cum r))
    (parseFloat (r_cump r)) (r_fn r).

Definition column (f : ascii -> bool) (s : str) : Prop := s <> [] /\ Forall (fun c => f c = true) s.

(** Numbers in the columns of numbers, and a name on one line. *)
Record row_ok (r : row) : Prop := {
  ok_flat : column is_digit (r_flat r);
  ok_flatp : column digit_or_dot (r_flatp r);
  ok_sump : column digit_or_dot (r_sump r);
  ok_cum : column is_digit (r_cum r);
  ok_cump : column digit_or_dot (r_cump r);
  ok_fn : column not_line_end (r_fn r);
  ok_trimmed : trim (r_fn r) = r_fn r;
}.

Lemma column_run f a b : column f a -> match b with [] => True | c :: _ => f c = false end -> run f (a ++ b) = Some (a, b).
Proof.
  intros [Hne Ha] Hb. unfold run. rewrite run_length_app by done.
  destruct (length a) eqn:E; [by destruct a|]. by rewrite <- E, take_app_length, drop_app_length.
Qed.

Lemma literal_app p s : literal p (js p ++ s) = Some s.
Proof.
  unfold literal. rewrite (proj2 (is_prefix_spec _ _)) by eauto. by rewrite drop_app_length.
Qed.

(** What the first character of a column is not. *)
Lemma column_head f g a b : (forall c, f c = true -> g c = false) -> column f a ->
  match a ++ b with [] => True | c :: _ => g c = false end.
Proof. intros H [Hne Ha]. destruct a as [|c a]; [done|]. apply Forall_cons in Ha as [Hc _]. by apply H. Qed.

Lemma blanks_space n : Forall (fun c => is_space c = true) (blanks n).
Proof. induction n; by constructor. Qed.

Lemma blanks_column n : column is_space (blanks (S n)).
Proof. split; [done|apply blanks_space]. Qed.

Lemma digit_or_dot_not_space c : digit_or_dot c = true -> is_space c = false.
Proof. destruct c as [[] [] [] [] [] [] [] []]; vm_compute; congruence. Qed.

Lemma name_head r b : row_ok r -> match r_fn r ++ b with [] => True | c :: _ => is_space c = false end.
Proof.
  intros [_ _ _ _ _ [Hne _] Ht]. destruct (r_fn r) as [|c s]; [done|]. by eapply trim_head.
Qed.

Lemma option_bind_eq {A B} (x : option A) (k : A -> option B) a : x = Some a -> (x ≫= k) = k a.
Proof. by intros ->. Qed.

Lemma spaces_app n f a b : (forall c, f c = true -> is_space c = false) -> column f a ->
  run is_space (blanks (S n) ++ a ++ b) = Some (blanks (S n), a ++ b).
Proof. intros Hf Ha. apply column_run; [apply blanks_column|]. by eapply column_head. Qed.

(** One part of the expression: a text, a column, or a gap. *)
Ltac part := erewrite option_bind_eq by
  first [ apply literal_app | by apply column_run | eapply spaces_app; [|by eassumption]; auto using digit_not_space, digit_or_dot_not_space ];
  cbn beta iota.

Lemma run_all f a : column f a -> run f a = Some (a, []).
Proof. intros H. rewrite <- (app_nil_r a) at 1. by apply column_run. Qed.

(** A row is read back, whatever the widths of its columns. *)
Lemma row_at_body r : row_ok r -> row_at (row_body r) = Some (entry_of r).
Proof.
  intros H. pose proof H as [H1 H2 H3 H4 H5 H6 H7]. unfold row_at, row_body, entry_of.
  destruct (r_gaps r) as [[[[g1 g2] g3] g4] g5]. do 14 part.
  erewrite option_bind_eq by (apply column_run; [apply blanks_column|]; pose proof (name_head r [] H); by rewrite app_nil_r in *).
  cbn beta iota. erewrite option_bind_eq by (by apply run_all). cbn beta iota. by rewrite H7.
Qed.

Lemma row_trim r : row_ok r -> trim (row_text r) = row_body r.
Proof.
  intros H. unfold trim, row_text.
  assert (E : trimStart (blanks (r_indent r) ++ row_body r) = row_body r).
  { induction (r_indent r) as [|n IH]; [|exact IH]. cbn [blanks repeat app]. apply trimStart_id.
    intros c s E. destruct H as [H1 _ _ _ _ _ _]. unfold row_body in E.
    destruct (r_gaps r) as [[[[g1 g2] g3] g4] g5]. pose proof (column_head _ is_space _ (js "samples" ++ blanks (S g1)) digit_not_space H1) as Hh.
    destruct (r_flat r) as [|x t]; [by destruct H1|]. cbn in E, Hh. congruence. }
  pose proof (name_head r [] H) as Hn. rewrite app_nil_r in Hn. destruct H as [_ _ _ _ _ [Hne _] Ht].
  assert (not_blank (r_fn r)) by (destruct (r_fn r) as [|c s]; [done|]; exists c; split; [by left|done]).
  assert (trimEnd (r_fn r) = r_fn r).
  { rewrite <- Ht at 2. unfold trim. f_equal. symmetry. apply trimStart_id. intros c s E'. by rewrite E' in Hn. }
  rewrite E. unfold row_body. destruct (r_gaps r) as [[[[g1 g2] g3] g4] g5].
  rewrite !app_assoc, trimEnd_visible by done. congruence.
Qed.

Lemma first_match_here {A} (f : str -> option A) s x : f s = Some x -> first_match f s = Some x.
Proof. by destruct s; cbn; intros ->. Qed.

Lemma read_row r : row_ok r -> first_match row_at (trim (row_text r)) = Some (entry_of r).
Proof. intros H. rewrite row_trim by done. by apply first_match_here, row_at_body. Qed.

Lemma read_rows_all rows : Forall row_ok rows -> read_rows ((row_text <$> rows) ++ [[]]) = entry_of <$> rows.
Proof.
  intros H. unfold read_rows. induction H as [|r rows Hr _ IH]; [done|].
  cbn [fmap list_fmap app omap list_omap]. rewrite read_row by done. cbn. by f_equal.
Qed.

(** A report: lines, the titles, the rows, and an empty line at the end. *)
Definition report (header : list str) (titles : str) (rows : list row) : str :=
  join (header ++ titles :: (row_text <$> rows) ++ [[]]) nl.

Lemma column_one_line f s : f newline = false -> column f s -> newline ∉ s.
Proof. intros Hf [_ H] Hn. rewrite Forall_forall in H. apply H in Hn. congruence. Qed.

Lemma blanks_one_line n : newline ∉ blanks n.
Proof. induction n as [|n IH]; cbn; [by intros ?%elem_of_nil|]. by intros [?|?]%elem_of_cons. Qed.

Lemma row_one_line r : row_ok r -> newline ∉ row_text r.
Proof.
  intros [H1 H2 H3 H4 H5 H6 _]. unfold row_text, row_body. destruct (r_gaps r) as [[[[g1 g2] g3] g4] g5].
  rewrite !not_elem_of_app. split_and!; try apply blanks_one_line;
    first [by eapply column_one_line; [|eassumption] | by apply (bool_decide_unpack _); vm_compute].
Qed.

Lemma after_titles_app header titles ls :
  Forall (fun l => startsWith (trim l) (js "flat  flat%") = false) header ->
  startsWith (trim titles) (js "flat  flat%") = true -> after_titles (header ++ titles :: ls) = Some ls.
Proof. intros Hh Ht. induction Hh as [|l hs Hl _ IH]; cbn [app after_titles]; [by rewrite Ht|by rewrite Hl]. Qed.

(** C36: in a report that has, after its titles, only rows whose flat and
    cumulative values are printed with their unit ([Nsamples]), the rows are
    read back in their order, each with its numbers and its function; the
    functions listed as the most expensive ones are five of them at most, those
    with the most samples, in descending order.  (A row with no self time,
    whose flat value is printed as [0], is not read.) *)
Theorem report_read_back header titles rows :
  Forall (fun l => (newline ∉ l) /\ startsWith (trim l) (js "flat  flat%") = false) header ->
  newline ∉ titles -> startsWith (trim titles) (js "flat  flat%") = true -> Forall row_ok rows ->
  let es := (parsePprofText (report header titles rows)).2 in
  es = entry_of <$> rows /\
  forall top key, (top = flatTop /\ key = flat_samples \/ top = cumTop /\ key = cum_samples) ->
    exists others, top es ++ others ≡ₚ es /\ length (top es) = min 5 (length rows) /\
      StronglySorted (fun x y => key y <= key x)%Z (top es) /\
      forall x y, x ∈ top es -> y ∈ others -> (key y <= key x)%Z.
Proof.
  intros Hh Ht1 Ht2 Hr es.
  assert (E : es = entry_of <$> rows).
  { unfold es, parsePprofText. destruct (match first_match shown_at _ with Some _ => _ | None => _ end) as [[? ?] ?]. cbn [snd].
    unfold report, nl. rewrite split_join.
    - rewrite after_titles_app; [by apply read_rows_all| |done]. eapply Forall_impl; [exact Hh|]. by intros l [_ ?].
    - by destruct header.
    - apply Forall_app. split; [eapply Forall_impl; [exact Hh|]; by intros l [? _]|].
      constructor; [done|]. apply Forall_app. split; [|by repeat constructor; intros ?%elem_of_nil].
      apply Forall_fmap. eapply Forall_impl; [exact Hr|]. intros r. apply row_one_line. }
  split; [done|]. intros top key Hk.
  assert (top es = take 5 (sort_desc_Z key es)) as -> by (destruct Hk as [[-> ->]|[-> ->]]; done).
  exists (drop 5 (sort_desc_Z key es)). rewrite take_drop. split_and!.
  - apply sort_by_perm.
  - rewrite length_take. unfold sort_desc_Z. rewrite length_sort_by, E, length_fmap. done.
  - apply StronglySorted_take, sort_desc_Z_sorted.
  - intros x y. apply (StronglySorted_take_drop (fun x y => key y <= key x)%Z), sort_desc_Z_sorted.
Qed.

(** A row without self time: [pprof] prints the number 0 without its unit,
    and the row is not read. *)
Example zero_row_dropped :
  read_rows [js "         0     0% 57.14%  105samples   100%  main.main"] = [].
Proof. by vm_compute. Qed.

Definition toy_row (indent : nat) (flat flatp sump cum cump fn : string) : row :=
  Row (js flat) (js flatp) (js sump) (js cum) (js cump) (js fn) indent (1, 0, 2, 1, 1).
Definition toy_report_rows : list row :=
  [toy_row 4 "60" "57.14" "57.14" "61" "58.1" "runtime.memmove"; toy_row 5 "7" "6.67" "63.81" "90" "85.71" "kv.(*Store).Set (inline)"].
Definition toy_titles : str := js "      flat  flat%   sum%        cum   cum%".

Lemma report_read_back_witness :
  let es := (parsePprofText (report [js "Type: samples"; js "Time: now"] toy_titles toy_report_rows)).2 in
  es = entry_of <$> toy_report_rows /\
  forall top key, (top = flatTop /\ key = flat_samples \/ top = cumTop /\ key = cum_samples) ->
    exists others, top es ++ others ≡ₚ es /\ length (top es) = min 5 (length toy_report_rows) /\
      StronglySorted (fun x y => key y <= key x)%Z (top es) /\
      forall x y, x ∈ top es -> y ∈ others -> (key y <= key x)%Z.
Proof.
  apply report_read_back.
  - repeat constructor; try (by vm_compute); by apply (bool_decide_unpack _); vm_compute.
  - by apply (bool_decide_unpack _); vm_compute.
  - by vm_compute.
  - repeat constructor; try done; by vm_compute.
Defined.

(** The whole of a report: the data before the rows, and the rows. *)
Example whole_report :
  (parsePprofText (report [js "Type: samples"; js "Time: Jan 1, 2025 at 1:00am (UTC)";
     js "Showing nodes accounting for 67samples, 63.81% of 105samples total"; js "Dropped 12 nodes (cum <= 2samples)"]
     toy_titles toy_report_rows)).1
  = Metadata (js "Jan 1, 2025 at 1:00am (UTC)") 105 67 (parseFloat (js "63.81")) 12.
Proof. by vm_compute. Qed.

(** ** Explanations *)

Section explain.
Context (showNum : num -> str) (pprof : option str -> result str) (generateContent : str -> str -> result str).
Context (env : str -> option str) (buildUrl : str -> list (str * str) -> result str).
Context (axios : str -> result str) (path_join : str -> str -> str) (dirname : str).

(** Explaining a profile whose report [pprof] prints answers what the model
    says about its markdown, or the markdown when the model cannot be asked;
    the file of the profile is gone and no other file has changed. *)
Theorem profile_explained now q fs url data stdout :
  profile_url env buildUrl "pprof" q = Ok url -> q_test q = false -> axios url = Ok data -> pprof (Some data) = Ok stdout ->
  let markdown := toMarkdown showNum (parsePprofText stdout) in
  explainFlamegraph showNum pprof generateContent env buildUrl axios path_join dirname now q fs
  = (delete (profile_path path_join dirname now) fs,
     Ok (Send (Markdown match analyzeProfileContent generateContent env markdown with Ok insights => insights | Throw _ => markdown end))).
Proof.
  intros Hu Ht Ha Hp markdown. unfold explainFlamegraph, convertPprofToMarkdown. rewrite Hu, Ht, Ha, lookup_insert_eq, Hp.
  fold markdown. rewrite delete_insert_eq. by destruct (analyzeProfileContent _ _ _).
Qed.

(** When the profile cannot be fetched the answer is an error with the status
    500 and no file is written; when it cannot be read the answer has the
    status 200, and the file is removed too. *)
Lemma profile_failures now q fs url m :
  profile_url env buildUrl "pprof" q = Ok url -> q_test q = false ->
  let run := explainFlamegraph showNum pprof generateContent env buildUrl axios path_join dirname now q fs in
  (axios url = Throw m -> run = (fs, Ok (Fail 500 (message_or m "Error fetching profiling data")))) /\
  (forall data, axios url = Ok data -> pprof (Some data) = Throw m ->
     run = (delete (profile_path path_join dirname now) fs, Ok (Send NotParsed))).
Proof.
  intros Hu Ht run. unfold run, explainFlamegraph, convertPprofToMarkdown. rewrite Hu, Ht. split.
  - by intros ->.
  - intros data -> Hp. by rewrite lookup_insert_eq, Hp, delete_insert_eq.
Qed.
End explain.

Lemma profile_explained_witness :
  let run := explainFlamegraph (fun _ => js "1") (fun _ => Ok (js "Time: now")) (fun _ _ => Throw (js "quota"))
    (fun _ => Some (js "http://p")) (fun b _ => Ok b) (fun _ => Ok (js "profile")) (fun a b => a ++ js "/" ++ b) (js "/srv")
    (js "7") (ProfileRequest (Some (js "kv")) None None None false) ∅ in
  run.1 = delete (js "/srv/../tmp/profile-7.pprof") ∅ /\
  run.2 = Ok (Send (Markdown (toMarkdown (fun _ => js "1") (parsePprofText (js "Time: now"))))).
Proof.
  cbv zeta. erewrite (profile_explained (fun _ => js "1") (fun _ => Ok (js "Time: now")) (fun _ _ => Throw (js "quota"))
    (fun _ => Some (js "http://p")) (fun b _ => Ok b) (fun _ => Ok (js "profile")) (fun a b => a ++ js "/" ++ b) (js "/srv")
    (js "7") (ProfileRequest (Some (js "kv")) None None None false) ∅ (js "http://p") (js "profile") (js "Time: now"));
    [split; reflexivity|reflexivity..].
Defined.

(** ** Metrics *)

Section metrics.
Context (env : str -> option str) (buildUrl : str -> list (str * str) -> result str).
Context (prometheus : str -> result (option (list series))).

Lemma map_result_ok {A B} (f : A -> result B) (g : A -> B) l :
  Forall (fun a => f a = Ok (g a)) l -> map_result f l = Ok (g <$> l).
Proof. intros H. induction H as [|a l Ha _ IH]; cbn; [done|]. by rewrite Ha, IH. Qed.

(** Without the address of the metrics server two of its five endpoints never
    answer, as the address is read before the [try]; the other three answer
    with the status 400. *)
Theorem unconfigured_unanswered q :
  env (js "NODE_EXPORTER_BASE_URL") = None ->
  let m := required (js "NODE_EXPORTER_BASE_URL") in
  getCpuUsage env buildUrl prometheus q = Throw m /\ getDiskIOPS env buildUrl prometheus q = Throw m /\
  getDiskWaitTime env buildUrl prometheus q = Fail 400 m /\ getDiskRWData env buildUrl prometheus q = Fail 400 m /\
  getTimeSpentDoingIO env buildUrl prometheus q = Fail 400 m.
Proof.
  intros H. assert (E : forall from query, metrics_url env buildUrl from query q = Throw (required (js "NODE_EXPORTER_BASE_URL")))
    by (intros; unfold metrics_url, getEnv; by rewrite H).
  unfold getCpuUsage, getDiskIOPS, getDiskWaitTime, getDiskRWData, getTimeSpentDoingIO, keyed_points, fetch_points.
  cbn [map_result fst snd]. by rewrite !E.
Qed.

(** A series whose times are within the range of dates is answered point by
    point, in its order, under the key of its query. *)
Theorem points_kept text queries q (answers : str -> option (list series)) :
  Forall (fun kq => exists url, metrics_url env buildUrl "now-5m" kq.2 q = Ok url /\ prometheus url = Ok (answers kq.1)) queries ->
  (forall k p, p ∈ first_values (answers k) -> is_Some (millis p.1 ≫= timeClip)) ->
  exists times, keyed_points env buildUrl prometheus text queries q
    = Send ((fun kq : str * str => (kq.1, (fun p => (times p.1, parse_float p.2)) <$> first_values (answers kq.1))) <$> queries) /\
    forall t, is_Some (millis t ≫= timeClip) -> toISOString (millis t) = Ok (times t).
Proof.
  intros Hq Ht. exists (fun t => match toISOString (millis t) with Ok s => s | Throw _ => [] end).
  assert (I : forall t, is_Some (millis t ≫= timeClip) ->
            toISOString (millis t) = Ok (match toISOString (millis t) with Ok s => s | Throw _ => [] end)).
  { intros t [ms E]. unfold toISOString. rewrite E. by destruct (civil_from_days _) as [[? ?] ?]. }
  split; [|done]. unfold keyed_points. rewrite (map_result_ok _ (fun kq => (kq.1, first_values (answers kq.1)))).
  - rewrite (map_result_ok _ (fun kl : str * list (num * str) =>
      (kl.1, (fun p => (match toISOString (millis p.1) with Ok s => s | Throw _ => [] end, parse_float p.2)) <$> kl.2))).
    { f_equal. rewrite <- list_fmap_compose. done. }
    apply Forall_fmap, Forall_forall. intros kq Hk. cbn.
    rewrite (map_result_ok _ (fun p => (match toISOString (millis p.1) with Ok s => s | Throw _ => [] end, parse_float p.2))); [done|].
    apply Forall_forall. intros p Hp. unfold point_of. rewrite (I p.1) at 1 by (by eapply Ht). done.
  - eapply Forall_impl; [exact Hq|]. intros kq (url & Hu & Hp). unfold fetch_points. by rewrite Hu, Hp.
Qed.
End metrics.
