(* ===== verification/VaultPages.v ===== *)
(** * The pages of ResVault

    src/ecosystem/tools/resvault/src/pages: SignUp.jsx and Login.jsx open the
    key ring of KeyRing.v; Dashboard.jsx and Contract.jsx choose a net, connect
    the site of the current tab to it through the background script of
    Wallet.v, and submit transactions and deployments.

    A handler and the callbacks of its messages run before the next event.
    What a handler captured when the page was rendered is explicit: the
    callbacks of [generateKeyPair] and [deleteKeyPair] see the key pairs of
    the render in which the button was pressed.  The effects of a page run
    after the handler that changed what they depend on.  [JSON.parse] and the
    answers of the background script are parameters; icons, copying to the
    clipboard and downloads are left out. *)

From S2P Require Import Prelude JsString JsArray JsNum Json Codec Wallet KeyRing.

(** ** Signing up and logging in *)

Section session.
Context `{L : KeyLibs}.

Definition setLocalPassword (p : option str) : K unit := modify (fun w =>
  World (storedPassword w) (keyPairs w) (selectedKeyPairIndex w) (w_publicKey w) (w_privateKey w) (ownerAddress w)
    (isAuthenticated w) (alert w) (encryptedKeyPairs w) (store w) p (local_index w)).


(** Both storages are cleared. *)
Definition removeAccount : K unit :=
  _ ← modify (fun w =>
        World (storedPassword w) (keyPairs w) (selectedKeyPairIndex w) (w_publicKey w) (w_privateKey w) (ownerAddress w)
          (isAuthenticated w) (alert w) None None None None);
  setIsAuthenticated false.

(** The effect of the page generates the first pair once the password is set;
    with an empty password it does not. *)
Definition createAccount (salt salt' : N) (pub secret : list N) (password confirm : str) : K bool :=
  if bool_decide (password = confirm) then
    _ ← setLocalPassword (Some password);
    _ ← setStoredPassword password;
    match password with
    | [] => mret false
    | _ =>
        done ← generateKeyPair salt salt' pub secret;
        _ ← (if done : bool then setIsAuthenticated true else mret tt);
        mret done
    end
  else mret false.


End session.

(** ** The net and the connection *)

Record Net := MkNet { net_name : str; net_url : str }.

(** The state of a page. *)
Record Page := MkPage {
  domain : str;
  selectedNet : str;
  completeUrl : str;
  customUrl : str;
  isConnected : bool;
  nets : list Net;
  newNetName : str;
  protocol : str;
  error : str;
  showModal : bool;
}.

Section page.
Context `{L : KeyLibs} `{B : Browser}.

(** The extension: the key ring, [chrome.storage.local] without and with its
    item [connections], the nets in [localStorage], the mode, and the page. *)
Record Vault := MkVault {
  ring : world;
  local : storage;
  connections : jsmap str (jsmap str bool);
  stored_nets : list Net;
  mode : str;
  page : Page;
}.

Definition on_page (f : Page -> Page) (v : Vault) : Vault :=
  MkVault (ring v) (local v) (connections v) (stored_nets v) (mode v) (f (page v)).
Definition set_ring (w : world) (v : Vault) : Vault :=
  MkVault w (local v) (connections v) (stored_nets v) (mode v) (page v).
Definition set_local (st : storage) (v : Vault) : Vault :=
  MkVault (ring v) st (connections v) (stored_nets v) (mode v) (page v).
Definition set_connections (c : jsmap str (jsmap str bool)) (v : Vault) : Vault :=
  MkVault (ring v) (local v) c (stored_nets v) (mode v) (page v).
Definition set_stored_nets (l : list Net) (v : Vault) : Vault :=
  MkVault (ring v) (local v) (connections v) l (mode v) (page v).

Definition setSelectedNet (n : str) (p : Page) : Page :=
  MkPage (domain p) n (completeUrl p) (customUrl p) (isConnected p) (nets p) (newNetName p) (protocol p) (error p) (showModal p).
Definition setCompleteUrl (u : str) (p : Page) : Page :=
  MkPage (domain p) (selectedNet p) u (customUrl p) (isConnected p) (nets p) (newNetName p) (protocol p) (error p) (showModal p).
Definition setCustomUrl (u : str) (p : Page) : Page :=
  MkPage (domain p) (selectedNet p) (completeUrl p) u (isConnected p) (nets p) (newNetName p) (protocol p) (error p) (showModal p).
Definition setIsConnected (b : bool) (p : Page) : Page :=
  MkPage (domain p) (selectedNet p) (completeUrl p) (customUrl p) b (nets p) (newNetName p) (protocol p) (error p) (showModal p).
Definition setNets (l : list Net) (p : Page) : Page :=
  MkPage (domain p) (selectedNet p) (completeUrl p) (customUrl p) (isConnected p) l (newNetName p) (protocol p) (error p) (showModal p).
Definition setNewNetName (n : str) (p : Page) : Page :=
  MkPage (domain p) (selectedNet p) (completeUrl p) (customUrl p) (isConnected p) (nets p) n (protocol p) (error p) (showModal p).
Definition setProtocol (s : str) (p : Page) : Page :=
  MkPage (domain p) (selectedNet p) (completeUrl p) (customUrl p) (isConnected p) (nets p) (newNetName p) s (error p) (showModal p).
Definition setError (e : str) (p : Page) : Page :=
  MkPage (domain p) (selectedNet p) (completeUrl p) (customUrl p) (isConnected p) (nets p) (newNetName p) (protocol p) e (showModal p).
Definition setShowModal (b : bool) (p : Page) : Page :=
  MkPage (domain p) (selectedNet p) (completeUrl p) (customUrl p) (isConnected p) (nets p) (newNetName p) (protocol p) (error p) b.

Definition alert_with (m : string) (v : Vault) : Vault := set_ring (setAlert (js m) (ring v)).1 v.

(** *** The status of a connection *)

Definition setDomainConnectionStatus (d n : str) (b : bool) (v : Vault) : Vault :=
  set_connections (map_set (connections v) d (map_set (coalesce (map_get (connections v) d) []) n b)) v.

Definition getDomainConnectionStatus (v : Vault) (d n : str) : bool :=
  coalesce (map_get (coalesce (map_get (connections v) d) []) n) false.

(** *** The net that is active *)

Definition mainnet_url (m : str) : str :=
  if bool_decide (m = js "KV") then js "https://cloud.resilientdb.com/graphql" else js "https://contract.resilientdb.com/graphql".
Definition localnet_url (m : str) : str :=
  if bool_decide (m = js "KV") then js "http://localhost:8000/graphql" else js "http://localhost:8400/graphql".

Definition Mainnet : str := js "ResilientDB Mainnet".
Definition Localnet : str := js "ResilientDB Localnet".
Definition CustomURL : str := js "Custom URL".
Definition ManageNets : str := js "Manage Nets".
Definition graphql : str := js "/graphql".
Definition scheme : str := js "://".

(** [url.replace(/^https?:\/\/|\/graphql$/g, '')] *)
Definition strip_url (u : str) : str :=
  let u1 := if is_prefix (js "http://") u then drop 7 u else if is_prefix (js "https://") u then drop 8 u else u in
  if endsWith u1 graphql then take (length u1 - length graphql) u1 else u1.

Definition net_by_url (l : list Net) (u : str) : option Net := snd <$> list_find (fun n => net_url n = u) l.
Definition net_by_name (l : list Net) (name : str) : option Net := snd <$> list_find (fun n => net_name n = name) l.

(** The effect on the nets and the mode. *)
Definition load_active (v : Vault) : Vault :=
  match str_or (activeNetUrl (local v)) [] with
  | [] => on_page (fun p => setSelectedNet Mainnet (setCompleteUrl (mainnet_url (mode v)) p)) v
  | u =>
      on_page (fun p =>
        let p := setCompleteUrl u p in
        if bool_decide (u = mainnet_url (js "KV")) || bool_decide (u = mainnet_url (js "Contract")) then setSelectedNet Mainnet p
        else if bool_decide (u = localnet_url (js "KV")) || bool_decide (u = localnet_url (js "Contract")) then setSelectedNet Localnet p
        else
          let name := match net_by_url (nets p) u with Some n => net_name n | None => CustomURL end in
          setCustomUrl (strip_url u) (setSelectedNet name p)) v
  end.

(** The effects on the domain and the net: the status is read again. *)
Definition load_status (v : Vault) : Vault :=
  let p := page v in
  match selectedNet p with
  | [] => v
  | n => on_page (setIsConnected (getDomainConnectionStatus v (domain p) n)) v
  end.

(** Whether two states have the same net selected. *)
Definition same_net (v v' : Vault) : bool := bool_decide (selectedNet (page v) = selectedNet (page v')).

(** After a handler: the effects whose dependencies changed.  A list of nets
    that is set is a new one, [renewed]. *)
Definition rendered (renewed : bool) (old v : Vault) : Vault :=
  let v1 := if same_net old v then v else load_status v in
  if renewed then
    let v2 := load_active v1 in if same_net v1 v2 then v2 else load_status v2
  else v1.

(** A page that is shown: its state is new, the domain is the one of the tab,
    or [extension] without one. *)
Definition mounted (tab : option str) (v : Vault) : Vault :=
  let d := match tab with Some (c :: url) => getBaseDomain (c :: url) | _ => js "extension" end in
  let v := on_page (fun _ => MkPage d [] [] [] false (stored_nets v) [] (js "http") [] false) v in
  load_status (load_active v).

(** *** Handlers *)

Definition custom_url (protocol url : str) : str := protocol ++ scheme ++ url ++ graphql.

Definition toggleProtocol (v : Vault) : Vault :=
  let new := if bool_decide (protocol (page v) = js "http") then js "https" else js "http" in
  on_page (fun p =>
    let p1 := setProtocol new p in
    if bool_decide (selectedNet p = CustomURL) && negb (bool_decide (customUrl p = []))
    then setCompleteUrl (custom_url new (customUrl p)) p1 else p1) v.

Definition addNet (v : Vault) : Vault :=
  let p := page v in
  if bool_decide (trim (newNetName p) = []) || bool_decide (trim (customUrl p) = [])
  then alert_with "Both Net Name and GraphQL URL are required." (on_page (setError (js "Both fields are required.")) v)
  else
    let newNets := nets p ++ [MkNet (newNetName p) (custom_url (protocol p) (customUrl p))] in
    rendered true v
      (set_stored_nets newNets
         (on_page (fun p0 => setSelectedNet (newNetName p) (setNets newNets (setCustomUrl [] (setNewNetName [] (setError [] p0))))) v)).

Definition removeNet (name : str) (v : Vault) : Vault :=
  let filteredNets := filterb (fun n => negb (bool_decide (net_name n = name))) (nets (page v)) in
  rendered true v (set_stored_nets filteredNets (on_page (setNets filteredNets) v)).

(** The message [disconnectKeys] and its callback. *)
Definition disconnect (f : fresh) (v : Vault) : Vault :=
  let p := page v in
  setDomainConnectionStatus (domain p) (selectedNet p) false
    (on_page (setIsConnected false) (set_local (handle f (DisconnectKeys (domain p) (selectedNet p)) (local v)).1 v)).

Definition toggleConnection (f : fresh) (v : Vault) : Vault :=
  let p := page v in
  match w_publicKey (ring v), w_privateKey (ring v) with
  | _ :: _, _ :: _ =>
      if isConnected p then disconnect f v
      else
        setDomainConnectionStatus (domain p) (selectedNet p) true
          (on_page (setIsConnected true)
             (set_local (handle f (StoreKeys (domain p) (selectedNet p) (w_publicKey (ring v)) (w_privateKey (ring v)) (completeUrl p))
                           (local v)).1 v))
  | _, _ => alert_with "Public or Private key is missing." v
  end.

Definition set_active (u : str) (v : Vault) : Vault :=
  set_local (Storage (s_keys (local v)) (s_connectedNets (local v)) (s_faviconUrls (local v)) (Some u)) v.

(** A net whose URL has no scheme throws, before anything is set. *)
Definition switchNetwork (value : str) (v : Vault) : Vault :=
  let p := page v in
  let go (u : str) (f : Page -> Page) := set_active u (on_page (fun p => setSelectedNet value (setCompleteUrl u (f p))) v) in
  if bool_decide (value = ManageNets) then on_page (setShowModal true) v
  else if bool_decide (value = Mainnet) then go (mainnet_url (mode v)) id
  else if bool_decide (value = Localnet) then go (localnet_url (mode v)) id
  else if bool_decide (value = CustomURL) then
    go (match customUrl p with [] => protocol p ++ scheme | u => custom_url (protocol p) u end) id
  else
    match net_by_name (nets p) value with
    | None => go [] id
    | Some n =>
        match split (net_url n) scheme !! 1 with
        | None => v
        | Some s => go (net_url n) (setCustomUrl (replace_first s graphql []))
        end
    end.

Definition handleNetworkChange (f : fresh) (value : str) (v : Vault) : Vault :=
  if bool_decide (value = selectedNet (page v)) then v
  else rendered false v (switchNetwork value (if isConnected (page v) then disconnect f v else v)).

Definition handleCustomUrlChange (value : str) (v : Vault) : Vault :=
  on_page (fun p => setCompleteUrl (custom_url (protocol p) value) (setCustomUrl value p)) v.

Definition disconnectDueToKeysChange (f : fresh) (v : Vault) : Vault := if isConnected (page v) then disconnect f v else v.

Definition switchKeyPair (f : fresh) (salt : N) (index : nat) (v : Vault) : Vault :=
  disconnectDueToKeysChange f (set_ring (setSelectedKeyPairFn salt index (ring v)).1 v).

Definition generatePair (f : fresh) (salt salt' : N) (pub secret : list N) (v : Vault) : Vault :=
  match handleGenerateKeyPair salt salt' pub secret (ring v) with
  | (w, Ok true) => disconnectDueToKeysChange f (set_ring w v)
  | (w, _) => set_ring w v
  end.

Definition deletePair (salt salt' salt2 : N) (v : Vault) : Vault :=
  set_ring (handleDeleteKeyPair salt salt' salt2 (ring v)).1 v.

Definition uploadPairs (salt salt' : N) (l : list RawPair) (v : Vault) : Vault :=
  set_ring (appendKeyPairs salt salt' l (ring v)).1 v.

(** [toggleServiceMode]: the statuses are forgotten and the page of the other
    mode is shown. *)
Definition toggleMode (tab : option str) (v : Vault) : Vault :=
  let newMode := if bool_decide (mode v = js "KV") then js "Contract" else js "KV" in
  mounted tab (MkVault (ring v) (local v) [] (stored_nets v) newMode (page v)).

(** *** Events *)

Inductive event :=
| Mount (tab : option str)
| ToggleProtocol
| NameNet (name : str)
| AddNet
| RemoveNet (name : str)
| TypeUrl (url : str)
| ToggleConnection (f : fresh)
| ChangeNetwork (f : fresh) (value : str)
| SwitchPair (f : fresh) (salt : N) (index : nat)
| GeneratePair (f : fresh) (salt salt' : N) (pub secret : list N)
| DeletePair (salt salt' salt2 : N)
| UploadPairs (salt salt' : N) (l : list RawPair)
| ToggleMode (tab : option str).

Definition on_event (e : event) (v : Vault) : Vault :=
  match e with
  | Mount tab => mounted tab v
  | ToggleProtocol => toggleProtocol v
  | NameNet name => on_page (setNewNetName name) v
  | AddNet => addNet v
  | RemoveNet name => removeNet name v
  | TypeUrl url => handleCustomUrlChange url v
  | ToggleConnection f => toggleConnection f v
  | ChangeNetwork f value => handleNetworkChange f value v
  | SwitchPair f salt index => switchKeyPair f salt index v
  | GeneratePair f salt salt' pub secret => generatePair f salt salt' pub secret v
  | DeletePair salt salt' salt2 => deletePair salt salt' salt2 v
  | UploadPairs salt salt' l => uploadPairs salt salt' l v
  | ToggleMode tab => toggleMode tab v
  end.
End page.

(** ** Files and messages *)

(** A file that was chosen or dropped: its name, its type and its text. *)
Record File := MkFile { file_name : str; file_type : str; file_text : str }.

Section forms.
Context (JSON_parse : str -> result json).

Definition is_json (f : File) : bool := bool_decide (file_type f = js "application/json").

(** *** Key pairs from a file *)

Section key_files.
Context `{L : KeyLibs} `{B : Browser}.

(** The keys of a pair in a file are texts. *)
Definition text_in (v : json) (key : string) : option str :=
  match prop v (js key) with Some (JStr s) => Some s | _ => None end.
Definition raw_of (v : json) : RawPair := Raw (text_in v "publicKey") (text_in v "privateKey").

Definition is_null (v : json) : bool := match v with JNull => true | _ => false end.

(** The pairs of an array: reading a key of [null] throws, unless the check
    has stopped before. *)
Definition uploadArray (salt salt' : N) (l : list json) (v : Vault) : Vault :=
  match list_find (fun x => is_null x = true) l with
  | None => uploadPairs salt salt' (raw_of <$> l) v
  | Some (i, _) =>
      match storedPassword (ring v), validate_all 0 (raw_of <$> take i l) with
      | _ :: _, Ok _ => alert_with "Error parsing JSON file." v
      | _, _ => uploadPairs salt salt' (raw_of <$> take i l) v
      end
  end.

Definition handleKeyPairFileUpload (salt salt' : N) (file : option File) (v : Vault) : Vault :=
  match file with
  | Some f =>
      if is_json f then
        match JSON_parse (file_text f) with
        | Throw _ | Ok JNull => alert_with "Error parsing JSON file." v
        | Ok (JArr l) => uploadArray salt salt' l v
        | Ok x =>
            if truthy (prop x (js "publicKey")) && truthy (prop x (js "privateKey"))
            then uploadArray salt salt' [x] v
            else alert_with "Invalid JSON format for key pairs." v
        end
      else alert_with "Please upload a valid JSON file." v
  | None => alert_with "Please upload a valid JSON file." v
  end.
End key_files.

(** *** A transaction *)

(** The form of Dashboard.jsx. *)
Record Transaction := MkTransaction {
  transactionData : option json;
  transactionError : str;
  jsonFileName : str;
  successResponse : option json;
  showSuccessModal : bool;
  tx_alert : option str;
}.

(** [json.asset && json.recipientAddress && json.amount]: reading a property
    of [null] throws. *)
Definition transaction_fields (v : json) : result bool :=
  match v with
  | JNull => Throw (js "Cannot read properties of null (reading 'asset')")
  | _ => Ok (truthy (prop v (js "asset")) && truthy (prop v (js "recipientAddress")) && truthy (prop v (js "amount")))
  end.

Definition reject_file (name error alert : str) (t : Transaction) : Transaction :=
  MkTransaction None error name (successResponse t) (showSuccessModal t) (Some alert).

(** [handleFileUpload], and [handleDrop] on the file that was dropped. *)
Definition handleFileUpload (file : option File) (t : Transaction) : Transaction :=
  match file with
  | Some f =>
      if is_json f then
        match JSON_parse (file_text f) with
        | Throw _ => reject_file (file_name f) (js "Invalid JSON format.") (js "Invalid JSON format.") t
        | Ok v =>
            match transaction_fields v with
            | Throw _ => reject_file (file_name f) (js "Invalid JSON format.") (js "Invalid JSON format.") t
            | Ok true => MkTransaction (Some v) [] (file_name f) (successResponse t) (showSuccessModal t) (tx_alert t)
            | Ok false =>
                let m := js "Invalid JSON format: Missing required fields." in reject_file (file_name f) m m t
            end
        end
      else reject_file [] (js "Please upload a JSON file.") (js "Please upload a valid JSON file.") t
  | None => reject_file [] (js "Please upload a JSON file.") (js "Please upload a valid JSON file.") t
  end.

(** [response.error || text] *)
Definition error_or (response : json) (text : string) : str :=
  match prop response (js "error") with Some (JStr (c :: s)) => c :: s | _ => js text end.

Definition refuse (m : string) (t : Transaction) : Transaction :=
  MkTransaction (transactionData t) (js m) (jsonFileName t) (successResponse t) (showSuccessModal t) (Some (js m)).

(** The message that was sent, if one was: the data, the domain and the net. *)
Definition handleSubmit (background : json -> str -> str -> json) (p : Page) (t : Transaction)
  : Transaction * option (json * str * str) :=
  match transactionData t with
  | None => (refuse "No valid transaction data found." t, None)
  | Some data =>
      if isConnected p then
        let response := background data (domain p) (selectedNet p) in
        (if truthy (prop response (js "success")) then
           MkTransaction None [] [] (prop response (js "data")) true (tx_alert t)
         else
           let m := error_or response "Transaction submission failed." in
           MkTransaction (transactionData t) m (jsonFileName t) (successResponse t) (showSuccessModal t) (Some m),
         Some (data, domain p, selectedNet p))
      else (refuse "Please connect to a net before submitting a transaction." t, None)
  end.

(** The form of Contract.jsx. *)
Record Deployment := MkDeployment {
  solidityFileName : str;
  solidityContent : str;
  deployJsonFileName : str;
  deployJsonContent : option json;
  deployError : str;
  showContractModal : bool;
  contractAddress : str;
}.

Definition set_deploy_error (m : str) (d : Deployment) : Deployment :=
  MkDeployment (solidityFileName d) (solidityContent d) (deployJsonFileName d) (deployJsonContent d) m (showContractModal d) (contractAddress d).

(** [handleSolidityFileUpload], [handleSolidityDrop] *)
Definition handleSolidityFileUpload (file : option File) (d : Deployment) : Deployment :=
  let clear := MkDeployment [] [] (deployJsonFileName d) (deployJsonContent d)
                 (js "Please upload a valid Solidity (.sol) file.") (showContractModal d) (contractAddress d) in
  match file with
  | Some f =>
      if endsWith (file_name f) (js ".sol")
      then MkDeployment (file_name f) (file_text f) (deployJsonFileName d) (deployJsonContent d) [] (showContractModal d) (contractAddress d)
      else clear
  | None => clear
  end.

Definition is_string (v : option json) : bool := match v with Some (JStr _) => true | _ => false end.

(** [missing] is the message for a file without its fields, which differs
    between [handleDeployJsonFileUpload] and [handleDeployDrop]. *)
Definition handleDeployJson (missing : str) (file : option File) (d : Deployment) : Deployment :=
  let reject name m := MkDeployment (solidityFileName d) (solidityContent d) name None m (showContractModal d) (contractAddress d) in
  match file with
  | Some f =>
      if is_json f then
        match JSON_parse (file_text f) with
        | Throw _ | Ok JNull => reject (deployJsonFileName d) (js "Invalid JSON format.")
        | Ok v =>
            if is_string (prop v (js "arguments")) && is_string (prop v (js "contract_name"))
            then MkDeployment (solidityFileName d) (solidityContent d) (file_name f) (Some v) [] (showContractModal d) (contractAddress d)
            else reject (deployJsonFileName d) missing
        end
      else reject [] (js "Please upload a valid JSON file.")
  | None => reject [] (js "Please upload a valid JSON file.")
  end.

Definition text_of (v : option json) : str := match v with Some (JStr s) => s | _ => [] end.

(** What is sent: the source, the arguments, the name, the owner, the domain
    and the net. *)
Record DeployMessage := MkDeployMessage {
  m_source : str; m_arguments : str; m_name : str; m_owner : str; m_domain : str; m_net : str;
}.

Definition handleDeploy (background : DeployMessage -> json) (ownerAddress : str) (p : Page) (d : Deployment)
  : Deployment * option DeployMessage :=
  match solidityContent d, deployJsonContent d with
  | _ :: _, Some v =>
      let args := text_of (prop v (js "arguments")) in
      let contract_name := text_of (prop v (js "contract_name")) in
      if bool_decide (args = []) || bool_decide (contract_name = []) then
        (set_deploy_error (js "JSON file must contain " ++ [quote] ++ js "arguments" ++ [quote] ++ js " and " ++ [quote]
                           ++ js "contract_name" ++ [quote] ++ js ".") d, None)
      else if isConnected p then
        let m := MkDeployMessage (solidityContent d) args contract_name ownerAddress (domain p) (selectedNet p) in
        let response := background m in
        (if truthy (prop response (js "success")) then
           match text_of (prop response (js "contractAddress")) with
           | [] => set_deploy_error (js "Deployment succeeded but no contract address returned.") d
           | a => MkDeployment [] [] [] None [] true a
           end
         else set_deploy_error (error_or response "Contract deployment failed.") d, Some m)
      else (set_deploy_error (js "Please connect to a net before deploying a contract.") d, None)
  | _, _ => (set_deploy_error (js "Both Solidity contract and JSON configuration files are required.") d, None)
  end.
End forms.

(** ** What the page shows and what the background script holds *)

Section connection.
Context `{L : KeyLibs} `{B : Browser}.
Implicit Types (v : Vault) (st : storage) (d n : str).

Lemma entry_disconnect f d n st d' n' :
  find_entry (handle f (DisconnectKeys d n) st).1 d' n' = if decide ((d', n') = (d, n)) then None else find_entry st d' n'.
Proof.
  unfold handle, callback. destruct (disconnectKeys_write st d n) as [w|] eqn:E; cbn.
  - by apply disconnect_find.
  - apply disconnect_none in E. case_decide as D; [|done]. by injection D as -> ->.
Qed.

Lemma entry_store f d n pk sk url st e d' n' : make_entry f pk sk url = Ok e ->
  find_entry (handle f (StoreKeys d n pk sk url) st).1 d' n' = if decide ((d', n') = (d, n)) then Some e else find_entry st d' n'.
Proof.
  intros E. unfold handle, callback. rewrite E. cbn [fst commit]. unfold find_entry.
  change (keys (set_storage st ?w)) with (w_keys w). rewrite storeKeys_keys.
  destruct (decide (d = d')) as [<-|Hd].
  - rewrite map_get_set_eq. destruct (decide (n = n')) as [<-|Hn]; [by rewrite map_get_set_eq, decide_True|].
    rewrite map_get_set_ne, decide_False by congruence. by destruct (map_get (keys st) d).
  - by rewrite map_get_set_ne, decide_False by congruence.
Qed.

Lemma status_set d n b v d' n' :
  getDomainConnectionStatus (setDomainConnectionStatus d n b v) d' n'
  = if decide ((d', n') = (d, n)) then b else getDomainConnectionStatus v d' n'.
Proof.
  unfold getDomainConnectionStatus, setDomainConnectionStatus. cbn.
  destruct (decide (d = d')) as [<-|Hd].
  - rewrite map_get_set_eq. cbn. destruct (decide (n = n')) as [<-|Hn]; [by rewrite map_get_set_eq, decide_True|].
    by rewrite map_get_set_ne, decide_False by congruence.
  - by rewrite map_get_set_ne, decide_False by congruence.
Qed.

Definition named (n : Net) : Prop := net_name n <> [].

(** A status is only set for a site whose keys the background script holds. *)
Record stored_ok v : Prop := {
  ok_status d n : getDomainConnectionStatus v d n = true -> is_Some (find_entry (local v) d n);
  ok_nets : Forall named (nets (page v));
  ok_stored : Forall named (stored_nets v);
}.

(** The connection that is shown is the one of the status. *)
Definition shown_ok v : Prop :=
  isConnected (page v) = true -> getDomainConnectionStatus v (domain (page v)) (selectedNet (page v)) = true.

Definition vault_ok v : Prop := stored_ok v /\ shown_ok v.

Lemma load_active_nonempty v : Forall named (nets (page v)) -> selectedNet (page (load_active v)) <> [].
Proof.
  intros Hn. unfold load_active. destruct (str_or _ _) as [|c u]; [done|]. cbn [page on_page].
  destruct (_ || _); [done|]. destruct (_ || _); [done|]. cbn.
  unfold net_by_url. destruct (list_find _ _) as [[i n]|] eqn:E; [|done].
  apply list_find_Some in E as (Hi & _ & _). rewrite Forall_forall in Hn. apply Hn. by apply list_elem_of_lookup_2 in Hi.
Qed.

Lemma load_active_frame v :
  let v' := load_active v in
  local v' = local v /\ connections v' = connections v /\ stored_nets v' = stored_nets v /\ mode v' = mode v /\ ring v' = ring v /\
  domain (page v') = domain (page v) /\ isConnected (page v') = isConnected (page v) /\ nets (page v') = nets (page v).
Proof. unfold load_active. by repeat case_match. Qed.

Lemma load_active_stored v : stored_ok v -> stored_ok (load_active v).
Proof.
  intros [H1 H2 H3]. destruct (load_active_frame v) as (E1 & E2 & E3 & _ & _ & _ & _ & E8).
  constructor; [|by rewrite E8|by rewrite E3]. unfold getDomainConnectionStatus. rewrite E1, E2. exact H1.
Qed.

Lemma load_status_ok v : stored_ok v -> (selectedNet (page v) = [] -> shown_ok v) -> vault_ok (load_status v).
Proof.
  intros [H1 H2 H3] Hs. unfold load_status. destruct (selectedNet (page v)) as [|c n] eqn:E; [split; [done|auto]|].
  split; [done|]. unfold shown_ok. cbn. by rewrite E.
Qed.

Lemma rendered_ok renewed old v :
  stored_ok v -> (selectedNet (page v) = [] \/ selectedNet (page old) = selectedNet (page v) -> shown_ok v) ->
  vault_ok (rendered renewed old v).
Proof.
  intros Hv Hs. unfold rendered. set (v1 := if same_net old v then v else load_status v).
  assert (H1 : vault_ok v1).
  { unfold v1, same_net. case_bool_decide; [by split; auto|]. apply load_status_ok; auto. }
  clearbody v1. destruct renewed; [|done]. destruct H1 as [H1 H2]. pose proof (load_active_stored _ H1) as H3.
  unfold same_net. case_bool_decide as E.
  - split; [done|]. destruct (load_active_frame v1) as (_ & E2 & _ & _ & _ & E6 & E7 & _).
    unfold shown_ok, getDomainConnectionStatus in *. by rewrite E2, E6, E7, <- E.
  - apply load_status_ok; [done|]. intros E'. by apply load_active_nonempty in E'; [|destruct H1].
Qed.

(** What does not touch the storages, the domain, the net, the nets and the
    status shown. *)
Lemma frame_ok v v' : vault_ok v ->
  local v' = local v -> connections v' = connections v -> stored_nets v' = stored_nets v ->
  domain (page v') = domain (page v) -> selectedNet (page v') = selectedNet (page v) ->
  isConnected (page v') = isConnected (page v) -> nets (page v') = nets (page v) -> vault_ok v'.
Proof.
  intros [[H1 H2 H3] H4] E1 E2 E3 E4 E5 E6 E7. unfold vault_ok, shown_ok, getDomainConnectionStatus in *.
  rewrite E2, E4, E5, E6. split; [|done].
  constructor; unfold getDomainConnectionStatus; [by rewrite E1, E2|by rewrite E7|by rewrite E3].
Qed.

Lemma disconnect_ok f v : stored_ok v -> stored_ok (disconnect f v) /\ isConnected (page (disconnect f v)) = false /\
  selectedNet (page (disconnect f v)) = selectedNet (page v).
Proof.
  intros [H1 H2 H3]. split; [|done]. constructor; [|done..]. intros d n. unfold disconnect. rewrite status_set.
  change (local (setDomainConnectionStatus ?a ?b ?c ?x)) with (local x). cbn [local on_page set_local]. rewrite entry_disconnect.
  case_decide; [done|]. apply H1.
Qed.

Lemma not_shown v : isConnected (page v) = false -> shown_ok v.
Proof. intros E. unfold shown_ok. by rewrite E. Qed.

Lemma keys_change_ok f v : vault_ok v -> vault_ok (disconnectDueToKeysChange f v).
Proof.
  intros [H1 H2]. unfold disconnectDueToKeysChange. destruct (isConnected (page v)); [|done].
  destruct (disconnect_ok f v H1) as (H3 & H4 & _). split; [done|by apply not_shown].
Qed.

Lemma mounted_ok tab v : stored_ok v -> vault_ok (mounted tab v).
Proof.
  intros [H1 H2 H3]. unfold mounted. set (v1 := on_page _ v). assert (stored_ok v1) as H by (constructor; [exact H1|exact H3|exact H3]).
  apply load_status_ok; [by apply load_active_stored|]. intros E. by apply load_active_nonempty in E; [|destruct H].
Qed.

Lemma trim_ne s : trim s <> [] -> s <> [].
Proof. by intros H ->. Qed.

Lemma addNet_ok v : vault_ok v -> vault_ok (addNet v).
Proof.
  intros Hv. unfold addNet. destruct (bool_decide (trim (newNetName (page v)) = [])) eqn:E; [by apply (frame_ok v)|].
  cbn [orb]. destruct (bool_decide (trim (customUrl (page v)) = [])); [by apply (frame_ok v)|].
  apply bool_decide_eq_false, trim_ne in E. destruct Hv as [[H1 H2 H3] H4].
  assert (Forall named (nets (page v) ++ [MkNet (newNetName (page v)) (custom_url (protocol (page v)) (customUrl (page v)))]))
    by (apply Forall_app; by repeat constructor).
  apply rendered_ok; [by constructor|]. intros [E'|E']; [done|]. unfold shown_ok in *. cbn in *. by rewrite <- E'.
Qed.

Lemma removeNet_ok name v : vault_ok v -> vault_ok (removeNet name v).
Proof.
  intros [[H1 H2 H3] H4]. unfold removeNet. set (l := filterb _ _).
  assert (Forall named l) by (apply Forall_forall; intros n [Hn _]%elem_of_filterb; rewrite Forall_forall in H2; auto).
  apply rendered_ok; [by constructor|]. by intros _.
Qed.

Lemma switchNetwork_frame value v :
  let v' := switchNetwork value v in
  s_keys (local v') = s_keys (local v) /\ s_connectedNets (local v') = s_connectedNets (local v) /\
  connections v' = connections v /\ stored_nets v' = stored_nets v /\ nets (page v') = nets (page v) /\
  isConnected (page v') = isConnected (page v).
Proof. unfold switchNetwork. by repeat case_match. Qed.

Lemma find_entry_keys st st' d n : s_keys st' = s_keys st -> find_entry st' d n = find_entry st d n.
Proof. unfold find_entry, keys. by intros ->. Qed.

Lemma switchNetwork_ok value v : stored_ok v -> stored_ok (switchNetwork value v).
Proof.
  intros [H1 H2 H3]. destruct (switchNetwork_frame value v) as (E1 & _ & E2 & E3 & E4 & _).
  constructor; [|by rewrite E4|by rewrite E3]. intros d n. rewrite (find_entry_keys _ _ _ _ E1).
  unfold getDomainConnectionStatus. rewrite E2. apply H1.
Qed.

Lemma networkChange_ok f value v : vault_ok v -> vault_ok (handleNetworkChange f value v).
Proof.
  intros [H1 H2]. unfold handleNetworkChange. case_bool_decide; [done|].
  set (v0 := if isConnected (page v) then disconnect f v else v).
  assert (stored_ok v0 /\ isConnected (page v0) = false) as [H3 H4].
  { unfold v0. destruct (isConnected (page v)) eqn:E; [|done]. by destruct (disconnect_ok f v H1) as (? & ? & _). }
  clearbody v0. apply rendered_ok; [by apply switchNetwork_ok|]. intros _. apply not_shown.
  destruct (switchNetwork_frame value v0) as (_ & _ & _ & _ & _ & E). by rewrite E.
Qed.

(** A connection works when the browser makes and encrypts the keys. *)
Definition event_ok (e : event) : Prop :=
  match e with ToggleConnection f => forall pk sk url, exists e, make_entry f pk sk url = Ok e | _ => True end.

Lemma toggleConnection_ok f v : event_ok (ToggleConnection f) -> vault_ok v -> vault_ok (toggleConnection f v).
Proof.
  intros Hf [H1 H2]. unfold toggleConnection.
  destruct (w_publicKey (ring v)) as [|c pk] eqn:E1; [by apply (frame_ok v)|].
  destruct (w_privateKey (ring v)) as [|c' sk] eqn:E2; [by apply (frame_ok v)|].
  destruct (isConnected (page v)).
  { destruct (disconnect_ok f v H1) as (H3 & H4 & _). split; [done|by apply not_shown]. }
  destruct (Hf (c :: pk) (c' :: sk) (completeUrl (page v))) as [e He]. destruct H1 as [H1 H3 H4]. split.
  - constructor; [|done..]. intros d n. rewrite status_set.
    change (local (setDomainConnectionStatus ?a ?b ?c ?x)) with (local x). cbn [local on_page set_local].
    rewrite (entry_store _ _ _ _ _ _ _ _ _ _ He). case_decide; [by eexists|]. apply H1.
  - intros _. rewrite status_set. by rewrite decide_True.
Qed.

Lemma on_event_ok e v : event_ok e -> vault_ok v -> vault_ok (on_event e v).
Proof.
  intros He Hv. destruct e; cbn [on_event].
  - apply mounted_ok, Hv.
  - apply (frame_ok v); unfold toggleProtocol; try done; cbn; by case_match.
  - by apply (frame_ok v).
  - by apply addNet_ok.
  - by apply removeNet_ok.
  - by apply (frame_ok v).
  - by apply toggleConnection_ok.
  - by apply networkChange_ok.
  - apply keys_change_ok. by apply (frame_ok v).
  - unfold generatePair. destruct (handleGenerateKeyPair _ _ _ _ _) as [w [[]|]]; [apply keys_change_ok|..]; by apply (frame_ok v).
  - by apply (frame_ok v).
  - by apply (frame_ok v).
  - apply mounted_ok. destruct Hv as [[H1 H2 H3] _]. constructor; [by intros d n|done..].
Qed.

(** A file of key pairs leaves the connections as they are. *)
Lemma upload_file_ok JSON_parse salt salt' file v : vault_ok v -> vault_ok (handleKeyPairFileUpload JSON_parse salt salt' file v).
Proof.
  intros Hv. unfold handleKeyPairFileUpload, uploadArray. repeat case_match; by apply (frame_ok v).
Qed.

(** A new extension: nothing is connected, and the nets have names. *)
Record fresh_vault v : Prop := {
  fresh_connections : connections v = [];
  fresh_nets : Forall named (nets (page v));
  fresh_stored : Forall named (stored_nets v);
  fresh_shown : isConnected (page v) = false;
}.

Definition on_events (es : list event) v : Vault := foldl (fun v e => on_event e v) v es.

Lemma on_events_ok es v : fresh_vault v -> Forall event_ok es -> vault_ok (on_events es v).
Proof.
  intros [H1 H2 H3 H4] He.
  assert (vault_ok v) as Hv.
  { split; [|by apply not_shown]. constructor; [|done..]. intros d n. unfold getDomainConnectionStatus. by rewrite H1. }
  clear H1 H2 H3 H4. revert v Hv. induction He as [|e es He _ IH]; intros v Hv; [done|]. cbn.
  apply IH. by apply on_event_ok.
Qed.

(** C9: whatever the user does on the pages, a site that is shown as connected is
    one whose keys the background script holds under the net that is shown,
    as long as the browser makes the keys of each connection. *)
Theorem shown_connected_held v es :
  fresh_vault v -> Forall event_ok es ->
  let v' := on_events es v in
  isConnected (page v') = true -> is_Some (find_entry (local v') (domain (page v')) (selectedNet (page v'))).
Proof. intros Hv He v' E. destruct (on_events_ok es v Hv He) as [[H _ _] Hs]. by apply H, Hs. Qed.

Lemma rendered_local renewed old v : local (rendered renewed old v) = local v.
Proof.
  assert (S : forall v, local (load_status v) = local v) by (intros; unfold load_status; by case_match).
  assert (A : forall v, local (load_active v) = local v) by (intros; apply (load_active_frame _)).
  unfold rendered. by repeat case_match; rewrite ?S, ?A, ?S.
Qed.

Lemma rendered_stored renewed old v : stored_nets (rendered renewed old v) = stored_nets v.
Proof.
  assert (S : forall v, stored_nets (load_status v) = stored_nets v) by (intros; unfold load_status; by case_match).
  assert (A : forall v, stored_nets (load_active v) = stored_nets v) by (intros; apply (load_active_frame _)).
  unfold rendered. by repeat case_match; rewrite ?S, ?A, ?S.
Qed.

(** Changing the net while connected takes the keys of the old net from the
    site, and nothing else from anyone. *)
Theorem net_change_releases f value v d n :
  isConnected (page v) = true -> value <> selectedNet (page v) ->
  find_entry (local (handleNetworkChange f value v)) d n
  = if decide ((d, n) = (domain (page v), selectedNet (page v))) then None else find_entry (local v) d n.
Proof.
  intros Hc Hv. unfold handleNetworkChange. rewrite bool_decide_false by done. rewrite Hc, rendered_local.
  destruct (switchNetwork_frame value (disconnect f v)) as (E & _). rewrite (find_entry_keys _ _ _ _ E).
  unfold disconnect. change (local (setDomainConnectionStatus ?a ?b ?c ?x)) with (local x). apply entry_disconnect.
Qed.

(** Adding a net while the main net is active does not select it: the effect
    on the list of nets selects the active net again. *)
Theorem added_net_not_selected v :
  trim (newNetName (page v)) <> [] -> trim (customUrl (page v)) <> [] ->
  activeNetUrl (local v) = None \/ activeNetUrl (local v) = Some (mainnet_url (mode v)) ->
  let v' := addNet v in
  nets (page v') = nets (page v) ++ [MkNet (newNetName (page v)) (custom_url (protocol (page v)) (customUrl (page v)))] /\
  stored_nets v' = nets (page v') /\ selectedNet (page v') = Mainnet /\ completeUrl (page v') = mainnet_url (mode v).
Proof.
  intros Hn Hu Ha. unfold addNet. rewrite !bool_decide_false by done. cbn [orb].
  assert (A : forall v0, local v0 = local v -> mode v0 = mode v ->
            selectedNet (page (load_active v0)) = Mainnet /\ completeUrl (page (load_active v0)) = mainnet_url (mode v)).
  { intros v0 E1 E2. unfold load_active. rewrite E1, E2.
    destruct Ha as [-> | ->]; [done|]. unfold mainnet_url. case_bool_decide; done. }
  set (v1 := set_stored_nets _ _). unfold rendered. set (v2 := if same_net v v1 then v1 else load_status v1).
  assert (F : local v2 = local v /\ mode v2 = mode v /\ nets (page v2) = nets (page v1) /\ stored_nets v2 = stored_nets v1)
    by (unfold v2, load_status; by repeat case_match).
  destruct F as (F1 & F2 & F3 & F4). clearbody v2. destruct (A v2 F1 F2) as [A1 A2].
  destruct (load_active_frame v2) as (_ & _ & G3 & _ & _ & _ & _ & G8).
  assert (S : forall x, nets (page (load_status x)) = nets (page x) /\ stored_nets (load_status x) = stored_nets x /\
            selectedNet (page (load_status x)) = selectedNet (page x) /\ completeUrl (page (load_status x)) = completeUrl (page x))
    by (intros x; unfold load_status; by case_match).
  destruct (same_net v2 (load_active v2)); [|destruct (S (load_active v2)) as (-> & -> & -> & ->)];
    by rewrite G8, G3, F3, F4.
Qed.

Lemma mounted_clean tab v : connections v = [] -> isConnected (page (mounted tab v)) = false.
Proof.
  intros Hc. unfold mounted. set (v1 := on_page _ v). destruct (load_active_frame v1) as (_ & E2 & _ & _ & _ & _ & E7 & _).
  unfold load_status. destruct (selectedNet _); [done|]. cbn. unfold getDomainConnectionStatus. rewrite E2. cbn. by rewrite Hc.
Qed.

Lemma mounted_local tab v : local (mounted tab v) = local v.
Proof.
  unfold mounted. set (v1 := on_page _ v). destruct (load_active_frame v1) as (E1 & _).
  unfold load_status. by destruct (selectedNet _).
Qed.

(** The keys stay with the site when the mode is switched: the page shows no
    connection, but the background script gives the private key to the site as
    before. *)
Theorem mode_switch_keeps_access {BL : BrowserLaws B} f tab v e :
  isConnected (page v) = false -> w_publicKey (ring v) <> [] -> w_privateKey (ring v) <> [] ->
  fresh_ok f -> make_entry f (w_publicKey (ring v)) (w_privateKey (ring v)) (completeUrl (page v)) = Ok e ->
  let v' := toggleMode tab (toggleConnection f v) in
  isConnected (page v') = false /\
  getSigningKeys (local v') (domain (page v))
  = JObj [(js "success", JBool true); (js "privateKey", JStr (w_privateKey (ring v))); (js "publicKey", JStr (w_publicKey (ring v)))].
Proof.
  intros Hc Hp Hs Hf He v'. destruct (make_entry_opens _ _ _ _ _ Hf He) as (k & Hk & H1 & H2 & _).
  assert (E : local v' = set_storage (local v) (storeKeys_write (local v) (domain (page v)) (selectedNet (page v)) e)).
  { unfold v', toggleMode. rewrite mounted_local. cbn [local]. unfold toggleConnection.
    destruct (w_publicKey (ring v)); [done|]. destruct (w_privateKey (ring v)); [done|]. rewrite Hc.
    change (local (setDomainConnectionStatus ?a ?b ?c ?x)) with (local x). cbn [local on_page set_local].
    unfold handle, callback. by rewrite He. }
  split.
  - by apply mounted_clean.
  - destruct (storeKeys_entry (local v) (domain (page v)) (selectedNet (page v)) e) as [G1 G2].
    rewrite E. eapply getSigningKeys_opens; [|exact Hk|exact H1|exact H2]. unfold net_of. rewrite G2. exact G1.
Qed.

(** A net chosen in one mode keeps its address in the other: after the main
    net was chosen for key-value transactions, the contract page connects to
    it under the key-value address. *)
Lemma mode_switch_keeps_url tab v :
  mode v = js "KV" -> activeNetUrl (local v) = Some (mainnet_url (mode v)) ->
  let v' := toggleMode tab v in
  mode v' = js "Contract" /\ selectedNet (page v') = Mainnet /\ completeUrl (page v') = mainnet_url (js "KV").
Proof.
  intros Hm Ha. unfold toggleMode, mounted. rewrite Hm, bool_decide_true by done. set (x := on_page _ _).
  assert (activeNetUrl (local x) = Some (mainnet_url (js "KV"))) as E by (unfold x; cbn [local on_page]; by rewrite Ha, Hm).
  assert (mode x = js "Contract") as M by done. clearbody x.
  destruct (load_active_frame x) as (_ & _ & _ & F & _).
  assert (A : selectedNet (page (load_active x)) = Mainnet /\ completeUrl (page (load_active x)) = mainnet_url (js "KV")).
  { unfold load_active. rewrite E. done. }
  destruct A as [A1 A2]. unfold load_status. rewrite A1. cbn. by rewrite F, M, A1, A2.
Qed.

(** The keys of a net that was chosen are sent to the same net when the page
    is opened again: the name and the URL are restored. *)
Theorem selected_net_restored f tab value (x : Net) s v :
  value <> selectedNet (page v) -> value ∉ [ManageNets; Mainnet; Localnet; CustomURL] ->
  net_by_name (nets (page v)) value = Some x -> split (net_url x) scheme !! 1 = Some s ->
  stored_nets v = nets (page v) -> net_by_url (nets (page v)) (net_url x) = Some x ->
  net_url x ∉ [[]; mainnet_url (js "KV"); mainnet_url (js "Contract"); localnet_url (js "KV"); localnet_url (js "Contract")] ->
  let v' := on_event (Mount tab) (handleNetworkChange f value v) in
  selectedNet (page v') = value /\ completeUrl (page v') = net_url x.
Proof.
  intros Hv Hsp Hn Hs Hst Hu Hk v'.
  assert (Hname : net_name x = value).
  { unfold net_by_name in Hn. destruct (list_find _ _) as [[i y]|] eqn:E; [|done]. injection Hn as ->.
    by apply list_find_Some in E as (_ & E & _). }
  assert (F : activeNetUrl (local (handleNetworkChange f value v)) = Some (net_url x) /\
              stored_nets (handleNetworkChange f value v) = nets (page v)).
  { unfold handleNetworkChange. rewrite bool_decide_false by done. rewrite rendered_local.
    set (v0 := if isConnected (page v) then disconnect f v else v).
    assert (nets (page v0) = nets (page v) /\ stored_nets v0 = stored_nets v) as [N1 N2] by (unfold v0; by destruct (isConnected _)).
    clearbody v0. split; [|rewrite rendered_stored; destruct (switchNetwork_frame value v0) as (_ & _ & _ & -> & _); congruence].
    rewrite !not_elem_of_cons in Hsp. destruct Hsp as (? & ? & ? & ? & _). unfold switchNetwork.
    rewrite !bool_decide_false by done. by rewrite N1, Hn, Hs. }
  destruct F as [F1 F2]. unfold v'. cbn [on_event]. unfold mounted. set (p := on_page _ _).
  assert (A : selectedNet (page (load_active p)) = value /\ completeUrl (page (load_active p)) = net_url x).
  { rewrite !not_elem_of_cons in Hk. destruct Hk as (K0 & K1 & K2 & K3 & K4 & _).
    assert (local p = local (handleNetworkChange f value v) /\ nets (page p) = nets (page v)) as [P1 P2] by done. clearbody p.
    unfold load_active. rewrite P1, F1. cbn [str_or]. destruct (net_url x) as [|c u] eqn:U; [done|]. cbn [page on_page].
    rewrite !bool_decide_false by done. cbn [orb]. change (nets (setCompleteUrl ?a ?b)) with (nets b). by rewrite P2, Hu. }
  destruct A as [A1 A2]. unfold load_status. rewrite A1. by destruct value.
Qed.
End connection.

(** ** The key ring on the pages *)

Section ring_pages.
Context `{L : KeyLibs} {Laws : KeyLibsLaws L}.
Implicit Types w : world.

Lemma ring_load w : ring_ok w -> loadKeyPairsFromStorage (storedPassword w) w = (w, Ok (keyPairs w)).
Proof. intros [_ (c & Hc & Ho) _ _ _ _ _]. by apply (load_opens w c). Qed.

(** A pair generated on a page is the one whose keys are shown, but the index
    selected is the one of the pair before it: the callback counts the pairs
    of the render in which the button was pressed. *)
Theorem generated_pair_not_selected w s s' pub secret :
  ring_ok w -> fromSeed (take 32 secret) = Ok pub -> length (take 32 secret) = 32 ->
  let new := Pair (b58_encode pub) (b58_encode (take 32 secret)) in new ∉ keyPairs w ->
  exists w', handleGenerateKeyPair s s' pub secret w = (w', Ok true) /\ keyPairs w' = keyPairs w ++ [new] /\
    Pair (w_publicKey w') (w_privateKey w') = new /\
    exists p, keyPairs w' !! selectedKeyPairIndex w' = Some p /\ p <> new.
Proof.
  intros Hw Hs Hl new Hnew. destruct (valid_owner _ (drawn_valid pub secret Hs Hl)) as [a Ha].
  pose proof Hw as [Hp _ Hsel _ _ _ _].
  assert (Hg : generateKeyPair s s' pub secret w
               = (installed w s s' (keyPairs w ++ [new]) (length (keyPairs w ++ [new]) - 1) new a true, Ok true)).
  { destruct (generate_cases w (keyPairs w) Hp (ring_load w Hw) s s' pub secret a Ha) as [[m E]|E]; [|done]. exfalso. revert E.
    unfold generateKeyPair, mbind, K_bind, KeyRing.get. cbn -[loadKeyPairsFromStorage take].
    destruct (storedPassword w) eqn:Epw; [done|]. unfold KeyRing.lift. cbn in Ha. rewrite Ha, <- Epw, (ring_load w Hw). fold new.
    assert (existsb (fun e => bool_decide (e = new)) (keyPairs w) = false) as ->; [|done].
    apply not_true_iff_false. rewrite existsb_exists. intros (x & Hx & E). split_bools. subst. by apply Hnew, list_elem_of_In. }
  unfold handleGenerateKeyPair, mbind, K_bind. cbn [KeyRing.get]. rewrite Hg. eexists. split; [done|]. cbn [keyPairs installed].
  split; [done|]. split; [done|]. cbn.
  destruct (lookup_lt_is_Some_2 (keyPairs w) (length (keyPairs w) - 1)) as [p Hpl].
  { apply lookup_lt_Some in Hsel. lia. }
  exists p. split; [by apply lookup_app_l_Some|]. intros ->. by apply list_elem_of_lookup_2 in Hpl.
Qed.

(** Deleting the first pair leaves it as the pair that is shown, announced in
    [store] and used for the next connection: the callback selects the first
    of the pairs of the render in which the button was pressed. *)
Theorem deleted_pair_stays_current w s s' s2 p ps :
  ring_ok w -> keyPairs w = p :: ps -> ps <> [] -> p ∉ ps -> selectedKeyPairIndex w = 0 ->
  exists w', handleDeleteKeyPair s s' s2 w = (w', Ok tt) /\ keyPairs w' = ps /\
    Pair (w_publicKey w') (w_privateKey w') = p /\ (p ∉ keyPairs w') /\
    exists st, store w' = Some st /\ store_ok st p (storedPassword w).
Proof.
  intros Hw Hk Hps Hnot Hi. pose proof Hw as [Hp _ Hsel Hown _ _ Hval].
  destruct ps as [|q ps]; [done|].
  assert (valid_pair q) as Hq by (rewrite Hk in Hval; by apply Forall_cons in Hval as [_ [? _]%Forall_cons]).
  destruct (valid_owner q Hq) as [a Ha].
  assert (Hd : deleteKeyPair s s' 0 w = (installed w s s' (q :: ps) 0 q a (isAuthenticated w), Ok true)).
  { pose proof (ring_load w Hw) as Hload. rewrite Hk in Hload.
    destruct (delete_cases w (p :: q :: ps) Hp Hload s s' 0) as [[m E]|(_ & q' & ps' & [= <- <-] & E)]; [|by apply E].
    exfalso. revert E. unfold deleteKeyPair, mbind, K_bind, KeyRing.get. cbn -[loadKeyPairsFromStorage].
    destruct (storedPassword w) eqn:Epw; [done|]. rewrite <- Epw in Hload |- *. rewrite Hload. cbn.
    unfold KeyRing.lift. by rewrite Ha. }
  unfold handleDeleteKeyPair, mbind, K_bind. cbn [KeyRing.get]. rewrite Hk, Hi. cbn [length Nat.ltb Nat.leb]. rewrite Hd.
  rewrite Hk, Hi in Hsel. injection Hsel as Hsel.
  unfold setSelectedKeyPair_of, mbind, K_bind. cbn -[generateOwnerAddress]. unfold KeyRing.lift.
  rewrite Hsel. cbn [publicKey]. rewrite Hown. cbn.
  destruct (storedPassword w) as [|c pw] eqn:Epw; [done|]. eexists. split; [reflexivity|]. cbn.
  rewrite <- Hsel in *. split; [done|]. split; [done|]. split; [done|]. eexists. split; [done|]. apply (store_made s2 p).
Qed.


End ring_pages.

(** ** What is sent *)

Section sent.
Context `{L : KeyLibs} `{B : Browser}.
Context (JSON_parse : str -> result json) (background : json -> str -> str -> json).

(** What the user does with the form. *)
Inductive tx_event := ChooseFile (file : option File) | Press.

Definition on_tx (p : Page) (e : tx_event) (t : Transaction) : Transaction :=
  match e with ChooseFile f => handleFileUpload JSON_parse f t | Press => (handleSubmit background p t).1 end.

(** Data in the form has its three fields. *)
Definition form_ok (t : Transaction) : Prop := forall data, transactionData t = Some data -> transaction_fields data = Ok true.

Lemma upload_ok file t : form_ok (handleFileUpload JSON_parse file t).
Proof.
  unfold handleFileUpload, form_ok. destruct file as [f|]; [|done]. destruct (is_json f); [|done].
  destruct (JSON_parse (file_text f)) as [v|]; [|done]. destruct (transaction_fields v) as [[]|] eqn:E; [|done..].
  cbn. by intros data [= <-].
Qed.

Lemma on_tx_ok p e t : form_ok t -> form_ok (on_tx p e t).
Proof.
  intros H. destruct e as [file|]; [apply upload_ok|]. cbn. unfold handleSubmit.
  destruct (transactionData t) as [data|] eqn:E; [|unfold form_ok; cbn; congruence].
  destruct (isConnected p); [destruct (truthy _); [done|]|]; unfold form_ok; cbn; intros x Hx; apply H; congruence.
Qed.

(** C27: A transaction leaves the dashboard only with all its fields, and for a
    site and a net whose keys the background script holds: the pages are used
    in any way, then the form, as long as the browser makes the keys of each
    connection. *)
Theorem submitted_with_keys v es ts t data d n :
  fresh_vault v -> Forall event_ok es -> transactionData t = None ->
  let p := page (on_events es v) in
  (handleSubmit background p (foldl (fun t e => on_tx p e t) t ts)).2 = Some (data, d, n) ->
  transaction_fields data = Ok true /\ is_Some (find_entry (local (on_events es v)) d n).
Proof.
  intros Hv He Ht p. pose proof (on_events_ok es v Hv He) as [[H _ _] Hs]. fold p in Hs.
  assert (F : form_ok (foldl (fun t e => on_tx p e t) t ts)).
  { assert (form_ok t) as F by (unfold form_ok; by rewrite Ht). clear Ht. revert t F.
    induction ts as [|e ts IH]; intros t F; [done|]. apply IH. by apply on_tx_ok. }
  set (t' := foldl _ t ts) in *. clearbody t'. clear Ht. unfold handleSubmit.
  destruct (transactionData t') as [data'|] eqn:E; [|done].
  destruct (isConnected p) eqn:C; [|done]. cbn [snd]. intros [= <- <- <-]. split; [by apply F|by apply H, Hs].
Qed.
End sent.

(** ** Witnesses *)

#[local] Existing Instance toy_libs.
#[local] Existing Instance toy_libs_laws.
#[local] Existing Instance toy_browser.
#[local] Existing Instance toy_laws.

Definition toy_page : Page := MkPage [] [] [] [] false [] [] (js "http") [] false.
Definition toy_vault : Vault :=
  MkVault toy_ring (Storage None None None None) [] [] (js "KV") toy_page.
Definition toy_connect : list event := [Mount (Some (js "https://a.org/shop")); ToggleConnection toy_fresh].

Lemma toy_fresh_vault : fresh_vault toy_vault.
Proof. by constructor. Defined.

Lemma toy_fresh_works : event_ok (ToggleConnection toy_fresh).
Proof.
  intros pk sk url. unfold make_entry, encryptData. cbn -[bool_decide].
  rewrite !bool_decide_true by apply codes_ok. by eexists.
Defined.

Lemma toy_connect_works : Forall event_ok toy_connect.
Proof. repeat constructor. exact toy_fresh_works. Defined.

Lemma shown_connected_held_witness :
  let v' := on_events toy_connect toy_vault in
  isConnected (page v') = true /\ is_Some (find_entry (local v') (js "a.org") Mainnet).
Proof.
  cbv zeta. assert (E : isConnected (page (on_events toy_connect toy_vault)) = true) by (vm_compute; reflexivity).
  split; [exact E|]. exact (shown_connected_held toy_vault toy_connect toy_fresh_vault toy_connect_works E).
Defined.

Definition toy_tx : json := JObj [(js "asset", JObj []); (js "recipientAddress", JStr (js "r")); (js "amount", JStr (js "5"))].

Lemma submitted_with_keys_witness :
  transaction_fields toy_tx = Ok true /\ is_Some (find_entry (local (on_events toy_connect toy_vault)) (js "a.org") Mainnet).
Proof.
  apply (submitted_with_keys (fun _ => Ok toy_tx) (fun _ _ _ => JNull) toy_vault toy_connect
    [ChooseFile (Some (MkFile (js "t.json") (js "application/json") [])); Press] (MkTransaction None [] [] None false None) toy_tx);
    [exact toy_fresh_vault|exact toy_connect_works|reflexivity|vm_compute; reflexivity].
Defined.

Lemma net_change_releases_witness :
  isConnected (page (on_events toy_connect toy_vault)) = true /\
  find_entry (local (handleNetworkChange toy_fresh Localnet (on_events toy_connect toy_vault))) (js "a.org") Mainnet = None.
Proof.
  split; [vm_compute; reflexivity|].
  rewrite (net_change_releases toy_fresh Localnet (on_events toy_connect toy_vault) (js "a.org") Mainnet);
    [|vm_compute; reflexivity|vm_compute; discriminate].
  by rewrite decide_True by (vm_compute; reflexivity).
Defined.

Definition toy_net_page : Page := MkPage (js "a.org") Mainnet (mainnet_url (js "KV")) (js "my.org") false [] (js "mine") (js "https") [] false.
Definition toy_net_vault : Vault :=
  MkVault toy_ring (Storage None None None None) [] [] (js "KV") toy_net_page.

Lemma added_net_not_selected_witness :
  nets (page (addNet toy_net_vault)) = [MkNet (js "mine") (js "https://my.org/graphql")] /\
  selectedNet (page (addNet toy_net_vault)) = Mainnet.
Proof.
  destruct (added_net_not_selected toy_net_vault) as (H1 & _ & H2 & _);
    [vm_compute; discriminate|vm_compute; discriminate|by left|].
  split; [exact H1|exact H2].
Defined.

Lemma mode_switch_keeps_access_witness :
  let v := on_events [Mount (Some (js "https://a.org/shop"))] toy_vault in
  let v' := toggleMode (Some (js "https://a.org/shop")) (toggleConnection toy_fresh v) in
  isConnected (page v') = false /\
  getSigningKeys (local v') (js "a.org") =
    JObj [(js "success", JBool true); (js "privateKey", JStr (w_privateKey toy_ring)); (js "publicKey", JStr (w_publicKey toy_ring))].
Proof.
  cbv zeta. set (v := on_events _ toy_vault).
  destruct (toy_fresh_works (w_publicKey toy_ring) (w_privateKey toy_ring) (mainnet_url (js "KV"))) as [e He].
  exact (mode_switch_keeps_access toy_fresh (Some (js "https://a.org/shop")) v e eq_refl
    ltac:(vm_compute; discriminate) ltac:(vm_compute; discriminate) ltac:(repeat split; repeat constructor) He).
Defined.

Definition toy_net : Net := MkNet (js "mine") (js "https://my.org/graphql").
Definition toy_saved : Vault :=
  MkVault toy_ring (Storage None None None None) [] [toy_net] (js "KV") toy_page.

Lemma selected_net_restored_witness :
  let v := on_events [Mount None] toy_saved in
  let v' := on_event (Mount None) (handleNetworkChange toy_fresh (js "mine") v) in
  selectedNet (page v') = js "mine" /\ completeUrl (page v') = js "https://my.org/graphql".
Proof.
  cbv zeta. apply (selected_net_restored toy_fresh None (js "mine") toy_net (js "my.org/graphql") (on_events [Mount None] toy_saved));
    try (vm_compute; reflexivity).
  - vm_compute. discriminate.
  - apply (bool_decide_unpack _). vm_compute. exact I.
  - apply (bool_decide_unpack _). vm_compute. exact I.
Defined.

(** *** The key ring *)

Definition toy_pair (n : N) : KeyPair :=
  Pair (b58_encode (repeat n 32)) (b58_encode (repeat n 32)).
Definition toy_two : world :=
  installed toy_world 1 2 [toy_pair 7; toy_pair 8] 0 (toy_pair 7) (js "0x" ++ slice (ascii_of_N <$> repeat 7%N 32) (-40) 32) true.

Lemma toy_two_ok : ring_ok toy_two.
Proof.
  apply (installed_ok); [discriminate|reflexivity|by vm_compute|].
  repeat constructor; [exists (repeat 7%N 32), (repeat 7%N 32)|exists (repeat 8%N 32), (repeat 8%N 32)]; by vm_compute.
Defined.

Lemma generated_pair_not_selected_witness :
  exists w', handleGenerateKeyPair 3 4 (repeat 9%N 32) (repeat 9%N 64) toy_two = (w', Ok true) /\
    Pair (w_publicKey w') (w_privateKey w') = toy_pair 9.
Proof.
  destruct (generated_pair_not_selected toy_two 3 4 (repeat 9%N 32) (repeat 9%N 64))
    as (w' & H1 & _ & H2 & _); [exact toy_two_ok|reflexivity|reflexivity| |].
  - apply (bool_decide_unpack _). vm_compute. exact I.
  - exists w'. split; [exact H1|exact H2].
Defined.

Lemma deleted_pair_stays_current_witness :
  exists w', handleDeleteKeyPair 3 4 5 toy_two = (w', Ok tt) /\ keyPairs w' = [toy_pair 8] /\
    Pair (w_publicKey w') (w_privateKey w') = toy_pair 7.
Proof.
  destruct (deleted_pair_stays_current toy_two 3 4 5 (toy_pair 7) [toy_pair 8])
    as (w' & H1 & H2 & H3 & _); [exact toy_two_ok|reflexivity|discriminate| |reflexivity|].
  - apply (bool_decide_unpack _). vm_compute. exact I.
  - exists w'. split; [exact H1|]. split; [exact H2|exact H3].
Defined.

