(* ===== verification/StreamMarkdown.v ===== *)
(** * Markdown while it is streamed (nexus)

    src/ecosystem/ai-tools/nexus/src/components/ai-elements/response.tsx:
    [parseIncompleteMarkdown] cuts a link that is not complete off the text of
    an answer and closes the formatting that is still open, before the text is
    handed to the markdown renderer. *)

From S2P Require Import Prelude JsString.

(** ** Patterns *)

Definition bt : ascii := "`"%char.

Definition without (c : ascii) (s : str) : bool := forallb (fun d => negb (bool_decide (d = c))) s.

(** [/(p)([^c]*?)$/] matches somewhere. *)
Definition open_end (p : str) (c : ascii) (s : str) : bool :=
  bool_decide (is_Some (first_match (fun t => if is_prefix p t && without c (drop (length p) t) then Some tt else None) s)).

(** [(s.match(/p/g) || []).length] *)
Fixpoint matches (p s : str) (skip : nat) : nat :=
  match s with
  | [] => 0
  | c :: s' =>
      match skip with
      | S k => matches p s' k
      | O => if is_prefix p s then S (matches p s' (length p - 1)) else matches p s' 0
      end
  end.

(** The characters [c] with no [c] beside them. *)
Fixpoint singles (c : ascii) (prev : option ascii) (s : str) : nat :=
  match s with
  | [] => 0
  | d :: s' =>
      (if bool_decide (d = c) && negb (bool_decide (prev = Some c)) && negb (bool_decide (head s' = Some c)) then 1 else 0)
      + singles c (Some d) s'
  end.

(** ** Links *)

(** [/(!?\[)([^\]]*?)$/]: the first group of its first match. *)
Definition link_at (s : str) : option str :=
  if is_prefix (js "![") s && without "]" (drop 2 s) then Some (js "![")
  else if is_prefix (js "[") s && without "]" (drop 1 s) then Some (js "[")
  else None.

Definition cut_link (result : str) : str :=
  match first_match link_at result with
  | Some m => substring result 0 (lastIndexOf result m (Z.of_nat (length result)))
  | None => result
  end.

(** ** Formatting *)

Definition close_pair (c : ascii) (result : str) : str :=
  if open_end [c; c] c result && Nat.odd (matches [c; c] result 0) then result ++ [c; c] else result.

Definition close_single (c : ascii) (result : str) : str :=
  if open_end [c] c result && Nat.odd (singles c None result) then result ++ [c] else result.

Definition fence : str := [bt; bt; bt].

(** [result.substring(i, i + 3) === '```'] *)
Definition fence_at (s : str) (i : nat) : bool := bool_decide (take 3 (drop i s) = fence).

Definition in_fence (s : str) (i : nat) : bool :=
  fence_at s i || ((0 <? i)%nat && fence_at s (i - 1)) || ((1 <? i)%nat && fence_at s (i - 2)).

Definition singleBacktickCount (s : str) : nat :=
  length (filterb (fun i => bool_decide (s !! i = Some bt) && negb (in_fence s i)) (seq 0 (length s))).

Definition close_code (result : str) : str :=
  if open_end [bt] bt result && negb (Nat.odd (matches fence result 0)) && Nat.odd (singleBacktickCount result)
  then result ++ [bt] else result.

Definition parseIncompleteMarkdown (text : str) : str :=
  match text with
  | [] => text
  | _ =>
      close_pair "~" (close_code (close_single "_" (close_single "*" (close_pair "_" (close_pair "*" (cut_link text))))))
  end.

(** ** Texts and their formatting *)

(** The formats an answer uses, and the text that opens and closes each. *)
Inductive format := Bold | Underlined | Star | Low | Code | Strike.

#[global] Instance format_eq_dec : EqDecision format.
Proof. solve_decision. Defined.

Definition mark (f : format) : str :=
  match f with
  | Bold => ["*"%char; "*"%char] | Underlined => ["_"%char; "_"%char] | Star => ["*"%char] | Low => ["_"%char]
  | Code => [bt] | Strike => ["~"%char; "~"%char]
  end.

Definition marker (c : ascii) : Prop := c ∈ ["*"%char; "_"%char; bt; "~"%char].

(** Some text without the characters of the markers. *)
Definition plain (s : str) : Prop := s <> [] /\ Forall (fun c => ~ marker c) s.

(** Formatted spans, each followed by some plain text. *)
Definition spans (l : list (format * str * str)) : str :=
  concat ((fun x => mark x.1.1 ++ x.1.2 ++ mark x.1.1 ++ x.2) <$> l).
Definition spans_ok (l : list (format * str * str)) : Prop := Forall (fun x => plain x.1.2 /\ plain x.2) l.

(** No bracket is left open. *)
Definition brackets_closed (s : str) : Prop := first_match link_at s = None.

(** ** Counting markers *)

(** Two texts whose characters [c] do not meet. *)
Definition apart (c : ascii) (a b : str) : Prop := last a <> Some c \/ head b <> Some c.

Lemma matches_pair c x y s :
  matches [c; c] (x :: y :: s) 0
  = if bool_decide (c = x) && bool_decide (c = y) then S (matches [c; c] s 0) else matches [c; c] (y :: s) 0.
Proof. cbn. destruct (bool_decide (c = x)), (bool_decide (c = y)); done. Qed.

Lemma matches_one c x s : c <> x \/ head s <> Some c -> matches [c; c] (x :: s) 0 = matches [c; c] s 0.
Proof.
  intros H. destruct s as [|y s]; [cbn; by destruct (bool_decide (c = x))|]. rewrite matches_pair.
  destruct (bool_decide_reflect (c = x)), (bool_decide_reflect (c = y)); try done. subst. by destruct H as [[]|[]].
Qed.

Lemma matches_app c a b : apart c a b -> matches [c; c] (a ++ b) 0 = matches [c; c] a 0 + matches [c; c] b 0.
Proof.
  remember (length a) as n eqn:Hn. revert a Hn. induction n as [n IH] using lt_wf_ind. intros a -> H.
  destruct a as [|x [|y a]]; [done|..].
  - cbn [app]. rewrite (matches_one c x []), (matches_one c x b); [done| |by right].
    destruct H as [H|H]; [left|by right]. intros ->. by apply H.
  - cbn [app]. rewrite !matches_pair.
    destruct (bool_decide (c = x) && bool_decide (c = y)).
    + cbn. f_equal. apply (IH (length a)); [cbn; lia|done|]. destruct H as [H|H]; [left|by right]. destruct a; [done|exact H].
    + apply (IH (length (y :: a)) ltac:(cbn; lia) (y :: a) eq_refl). exact H.
Qed.

Lemma singles_prev c prev s : prev <> Some c \/ head s <> Some c -> singles c prev s = singles c None s.
Proof.
  intros H. destruct s as [|d s]; [done|]. cbn. destruct (bool_decide_reflect (d = c)) as [->|]; [|done].
  rewrite (bool_decide_false (prev = Some c)); [done|]. by destruct H.
Qed.

Lemma singles_app c prev a b : apart c a b -> a <> [] -> singles c prev (a ++ b) = singles c prev a + singles c None b.
Proof.
  revert prev. induction a as [|d a IH]; intros prev H Hne; [done|]. destruct a as [|e a].
  - cbn [app singles head]. rewrite singles_prev.
    + rewrite (bool_decide_false (None = Some c)) by done. destruct (bool_decide_reflect (d = c)) as [->|]; [|done].
      rewrite (bool_decide_false (head b = Some c)); [cbn; lia|]. by destruct H.
    + destruct H as [H|H]; [left|by right]. done.
  - cbn [app singles]. rewrite <- Nat.add_assoc. f_equal. apply (IH (Some d)); [exact H|done].
Qed.

Definition occurrences (c : ascii) (s : str) : nat := length (filterb (fun d => bool_decide (d = c)) s).

(** A count of something made of the character [c]. *)
Record counts (c : ascii) (m : str -> nat) : Prop := {
  counts_app a b : apart c a b -> m (a ++ b) = m a + m b;
  counts_free s : c ∉ s -> m s = 0;
}.

Lemma counts_pairs c : counts c (fun s => matches [c; c] s 0).
Proof.
  constructor; [apply matches_app|]. induction s as [|x s IH]; intros H; [done|].
  apply not_elem_of_cons in H as [Hx Hs]. rewrite matches_one; [by apply IH|by left].
Qed.

Lemma counts_singles c : counts c (singles c None).
Proof.
  constructor.
  - intros [|x a] b H; [done|]. by apply singles_app.
  - assert (G : forall s prev, c ∉ s -> singles c prev s = 0); [|intros; by apply G].
    induction s as [|x s IH]; intros prev H; [done|]. apply not_elem_of_cons in H as [Hx Hs]. cbn.
    rewrite bool_decide_false by congruence. by apply IH.
Qed.

Lemma counts_occurrences c : counts c (occurrences c).
Proof.
  constructor; unfold occurrences.
  - intros a b _. by rewrite filterb_app, length_app.
  - induction s as [|x s IH]; intros H; [done|]. apply not_elem_of_cons in H as [Hx Hs]. cbn.
    rewrite bool_decide_false by congruence. by apply IH.
Qed.

(** ** Texts are balanced *)

Definition no_marker (s : str) : Prop := Forall (fun c => ~ marker c) s.

Lemma no_marker_free c s : marker c -> no_marker s -> c ∉ s.
Proof. unfold no_marker. intros Hc H Hin. rewrite Forall_forall in H. by apply (H c). Qed.

Lemma no_marker_last c s : marker c -> no_marker s -> last s <> Some c.
Proof. intros Hc H E. apply last_Some_elem_of in E. by apply (no_marker_free c s). Qed.

Lemma no_marker_head c s : marker c -> no_marker s -> head s <> Some c.
Proof. intros Hc H E. apply (no_marker_free c s Hc H). destruct s; [done|]. injection E as ->. left. Qed.

Section balanced.
Context (c : ascii) (m : str -> nat) (Hc : marker c) (Hm : counts c m).

Lemma count_plain_l p s : no_marker p -> m (p ++ s) = m s.
Proof.
  intros Hp. rewrite (counts_app _ _ Hm) by (left; by apply no_marker_last). by rewrite (counts_free _ _ Hm p) by (by apply no_marker_free).
Qed.

(** A marker and plain text. *)
Lemma count_mark f p s : plain p -> m (mark f ++ p ++ s) = m (mark f) + m s.
Proof.
  intros [Hne Hp]. rewrite (counts_app _ _ Hm).
  - by rewrite count_plain_l.
  - right. destruct p as [|d p]; [done|]. exact (no_marker_head c (d :: p) Hc Hp).
Qed.

Lemma count_spans l s : spans_ok l -> m (spans l ++ s) = 2 * sum_list ((fun x => m (mark x.1.1)) <$> l) + m s.
Proof.
  intros H. induction H as [|[[f w] p] l [Hw Hp] _ IH]; [done|].
  change (spans ((f, w, p) :: l)) with ((mark f ++ w ++ mark f ++ p) ++ spans l).
  cbn in Hw, Hp. rewrite <- !app_assoc, !count_mark by done. rewrite IH. cbn. lia.
Qed.

Lemma count_text t0 l s : no_marker t0 -> spans_ok l -> Nat.odd (m (t0 ++ spans l ++ s)) = Nat.odd (m s).
Proof. intros H0 Hl. rewrite count_plain_l, count_spans by done. by rewrite Nat.odd_add, Nat.odd_mul. Qed.

Lemma count_none t0 l s : (forall f, m (mark f) = 0) -> no_marker t0 -> spans_ok l -> m (t0 ++ spans l ++ s) = m s.
Proof.
  intros H H0 Hl. rewrite count_plain_l, count_spans by done. replace (sum_list _) with 0; [done|].
  clear H0 Hl. induction l as [|x l IH]; [done|]. cbn. by rewrite H, <- IH.
Qed.

Lemma count_open f w : plain w -> m (mark f ++ w) = m (mark f).
Proof. intros Hw. rewrite <- (app_nil_r w), count_mark, (counts_free _ _ Hm []) by (done || apply not_elem_of_nil). lia. Qed.

Lemma count_shut f w : plain w -> m (mark f ++ w ++ mark f) = 2 * m (mark f).
Proof. intros Hw. rewrite count_mark by done. lia. Qed.
End balanced.

(** ** Code *)

Lemma matches_none c s a b : matches [c; c] s 0 = 0 -> s <> a ++ [c; c] ++ b.
Proof.
  revert a. induction s as [|x s IH]; intros a E H; [by destruct a|]. destruct s as [|y s].
  - apply (f_equal length) in H. rewrite !length_app in H. cbn in H. lia.
  - rewrite matches_pair in E. destruct a as [|z a]; cbn in H.
    + injection H as -> -> ->. by rewrite bool_decide_true in E.
    + injection H as -> H. destruct (_ && _); [done|]. by apply (IH a E).
Qed.

Lemma no_fence_at s i : matches [bt; bt] s 0 = 0 -> fence_at s i = false.
Proof.
  intros E. apply bool_decide_eq_false. intros H. apply (matches_none bt s (take i s) (drop 2 (drop i s)) E).
  rewrite <- (take_drop i s) at 1. f_equal. destruct (drop i s) as [|x [|y t]]; try done. cbn in H. by injection H as -> ->.
Qed.

Lemma no_fence s : matches [bt; bt] s 0 = 0 -> matches fence s 0 = 0.
Proof.
  induction s as [|x s IH]; intros E; [done|]. cbn [matches].
  destruct (is_prefix fence (x :: s)) eqn:P.
  - apply is_prefix_spec in P as [t P]. by apply (matches_none bt _ [] (bt :: t)) in E.
  - apply IH. destruct s as [|y s]; [done|]. rewrite matches_pair in E. by destruct (_ && _).
Qed.

Lemma filterb_seq_shift (f : nat -> bool) n k : length (filterb f (seq (S n) k)) = length (filterb (fun i => f (S i)) (seq n k)).
Proof. revert n. induction k as [|k IH]; intros n; [done|]. cbn. destruct (f (S n)); cbn; by rewrite IH. Qed.

Lemma occurrences_seq c s : length (filterb (fun i => bool_decide (s !! i = Some c)) (seq 0 (length s))) = occurrences c s.
Proof.
  induction s as [|x s IH]; [done|]. unfold occurrences in *. cbn [length seq filterb List.filter].
  destruct (bool_decide_reflect (x = c)) as [->|Hx].
  - rewrite bool_decide_true by done. cbn [length]. f_equal. etrans; [apply filterb_seq_shift|exact IH].
  - rewrite bool_decide_false by (intros [= ?]; congruence). etrans; [apply filterb_seq_shift|exact IH].
Qed.

Lemma backticks_counted s : matches [bt; bt] s 0 = 0 -> singleBacktickCount s = occurrences bt s.
Proof.
  intros E. rewrite <- occurrences_seq. unfold singleBacktickCount. f_equal. apply filterb_ext. intros i _.
  unfold in_fence. rewrite !no_fence_at by done. by rewrite !andb_false_r, andb_true_r.
Qed.

(** ** Closing a format *)

Definition char (f : format) : ascii :=
  match f with Bold | Star => "*" | Underlined | Low => "_" | Code => bt | Strike => "~" end.

Definition tally (f : format) : str -> nat :=
  match f with
  | Bold | Underlined | Strike => fun s => matches [char f; char f] s 0
  | Star | Low => singles (char f) None
  | Code => occurrences bt
  end.

Definition close (f : format) : str -> str :=
  match f with
  | Bold | Underlined | Strike => close_pair (char f)
  | Star | Low => close_single (char f)
  | Code => close_code
  end.

Lemma char_marker f : marker (char f).
Proof. destruct f; unfold marker; set_solver. Qed.

Lemma tally_counts f : counts (char f) (tally f).
Proof. destruct f; apply counts_pairs || apply counts_singles || apply counts_occurrences. Qed.

Lemma tally_mark f g : Nat.odd (tally f (mark g)) = bool_decide (f = g).
Proof. by destruct f, g. Qed.

Lemma parse_formats text : text <> [] ->
  parseIncompleteMarkdown text = foldl (fun s f => close f s) (cut_link text) [Bold; Underlined; Star; Low; Code; Strike].
Proof. by destruct text. Qed.

Lemma close_even f s : matches [bt; bt] s 0 = 0 -> Nat.odd (tally f s) = false -> close f s = s.
Proof.
  intros Hbt E. destruct f; cbn in *; unfold close_pair, close_single, close_code; rewrite ?backticks_counted by done; rewrite E;
    by rewrite andb_false_r.
Qed.

Lemma first_match_intro {A} (f : str -> option A) a t x : f t = Some x -> is_Some (first_match f (a ++ t)).
Proof.
  intros E. induction a as [|c a IH]; [destruct t; cbn; rewrite E; eauto|]. cbn. by destruct (f (c :: a ++ t)).
Qed.

Lemma without_free c s : c ∉ s -> without c s = true.
Proof.
  intros H. apply forallb_forall. intros d Hd. rewrite bool_decide_false; [done|]. intros ->. apply H. by apply list_elem_of_In.
Qed.

Lemma open_end_at p c a w : c ∉ w -> open_end p c (a ++ p ++ w) = true.
Proof.
  intros H. apply bool_decide_eq_true. eapply first_match_intro.
  rewrite (proj2 (is_prefix_spec p (p ++ w))) by eauto. by rewrite drop_app_length, without_free.
Qed.

Lemma close_odd f a w : matches [bt; bt] (a ++ mark f ++ w) 0 = 0 -> char f ∉ w -> Nat.odd (tally f (a ++ mark f ++ w)) = true ->
  close f (a ++ mark f ++ w) = a ++ mark f ++ w ++ mark f.
Proof.
  intros Hbt Hw E. pose proof (open_end_at (mark f) (char f) a w Hw) as O.
  transitivity ((a ++ mark f ++ w) ++ mark f); [|by rewrite <- !app_assoc].
  destruct f; cbn [close tally char mark] in *; unfold close_pair, close_single, close_code;
    rewrite ?no_fence, ?backticks_counted by done; by rewrite O, E.
Qed.

(** ** Streaming *)

Section streaming.
Context (t0 : str) (l : list (format * str * str)) (H0 : no_marker t0) (Hl : spans_ok l).

Lemma text_backticks s : matches [bt; bt] (t0 ++ spans l ++ s) 0 = matches [bt; bt] s 0.
Proof.
  apply (count_none bt (fun s => matches [bt; bt] s 0)); [unfold marker; set_solver|apply counts_pairs|by intros []|done..].
Qed.

Lemma text_tally f s : Nat.odd (tally f (t0 ++ spans l ++ s)) = Nat.odd (tally f s).
Proof. by apply (count_text (char f)); [apply char_marker|apply tally_counts|..]. Qed.

Lemma close_text f : close f (t0 ++ spans l) = t0 ++ spans l.
Proof.
  rewrite <- (app_nil_r (spans l)). apply close_even; [by rewrite text_backticks|]. rewrite text_tally. by destruct f.
Qed.

Lemma close_shut f g w : plain w -> close f (t0 ++ spans l ++ mark g ++ w ++ mark g) = t0 ++ spans l ++ mark g ++ w ++ mark g.
Proof.
  intros Hw. apply close_even.
  - rewrite text_backticks, (count_shut bt (fun s => matches [bt; bt] s 0)); [by destruct g|unfold marker; set_solver|apply counts_pairs|done].
  - rewrite text_tally, (count_shut (char f)); [by rewrite Nat.odd_mul|apply char_marker|apply tally_counts|done].
Qed.

Lemma close_open f g w : plain w ->
  close f (t0 ++ spans l ++ mark g ++ w)
  = if decide (f = g) then t0 ++ spans l ++ mark g ++ w ++ mark g else t0 ++ spans l ++ mark g ++ w.
Proof.
  intros Hw.
  assert (B : matches [bt; bt] (t0 ++ spans l ++ mark g ++ w) 0 = 0).
  { rewrite text_backticks, (count_open bt (fun s => matches [bt; bt] s 0)); [by destruct g|unfold marker; set_solver|apply counts_pairs|done]. }
  assert (T : Nat.odd (tally f (t0 ++ spans l ++ mark g ++ w)) = bool_decide (f = g)).
  { rewrite text_tally, (count_open (char f)), tally_mark; [done|apply char_marker|apply tally_counts|done]. }
  destruct (decide (f = g)) as [<-|Hne].
  - rewrite (app_assoc t0) in *. rewrite bool_decide_true in T by done. rewrite close_odd, <- ?app_assoc; try done.
    apply no_marker_free; [apply char_marker|apply Hw].
  - by apply close_even; [|rewrite T, bool_decide_false].
Qed.

(** C33: A formatted span is shown as formatted while it is streamed, in a text
    that is a sequence of complete spans, not nested in each other, with
    non-empty pieces of text in and after them that have none of the marker
    characters (so no [_] in an identifier, no [*] as a bullet), and in which
    no link bracket is open: a text that stops inside a further span, after
    at least one character of it, is shown with that span closed, and one that
    stops outside of spans as it is. *)
Theorem open_span_closed f w : plain w ->
  (brackets_closed (t0 ++ spans l ++ mark f ++ w) ->
   parseIncompleteMarkdown (t0 ++ spans l ++ mark f ++ w) = t0 ++ spans l ++ mark f ++ w ++ mark f) /\
  (brackets_closed (t0 ++ spans l) -> parseIncompleteMarkdown (t0 ++ spans l) = t0 ++ spans l).
Proof.
  intros Hw. split; intros Hb.
  - rewrite parse_formats by (intros [_ [_ [E _]%app_eq_nil]%app_eq_nil]%app_eq_nil; by destruct f).
    unfold cut_link. rewrite Hb.
    destruct f; cbn [foldl]; repeat first [rewrite close_shut by done | rewrite close_open by done; first [rewrite decide_True by done | rewrite decide_False by done]]; done.
  - destruct (decide (t0 ++ spans l = [])) as [->|Hne]; [done|]. rewrite parse_formats by done. unfold cut_link. rewrite Hb.
    cbn [foldl]. by rewrite !close_text.
Qed.
End streaming.

(** ** Links that are not complete *)

Definition ob : ascii := "["%char.
Definition bang : ascii := "!"%char.

Lemma link_at_cons c s :
  link_at (c :: s)
  = if decide (c = ob) then if without "]" s then Some [ob] else None
    else if decide (c = bang) then
      match s with d :: t => if decide (d = ob) then if without "]" t then Some [bang; ob] else None else None | [] => None end
    else None.
Proof.
  unfold link_at. cbn [is_prefix js String.list_ascii_of_string drop]. fold ob bang.
  destruct (decide (c = ob)) as [->|H1].
  - rewrite (bool_decide_false (bang = ob)), (bool_decide_true (ob = ob)) by done. cbn [andb]. by rewrite drop_0.
  - rewrite (bool_decide_false (ob = c)) by congruence. destruct (decide (c = bang)) as [->|H2].
    + rewrite (bool_decide_true (bang = bang)) by done. destruct s as [|d t]; [done|].
      destruct (decide (d = ob)) as [->|H3]; [by rewrite bool_decide_true by done|by rewrite bool_decide_false by congruence].
    + by rewrite (bool_decide_false (bang = c)) by congruence.
Qed.

Lemma without_app c a b : without c (a ++ b) = without c a && without c b.
Proof. apply forallb_app. Qed.

(** No bracket is open before [s], nor between [a] and what follows. *)
Lemma link_later a s m : brackets_closed a -> last a <> Some bang \/ head s <> Some ob ->
  link_at s = Some m -> first_match link_at (a ++ s) = Some m.
Proof.
  intros Ha Hl Hs. revert Ha Hl. induction a as [|c a IH]; intros Ha Hl; [destruct s; [done|]; cbn [app first_match]; by rewrite Hs|].
  assert (E : link_at (c :: a) = None /\ brackets_closed a).
  { unfold brackets_closed in *. cbn in Ha. by destruct (link_at (c :: a)). }
  destruct E as [E Ha']. cbn [app first_match].
  assert (N : link_at (c :: a ++ s) = None).
  { rewrite link_at_cons in *. rewrite without_app. destruct (decide (c = ob)); [by destruct (without _ a)|].
    destruct (decide (c = bang)) as [->|]; [|done]. destruct a as [|d a]; cbn [app].
    - destruct s as [|x s]; [done|]. destruct (decide (x = ob)) as [->|]; [|done]. by destruct Hl as [[]|[]].
    - destruct (decide (d = ob)); [|done]. rewrite without_app. by destruct (without _ a). }
  rewrite N. apply IH; [done|]. destruct Hl as [Hl|Hl]; [|by right]. left. by destruct a.
Qed.

(** The last occurrence of a text: none begins later. *)
Lemma lastIndexOf_here a p s : (forall k, 0 < k -> is_prefix p (drop k (p ++ s)) = false) ->
  lastIndexOf (a ++ p ++ s) p (Z.of_nat (length (a ++ p ++ s))) = Z.of_nat (length a).
Proof.
  intros H. unfold lastIndexOf. rewrite Z.min_id, Nat2Z.id.
  assert (G : forall n, length a <= n -> last_index_upto (a ++ p ++ s) p n = Some (length a)).
  { induction n as [|n IH]; intros Hn; cbn [last_index_upto].
    - destruct a; [|cbn in Hn; lia]. change (drop 0 ([] ++ p ++ s)) with (p ++ s). by rewrite (proj2 (is_prefix_spec p (p ++ s))) by eauto.
    - destruct (decide (length a = S n)) as [E|E].
      + rewrite <- E, drop_app_length. by rewrite (proj2 (is_prefix_spec p (p ++ s))) by eauto.
      + rewrite drop_app_ge, H by lia. apply IH. lia. }
  rewrite G; [done|]. rewrite length_app. lia.
Qed.

(** A link or an image that is not complete is cut off, and what came before it
    is shown as it is: [w] is the part of it that has arrived. *)
Theorem open_link_cut t0 l w image :
  no_marker t0 -> spans_ok l -> brackets_closed (t0 ++ spans l) -> (image = false -> last (t0 ++ spans l) <> Some bang) ->
  "["%char ∉ w -> "]"%char ∉ w -> 
  parseIncompleteMarkdown (t0 ++ spans l ++ (if image then [bang; ob] else [ob]) ++ w) = t0 ++ spans l.
Proof.
  intros H0 Hl Hb Hi Ho Hc. set (p := if image then [bang; ob] else [ob]). set (a := t0 ++ spans l) in *.
  assert (P : link_at (p ++ w) = Some p).
  { unfold p. destruct image; cbn [app]; rewrite link_at_cons; [rewrite decide_False, !decide_True by done|rewrite decide_True by done];
      by rewrite without_free. }
  assert (F : first_match link_at (a ++ p ++ w) = Some p).
  { apply link_later; [done| |done]. destruct image; [by right|left; by apply Hi]. }
  assert (K : forall k, 0 < k -> is_prefix p (drop k (p ++ w)) = false).
  { intros k Hk. assert (N : forall i x, drop i w = x -> head x <> Some ob /\ is_prefix [bang; ob] x = false).
    { intros i x <-. split.
      { intros E. apply Ho, (elem_of_drop_sub i). destruct (drop i w); [done|]. injection E as ->. left. }
      destruct (is_prefix [bang; ob] (drop i w)) eqn:E; [|done]. apply is_prefix_spec in E as [t E]. exfalso. apply Ho.
      eapply (elem_of_drop_sub i). rewrite E. set_solver. }
    unfold p. destruct image; destruct k as [|k]; try lia; cbn [app drop].
    - destruct k as [|k]; [done|]. cbn [drop]. by apply (N k).
    - destruct (N k _ eq_refl) as [N1 _]. destruct (drop k w); [done|]. cbn. rewrite bool_decide_false; [done|]. intros <-. by apply N1. }
  assert (C : cut_link (a ++ p ++ w) = a).
  { unfold cut_link. rewrite F, lastIndexOf_here by done. rewrite substring_prefix, Nat2Z.id by lia. apply take_app_length. }
  rewrite (app_assoc t0). fold a. rewrite parse_formats by (by destruct a, image). rewrite C. cbn [foldl]. unfold a. by rewrite !close_text.
Qed.

(** Nothing that is not part of a link is dropped: with its brackets closed, a
    text is only extended, by at most one marker of each format. *)
Theorem text_extended text : brackets_closed text ->
  exists fs, parseIncompleteMarkdown text = text ++ concat (mark <$> fs) /\
    fs `sublist_of` [Bold; Underlined; Star; Low; Code; Strike].
Proof.
  intros Hb. destruct (decide (text = [])) as [->|Hne]; [exists []; split; [done|apply sublist_nil_l]|].
  rewrite parse_formats by done. unfold cut_link. rewrite Hb. clear Hb Hne.
  generalize [Bold; Underlined; Star; Low; Code; Strike]. intros gs. revert text.
  induction gs as [|g gs IH]; intros text; [exists []; split; [by rewrite app_nil_r|constructor]|].
  destruct (IH (close g text)) as (fs & E & S). cbn [foldl].
  assert (C : close g text = text \/ close g text = text ++ mark g).
  { destruct g; cbn; unfold close_pair, close_single, close_code; case_match; auto. }
  destruct C as [C|C]; rewrite C in E |- *.
  - exists fs. split; [done|by constructor].
  - exists (g :: fs). split; [by rewrite E, <- app_assoc|by constructor].
Qed.

(** ** Examples *)

(** An identifier gets an underscore, also when the answer is complete. *)
Example identifier_extended : parseIncompleteMarkdown (js "Set user_id first.") = js "Set user_id first._".
Proof. vm_compute. reflexivity. Qed.

(** Of two brackets that are open only the last one is cut off. *)
Example nested_bracket_left : parseIncompleteMarkdown (js "see [the [docs") = js "see [the ".
Proof. vm_compute. reflexivity. Qed.

(** A format inside an open one: only the inner one is closed. *)
Example nested_format_left : parseIncompleteMarkdown (js "**very *bold") = js "**very *bold*".
Proof. vm_compute. reflexivity. Qed.

Lemma open_span_closed_witness :
  parseIncompleteMarkdown (js "a **b** c `d") = js "a **b** c `d`".
Proof.
  apply (proj1 (open_span_closed (js "a ") [(Bold, js "b", js " c ")]
    ltac:(repeat constructor; unfold marker; set_solver)
    ltac:(repeat constructor; unfold marker; try set_solver) Code (js "d") ltac:(split; [done|repeat constructor; unfold marker; set_solver]))).
  reflexivity.
Defined.

Lemma open_link_cut_witness : parseIncompleteMarkdown (js "see ![a pict") = js "see ".
Proof.
  apply (open_link_cut (js "see ") [] (js "a pict") true); [repeat constructor; unfold marker; set_solver|constructor|reflexivity|done|..];
    unfold js; cbn; set_solver.
Defined.

Lemma text_extended_witness : exists fs, parseIncompleteMarkdown (js "**a") = js "**a" ++ concat (mark <$> fs) /\
  fs `sublist_of` [Bold; Underlined; Star; Low; Code; Strike].
Proof. apply (text_extended (js "**a")). reflexivity. Defined.
