(* ===== verification/ResLensJobs.v ===== *)
(** * Seeding jobs and profiles on the ResLens dashboard

    src/ecosystem/monitoring/reslens/src/components/graphs/flamegraph.tsx: the
    two jobs a developer starts from the flamegraph (writing values, reading
    values), the polling of their status, and the fetching and explaining of a
    profile.

    Both jobs have the same code with other texts, [SetJob] and [GetJob].  A
    handler runs to its next [await]: the request it waits for is a [call] that
    keeps what the rest of the handler sees, the state of the render in which
    it was started.  Calls are answered in any order, and timers go off at any
    time.  The toasts that are shown are listed in their order. *)

From Stdlib Require Import SpecFloat.
From S2P Require Import Prelude JsString JsArray JsNum Json.

(** ** Data *)

Inductive which := SetJob | GetJob.

#[global] Instance which_eq_dec : EqDecision which.
Proof. solve_decision. Defined.

Record Toast := MkToast { t_title : str; t_description : str; t_destructive : bool }.

(** The state of one job. *)
Record Job := MkJob {
  loading : bool;
  status : str;
  progress : num;
  resultCount : num;
  selectedCount : Z;
  controller : option nat;
  polling : option nat;
}.

Definition set_loading (b : bool) (j : Job) : Job := MkJob b (status j) (progress j) (resultCount j) (selectedCount j) (controller j) (polling j).
Definition set_status (s : str) (j : Job) : Job := MkJob (loading j) s (progress j) (resultCount j) (selectedCount j) (controller j) (polling j).
Definition set_progress (p : num) (j : Job) : Job := MkJob (loading j) (status j) p (resultCount j) (selectedCount j) (controller j) (polling j).
Definition set_count (n : num) (j : Job) : Job := MkJob (loading j) (status j) (progress j) n (selectedCount j) (controller j) (polling j).
Definition set_selected (n : Z) (j : Job) : Job := MkJob (loading j) (status j) (progress j) (resultCount j) n (controller j) (polling j).
Definition set_controller (c : option nat) (j : Job) : Job := MkJob (loading j) (status j) (progress j) (resultCount j) (selectedCount j) c (polling j).
Definition set_polling (p : option nat) (j : Job) : Job := MkJob (loading j) (status j) (progress j) (resultCount j) (selectedCount j) (controller j) p.

(** An interval that has not been cleared, and the job as its callback sees
    it. *)
Record Timer := MkTimer { tm_id : nat; tm_job : which; tm_seen : Job }.

(** A request whose answer a handler waits for. *)
Inductive call :=
| HealthCall (fire : option which) (seen : Job)
| StartCall (w : which) (seen : Job) (signal : nat)
| TickCall (t : Timer)
| StopCall (w : which) (seen : Job)
| StatusCall (w : which) (seen : Job).

(** What is answered: a response with its status and its body, if that is JSON,
    or an error with its message. *)
Inductive answer :=
| Response (ok : bool) (code : Z) (statusText : str) (body : option json)
| NetworkError (m : str).

(** [response.json()]: a field of [null] cannot be read either. *)
Definition body_of (a : answer) : option json :=
  match a with Response _ _ _ (Some JNull) => None | Response _ _ _ b => b | NetworkError _ => None end.

Record World := MkWorld {
  set_job : Job;
  get_job : Job;
  health : str;
  toasts : list Toast;
  refresh : bool;
  timers : list Timer;
  calls : list call;
  aborted : list nat;
  made : nat;
  mounted : bool;
}.

Definition job (w : which) (s : World) : Job := match w with SetJob => set_job s | GetJob => get_job s end.

Definition on_job (w : which) (f : Job -> Job) (s : World) : World :=
  match w with
  | SetJob => MkWorld (f (set_job s)) (get_job s) (health s) (toasts s) (refresh s) (timers s) (calls s) (aborted s) (made s) (mounted s)
  | GetJob => MkWorld (set_job s) (f (get_job s)) (health s) (toasts s) (refresh s) (timers s) (calls s) (aborted s) (made s) (mounted s)
  end.

Definition set_health (h : str) (s : World) : World :=
  MkWorld (set_job s) (get_job s) h (toasts s) (refresh s) (timers s) (calls s) (aborted s) (made s) (mounted s).
Definition toast (t : Toast) (s : World) : World :=
  MkWorld (set_job s) (get_job s) (health s) (toasts s ++ [t]) (refresh s) (timers s) (calls s) (aborted s) (made s) (mounted s).
Definition refreshFlamegraph (s : World) : World :=
  MkWorld (set_job s) (get_job s) (health s) (toasts s) (negb (refresh s)) (timers s) (calls s) (aborted s) (made s) (mounted s).
Definition set_timers (l : list Timer) (s : World) : World :=
  MkWorld (set_job s) (get_job s) (health s) (toasts s) (refresh s) l (calls s) (aborted s) (made s) (mounted s).
Definition set_calls (l : list call) (s : World) : World :=
  MkWorld (set_job s) (get_job s) (health s) (toasts s) (refresh s) (timers s) l (aborted s) (made s) (mounted s).
Definition set_made (n : nat) (s : World) : World :=
  MkWorld (set_job s) (get_job s) (health s) (toasts s) (refresh s) (timers s) (calls s) (aborted s) n (mounted s).
Definition abort (c : nat) (s : World) : World :=
  MkWorld (set_job s) (get_job s) (health s) (toasts s) (refresh s) (timers s) (calls s) (aborted s ++ [c]) (made s) (mounted s).
Definition set_mounted (b : bool) (s : World) : World :=
  MkWorld (set_job s) (get_job s) (health s) (toasts s) (refresh s) (timers s) (calls s) (aborted s) (made s) b.

Definition await (c : call) (s : World) : World := set_calls (calls s ++ [c]) s.
Definition clearInterval (i : nat) (s : World) : World := set_timers (filterb (fun t => negb (tm_id t =? i)%nat) (timers s)) s.

(** ** Texts *)

Section texts.
Context (showNum : num -> str).

Definition info (title : string) (d : str) : Toast := MkToast (js title) d false.
Definition failure (title : string) (d : str) : Toast := MkToast (js title) d true.

Definition unavailable (w : which) : Toast :=
  failure "Service Unavailable" (js (match w with
    | SetJob => "The seeding service is not healthy. Please try again later."
    | GetJob => "The GET service is not healthy. Please try again later." end)).

Definition started (w : which) (n : Z) : Toast :=
  match w with
  | SetJob => info "SetValues Seeding Started" (js "Started seeding " ++ str_of_Z n ++ js " values. Monitoring progress...")
  | GetJob => info "GET Operations Started" (js "Started " ++ str_of_Z n ++ js " GET operations. Monitoring progress...")
  end.

Definition completed (w : which) (n : num) : Toast :=
  match w with
  | SetJob => info "Seeding Complete" (js "Successfully seeded " ++ showNum n ++ js " values. Check the flamegraph for new data.")
  | GetJob => info "GET Operation Complete" (js "Successfully completed " ++ showNum n ++ js " GET operations. Check the flamegraph for new data.")
  end.

Definition job_failed (w : which) : Toast :=
  match w with
  | SetJob => failure "Seeding Failed" (js "An error occurred during seeding. Please try again.")
  | GetJob => failure "GET Operation Failed" (js "An error occurred during GET operations. Please try again.")
  end.

Definition start_aborted (w : which) : Toast :=
  match w with
  | SetJob => info "SetValues Seeding Aborted" (js "The seeding operation was cancelled.")
  | GetJob => info "GET Operations Aborted" (js "The GET operation was cancelled.")
  end.

(** [error.message || text] *)
Definition or_text (m : str) (text : string) : str := match m with [] => js text | _ => m end.

Definition start_failed (w : which) (m : str) : Toast :=
  let wait := js ". Please wait 30 seconds before trying again if needed." in
  match w with
  | SetJob => failure "SetValues Seeding Failed" (or_text m "Failed to start seeding" ++ wait)
  | GetJob => failure "GET Operations Failed" (or_text m "Failed to start GET operations" ++ wait)
  end.

Definition stopped (w : which) : Toast :=
  match w with
  | SetJob => info "Seeding Stopped" (js "The seeding operation has been stopped.")
  | GetJob => info "GET Operations Stopped" (js "The GET operation has been stopped.")
  end.

Definition stop_failed (w : which) (m : str) : Toast :=
  failure "Stop Failed" (or_text m (match w with SetJob => "Failed to stop seeding" | GetJob => "Failed to stop GET operations" end)).

Definition http_error (code : Z) (statusText : str) : str := js "HTTP " ++ str_of_Z code ++ js ": " ++ statusText.

(** ** Handlers *)

Definition running : str := js "running".
Definition is_stopped : str := js "stopped".

(** A text of an answer; the service answers [status] as a text. *)
Definition text_field (v : json) (key : string) : str := match prop v (js key) with Some (JStr s) => s | _ => [] end.
Definition num_field (v : json) (key : string) : num := match prop v (js key) with Some (JNum n) => n | _ => S754_nan end.

(** The rest of [checkHealth]: whether the service is healthy. *)
Definition checkHealth (a : answer) (s : World) : World * bool :=
  match body_of a with
  | None => (set_health (js "error") s, false)
  | Some v => let h := text_field v "status" in (set_health h s, bool_decide (h = js "ok"))
  end.

(** The rest of [checkStatus]: the status that was answered, none when the
    request failed. *)
Definition checkStatus (w : which) (seen : Job) (a : answer) (s : World) : World * option str :=
  match body_of a with
  | None => (on_job w (set_status (js "error")) s, None)
  | Some v =>
      let st := text_field v "status" in
      let n := num_field v "results_count" in
      let s := on_job w (fun j => set_count (if truthy_num n then n else nzero) (set_status st j)) s in
      let s :=
        if bool_decide (st = running) && (0 <? selectedCount seen)%Z
        then on_job w (set_progress (nmin (nmul (ndiv n (of_Z (selectedCount seen))) (of_Z 100)) (of_Z 100))) s
        else if bool_decide (st = is_stopped) then on_job w (set_progress (of_Z 100)) s
        else s in
      (s, Some st)
  end.

(** The job is over for the page. *)
Definition finish (w : which) (s : World) : World := on_job w (fun j => set_controller None (set_loading false j)) s.

Definition startPolling (w : which) (seen : Job) (s : World) : World :=
  let i := made s in
  on_job w (set_polling (Some i)) (set_timers (timers s ++ [MkTimer i w seen]) (set_made (S i) s)).

(** [stopPolling] of the render that saw [seen] *)
Definition stopPolling (w : which) (seen : Job) (s : World) : World :=
  match polling seen with
  | Some i => on_job w (set_polling None) (clearInterval i s)
  | None => s
  end.

(** The callback of an interval, once the status is known. *)
Definition on_tick (t : Timer) (a : answer) (s : World) : World :=
  let w := tm_job t in
  let '(s, st) := checkStatus w (tm_seen t) a s in
  let stop s := finish w (on_job w (set_polling None) (clearInterval (tm_id t) s)) in
  if bool_decide (st = Some is_stopped) then refreshFlamegraph (toast (completed w (resultCount (tm_seen t))) (stop s))
  else if bool_decide (st = Some (js "error")) then toast (job_failed w) (stop s)
  else s.

(** [fireSetValues], [fireGetOperations]: up to the health check, *)
Definition fire (w : which) (s : World) : World := await (HealthCall (Some w) (job w s)) s.

(** then up to the request that starts the job, *)
Definition fire_healthy (w : which) (seen : Job) (s : World) : World :=
  let c := made s in
  await (StartCall w seen c)
    (on_job w (fun j => set_controller (Some c) (set_loading true (set_count nzero (set_progress nzero j)))) (set_made (S c) s)).

(** and to its end. *)
Definition fire_started (w : which) (seen : Job) (signal : nat) (a : answer) (s : World) : World :=
  if bool_decide (signal ∈ aborted s) then finish w (toast (start_aborted w) s)
  else
    match a with
    | Response true _ _ _ => startPolling w seen (toast (started w (selectedCount seen)) s)
    | Response false code t _ => finish w (toast (start_failed w (http_error code t)) s)
    | NetworkError m => finish w (toast (start_failed w m) s)
    end.

(** [stopSeeding], [stopGetOperations] *)
Definition stop (w : which) (s : World) : World := await (StopCall w (job w s)) s.

Definition stop_answered (w : which) (seen : Job) (a : answer) (s : World) : World :=
  match a with
  | Response true _ _ _ => await (StatusCall w seen) (finish w (stopPolling w seen (toast (stopped w) s)))
  | Response false code t _ => toast (stop_failed w (http_error code t)) s
  | NetworkError m => toast (stop_failed w m) s
  end.

(** [abortSetValues], [abortGetOperations] *)
Definition abort_job (w : which) (s : World) : World :=
  let seen := job w s in
  stopPolling w seen
    (match controller seen with Some c => finish w (abort c s) | None => s end).

(** The main button of a job: it is disabled while the service is not healthy
    and while the job runs. *)
Definition enabled (w : which) (s : World) : bool :=
  bool_decide (health s = js "ok") && negb (bool_decide (status (job w s) = running)).

Definition press (w : which) (s : World) : World :=
  if enabled w s then if loading (job w s) then abort_job w s else fire w s else s.

Definition press_stop (w : which) (s : World) : World :=
  if bool_decide (status (job w s) = running) then stop w s else s.

Definition new_job : Job := MkJob false is_stopped nzero nzero 1000 None None.

(** The clean-up of the first effect: its functions are those of the first
    render, when nothing was polled. *)
Definition unmount (s : World) : World :=
  set_mounted false (stopPolling GetJob new_job (stopPolling SetJob new_job s)).

(** ** Events *)

Inductive event :=
| Unmount
| Choose (w : which) (n : Z)
| Press (w : which)
| PressStop (w : which)
| Elapsed (i : nat)
| Answered (k : nat) (a : answer).

Definition on_answer (c : call) (a : answer) (s : World) : World :=
  match c with
  | HealthCall None _ => (checkHealth a s).1
  | HealthCall (Some w) seen =>
      let '(s, ok) := checkHealth a s in
      if ok : bool then fire_healthy w seen s else toast (unavailable w) s
  | StartCall w seen signal => fire_started w seen signal a s
  | TickCall t => on_tick t a s
  | StopCall w seen => stop_answered w seen a s
  | StatusCall w seen => (checkStatus w seen a s).1
  end.

Definition on_event (e : event) (s : World) : World :=
  match e with
  | Unmount => unmount s
  | Choose w n => if mounted s then on_job w (set_selected n) s else s
  | Press w => if mounted s then press w s else s
  | PressStop w => if mounted s then press_stop w s else s
  | Elapsed i =>
      match list_find (fun t => tm_id t = i) (timers s) with
      | Some (_, t) => await (TickCall t) s
      | None => s
      end
  | Answered k a =>
      match calls s !! k with
      | Some c => on_answer c a (set_calls (delete k (calls s)) s)
      | None => s
      end
  end.

Definition on_events (es : list event) (s : World) : World := foldl (fun s e => on_event e s) s es.

(** The page after its first render, which checks the health and the status. *)
Definition new_world : World :=
  MkWorld new_job new_job (js "unknown") [] false [] [HealthCall None new_job; StatusCall SetJob new_job] [] 0 true.

(** ** A busy page is waiting for something *)

(** The interval [i], as long as it exists, belongs to the job [w]. *)
Definition owned (s : World) (w : which) (i : nat) : Prop :=
  i < made s /\ forall t, t ∈ timers s -> tm_id t = i -> tm_job t = w.

Definition watched (s : World) (w : which) : Prop :=
  (exists seen c, StartCall w seen c ∈ calls s) \/ exists t, t ∈ timers s /\ tm_job t = w.

Record ids_ok (s : World) : Prop := {
  ok_polling w i : polling (job w s) = Some i -> owned s w i;
  ok_stop w seen i : StopCall w seen ∈ calls s -> polling seen = Some i -> owned s w i;
  ok_tick t : TickCall t ∈ calls s -> owned s (tm_job t) (tm_id t);
  ok_timer t : t ∈ timers s -> owned s (tm_job t) (tm_id t);
}.

Record page_ok (s : World) : Prop := {
  ok_ids : ids_ok s;
  ok_controller w : loading (job w s) = true -> is_Some (controller (job w s));
  ok_watched w : loading (job w s) = true -> watched s w;
}.

Lemma job_on_job w w' f s : job w (on_job w' f s) = if decide (w = w') then f (job w s) else job w s.
Proof. by destruct w, w'. Qed.

Lemma on_job_rest w f s :
  timers (on_job w f s) = timers s /\ calls (on_job w f s) = calls s /\ made (on_job w f s) = made s /\ aborted (on_job w f s) = aborted s.
Proof. by destruct w. Qed.

Lemma owned_mono s s' w i : owned s w i -> made s <= made s' -> (forall t, t ∈ timers s' -> t ∈ timers s) -> owned s' w i.
Proof. intros [H1 H2] Hm Ht. split; [lia|]. eauto. Qed.

(** Timers and calls that go away, and calls that are made of the state. *)
Lemma ids_mono s s' : ids_ok s -> made s <= made s' -> (forall t, t ∈ timers s' -> t ∈ timers s) ->
  (forall w i, polling (job w s') = Some i -> polling (job w s) = Some i) ->
  (forall w seen, StopCall w seen ∈ calls s' -> StopCall w seen ∈ calls s \/ seen = job w s) ->
  (forall t, TickCall t ∈ calls s' -> TickCall t ∈ calls s \/ t ∈ timers s) -> ids_ok s'.
Proof.
  intros [H1 H2 H3 H4] Hm Ht Hp Hs Hk. constructor.
  - intros w i E. eapply owned_mono; eauto.
  - intros w seen i Hin E. eapply owned_mono; [|done..]. destruct (Hs _ _ Hin) as [?| ->]; eauto.
  - intros t Hin. eapply owned_mono; [|done..]. destruct (Hk _ Hin); eauto.
  - intros t Hin. eapply owned_mono; eauto.
Qed.

(** Nothing that [page_ok] speaks of has changed, but for calls that are over
    and calls that were made of the state. *)
Lemma page_frame s s' : page_ok s -> made s <= made s' -> (forall t, t ∈ timers s' <-> t ∈ timers s) ->
  (forall w, loading (job w s') = loading (job w s) /\ controller (job w s') = controller (job w s) /\ polling (job w s') = polling (job w s)) ->
  (forall w seen c, StartCall w seen c ∈ calls s -> StartCall w seen c ∈ calls s') ->
  (forall w seen, StopCall w seen ∈ calls s' -> StopCall w seen ∈ calls s \/ seen = job w s) ->
  (forall t, TickCall t ∈ calls s' -> TickCall t ∈ calls s \/ t ∈ timers s) -> page_ok s'.
Proof.
  intros [H1 H2 H3] Hm Ht Hj Hc Hs Hk. constructor.
  - apply (ids_mono s); try done; [intros t; apply Ht|]. intros w i. by rewrite (proj2 (proj2 (Hj w))).
  - intros w. destruct (Hj w) as (-> & -> & _). apply H2.
  - intros w. destruct (Hj w) as (-> & _). intros E. destruct (H3 w E) as [(seen & c & ?)|(t & ? & ?)]; [left; eauto|].
    right. exists t. by rewrite Ht.
Qed.

(** A job that is over for the page. *)
Lemma page_finished w s s' : ids_ok s' -> page_ok s ->
  loading (job w s') = false -> (forall w', w' <> w -> job w' s' = job w' s) ->
  (forall t, t ∈ timers s -> tm_job t <> w -> t ∈ timers s') ->
  (forall w' seen c, w' <> w -> StartCall w' seen c ∈ calls s -> StartCall w' seen c ∈ calls s') -> page_ok s'.
Proof.
  intros Hids [_ H2 H3] Hl Hj Ht Hc.
  constructor; [done|..]; intros w' E; destruct (decide (w' = w)) as [->|Hne]; try congruence; rewrite Hj in E by done.
  - rewrite Hj by done. by apply H2.
  - destruct (H3 w' E) as [(seen & c & ?)|(t & ? & <-)]; [left; eauto|right; eauto].
Qed.

Lemma delete_sub {A} (l : list A) k x : x ∈ delete k l -> x ∈ l.
Proof. intros H. eapply elem_of_submseteq; [exact H|]. apply sublist_submseteq, sublist_delete. Qed.

Lemma delete_other {A} (l : list A) k c x : l !! k = Some c -> x ∈ l -> x <> c -> x ∈ delete k l.
Proof. intros E Hx Hne. rewrite (delete_Permutation l k c) in Hx by done. by apply elem_of_cons in Hx as [->|]. Qed.

Lemma elem_of_clear i s t : t ∈ timers (clearInterval i s) <-> t ∈ timers s /\ tm_id t <> i.
Proof. cbn. rewrite elem_of_filterb, negb_true_iff, Nat.eqb_neq. done. Qed.

(** The interval of a job is cleared: those of the other job stay. *)
Lemma clear_other s w i t : owned s w i -> t ∈ timers s -> tm_job t <> w -> t ∈ timers (clearInterval i s).
Proof. intros [_ H] Ht Hne. apply elem_of_clear. split; [done|]. intros E. by apply Hne, H. Qed.

(** An answer that [c] waited for, and a handler that changes nothing of the
    page but texts. *)
Lemma answer_frame s k c s' : page_ok s -> calls s !! k = Some c -> (forall w seen g, c <> StartCall w seen g) ->
  made s' = made s -> timers s' = timers s -> calls s' = delete k (calls s) ->
  (forall w, loading (job w s') = loading (job w s) /\ controller (job w s') = controller (job w s) /\ polling (job w s') = polling (job w s)) ->
  page_ok s'.
Proof.
  intros H E Hc Hm Ht Hk Hj. apply (page_frame s); try done; rewrite ?Hm, ?Ht, ?Hk; try done.
  - intros w seen g Hin. eapply delete_other; [done..|]. naive_solver.
  - intros w seen Hin. left. by eapply delete_sub.
  - intros t Hin. left. by eapply delete_sub.
Qed.

Lemma checkStatus_frame w seen a s : let s' := (checkStatus w seen a s).1 in
  made s' = made s /\ timers s' = timers s /\ calls s' = calls s /\
  forall w, loading (job w s') = loading (job w s) /\ controller (job w s') = controller (job w s) /\ polling (job w s') = polling (job w s).
Proof.
  cbn zeta. unfold checkStatus. destruct (body_of a) as [v|]; cbn [fst]; [repeat case_match|]; destruct w; repeat split; by destruct w.
Qed.

Lemma checkHealth_frame a s : exists h ok, checkHealth a s = (set_health h s, ok).
Proof. unfold checkHealth. case_match; eauto. Qed.

(** *** Handlers *)

(** An answer taken from the calls, before its handler runs. *)
Definition taken (k : nat) (s : World) : World := set_calls (delete k (calls s)) s.

Lemma taken_ids k s : ids_ok s -> ids_ok (taken k s).
Proof. intros H. apply (ids_mono s); [done|cbn; lia|done|by intros []|..]; intros * Hin; left; exact (delete_sub _ k _ Hin). Qed.

Lemma fire_healthy_ok w seen k s h : page_ok s -> calls s !! k = Some (HealthCall (Some w) seen) ->
  page_ok (fire_healthy w seen (set_health h (taken k s))).
Proof.
  intros [Hids H2 H3] E. set (s' := fire_healthy _ _ _).
  assert (C : forall c, c ∈ calls s' <-> c ∈ delete k (calls s) \/ c = StartCall w seen (made s)).
  { intros c. destruct w; cbn; by rewrite elem_of_app, list_elem_of_singleton. }
  assert (L : forall w', w' <> w -> job w' s' = job w' s) by (by destruct w; intros []).
  constructor.
  - apply (ids_mono s); [done|destruct w; cbn; lia|by destruct w| |..].
    + intros w' i. destruct w', w; done.
    + intros w' sn. rewrite C. intros [?%delete_sub|]; [by left|done].
    + intros t. rewrite C. intros [?%delete_sub|]; [by left|done].
  - intros w' Hl. destruct (decide (w' = w)) as [->|Hne]; [destruct w; cbn; eauto|]. rewrite L in * by done. by apply H2.
  - intros w' Hl. destruct (decide (w' = w)) as [->|Hne]; [left; exists seen, (made s); apply C; by right|].
    rewrite L in Hl by done. destruct (H3 w' Hl) as [(sn & c & Hin)|(t & Ht & <-)].
    + left. exists sn, c. apply C. left. eapply delete_other; done.
    + right. exists t. by destruct w.
Qed.

Lemma finish_job w s : loading (job w (finish w s)) = false /\ (forall w', w' <> w -> job w' (finish w s) = job w' s) /\
  (forall w', polling (job w' (finish w s)) = polling (job w' s)) /\
  timers (finish w s) = timers s /\ calls (finish w s) = calls s /\ made (finish w s) = made s.
Proof. destruct w; repeat split; by intros []. Qed.

Lemma fire_failed_ok w seen g k t s : page_ok s -> calls s !! k = Some (StartCall w seen g) ->
  page_ok (finish w (toast t (taken k s))).
Proof.
  intros H E. destruct (finish_job w (toast t (taken k s))) as (F1 & F2 & F3 & R1 & R2 & R3).
  apply (page_finished w s); try done.
  - apply (ids_mono (taken k s)); [apply taken_ids, H|by rewrite R3|by rewrite R1|intros w' i; by rewrite F3|..]; intros *; rewrite R2; by left.
  - intros t' Ht _. by rewrite R1.
  - intros w' sn c Hne Hin. rewrite R2. eapply delete_other; [done..|]. congruence.
Qed.

Lemma fire_started_ok w seen g k a s : page_ok s -> calls s !! k = Some (StartCall w seen g) ->
  page_ok (fire_started w seen g a (taken k s)).
Proof.
  intros H E. unfold fire_started. case_bool_decide; [by eapply fire_failed_ok|].
  destruct a as [[] ? ? ?|]; [|by eapply fire_failed_ok..].
  set (s' := startPolling _ _ _). pose proof H as [[I1 I2 I3 I4] H2 H3].
  assert (T : timers s' = timers s ++ [MkTimer (made s) w seen]) by (by destruct w).
  assert (M : made s' = S (made s)) by (by destruct w).
  assert (O : forall w' i, owned s w' i -> owned s' w' i).
  { intros w' i [Hi Ho]. split; [lia|]. intros t. rewrite T, elem_of_app, list_elem_of_singleton. intros [?| ->]; [eauto|cbn; lia]. }
  assert (N : owned s' w (made s)).
  { split; [lia|]. intros t. rewrite T, elem_of_app, list_elem_of_singleton. intros [Ht| ->]; [|done]. apply I4 in Ht as [? _]. lia. }
  assert (C : calls s' = delete k (calls s)) by (by destruct w).
  constructor; [constructor|..].
  - intros w' i Hp. assert (w' = w /\ i = made s \/ polling (job w' s) = Some i) as [[-> ->]|Hp'] by (destruct w, w'; cbn in Hp; naive_solver); eauto.
  - intros w' sn i. rewrite C. intros ?%delete_sub ?. eauto.
  - intros t. rewrite C. intros ?%delete_sub. eauto.
  - intros t. rewrite T, elem_of_app, list_elem_of_singleton. intros [?| ->]; eauto.
  - intros w' Hl. assert (loading (job w' s) = true /\ controller (job w' s') = controller (job w' s)) as [Hl' ->] by (by destruct w, w'). eauto.
  - intros w' Hl. destruct (decide (w' = w)) as [->|Hne].
    { right. eexists. rewrite T, elem_of_app, list_elem_of_singleton. by split; [right|]. }
    assert (loading (job w' s) = true) as Hl' by (by destruct w, w'). destruct (H3 w' Hl') as [(sn & c & Hin)|(t & Ht & <-)].
    + left. exists sn, c. rewrite C. eapply delete_other; [done..|]. congruence.
    + right. exists t. rewrite T, elem_of_app. by split; [left|].
Qed.

(** A new call that is made of the state. *)
Lemma await_ok c s : page_ok s ->
  (forall w seen, c = StopCall w seen -> seen = job w s) -> (forall t, c = TickCall t -> t ∈ timers s) -> page_ok (await c s).
Proof.
  intros H Hs Ht. apply (page_frame s); [done|cbn; lia|done|by intros []|..]; intros *; cbn; rewrite elem_of_app, ?list_elem_of_singleton.
  - by left.
  - intros [?|E]; [by left|right; by apply Hs].
  - intros [?|E]; [by left|right; by apply Ht].
Qed.

Lemma toast_ok t s : page_ok s -> page_ok (toast t s).
Proof. intros H. by apply (page_frame s); [|cbn; lia| |intros []|..]; eauto. Qed.

Lemma refresh_ok s : page_ok s -> page_ok (refreshFlamegraph s).
Proof. intros H. by apply (page_frame s); [|cbn; lia| |intros []|..]; eauto. Qed.

(** The interval [i] of a job is cleared and the job is over; [s1] is the page
    after texts of the job have changed. *)
Definition over (w : which) (i : nat) (s : World) : World := finish w (on_job w (set_polling None) (clearInterval i s)).

Lemma over_ok w i s s1 : page_ok s -> owned s w i -> timers s1 = timers s -> made s1 = made s ->
  (forall c, c ∈ calls s1 -> c ∈ calls s) -> (forall w' seen c, StartCall w' seen c ∈ calls s -> StartCall w' seen c ∈ calls s1) ->
  (forall w', w' <> w -> job w' s1 = job w' s) -> page_ok (over w i s1).
Proof.
  intros H O T M C1 C2 J. unfold over. set (s2 := on_job _ _ _).
  destruct (finish_job w s2) as (F1 & F2 & F3 & R1 & R2 & R3).
  assert (T2 : forall t, t ∈ timers s2 <-> t ∈ timers s /\ tm_id t <> i) by (intros t; unfold s2; destruct w; cbn; rewrite <- T; apply (elem_of_clear i s1)).
  assert (M2 : made s2 = made s) by (rewrite <- M; by destruct w).
  assert (C3 : calls s2 = calls s1) by (by destruct w).
  apply (page_finished w s); [|done|done|..].
  - apply (ids_mono s); [apply H|rewrite R3, M2; lia|intros t; rewrite R1, T2; by intros []|..].
    + intros w' j. rewrite F3. destruct (decide (w' = w)) as [->|Hne]; [by destruct w|]. rewrite <- (J w') by done. by destruct w, w'.
    + intros w' sn. rewrite R2, C3. by left; apply C1.
    + intros t. rewrite R2, C3. by left; apply C1.
  - intros w' Hne. rewrite F2, <- J by done. by destruct w, w'.
  - intros t Ht Hne. rewrite R1, T2. split; [done|]. intros E. destruct O as [_ O]. by apply Hne, O.
  - intros w' sn c _ Hin. rewrite R2, C3. by apply C2.
Qed.

Lemma on_tick_ok t k a s : page_ok s -> calls s !! k = Some (TickCall t) -> page_ok (on_tick t a (taken k s)).
Proof.
  intros H E. unfold on_tick. destruct (checkStatus_frame (tm_job t) (tm_seen t) a (taken k s)) as (M & T & C & J).
  assert (O : owned s (tm_job t) (tm_id t)) by (apply (ok_tick s); [apply H|by eapply list_elem_of_lookup_2]).
  assert (X : forall w', w' <> tm_job t -> job w' (checkStatus (tm_job t) (tm_seen t) a (taken k s)).1 = job w' s).
  { intros w' Hne. unfold checkStatus. destruct (body_of a); cbn [fst]; [repeat case_match|]; destruct w', (tm_job t); done. }
  assert (D : page_ok (over (tm_job t) (tm_id t) (checkStatus (tm_job t) (tm_seen t) a (taken k s)).1)).
  { apply (over_ok _ _ s); [done..| | |done].
    - intros c. rewrite C. apply delete_sub.
    - intros w sn c Hin. rewrite C. by eapply delete_other. }
  destruct (checkStatus _ _ _ _) as [s1 st]. cbn in *. fold (over (tm_job t) (tm_id t) s1).
  case_bool_decide; [by apply refresh_ok, toast_ok|]. case_bool_decide; [by apply toast_ok|].
  by eapply (answer_frame s k (TickCall t)).
Qed.

Lemma stopPolling_finish w seen s : (polling seen = None /\ stopPolling w seen s = s) \/
  exists i, polling seen = Some i /\ finish w (stopPolling w seen s) = over w i s.
Proof. unfold stopPolling. destruct (polling seen) as [i|]; [right; eauto|by left]. Qed.

Lemma stop_answered_ok w seen k a s : page_ok s -> calls s !! k = Some (StopCall w seen) -> page_ok (stop_answered w seen a (taken k s)).
Proof.
  intros H E. unfold stop_answered.
  assert (F : forall t, page_ok (toast t (taken k s))).
  { intros t. by eapply (answer_frame s k (StopCall w seen)). }
  destruct a as [[] code text b|m]; [|apply F..]. apply await_ok; [|done..].
  destruct (stopPolling_finish w seen (toast (stopped w) (taken k s))) as [[_ ->]|(i & Hi & ->)].
  - destruct (finish_job w (toast (stopped w) (taken k s))) as (F1 & F2 & F3 & R1 & R2 & R3).
    apply (page_finished w s); try done.
    + apply (ids_mono (taken k s)); [apply taken_ids, H|by rewrite R3|by rewrite R1|intros w' i; by rewrite F3|..]; intros *; rewrite R2; by left.
    + intros t Ht _. by rewrite R1.
    + intros w' sn c _ Hin. rewrite R2. by eapply delete_other.
  - apply (over_ok _ _ s); [done| |done|done| | |done].
    + eapply (ok_stop s); [apply H|by eapply list_elem_of_lookup_2|done].
    + intros c. apply delete_sub.
    + intros w' sn c Hin. by eapply delete_other.
Qed.

Lemma abort_ok w s : page_ok s -> loading (job w s) = true -> page_ok (abort_job w s).
Proof.
  intros H Hl. unfold abort_job. destruct (ok_controller s H w Hl) as [c ->].
  destruct (polling (job w s)) as [i|] eqn:P; unfold stopPolling; rewrite P.
  - assert (E : on_job w (set_polling None) (clearInterval i (finish w (abort c s))) = over w i (abort c s)) by (by destruct w).
    rewrite E. apply (over_ok _ _ s); try done. by apply (ok_polling s); [apply H|].
  - destruct (finish_job w (abort c s)) as (F1 & F2 & F3 & R1 & R2 & R3). apply (page_finished w s); try done.
    + apply (ids_mono s); [apply H|by rewrite R3|by rewrite R1|intros w' i; by rewrite F3|..]; intros *; rewrite R2; by left.
    + intros t Ht _. by rewrite R1.
    + intros w' sn g _ Hin. by rewrite R2.
Qed.

Lemma job_event_ok e s : page_ok s -> page_ok (on_event e s).
Proof.
  intros H. destruct e as [|w n|w|w|i|k a]; cbn [on_event].
  - unfold unmount. cbn. by apply (page_frame s); [|cbn; lia| |intros []|..]; eauto.
  - destruct (mounted s); [|done]. by apply (page_frame s); [|destruct w; cbn; lia|destruct w|intros []; destruct w|destruct w..]; eauto.
  - destruct (mounted s); [|done]. unfold press. destruct (enabled w s); [|done].
    destruct (loading (job w s)) eqn:E; [by apply abort_ok|by apply await_ok].
  - destruct (mounted s); [|done]. unfold press_stop. case_bool_decide; [|done]. apply await_ok; [done| |done]. by intros ? ? [= <- <-].
  - destruct (list_find _ _) as [[j t]|] eqn:E; [|done]. apply await_ok; [done..|]. intros ? [= <-].
    apply list_find_Some in E as [E _]. by eapply list_elem_of_lookup_2.
  - destruct (calls s !! k) as [c|] eqn:E; [|done]. fold (taken k s). destruct c as [[w|] seen|w seen g|t|w seen|w seen]; cbn [on_answer].
    + destruct (checkHealth_frame a (taken k s)) as (h & ok & ->). destruct ok; [by apply fire_healthy_ok|].
      by eapply (answer_frame s k).
    + destruct (checkHealth_frame a (taken k s)) as (h & ok & ->). by eapply (answer_frame s k).
    + by apply fire_started_ok.
    + by apply on_tick_ok.
    + by apply stop_answered_ok.
    + destruct (checkStatus_frame w seen a (taken k s)) as (M & T & C & J). by eapply (answer_frame s k).
Qed.

Lemma new_world_ok : page_ok new_world.
Proof.
  constructor; [constructor|..]; try by intros [].
  - intros w seen i Hin. cbn in Hin. set_solver.
  - intros t Hin. cbn in Hin. set_solver.
  - intros t Hin. cbn in Hin. set_solver.
Qed.

(** C20: the page never shows a job as busy for nothing: in every order of clicks,
    answers and timers, while a job is shown as busy the request that starts
    it is under way or its status is being polled, and its controller is kept. *)
Theorem busy_is_watched es w :
  let s := on_events es new_world in
  loading (job w s) = true -> watched s w /\ is_Some (controller (job w s)).
Proof.
  intros s Hl. assert (H : page_ok s).
  { unfold s, on_events. generalize new_world_ok. generalize new_world. clear. induction es as [|e es IH]; intros s H; [done|].
    apply IH. by apply job_event_ok. }
  split; [by apply H|by apply (ok_controller s H)].
Qed.

(** ** A job from its start to its end *)

Definition status_of (a : answer) : option str := (fun v => text_field v "status") <$> body_of a.
Definition count_of (a : answer) : num :=
  match body_of a with Some v => let n := num_field v "results_count" in if truthy_num n then n else nzero | None => nzero end.

(** One round of polling. *)
Definition round (i : nat) (a : answer) : list event := [Elapsed i; Answered 0 a].

(** A page on which nothing is under way. *)
Record idle (s : World) (w : which) : Prop := {
  idle_mounted : mounted s = true;
  idle_calls : calls s = [];
  idle_timers : timers s = [];
  idle_enabled : enabled w s = true;
  idle_loading : loading (job w s) = false;
}.

(** The page while the job is polled: [s0] is the page when it was started. *)
Record polled (s0 : World) (w : which) (i : nat) (s : World) : Prop := {
  polled_calls : calls s = [];
  polled_timers : timers s = [MkTimer i w (job w s0)];
  polled_toasts : toasts s = toasts s0 ++ [started w (selectedCount (job w s0))];
  polled_refresh : refresh s = refresh s0;
}.

Lemma started_polled s w code text b health_answer : idle s w -> status_of health_answer = Some (js "ok") ->
  (made s ∉ aborted s) ->
  polled s w (S (made s)) (on_events [Press w; Answered 0 health_answer; Answered 0 (Response true code text b)] s).
Proof.
  intros [H1 H2 H3 H4 H5] Hh Ha. unfold on_events. cbn [foldl on_event]. rewrite H1. unfold press. rewrite H4, H5.
  unfold fire. cbn [await calls set_calls]. rewrite H2. cbn [app lookup list_lookup delete list_delete on_answer].
  unfold checkHealth. unfold status_of in Hh. destruct (body_of health_answer) as [v|]; [|done]. injection Hh as Hh. rewrite Hh.
  rewrite bool_decide_true by done.
  destruct w; cbn -[bool_decide]; unfold fire_started; cbn -[bool_decide]; (rewrite bool_decide_false by done); constructor; cbn; by rewrite ?H3.
Qed.

Lemma status_none w seen a s : (checkStatus w seen a s).2 = status_of a.
Proof. unfold checkStatus, status_of. destruct (body_of a) as [v|]; [|done]. by repeat case_match. Qed.

Lemma round_polled s0 w i a s : polled s0 w i s -> status_of a <> Some is_stopped -> status_of a <> Some (js "error") ->
  polled s0 w i (on_events (round i a) s).
Proof.
  intros [H1 H2 H3 H4] Hs He. unfold on_events, round. cbn [foldl on_event]. rewrite H2. cbn [list_find tm_id].
  rewrite decide_True by done. cbn [await calls set_calls]. rewrite H1. cbn [app lookup list_lookup delete list_delete on_answer].
  unfold on_tick. cbn [tm_job tm_seen tm_id]. set (s1 := set_calls [] _).
  destruct (checkStatus_frame w (job w s0) a s1) as (M & T & C & _). pose proof (status_none w (job w s0) a s1) as S.
  assert (X : toasts (checkStatus w (job w s0) a s1).1 = toasts s1 /\ refresh (checkStatus w (job w s0) a s1).1 = refresh s1).
  { unfold checkStatus. destruct (body_of a); cbn [fst]; [repeat case_match|]; by destruct w. }
  destruct (checkStatus _ _ _ _) as [s2 st]. cbn in *. subst st. rewrite !bool_decide_false by done.
  destruct X as [X1 X2]. constructor; [by rewrite C|by rewrite T|by rewrite X1|by rewrite X2].
Qed.

Lemma rounds_polled s0 w i answers s : polled s0 w i s ->
  Forall (fun a => status_of a <> Some is_stopped /\ status_of a <> Some (js "error")) answers ->
  polled s0 w i (on_events (concat (round i <$> answers)) s).
Proof.
  intros H Ha. revert s H. induction Ha as [|a l [H1 H2] _ IH]; intros s H; [done|].
  cbn [fmap list_fmap concat]. unfold on_events. rewrite foldl_app. apply IH. by apply round_polled.
Qed.

(** C21: A job that is started on a healthy service is followed to its end: however
    long it runs and however many status requests fail, once the service says
    that it has stopped the page is ready again, shows the final status and
    count, has no timer left and fetches the profile anew.  The count that is
    announced is the one from before the job was started. *)
Theorem job_completes s w code text b health_answer answers last :
  idle s w -> status_of health_answer = Some (js "ok") -> (made s ∉ aborted s) ->
  Forall (fun a => status_of a <> Some is_stopped /\ status_of a <> Some (js "error")) answers -> status_of last = Some is_stopped ->
  let s' := on_events ([Press w; Answered 0 health_answer; Answered 0 (Response true code text b)]
                       ++ concat (round (S (made s)) <$> answers) ++ round (S (made s)) last) s in
  job w s' = MkJob false is_stopped (of_Z 100) (count_of last) (selectedCount (job w s')) None None /\
  timers s' = [] /\ calls s' = [] /\ refresh s' = negb (refresh s) /\
  toasts s' = toasts s ++ [started w (selectedCount (job w s)); completed w (resultCount (job w s))].
Proof.
  intros Hi Hh Hb Ha Hl s'. unfold s', on_events. rewrite !foldl_app.
  pose proof (rounds_polled s w (S (made s)) answers _ (started_polled s w code text b health_answer Hi Hh Hb) Ha) as [H1 H2 H3 H4].
  unfold on_events in *. set (s1 := foldl _ _ (concat _)) in *. cbn [round foldl on_event]. rewrite H2. cbn [list_find tm_id].
  rewrite decide_True by done. cbn [await calls set_calls]. rewrite H1. cbn [app lookup list_lookup delete list_delete on_answer].
  unfold on_tick. cbn [tm_job tm_seen tm_id]. unfold checkStatus, status_of, count_of in *.
  destruct (body_of last) as [v|]; [|done]. injection Hl as Hl. rewrite Hl.
  rewrite (bool_decide_false (is_stopped = running)), (bool_decide_true (is_stopped = is_stopped)) by done. cbn [andb].
  rewrite bool_decide_true by done.
  destruct w; cbn; rewrite ?H2, ?H3, ?H4; cbn; rewrite ?Nat.eqb_refl; cbn; by rewrite <- ?app_assoc.
Qed.

(** While the service says that a job runs, the button that aborts it is
    disabled. *)
Lemma running_not_aborted s w : status (job w s) = running -> on_event (Press w) s = s.
Proof.
  intros E. cbn. unfold press, enabled. rewrite E, (bool_decide_true (running = running)) by done. rewrite andb_false_r.
  by destruct (mounted s).
Qed.

(** The page that is left keeps polling. *)
Lemma unmount_keeps_timers s : timers (on_event Unmount s) = timers s.
Proof. done. Qed.
End texts.

(** ** Profiles *)

Abbreviation params := (jsmap str str).

(** A request for a profile: the client, the start and the end. *)
Record request := MkRequest { r_query : str; r_from : str; r_until : str }.

#[global] Instance request_eq_dec : EqDecision request.
Proof. solve_decision. Defined.

(** The state of the graph.  [first] are the parameters of the URL at the first
    render, [shown] is the request whose profile is shown. *)
Record Graph := MkGraph {
  clientName : str;
  viewType : str;
  interval : str;
  searchQuery : str;
  url : params;
  first : params;
  p_from : str;
  p_until : str;
  shown : option request;
  g_error : str;
  g_loading : bool;
  fetches : list request;
}.

Definition param (p : params) (key : string) (d : string) : str := str_or (map_get p (js key)) (js d).

(** The request of the effect. *)
Definition fetch_request (g : Graph) : request :=
  match p_from g, p_until g with
  | _ :: _, _ :: _ => MkRequest (clientName g) (p_from g) (p_until g)
  | _, _ => MkRequest (clientName g) (interval g) (js "now")
  end.

Definition fetchData (g : Graph) : Graph :=
  MkGraph (clientName g) (viewType g) (interval g) (searchQuery g) (url g) (first g) (p_from g) (p_until g) (shown g) (g_error g)
    true (fetches g ++ [fetch_request g]).

(** The page at a URL: the settings it has, and the first fetch. *)
Definition opened (p : params) (from until : str) : Graph :=
  fetchData (MkGraph (js "cpp_client_1") (param p "viewType" "both") (param p "interval" "now-5m") (param p "searchQuery" "") p p
               from until None [] false []).

(** [updateURLParams] of a render that saw the parameters [p] *)
Definition updateURLParams (p : params) (key value : str) : params :=
  match trim value with [] => map_delete p key | _ => map_set p key value end.

Definition set_url (p : params) (g : Graph) : Graph :=
  MkGraph (clientName g) (viewType g) (interval g) (searchQuery g) p (first g) (p_from g) (p_until g) (shown g) (g_error g) (g_loading g) (fetches g).

Definition handleFlamegraphTypeChange (value : str) (g : Graph) : Graph :=
  set_url (updateURLParams (url g) (js "viewType") value)
    (MkGraph (clientName g) value (interval g) (searchQuery g) (url g) (first g) (p_from g) (p_until g) (shown g) (g_error g) (g_loading g) (fetches g)).

Definition with_interval (value : str) (g : Graph) : Graph :=
  MkGraph (clientName g) (viewType g) value (searchQuery g) (url g) (first g) (p_from g) (p_until g) (shown g) (g_error g) (g_loading g) (fetches g).

(** The effect fetches the profile when the value is a new one. *)
Definition handleFlamegraphIntervalChange (value : str) (g : Graph) : Graph :=
  let g' := set_url (updateURLParams (url g) (js "interval") value) (with_interval value g) in
  if bool_decide (value = interval g) then g' else fetchData g'.

Definition handleClientNameChange (value : str) (g : Graph) : Graph :=
  let g' := MkGraph value (viewType g) (interval g) (searchQuery g) (url g) (first g) (p_from g) (p_until g) (shown g) (g_error g) (g_loading g) (fetches g) in
  if bool_decide (value = clientName g) then g' else fetchData g'.

(** [onQueryChange]: the function of the first render *)
Definition onQueryChange (value : str) (g : Graph) : Graph :=
  set_url (updateURLParams (first g) (js "searchQuery") value) g.

(** An answer of the service: an error, or a profile, which may carry one. *)
Definition answered (k : nat) (a : result (option str)) (g : Graph) : Graph :=
  match fetches g !! k with
  | None => g
  | Some r =>
      let done sh e := MkGraph (clientName g) (viewType g) (interval g) (searchQuery g) (url g) (first g) (p_from g) (p_until g) sh e
                         false (delete k (fetches g)) in
      match a with
      | Throw m => done (shown g) m
      | Ok (Some (c :: m)) => done (shown g) (c :: m)
      | Ok _ => done (Some r) (g_error g)
      end
  end.

(** The request for an explanation. *)
Definition explainFlamegraph (g : Graph) : request :=
  MkRequest (clientName g) (str_or (Some (p_from g)) (interval g)) (str_or (Some (p_until g)) (js "now")).

(** An explanation is asked for the profile that the page asks for, when both
    ends of a range are given or neither. *)
Lemma explained_profile g : (p_from g = [] <-> p_until g = []) -> explainFlamegraph g = fetch_request g.
Proof.
  intros [H1 H2]. unfold explainFlamegraph, fetch_request.
  destruct (p_from g); [by rewrite (H1 eq_refl)|]. destruct (p_until g); [by specialize (H2 eq_refl)|done].
Qed.

(** When the answers come in the order of the requests the last one is shown,
    as many as there were. *)
Theorem answers_in_order g r : last (fetches g) = Some r ->
  let g' := Nat.iter (length (fetches g)) (answered 0 (Ok None)) g in
  shown g' = Some r /\ fetches g' = [] /\ g_loading g' = false /\ url g' = url g.
Proof.
  remember (length (fetches g)) as n eqn:Hn. revert g Hn. induction n as [|n IH]; intros g Hn E; [by destruct (fetches g)|].
  destruct (fetches g) as [|q rest] eqn:Eg; [done|]. rewrite Nat.iter_succ_r.
  assert (A : fetches (answered 0 (Ok None) g) = rest /\ shown (answered 0 (Ok None) g) = Some q /\
              g_loading (answered 0 (Ok None) g) = false /\ url (answered 0 (Ok None) g) = url g)
    by (unfold answered; by rewrite Eg).
  destruct A as (A1 & A2 & A3 & A4). destruct rest as [|q' rest].
  - injection E as ->. cbn in Hn. replace n with 0 by lia. done.
  - destruct (IH (answered 0 (Ok None) g)) as (B1 & B2 & B3 & B4); [rewrite A1; by injection Hn|by rewrite A1|].
    by rewrite <- A4.
Qed.

(** The settings are kept in the URL: the page opened at it again has the
    interval that was chosen. *)
Theorem interval_restored g value from until : trim value <> [] ->
  interval (opened (url (handleFlamegraphIntervalChange value g)) from until) = value.
Proof.
  intros H. assert (E : url (handleFlamegraphIntervalChange value g) = map_set (url g) (js "interval") value).
  { unfold handleFlamegraphIntervalChange, updateURLParams. destruct (trim value); [done|]. by case_bool_decide. }
  rewrite E. cbn. unfold param. rewrite map_get_set_eq. cbn. by destruct value.
Qed.

(** A search after that forgets it: the function of the first render writes
    the parameters of the first render. *)
Theorem search_forgets_interval p from until value text : map_get p (js "interval") = None ->
  let g := onQueryChange text (handleFlamegraphIntervalChange value (opened p from until)) in
  interval (opened (url g) from until) = js "now-5m".
Proof.
  intros H g. assert (E : url g = updateURLParams p (js "searchQuery") text).
  { unfold g, handleFlamegraphIntervalChange. by case_bool_decide. }
  rewrite E. cbn. unfold param, updateURLParams. destruct (trim text); [rewrite map_get_delete_ne by done|rewrite map_get_set_ne by done]; by rewrite H.
Qed.

(** ** Examples *)

Definition ok_health : answer := Response true 200 (js "OK") (Some (JObj [(js "status", JStr (js "ok"))])).
Definition said (st : string) : answer := Response true 200 (js "OK") (Some (JObj [(js "status", JStr (js st)); (js "results_count", JNum (of_Z 7))])).
Definition healthy_page : World := on_events (fun _ => js "n") [Answered 0 ok_health; Answered 0 (said "stopped")] new_world.

Lemma busy_is_watched_witness :
  let s := on_events (fun _ => js "n") [Answered 0 ok_health; Answered 0 (said "stopped"); Press SetJob; Answered 0 ok_health] new_world in
  watched s SetJob /\ is_Some (controller (job SetJob s)).
Proof. apply (busy_is_watched (fun _ => js "n") _ SetJob). vm_compute. reflexivity. Defined.

Lemma job_completes_witness :
  let s' := on_events (fun _ => js "n") ([Press SetJob; Answered 0 ok_health; Answered 0 (Response true 200 (js "OK") None)]
              ++ concat (round (S (made healthy_page)) <$> [said "running"; NetworkError (js "down")]) ++ round (S (made healthy_page)) (said "stopped"))
              healthy_page in
  timers s' = [] /\ loading (job SetJob s') = false.
Proof.
  intros s'. destruct (job_completes (fun _ => js "n") healthy_page SetJob 200 (js "OK") None ok_health [said "running"; NetworkError (js "down")] (said "stopped"))
    as (E1 & E2 & _); [constructor; reflexivity|reflexivity|apply not_elem_of_nil|repeat constructor; vm_compute; congruence|reflexivity|].
  split; [exact E2|]. unfold s'. rewrite E1. reflexivity.
Defined.

(** Two clicks before the service says that it is healthy start two jobs; the
    interval of the first stays when the button aborts. *)
Example pressed_twice :
  let s := on_events (fun _ => js "n") [Press SetJob; Press SetJob; Answered 0 ok_health; Answered 0 ok_health;
             Answered 0 (Response true 200 (js "OK") None); Answered 0 (Response true 200 (js "OK") None); Press SetJob] healthy_page in
  loading (set_job s) = false /\ polling (set_job s) = None /\ length (timers s) = 1.
Proof. vm_compute. auto. Qed.

(** An answer that is late replaces the profile of the current settings. *)
Example late_profile_shown :
  let g := answered 0 (Ok None) (answered 1 (Ok None) (handleFlamegraphIntervalChange (js "now-1h") (opened [] [] []))) in
  r_from <$> shown g = Some (js "now-5m") /\ interval g = js "now-1h".
Proof. vm_compute. auto. Qed.

Lemma interval_restored_witness :
  interval (opened (url (handleFlamegraphIntervalChange (js "now-1h") (opened [] [] []))) [] []) = js "now-1h".
Proof. apply (interval_restored (opened [] [] []) (js "now-1h") [] []). vm_compute. congruence. Defined.

Lemma search_forgets_interval_witness :
  interval (opened (url (onQueryChange (js "SetValue") (handleFlamegraphIntervalChange (js "now-1h") (opened [] [] [])))) [] []) = js "now-5m".
Proof. apply (search_forgets_interval [] [] [] (js "now-1h") (js "SetValue")). reflexivity. Defined.

Lemma answers_in_order_witness :
  let g := handleFlamegraphIntervalChange (js "now-1h") (opened [] [] []) in
  shown (Nat.iter 2 (answered 0 (Ok None)) g) = Some (fetch_request g).
Proof. apply (answers_in_order (handleFlamegraphIntervalChange (js "now-1h") (opened [] [] []))). vm_compute. reflexivity. Defined.
