(* ===== verification/ResLensCharts.v ===== *)
(** * The mode, the charts and the table of the ResLens dashboard

    src/ecosystem/monitoring/reslens/src: contexts/ModeContext.tsx (which
    middleware the dashboard talks to), components/graphs/lineGraph.tsx (the
    chart of the processor's load), components/graphs/TransactionChart.tsx (the
    chart of the transactions), components/graphs/table.tsx (the table of the
    blocks) and [formatSeconds] of lib/utils.ts.

    Values and times of a chart are rational numbers: what the code does with
    them, [Math.floor], [Math.ceil] and adding 1, is exact for numbers of the
    size that occurs; NaN is left out.  What is drawn is left out. *)

From Stdlib Require Import QArith Qround.
From S2P Require Import Prelude JsString JsArray.

Open Scope nat_scope.

(** ** The mode *)

Module Mode.
Inductive ModeType := development | prod.

#[global] Instance mode_eq_dec : EqDecision ModeType.
Proof. solve_decision. Defined.

Record ModeContext := MkMode {
  mode : ModeType;
  isLoading : bool;
  currentInstance : str;
  error : option str;
  refreshTrigger : nat;
}.

Definition Development : str := js "development".
Definition Production : str := js "production".
#[local] Arguments Development : simpl never.
#[local] Arguments Production : simpl never.

Definition initial : ModeContext := MkMode development true Development None 0.

Inductive api := middlewareApi | middlewareSecondaryApi.

Definition selectedApi (s : ModeContext) : api := match mode s with development => middlewareSecondaryApi | prod => middlewareApi end.

Definition setMode (m : ModeType) (s : ModeContext) : ModeContext := MkMode m (isLoading s) (currentInstance s) (error s) (refreshTrigger s).
Definition setInstance (i : str) (s : ModeContext) : ModeContext := MkMode (mode s) (isLoading s) i (error s) (refreshTrigger s).
Definition setError (e : option str) (s : ModeContext) : ModeContext := MkMode (mode s) (isLoading s) (currentInstance s) e (refreshTrigger s).
Definition setIsLoading (b : bool) (s : ModeContext) : ModeContext := MkMode (mode s) b (currentInstance s) (error s) (refreshTrigger s).

Definition invalid (i : str) : str := js "Invalid instance: " ++ i ++ js ". Only 'development' and 'production' are allowed.".

(** [health] answers the status of the health check of a middleware. *)
Definition checkMode (health : api -> result Z) (instance : option str) (s : ModeContext) : ModeContext :=
  let s := setError None (setIsLoading true s) in
  let targetInstance := match instance with Some (c :: i) => c :: i | _ => Development end in
  if negb (bool_decide (targetInstance ∈ [Development; Production])) then
    setIsLoading false (setMode development (setError (Some (invalid targetInstance)) s))
  else
    let desiredMode := if bool_decide (targetInstance = Development) then development else prod in
    setIsLoading false
      (if bool_decide (currentInstance s = targetInstance) && bool_decide (mode s = desiredMode) then s
       else
         match health (if bool_decide (targetInstance = Development) then middlewareSecondaryApi else middlewareApi) with
         | Ok code =>
             if (code =? 200)%Z then setInstance targetInstance (setMode desiredMode s)
             else setMode (match desiredMode with prod => development | development => prod end) s
         | Throw _ => setMode development s
         end).

(** The answer of the health check is only logged. *)
Definition handleModeChange (newMode : ModeType) (s : ModeContext) : ModeContext :=
  MkMode newMode false (match newMode with development => Development | prod => Production end) None (S (refreshTrigger s)).

Inductive event := CheckMode (health : api -> result Z) (instance : option str) | ChangeMode (m : ModeType).

Definition on_event (s : ModeContext) (e : event) : ModeContext :=
  match e with CheckMode h i => checkMode h i s | ChangeMode m => handleModeChange m s end.

Definition mode_ok (s : ModeContext) : Prop :=
  currentInstance s ∈ [Development; Production] /\ (mode s = prod -> currentInstance s = Production).

Lemma checkMode_ok health instance s : mode_ok s -> mode_ok (checkMode health instance s) /\ isLoading (checkMode health instance s) = false.
Proof.
  unfold mode_ok. intros [Hi H]. unfold checkMode. set (target := match instance with Some (c :: i) => c :: i | _ => Development end).
  destruct (bool_decide_reflect (target ∈ [Development; Production])) as [Hv|Hv]; cbn -[bool_decide]; [|done].
  assert (target = Development \/ target = Production) as [E|E] by set_solver; rewrite E.
  - rewrite (bool_decide_true (Development = Development)) by done.
    destruct (bool_decide_reflect (currentInstance s = Development)) as [Hc|Hc]; cbn -[bool_decide].
    + destruct (mode s) eqn:Em; [|rewrite H in Hc by done; done]. rewrite bool_decide_true by done. cbn. by rewrite Em.
    + assert (currentInstance s = Production) as Hp by set_solver. destruct (health _) as [code|]; [|done].
      destruct (code =? 200)%Z; cbn; rewrite ?Hp; (split; [|done]); (split; [set_solver|done]).
  - rewrite (bool_decide_false (Production = Development)) by done.
    destruct (bool_decide (currentInstance s = Production) && _); [done|].
    destruct (health _) as [code|]; [|done]. destruct (code =? 200)%Z; cbn; [|done]. split; [|done]. split; [set_solver|done].
Qed.

(** Production data is shown as such only: whatever checks and changes there
    were, the production middleware is the one that is asked exactly in
    production mode, and then the instance is the production one; no check
    leaves the dashboard loading. *)
Theorem mode_instance es (s := foldl on_event initial es) :
  (selectedApi s = middlewareApi <-> mode s = prod) /\ (mode s = prod -> currentInstance s = Production) /\
  (es <> [] -> isLoading s = false).
Proof.
  assert (H : mode_ok s /\ (es <> [] -> isLoading s = false)).
  { unfold s. induction es as [|e es IH] using rev_ind; [by split; [split; [set_solver|]|]|].
    rewrite foldl_app. cbn. destruct IH as [IH _]. destruct e as [h i|m]; cbn.
    - by destruct (checkMode_ok h i _ IH).
    - destruct m; (split; [|done]); (split; [set_solver|done]). }
  destruct H as [[_ H1] H2]. split; [|done]. unfold selectedApi. by destruct (mode s).
Qed.
End Mode.

(** ** Charts *)

Module Chart.
(** A point of a chart. *)
Record Point := MkPoint { at_time : Q; value : Q }.

Definition qmax (a b : Q) : Q := if Qle_bool a b then b else a.
Definition qmin (a b : Q) : Q := if Qle_bool a b then a else b.

Definition in_range (left right : Q) (p : Point) : bool := Qle_bool left (at_time p) && Qle_bool (at_time p) right.

(** The loop of [getAxisYDomain] *)
Definition extremes (p : Point) (l : list Point) : Q * Q :=
  foldl (fun '(bottom, top) d =>
           let top := if Qle_bool (value d) top then top else value d in
           let bottom := if Qle_bool bottom (value d) then bottom else value d in (bottom, top))
    (value p, value p) l.

Definition hundred : Q := inject_Z 100.

(** [getAxisYDomain] of the chart of the transactions *)
Definition volumeDomain (data : list Point) (left right offset : Q) : Q * Q :=
  match filterb (in_range left right) data with
  | [] => (0%Q, hundred)
  | p :: l => let '(bottom, top) := extremes p (p :: l) in
              ((inject_Z (Qfloor bottom) - offset)%Q, (inject_Z (Qceiling top) + offset)%Q)
  end.

(** [getAxisYDomain] of the chart of the load: a percentage *)
Definition getAxisYDomain (data : list Point) (left right offset : Q) : Q * Q :=
  match filterb (in_range left right) data with
  | [] => (0%Q, hundred)
  | p :: l => let '(bottom, top) := extremes p (p :: l) in
              (qmax 0 (inject_Z (Qfloor bottom) - offset), qmin hundred (inject_Z (Qceiling top) + offset))
  end.

(** *** The chart of the load *)

Record Load := MkLoad {
  data : list Point;
  loading : bool;
  error : str;
  left : Q;
  right : Q;
  bottom : Q;
  top : Q;
  refAreaLeft : option Q;
  refAreaRight : option Q;
  date : option (Q * Q);
}.

(** What the middleware answers: the points, an error, or neither. *)
Inductive reply := Points (l : list Point) | Failed (m : str) | NoData.

Definition no_points : str := js "No CPU usage data available for the selected time range".

(** The request that failed, with the message of the error. *)
Definition load_failed (m : str) (c : Load) : Load :=
  MkLoad (data c) false m (left c) (right c) (bottom c) (top c) (refAreaLeft c) (refAreaRight c) (date c).

Definition show_all (c : Load) (p : Point) (l : list Point) : Load :=
  let last := List.last l p in
  let '(b, t) := getAxisYDomain (p :: l) (at_time p) (at_time last) 1 in
  MkLoad (p :: l) false (error c) (at_time p) (at_time last) b t (refAreaLeft c) (refAreaRight c) (date c).

Definition fetchData (answer : result reply) (c : Load) : Load :=
  match answer with
  | Ok (Points []) => load_failed no_points c
  | Ok (Points (p :: l)) => show_all c p l
  | Ok (Failed m) => load_failed m c
  | Ok NoData => load_failed (js "Cannot read properties of undefined (reading 'map')") c
  | Throw m => load_failed m c
  end.

Definition clear_area (c : Load) : Load :=
  MkLoad (data c) (loading c) (error c) (left c) (right c) (bottom c) (top c) None None (date c).

Definition zoom (c : Load) : Load :=
  match refAreaLeft c, refAreaRight c with
  | Some a, Some b =>
      if Qeq_bool a b then clear_area c
      else
        let newLeft := qmin a b in
        let newRight := qmax a b in
        let '(newBottom, newTop) := getAxisYDomain (data c) newLeft newRight 1 in
        MkLoad (data c) (loading c) (error c) newLeft newRight newBottom newTop None None (Some (newLeft, newRight))
  | _, _ => clear_area c
  end.

(** [None]: the first point of an empty chart cannot be read.  The range of the
    profile is the default one again. *)
Definition zoomOut (c : Load) : option Load :=
  match data c with
  | [] => None
  | p :: l =>
      let last := List.last l p in
      let '(newBottom, newTop) := getAxisYDomain (data c) (at_time p) (at_time last) 1 in
      Some (MkLoad (data c) (loading c) (error c) (at_time p) (at_time last) newBottom newTop None None None)
  end.

(** *** What is shown *)

Lemma qle_true a b : Qle_bool a b = true <-> (a <= b)%Q.
Proof. apply Qle_bool_iff. Qed.

Lemma qle_false a b : Qle_bool a b = false -> (b <= a)%Q.
Proof. intros H. apply Qlt_le_weak, Qnot_le_lt. rewrite <- qle_true. by rewrite H. Qed.

Lemma extremes_bound p l x : x ∈ l \/ x = p -> ((extremes p l).1 <= value x)%Q /\ (value x <= (extremes p l).2)%Q.
Proof.
  unfold extremes.
  assert (G : forall b t l, (forall y, (b <= y)%Q /\ (y <= t)%Q \/ (exists d, d ∈ l /\ value d = y) ->
    let r := foldl (fun '(bottom, top) d =>
           let top := if Qle_bool (value d) top then top else value d in
           let bottom := if Qle_bool bottom (value d) then bottom else value d in (bottom, top)) (b, t) l in
    (r.1 <= y)%Q /\ (y <= r.2)%Q)).
  { intros b t l'. revert b t. induction l' as [|d l' IH]; intros b t y H; cbn.
    - destruct H as [H|(? & ? & _)]; [done|set_solver].
    - apply IH. destruct H as [[H1 H2]|(e & He & <-)].
      + left. split; [destruct (Qle_bool b (value d)) eqn:E|destruct (Qle_bool (value d) t) eqn:E]; try done.
        * apply qle_false in E. by eapply Qle_trans.
        * apply qle_false in E. by eapply Qle_trans.
      + apply elem_of_cons in He as [->|He]; [left|right; eauto].
        split; [destruct (Qle_bool b (value d)) eqn:E|destruct (Qle_bool (value d) t) eqn:E]; try apply Qle_refl; by apply qle_true. }
  intros H. apply G. destruct H as [H| ->]; [right; eauto|left; split; apply Qle_refl].
Qed.

Lemma floor_less q : (inject_Z (Qfloor q) - 1 <= q)%Q.
Proof. eapply Qle_trans; [|apply Qfloor_le]. rewrite <- (Qplus_0_r (inject_Z _)) at 2. apply Qplus_le_r. done. Qed.

Lemma ceiling_more q : (q <= inject_Z (Qceiling q) + 1)%Q.
Proof. eapply Qle_trans; [apply Qle_ceiling|]. rewrite <- (Qplus_0_r (inject_Z _)) at 1. apply Qplus_le_r. done. Qed.

(** Every point of the range lies between the ends of the axis. *)
Lemma volumeDomain_fits l left right x : x ∈ l -> in_range left right x = true ->
  let '(b, t) := volumeDomain l left right 1 in (b <= value x)%Q /\ (value x <= t)%Q.
Proof.
  intros Hx Hr. unfold volumeDomain. assert (Hin : x ∈ filterb (in_range left right) l) by (by apply elem_of_filterb).
  destruct (filterb _ l) as [|p r]; [set_solver|].
  pose proof (extremes_bound p (p :: r) x (or_introl Hin)) as [H1 H2]. destruct (extremes p (p :: r)) as [b t]. cbn in *.
  split; [eapply Qle_trans; [apply floor_less|done]|eapply Qle_trans; [done|apply ceiling_more]].
Qed.

Lemma qmax_le a b c : (a <= c)%Q -> (b <= c)%Q -> (qmax a b <= c)%Q.
Proof. intros. unfold qmax. by destruct (Qle_bool a b). Qed.

Lemma qmin_ge a b c : (c <= a)%Q -> (c <= b)%Q -> (c <= qmin a b)%Q.
Proof. intros. unfold qmin. by destruct (Qle_bool a b). Qed.

Lemma axis_fits l left right x : x ∈ l -> in_range left right x = true -> (0 <= value x)%Q -> (value x <= hundred)%Q ->
  let '(b, t) := getAxisYDomain l left right 1 in (b <= value x)%Q /\ (value x <= t)%Q.
Proof.
  intros Hx Hr H0 H1. pose proof (volumeDomain_fits l left right x Hx Hr) as H. unfold volumeDomain, getAxisYDomain in *.
  destruct (filterb _ l) as [|p r]; [done|]. destruct (extremes p (p :: r)) as [b t]. cbn in *. destruct H.
  split; [by apply qmax_le|by apply qmin_ge].
Qed.

(** Zooming shows what was selected: of a percentage every point between the
    ends of the selection, whichever way it was drawn, lies inside of the
    axes, the profile is asked for the same range, and the selection is
    gone. *)
Theorem zoom_shows_selection c a b x :
  refAreaLeft c = Some a -> refAreaRight c = Some b -> Qeq_bool a b = false -> x ∈ data c ->
  (qmin a b <= at_time x)%Q -> (at_time x <= qmax a b)%Q -> (0 <= value x)%Q -> (value x <= hundred)%Q ->
  let c' := zoom c in
  (left c' <= at_time x)%Q /\ (at_time x <= right c')%Q /\ (bottom c' <= value x)%Q /\ (value x <= top c')%Q /\
  date c' = Some (left c', right c') /\ refAreaLeft c' = None /\ refAreaRight c' = None /\ data c' = data c.
Proof.
  intros Ha Hb Hab Hx H1 H2 H3 H4. unfold zoom. rewrite Ha, Hb, Hab.
  assert (Hr : in_range (qmin a b) (qmax a b) x = true) by (unfold in_range; apply andb_true_iff; split; by apply qle_true).
  pose proof (axis_fits (data c) (qmin a b) (qmax a b) x Hx Hr H3 H4) as F. destruct (getAxisYDomain _ _ _ _) as [nb nt]. cbn.
  destruct F. repeat split; done.
Qed.

(** Zooming out shows what was shown when the data came, after any zooming. *)
Theorem zoom_out_restores c p l zs :
  let shown := fetchData (Ok (Points (p :: l))) c in
  let select ab c := MkLoad (data c) (loading c) (error c) (left c) (right c) (bottom c) (top c) ab.1 ab.2 (date c) in
  let zoomed := foldl (fun c ab => zoom (select ab c)) shown zs in
  exists c', zoomOut zoomed = Some c' /\
    (data c', left c', right c', bottom c', top c') = (data shown, left shown, right shown, bottom shown, top shown).
Proof.
  intros shown select zoomed.
  assert (D : data zoomed = p :: l).
  { unfold zoomed. assert (E : data shown = p :: l) by (unfold shown, fetchData, show_all; by destruct (getAxisYDomain _ _ _ _)).
    revert E. generalize shown. induction zs as [|ab zs IH]; intros c0 E; [done|]. cbn. apply IH. rewrite <- E.
    unfold zoom, select, clear_area. cbn. destruct ab as [[a|] [b|]]; cbn; try done. case_match; [done|]. by destruct (getAxisYDomain _ _ _ _). }
  unfold zoomOut. rewrite D. unfold shown, fetchData, show_all. destruct (getAxisYDomain _ _ _ _) as [nb nt]. eauto.
Qed.
End Chart.

(** ** The chart of the transactions *)

Module Volume.
Import Chart.

(** The decoding of the chart: a second copy of the one of the middleware, for
    whole numbers. *)
Record Encoded := MkEncoded { startEpoch : Z; startVolume : Z; timeMultiplier : Z; epochs : list Z; volumes : list Z }.

Fixpoint decode_from (m : Z) (epoch volume : Z) (es vs : list Z) : list (Z * Z) :=
  match es, vs with
  | e :: es, v :: vs =>
      let currentEpoch := (epoch / m + e)%Z in
      let p := ((currentEpoch * m)%Z, (volume + v)%Z) in p :: decode_from m p.1 p.2 es vs
  | _, _ => []
  end.

Definition decodeDeltaEncoding (d : Encoded) : list (Z * Z) :=
  let first := ((startEpoch d * timeMultiplier d)%Z, startVolume d) in
  first :: decode_from (timeMultiplier d) first.1 first.2 (epochs d) (volumes d).

Record Axes := MkAxes { a_left : Q; a_right : Q; a_top : Q; a_bottom : Q }.

Record VolumeChart := MkVolume { chartData : list Point; axes : Axes; fullDomain : Axes; area : option Q * option Q }.

Section chart.
(** The library that thins out the points. *)
Context (downsample : list (Q * Q) -> nat -> list (Q * Q)).

Definition finalData (l : list (Z * Z)) : list Point :=
  (fun xy => MkPoint (xy.1 * inject_Z 1000) xy.2) <$> downsample ((fun d => ((inject_Z d.1 / inject_Z 1000)%Q, inject_Z d.2)) <$> l) 2000.

(** Nothing changes when the request or the decoding fails, or when nothing is
    left of the points. *)
Definition fetchTransactionHistory (answer : result Encoded) (c : VolumeChart) : VolumeChart :=
  match answer with
  | Throw _ => c
  | Ok d =>
      match finalData (decodeDeltaEncoding d) with
      | [] => c
      | p :: l =>
          let last := List.last l p in
          let '(b, t) := volumeDomain (p :: l) (at_time p) (at_time last) 1 in
          let full := MkAxes (at_time p) (at_time last) t b in
          MkVolume (p :: l) full full (area c)
      end
  end.

Definition zoom (c : VolumeChart) : VolumeChart :=
  match area c with
  | (Some a, Some b) =>
      if Qeq_bool a b then MkVolume (chartData c) (axes c) (fullDomain c) (None, None)
      else
        let newLeft := qmin a b in
        let newRight := qmax a b in
        let '(newBottom, newTop) := volumeDomain (chartData c) newLeft newRight 1 in
        MkVolume (chartData c) (MkAxes newLeft newRight newTop newBottom) (fullDomain c) (None, None)
  | _ => MkVolume (chartData c) (axes c) (fullDomain c) (None, None)
  end.

Definition zoomOut (c : VolumeChart) : VolumeChart := MkVolume (chartData c) (fullDomain c) (fullDomain c) (None, None).

(** The axis of times: microseconds are told from milliseconds by their
    size. *)
Definition axis_millis (epoch : Q) : Q := if Qle_bool epoch (inject_Z (10 ^ 15)) then epoch else (epoch / inject_Z 1000)%Q.
(** The label of a point takes them for milliseconds. *)
Definition label_millis (epoch : Q) : Q := epoch.

(** Every point of the range of times lies between the ends of the axis. *)
Definition fits (l : list Point) (a : Axes) : Prop := forall x, x ∈ l ->
  (a_left a <= at_time x)%Q -> (at_time x <= a_right a)%Q -> (a_bottom a <= value x)%Q /\ (value x <= a_top a)%Q.

Lemma domain_fits l left right b t : volumeDomain l left right 1 = (b, t) -> fits l (MkAxes left right t b).
Proof.
  intros E x Hx H1 H2. pose proof (volumeDomain_fits l left right x Hx) as H. rewrite E in H. apply H.
  unfold in_range. apply andb_true_iff. split; by apply qle_true.
Qed.

Definition chart_ok (c : VolumeChart) : Prop := fits (chartData c) (axes c) /\ fits (chartData c) (fullDomain c).

Lemma fetched_ok d c : finalData (decodeDeltaEncoding d) <> [] -> chart_ok (fetchTransactionHistory (Ok d) c) /\
  axes (fetchTransactionHistory (Ok d) c) = fullDomain (fetchTransactionHistory (Ok d) c).
Proof.
  intros Hne. unfold fetchTransactionHistory. destruct (finalData _) as [|p l]; [done|].
  destruct (volumeDomain _ _ _ _) as [b t] eqn:E. apply domain_fits in E. done.
Qed.

Lemma zoom_ok c : chart_ok c -> chart_ok (zoom c) /\ chartData (zoom c) = chartData c /\ fullDomain (zoom c) = fullDomain c.
Proof.
  intros [H1 H2]. unfold zoom. destruct (area c) as [[a|] [b|]]; try done. destruct (Qeq_bool a b); [done|].
  destruct (volumeDomain _ _ _ _) as [nb nt] eqn:E. apply domain_fits in E. done.
Qed.

(** However often the chart is zoomed, every transaction count of the range
    that is shown lies inside of the axes, and zooming out shows what was shown
    when the data came. *)
Theorem volume_fits d c sels :
  finalData (decodeDeltaEncoding d) <> [] ->
  let shown := fetchTransactionHistory (Ok d) c in
  let zoomed := foldl (fun c sel => zoom (MkVolume (chartData c) (axes c) (fullDomain c) sel)) shown sels in
  fits (chartData zoomed) (axes zoomed) /\ chartData zoomed = chartData shown /\ axes (zoomOut zoomed) = axes shown.
Proof.
  intros Hne shown zoomed. destruct (fetched_ok d c Hne) as [Hok Hax]. fold shown in Hok, Hax.
  assert (G : chart_ok zoomed /\ chartData zoomed = chartData shown /\ fullDomain zoomed = fullDomain shown).
  { unfold zoomed. clearbody shown. clear Hax zoomed. revert shown Hok. induction sels as [|sel sels IH]; intros c0 H; [done|]. cbn.
    destruct (zoom_ok (MkVolume (chartData c0) (axes c0) (fullDomain c0) sel) H) as (K1 & K2 & K3).
    destruct (IH _ K1) as (G1 & G2 & G3). cbn in K2, K3. by rewrite G2, G3, K2, K3. }
  destruct G as ([G1 _] & G2 & G3). split; [done|]. split; [done|]. cbn. by rewrite G3.
Qed.
End chart.
End Volume.

(** ** The table of the blocks *)

Module Table.
Open Scope Z_scope.

Record Paging := MkPaging { total : Z; pageIndex : Z; pageSize : Z }.

(** The first and the last block of a page, as they are asked for. *)
Definition start (p : Paging) : Z := pageIndex p * pageSize p + 1.
Definition page_end (p : Paging) : Z := Z.min (total p) (start p + pageSize p - 1).

(** [Math.ceil(total / pageSize)] *)
Definition totalPages (p : Paging) : Z := - (- total p / pageSize p).

Definition handlePageChange (newPageIndex : Z) (p : Paging) : Paging :=
  if (0 <=? newPageIndex) && (newPageIndex <? totalPages p) then MkPaging (total p) newPageIndex (pageSize p) else p.

Definition setPageSize (size : Z) (p : Paging) : Paging := MkPaging (total p) 0 size.

Definition visiblePages : Z := 5.
Definition startPage (p : Paging) : Z := Z.max 0 (Z.min (pageIndex p - visiblePages / 2) (totalPages p - visiblePages)).
Definition endPage (p : Paging) : Z := Z.min (startPage p + visiblePages) (totalPages p).

Definition pageSizes : list Z := [5; 10; 20; 50; 100; 200].

Inductive event := ChangePage (i : Z) | ChangeSize (n : Z).

Definition on_event (p : Paging) (e : event) : Paging :=
  match e with ChangePage i => handlePageChange i p | ChangeSize n => setPageSize n p end.

Definition opened (n : Z) : Paging := MkPaging n 0 10.

Lemma totalPages_bound p : 0 < pageSize p ->
  pageSize p * (totalPages p - 1) < total p <= pageSize p * totalPages p.
Proof. unfold totalPages. intros H. pose proof (Z.div_mod (- total p) (pageSize p)). pose proof (Z.mod_pos_bound (- total p) (pageSize p)). nia. Qed.

Definition paging_ok (n : Z) (p : Paging) : Prop := total p = n /\ 0 < pageSize p /\ 0 <= pageIndex p < totalPages p.

Lemma paging_event_ok n p e : 0 < n -> (forall k, e = ChangeSize k -> 0 < k) -> paging_ok n p -> paging_ok n (on_event p e).
Proof.
  intros Hn He (H1 & H2 & H3). destruct e as [i|k]; cbn.
  - unfold handlePageChange. destruct ((0 <=? i) && (i <? totalPages p)) eqn:E; [|done].
    apply andb_true_iff in E as [E1%Z.leb_le E2%Z.ltb_lt]. done.
  - pose proof (He k eq_refl). split; [done|]. split; [done|]. cbn. pose proof (totalPages_bound (setPageSize k p)) as B. cbn in B. nia.
Qed.

(** Every block can be reached and is on one page only: whatever pages and
    sizes were chosen, the page that is shown is one of the pages, its button
    is among the at most five that are offered, and each block has exactly one
    page on which it is asked for. *)
Theorem blocks_paged n es (p := foldl on_event (opened n) es) :
  0 < n -> Forall (fun e => forall k, e = ChangeSize k -> k ∈ pageSizes) es ->
  (0 <= pageIndex p < totalPages p) /\ (startPage p <= pageIndex p < endPage p) /\
  (0 <= startPage p /\ endPage p <= totalPages p /\ endPage p - startPage p <= 5) /\
  forall b, 1 <= b <= n ->
    exists i, 0 <= i < totalPages p /\
      (start (handlePageChange i p) <= b <= page_end (handlePageChange i p)) /\
      forall j, 0 <= j < totalPages p -> start (handlePageChange j p) <= b <= page_end (handlePageChange j p) -> j = i.
Proof.
  intros Hn Hes. assert (Hp : paging_ok n p).
  { unfold p. assert (H0 : paging_ok n (opened n)).
    { split; [done|]. split; [cbn; lia|]. pose proof (totalPages_bound (opened n)) as B. cbn in *. nia. }
    clear p. revert H0. generalize (opened n). induction Hes as [|e es He _ IH]; intros q Hq; [done|]. cbn. apply IH.
    apply paging_event_ok; [done| |done]. intros k E. pose proof (He k E). unfold pageSizes in *. set_solver by lia. }
  clearbody p. destruct Hp as (H1 & H2 & H3). split; [done|].
  assert (G : forall i, 0 <= i < totalPages p -> handlePageChange i p = MkPaging n i (pageSize p)).
  { intros i Hi. unfold handlePageChange. rewrite (proj2 (Z.leb_le 0 i)), (proj2 (Z.ltb_lt i _)) by lia. cbn. by rewrite H1. }
  split; [unfold startPage, endPage, startPage, visiblePages; change (5 / 2) with 2; lia|].
  split; [unfold startPage, endPage, startPage, visiblePages; change (5 / 2) with 2; lia|].
  intros b Hb. pose proof (totalPages_bound p H2) as B. set (s := pageSize p) in *. exists ((b - 1) / s).
  pose proof (Z.div_mod (b - 1) s ltac:(lia)) as D. pose proof (Z.mod_pos_bound (b - 1) s H2) as M.
  assert (0 <= (b - 1) / s < totalPages p) as Hi by nia. split; [done|]. rewrite G by done. unfold page_end, start. cbn. split; [nia|].
  intros j Hj. rewrite G by done. unfold page_end, start. cbn. nia.
Qed.
End Table.

(** ** formatSeconds *)

Section duration.
Open Scope Z_scope.

(** Whole milliseconds; [date] is what [new Date] makes of the argument. *)
Definition formatSeconds (now date : Z) : str :=
  let diffInSeconds := (now - date) / 1000 in
  let days := diffInSeconds / 86400 in
  let hours := Z.rem diffInSeconds 86400 / 3600 in
  let minutes := Z.rem diffInSeconds 3600 / 60 in
  let seconds := Z.rem diffInSeconds 60 in
  let part n unit := if (0 <? n) then str_of_Z n ++ js unit else [] in
  trim (part days "d " ++ part hours "h " ++ part minutes "m " ++ part seconds "s").

(** The age of the chain is a number of seconds, which [new Date] takes for
    milliseconds since 1970: a chain of an hour is shown as older than fifty
    years. *)
Example chain_age_misread : formatSeconds 1700000000000 3600 = js "19675d 22h 13m 16s".
Proof. vm_compute. reflexivity. Qed.
End duration.

(** ** Examples *)

(** A load above 100 percent, of several cores, is cut off. *)
Example load_cut_off :
  let p := Chart.MkPoint 0 (inject_Z 250) in
  (Chart.getAxisYDomain [p] 0 0 1).2 = Chart.hundred.
Proof. vm_compute. reflexivity. Qed.

(** The label of a point takes microseconds for milliseconds. *)
Example label_misread :
  let t := inject_Z 1700000000000000 in
  Volume.axis_millis t == inject_Z 1700000000000 /\ Volume.label_millis t = t.
Proof. vm_compute. auto. Qed.

Lemma mode_instance_witness :
  let s := foldl Mode.on_event Mode.initial [Mode.ChangeMode Mode.prod] in
  Mode.currentInstance s = Mode.Production.
Proof. apply (Mode.mode_instance [Mode.ChangeMode Mode.prod]). reflexivity. Defined.

Definition toy_chart : Chart.Load :=
  Chart.MkLoad [Chart.MkPoint 0 (inject_Z 5); Chart.MkPoint 1 (inject_Z 50)] false [] 0 1 0 0 (Some (inject_Z 2)) (Some 0%Q) None.

Lemma zoom_shows_selection_witness :
  let c' := Chart.zoom toy_chart in (Chart.bottom c' <= inject_Z 50)%Q /\ (inject_Z 50 <= Chart.top c')%Q.
Proof.
  destruct (Chart.zoom_shows_selection toy_chart (inject_Z 2) 0 (Chart.MkPoint 1 (inject_Z 50))) as (_ & _ & H1 & H2 & _);
    try reflexivity; try (vm_compute; congruence); [right; left|split; [exact H1|exact H2]].
Defined.

Lemma volume_fits_witness :
  let down l (_ : nat) := l in
  let shown := Volume.fetchTransactionHistory down (Ok (Volume.MkEncoded 1 5 1000000 [1%Z] [2%Z])) (Volume.MkVolume [] (Volume.MkAxes 0 0 0 0) (Volume.MkAxes 0 0 0 0) (None, None)) in
  Volume.axes (Volume.zoomOut (Volume.zoom shown)) = Volume.axes shown.
Proof.
  apply (Volume.volume_fits (fun l _ => l) (Volume.MkEncoded 1 5 1000000 [1%Z] [2%Z]) (Volume.MkVolume [] (Volume.MkAxes 0 0 0 0) (Volume.MkAxes 0 0 0 0) (None, None))
    [(None, None)]). vm_compute. congruence.
Defined.

Lemma blocks_paged_witness :
  let p := foldl Table.on_event (Table.opened 175) [Table.ChangePage 17; Table.ChangeSize 50; Table.ChangePage 3] in
  (Table.startPage p <= Table.pageIndex p < Table.endPage p)%Z.
Proof.
  apply (Table.blocks_paged 175 [Table.ChangePage 17; Table.ChangeSize 50; Table.ChangePage 3]); [lia|].
  constructor; [intros k [=]|]. constructor; [intros k [= <-]; unfold Table.pageSizes; set_solver|]. constructor; [intros k [=]|constructor].
Defined.
