(* ===== verification/NexusDocs.v ===== *)
(** * Documents of nexus: listing, serving, selecting, copying

    src/ecosystem/ai-tools/nexus/src: lib/google-drive.ts and
    app/api/research/documents/route.ts (listing the documents of the folders),
    hooks/useDocuments.ts (what the page makes of the list),
    app/api/research/files/[...path]/route.ts (serving a file of the server),
    components/ui/multi-document-selector.tsx (choosing documents) and the
    copying of code in app/research/components/code-generation-tab.tsx.

    Google Drive and the file system are parameters; [path.join] of Node.js is
    modelled for an absolute first part. *)

From S2P Require Import Prelude JsString JsArray Json ChatStream.

(** ** Paths *)

Definition slash : ascii := "/"%char.
Definition dotdot : str := js "..".

(** The parts of a path, with [.] and empty parts left out and [..] going up;
    [up] are the parts so far, the last one first. *)
Fixpoint resolve (up parts : list str) : list str :=
  match parts with
  | [] => rev up
  | p :: parts =>
      if bool_decide (p = []) || bool_decide (p = js ".") then resolve up parts
      else if bool_decide (p = dotdot) then resolve (tail up) parts
      else resolve (p :: up) parts
  end.

(** [path.join(cwd, filePath)] for an absolute [cwd]: [/] at the end is kept. *)
Definition path_of (parts : list str) : str := concat ((fun p => slash :: p) <$> parts).

Definition join_path (cwd filePath : str) : str :=
  let parts := resolve [] (split (cwd ++ slash :: filePath) [slash]) in
  match parts with
  | [] => [slash]
  | _ => path_of parts ++ (if endsWith filePath [slash] then [slash] else [])
  end.

(** ** Serving a file *)

Inductive reply := Denied | NotFound | Served (content : str) (contentType : str).

Definition content_type (extension : str) : str :=
  if bool_decide (extension = js "pdf") then js "application/pdf"
  else if bool_decide (extension = js "doc") then js "application/msword"
  else if bool_decide (extension = js "docx") then js "application/vnd.openxmlformats-officedocument.wordprocessingml.document"
  else if bool_decide (extension = js "ppt") then js "application/vnd.ms-powerpoint"
  else if bool_decide (extension = js "pptx") then js "application/vnd.openxmlformats-officedocument.presentationml.presentation"
  else js "application/octet-stream".

Section files.
Context (cwd : str) (readFile : str -> result str).

Definition GET (path : list str) : reply :=
  let filePath := join path [slash] in
  let fullPath := join_path cwd filePath in
  if startsWith filePath (js "documents/") then
    match readFile fullPath with
    | Throw _ => NotFound
    | Ok content => Served content (content_type (toLowerCase (List.last (split filePath (js ".")) [])))
    end
  else Denied.
End files.

(** ** Listing documents *)

Record DriveFile := MkDriveFile { f_id : str; f_name : str; f_webViewLink : str }.

(** An error of Google Drive: a code and a message, if it has them. *)
Record DriveError := MkDriveError { e_code : option Z; e_message : option str }.

Section drive.
(** [drive.files.list] for a query. *)
Context (files_list : str -> option (list DriveFile) + DriveError).

Definition folder_query (folderId : str) : str := js "'" ++ folderId ++ js "' in parents and trashed=false".

Definition pdf_query (folderId : str) : str :=
  js "'" ++ folderId ++ js "' in parents and trashed = false and mimeType='application/pdf'".

Definition auth_failed : str := js "Google authentication failed. Please regenerate your access and refresh tokens.".

(** The files of one folder; a failed authentication gets a message of its
    own. *)
Definition getFilesFromFolder (folderId : str) : option (list DriveFile) + DriveError :=
  match files_list (pdf_query folderId) with
  | inl files => inl files
  | inr e =>
      if bool_decide (e_code e = Some 401%Z) || (match e_message e with Some m => includes m (js "invalid_grant") | None => false end)
      then inr (MkDriveError None (Some auth_failed))
      else inr e
  end.

(** What is stored for a folder: a failure leaves it empty. *)
Definition folder_files (folderId : str) : list DriveFile :=
  match files_list (folder_query folderId) with inl (Some files) => files | _ => [] end.

(** The requests run at once: [order] is the order of their answers. *)
Definition getFilesFromMultipleFolders (order : list str) : jsmap str (list DriveFile) :=
  foldl (fun results folderId => map_set results folderId (folder_files folderId)) [] order.

Definition folderIds : list str := [js "16yvY-jnMOZ1hMGaMYk0oi86eBbCqCHR2"; js "1BKiGBrrrBMegCBUV1RlpkWBTktNPt4GL"].

Record Summary := MkSummary { totalFolders : nat; foldersProcessed : nat; totalFiles : nat }.

Definition documents_route (order : list str) : Summary * jsmap str (list DriveFile) :=
  let filesByFolder := getFilesFromMultipleFolders order in
  (MkSummary (length folderIds) (length (map_keys filesByFolder)) (sum_list (length <$> map_values filesByFolder)), filesByFolder).
End drive.

(** *** On the page *)

Definition drive_url (id : string) : str := js "https://drive.google.com/uc?export=download&id=" ++ js id.

Definition TITLE_MAPPINGS : jsmap str str :=
  [(drive_url "1Qjru0UY46IyIGnxtlVARjpQfMh3NLTmK", js "Viewstamped Replication: A New Primary Copy Method to Support Highly-Available Distributed Systems");
   (drive_url "1Ak7BD1f0b9z-yqjnKs2jV5HZnPtFDJ8a", js "Time, Clocks, and the Ordering of Events in a Distributed System");
   (drive_url "1HQZQWdscJ_j3kNiY2eFwC8DD4NTrwUSn", js "The Honey Badger of BFT Protocols");
   (drive_url "14O42AFwLqhW310wnxKXJdHkDSsRNz0Ul.", js "The Byzantine Generals Problem ");
   (drive_url "1XlTgWYCeET4k05Lccz528zx8aGO4V_KW", js "SpotLess: Concurrent Rotational Consensus Made Practical through Rapid View Synchronization");
   (drive_url "1cLe5GDz90UlX7Ak7f9SFZXcpAl__15Yq", js "Reaching Agreement in the Presence of Faults ");
   (js " " ++ drive_url "1Hrjs8nrxZeUgxv009pQ4RDe9YEhP2qEd", js "RCC: Resilient Concurrent Consensus for High-Throughput Secure Transaction Processing");
   (drive_url "1E_7lvwgvoAaRghUJgrWBlHkHKvQaomwS", js "Proof-of-Execution: Reaching Consensus through Fault-Tolerant Speculation");
   (js "  " ++ drive_url "1xSVYUppXeByao2l35BVxvqI13Rl3C8Wu", js "Impossibility of Distributed Consensus with One Faulty Process ");
   (js "  " ++ drive_url "1Lj04gXUbgyaYetn1-ruT3okdfyjSnrAE", js "Linear Consensus with One-Phase Speculation");
   (js "  " ++ drive_url "1el8_j58oGbLLLepLI6rJ0h3nlEi9DH3h.", js "BFT Consensus in the Lens of Blockchain");
   (js "  " ++ drive_url "1wk15nsa1ZZMMpbFjVZYpU1Ms0QfMEVZC", js "Faster Asynchronous BFT Protocols");
   (drive_url "1BQTSvHbpUfcq9aebQns3EPPhQL_jcB4s", js "Consensus in the Presence of Partial Synchrony");
   (js "  " ++ drive_url "16VMG7vFdYFpD-Ph_fU_xQXZ490MVrOWu", js "CAP Twelve Years Later: How the “Rules” Have Changed");
   (js "    " ++ drive_url "1SyxiKEIyAPZ0nQZUfzXNmRB-qItBSNWj", js "Brewers Conjecture and the Feasiblity of Consistent, Available, Partitint-Tolorent Web Services");
   (js "   " ++ drive_url "1u-6Pk7fyvP3g08wmev8_cc9bcN1sAMuy", js "BEAT: Asynchronous BFT Made Practical");
   (js " " ++ drive_url "1l10AfmJn9gLOT_F841123bW-Bbyg_Xfk", js "Asynchronous Secure Computations with Optimal Resilience");
   (drive_url "1BNAH0hMIS0_84YzHGB4BLiu6OUv13Xqu", js "Asynchronous Byzantine Agreement Protocols");
   (drive_url "1ma80WGUeShaPN-6mFCm0RT5dFaAo6BHp", js "Asymptotically Optimal Validated Asynchronous Byzantine Agreement")].

Definition updateURL (url : str) : str :=
  substring url 0 (lastIndexOf url [slash] (Z.of_nat (length url))) ++ js "/" ++ js "preview".

(** The own properties of the table. *)
Definition getDisplayTitle (filename : str) : str :=
  match str_or (map_get TITLE_MAPPINGS (toLowerCase filename)) [] with
  | [] => replace_first filename (js ".pdf") []
  | t => t
  end.

Definition id_char (c : ascii) : bool := is_word c || bool_decide (c = "-"%char).

(** [/\/d\/([a-zA-Z0-9_-]+)/] *)
Definition drive_id_at (s : str) : option str :=
  if is_prefix (js "/d/") s then
    let t := drop 3 s in match run_length id_char t with O => None | n => Some (take n t) end
  else None.

Definition convertToDownloadUrl (webViewLink : str) : str :=
  match first_match drive_id_at webViewLink with
  | Some fileId => js "https://drive.google.com/uc?export=download&id=" ++ fileId
  | None => webViewLink
  end.

Record Listed := MkListed { l_id : str; l_name : str; l_displayTitle : str; l_webViewLink : str; l_path : str }.

Definition listed (doc : DriveFile) : Listed :=
  MkListed (f_id doc) (f_name doc) (getDisplayTitle (f_name doc)) (updateURL (f_webViewLink doc)) (convertToDownloadUrl (f_webViewLink doc)).

Definition transformGroupedData (data : jsmap str (list DriveFile)) (folderOrder : list str) : list (list Listed) :=
  (fun folderId => listed <$> coalesce (map_get data folderId) []) <$> folderOrder.

(** [answer]: the status and the body of the response. *)
Definition fetchDocuments (ok : bool) (status : Z) (data : jsmap str (list DriveFile)) : result (list (list Listed)) :=
  if ok then Ok (transformGroupedData data folderIds) else Throw (js "Failed to fetch documents: " ++ str_of_Z status).

(** ** Choosing documents *)

Section selector.
Context (documents : list (list Document)) (maxSelections : option nat).

Definition flattenedAll : list Document := concat documents.

Definition matches_query (query : str) (doc : Document) : bool :=
  includes (toLowerCase (d_name doc)) query ||
  match d_displayTitle doc with Some ((_ :: _) as t) => includes (toLowerCase t) query | _ => false end.

Definition filteredGroups (searchQuery : str) : list (list Document) :=
  match trim searchQuery with
  | [] => documents
  | _ => filterb (matches_query (toLowerCase searchQuery)) <$> documents
  end.

Definition isDocumentSelected (selected : list Document) (doc : Document) : bool :=
  existsb (fun s => bool_decide (d_id s = d_id doc)) selected.

Definition at_maximum (selected : list Document) : bool :=
  match maxSelections with Some (S m) => (S m <=? length selected)%nat | _ => false end.

Definition handleDocumentToggle (doc : Document) (p : Page) : Page :=
  if isDocumentSelected (p_selected p) doc then handleDocumentDeselect doc p
  else if at_maximum (p_selected p) then p else handleDocumentSelect doc p.

(** The card of a document: a click, or the Enter key and the space bar, which
    only select. *)
Definition isDisabled (doc : Document) (p : Page) : bool :=
  negb (isDocumentSelected (p_selected p) doc) && at_maximum (p_selected p).

Definition clickCard (doc : Document) (p : Page) : Page := if isDisabled doc p then p else handleDocumentToggle doc p.
Definition keyCard (doc : Document) (p : Page) : Page := if isDisabled doc p then p else handleDocumentSelect doc p.

Definition handleSelectAllToggle (p : Page) : Page :=
  if (length (p_selected p) =? length flattenedAll)%nat then handleDeselectAll p else handleSelectAll documents p.

Definition allSelected (p : Page) : bool :=
  (length (p_selected p) =? length flattenedAll)%nat && (0 <? length flattenedAll)%nat.
End selector.

(** ** Copying code *)

Definition tick : ascii := "`"%char.
Definition fence : str := [tick; tick; tick].

(** [/```[\w]*\n?/g] *)
Definition fence_open (s : str) : option (nat * str) :=
  if is_prefix fence s then
    let n := 3 + run_length is_word (drop 3 s) in
    Some (n + (if bool_decide (head (drop n s) = Some newline) then 1 else 0), [])
  else None.

(** [/\n?```/g] *)
Definition fence_close (s : str) : option (nat * str) :=
  if is_prefix (newline :: fence) s then Some (4, []) else if is_prefix fence s then Some (3, []) else None.

(** [/`([^`]+)`/g], replaced by its group *)
Definition inline_code (s : str) : option (nat * str) :=
  match s with
  | c :: t =>
      if bool_decide (c = tick) then
        let n := run_length (fun d => negb (bool_decide (d = tick))) t in
        if (0 <? n)%nat && bool_decide (head (drop n t) = Some tick) then Some (n + 2, take n t) else None
      else None
  | [] => None
  end.

Definition stripMarkdownFormatting (content : str) : str :=
  trim (replace_matches inline_code (replace_matches fence_close (replace_matches fence_open content 0) 0) 0).

(** ** Files outside of the folder *)

(** A part of a path that names something. *)
Definition name_part (p : str) : Prop := (p <> []) /\ p <> js "." /\ p <> dotdot /\ slash ∉ p.

Lemma resolve_names up parts rest : Forall name_part parts -> resolve up (parts ++ rest) = resolve (rev parts ++ up) rest.
Proof.
  intros H. revert up. induction H as [|p parts (H1 & H2 & H3 & _) _ IH]; intros up; [done|]. cbn [app resolve].
  rewrite !bool_decide_false by done. cbn [orb]. rewrite IH. cbn. by rewrite <- app_assoc.
Qed.

(** Parts that do not go up stay below what is there. *)
Lemma resolve_below up parts : dotdot ∉ parts -> exists more, resolve up parts = rev up ++ more.
Proof.
  revert up. induction parts as [|p parts IH]; intros up H; [exists []; by rewrite app_nil_r|].
  apply not_elem_of_cons in H as [Hp H]. cbn. destruct (bool_decide (p = []) || _); [by apply IH|].
  rewrite bool_decide_false by (intros ->; by apply Hp). destruct (IH (p :: up) H) as [more ->]. exists (p :: more). cbn. by rewrite <- app_assoc.
Qed.

Lemma path_of_app a b : path_of (a ++ b) = path_of a ++ path_of b.
Proof. unfold path_of. by rewrite fmap_app, concat_app. Qed.

Lemma split_path parts s : Forall name_part parts -> split (path_of parts ++ slash :: s) [slash] = [] :: parts ++ split s [slash].
Proof.
  intros H. unfold path_of. induction H as [|p parts (_ & _ & _ & Hp) _ IH]; [exact (split_cons slash [] s (not_elem_of_nil _))|].
  change (concat ((fun p => slash :: p) <$> p :: parts) ++ slash :: s)
    with ([] ++ slash :: (p ++ concat ((fun p => slash :: p) <$> parts)) ++ slash :: s).
  rewrite (split_cons slash []) by apply not_elem_of_nil. f_equal. rewrite <- app_assoc.
  destruct parts as [|q parts]; [exact (split_cons slash p s Hp)|].
  change (concat ((fun p => slash :: p) <$> q :: parts) ++ slash :: s)
    with ([] ++ slash :: (q ++ concat ((fun p => slash :: p) <$> parts)) ++ slash :: s) in *.
  rewrite (split_cons slash []) in IH by apply not_elem_of_nil. injection IH as IH. cbn [app]. rewrite split_cons by done. by rewrite IH.
Qed.

(** A text whose last part is a name does not end in a slash. *)
Lemma join_last l z sep : exists pre, join (l ++ [z]) sep = pre ++ z.
Proof.
  induction l as [|x l [pre IH]]; [by exists []|]. destruct l as [|y l]; [by exists (x ++ sep); rewrite <- app_assoc|].
  exists (x ++ sep ++ pre). change ((x :: y :: l) ++ [z]) with (x :: y :: l ++ [z]). rewrite join_cons.
  change (y :: l ++ [z]) with ((y :: l) ++ [z]). rewrite IH. by rewrite <- !app_assoc.
Qed.

Lemma name_not_ended pre z : name_part z -> endsWith (pre ++ z) [slash] = false.
Proof.
  intros (Hz & _ & _ & Hs). unfold endsWith. rewrite rev_app_distr. destruct (rev z) as [|c t] eqn:E.
  - apply (f_equal (@rev ascii)) in E. by rewrite rev_involutive in E.
  - cbn. rewrite bool_decide_false; [done|]. intros <-. apply Hs. apply list_elem_of_In, in_rev. rewrite E. by left.
Qed.

Section traversal.
Context (root : list str) (readFile : str -> result str).
Hypothesis Hroot : Forall name_part root.

Lemma join_path_parts filePath : exists e, (e = [] \/ e = [slash]) /\
  join_path (path_of root) filePath = match resolve (rev root) (split filePath [slash]) with [] => [slash] | l => path_of l ++ e end.
Proof.
  exists (if endsWith filePath [slash] then [slash] else []). split; [case_match; auto|]. unfold join_path. rewrite split_path by done.
  change (resolve [] ([] :: ?x)) with (resolve [] x). rewrite resolve_names by done. rewrite app_nil_r. by destruct (resolve _ _).
Qed.

(** A request whose path does not go up is answered from the folder of the
    documents only. *)
Theorem served_inside path : dotdot ∉ split (join path [slash]) [slash] ->
  GET (path_of root) readFile path = Denied \/
  exists rest, let file := path_of root ++ js "/documents" ++ rest in
    (rest = [] \/ head rest = Some slash) /\
    GET (path_of root) readFile path = match readFile file with Throw _ => NotFound
      | Ok c => Served c (content_type (toLowerCase (List.last (split (join path [slash]) (js ".")) []))) end.
Proof.
  intros H. unfold GET. set (fp := join path [slash]) in *. destruct (startsWith fp (js "documents/")) eqn:E; [right|by left].
  apply startsWith_spec in E as [t E]. destruct (join_path_parts fp) as (e & He & J). rewrite J.
  assert (split fp [slash] = js "documents" :: split t [slash]) as S by (rewrite E; apply (split_cons slash (js "documents") t); cbn; set_solver).
  rewrite S in H |- *. apply not_elem_of_cons in H as [_ H].
  change (resolve (rev root) (js "documents" :: ?x)) with (resolve (js "documents" :: rev root) x).
  destruct (resolve_below (js "documents" :: rev root) (split t [slash]) H) as [more ->].
  cbn [rev]. rewrite rev_involutive, <- app_assoc.
  exists (path_of more ++ e). split.
  - destruct more as [|m more]; cbn; [by destruct He as [->| ->]; [left|right]|by right].
  - destruct (root ++ [js "documents"] ++ more) as [|q l] eqn:Eq; [by destruct root|]. rewrite <- Eq, !path_of_app, <- !app_assoc. done.
Qed.

(** C40: a requested path that goes up with two dots is answered with any file
    below the working directory of the server, also outside the directory of
    the documents: the check looks at the path before it is resolved. *)
Theorem outside_served names : names <> [] -> Forall name_part names ->
  let path := [js "documents"; join (dotdot :: names) [slash]] in
  GET (path_of root) readFile path = match readFile (path_of (root ++ names)) with Throw _ => NotFound
    | Ok c => Served c (content_type (toLowerCase (List.last (split (join path [slash]) (js ".")) []))) end.
Proof.
  intros Hne Hn path. unfold GET. set (fp := join path [slash]).
  assert (E : fp = js "documents/" ++ join (dotdot :: names) [slash]) by done.
  rewrite (proj2 (startsWith_spec fp (js "documents/"))) by eauto.
  assert (J : join_path (path_of root) fp = path_of (root ++ names)); [|by rewrite J].
  assert (S : split fp [slash] = js "documents" :: dotdot :: names).
  { unfold fp, path. rewrite join_cons. change (join [?x] [slash]) with x. cbn [app].
    rewrite (split_cons slash (js "documents")) by (cbn; set_solver). f_equal. apply split_join; [done|].
    constructor; [cbn; set_solver|]. eapply Forall_impl; [exact Hn|]. by intros p (_ & _ & _ & ?). }
  destruct (exists_last Hne) as (init & z & ->).
  assert (L : endsWith fp [slash] = false).
  { rewrite E. destruct (join_last (dotdot :: init) z [slash]) as [pre P]. cbn [app] in P. rewrite P, app_assoc.
    apply name_not_ended. by apply Forall_app in Hn as [_ [? _]%Forall_cons]. }
  unfold join_path. rewrite split_path, S by done. change (resolve [] ([] :: ?x)) with (resolve [] x).
  rewrite resolve_names by done. rewrite app_nil_r. cbn [resolve]. rewrite !bool_decide_false, bool_decide_true by done. cbn [orb tail].
  pose proof (resolve_names (rev root) (init ++ [z]) [] Hn) as R. rewrite app_nil_r in R. cbn [resolve] in R.
  rewrite R, L, rev_app_distr, !rev_involutive, app_nil_r. by destruct (root ++ init ++ [z]) as [|q l] eqn:Eq; [destruct root, init|].
Qed.
End traversal.

(** ** The list of the documents *)

Lemma folders_set files_list order m k :
  map_get (foldl (fun results f => map_set results f (folder_files files_list f)) m order) k
  = if bool_decide (k ∈ order) then Some (folder_files files_list k) else map_get m k.
Proof.
  revert m. induction order as [|f order IH]; intros m; [done|]. cbn. rewrite IH.
  destruct (bool_decide_reflect (k ∈ order)) as [Hk|Hk].
  - by rewrite bool_decide_true by set_solver.
  - destruct (decide (f = k)) as [->|Hne].
    + by rewrite map_get_set_eq, bool_decide_true by set_solver.
    + by rewrite map_get_set_ne, bool_decide_false by set_solver.
Qed.

Lemma two_folders files_list a b : a <> b ->
  getFilesFromMultipleFolders files_list [a; b] = [(a, folder_files files_list a); (b, folder_files files_list b)].
Proof. intros H. unfold getFilesFromMultipleFolders. cbn. by rewrite decide_False by congruence. Qed.

(** The page shows the documents of both folders, in a fixed order: whatever
    order the answers come in, each group holds the files of its folder, and
    none when its request failed; the summary counts them. *)
Theorem documents_listed files_list order : order ≡ₚ folderIds ->
  let r := documents_route files_list order in
  fetchDocuments true 200 r.2 = Ok ((fun f => listed <$> folder_files files_list f) <$> folderIds) /\
  foldersProcessed r.1 = totalFolders r.1 /\ totalFiles r.1 = sum_list ((fun f => length (folder_files files_list f)) <$> folderIds).
Proof.
  intros Ho r. split.
  - unfold r, fetchDocuments, documents_route, transformGroupedData, getFilesFromMultipleFolders. cbn [snd]. f_equal.
    apply list_fmap_ext. intros i f Hf. rewrite folders_set, bool_decide_true; [done|]. rewrite Ho. by eapply list_elem_of_lookup_2.
  - symmetry in Ho. unfold r. destruct (Permutation_length_2_inv Ho) as [-> | ->]; unfold documents_route; rewrite two_folders by done;
      (split; [done|cbn -[folder_files]; lia]).
Qed.

Lemma char_lower_idem c : char_lower (char_lower c) = char_lower c.
Proof. destruct c as [[] [] [] [] [] [] [] []]; reflexivity. Qed.

(** The table of titles is never used: it is searched with the name of a file
    in lower case, and each of its keys has a capital letter. *)
Theorem titles_unused filename : getDisplayTitle filename = replace_first filename (js ".pdf") [].
Proof.
  assert (L : toLowerCase (toLowerCase filename) = toLowerCase filename).
  { unfold toLowerCase. rewrite <- list_fmap_compose. apply list_fmap_ext. intros i c _. apply char_lower_idem. }
  assert (K : Forall (fun k => toLowerCase k <> k) (map_keys TITLE_MAPPINGS)) by (repeat constructor; vm_compute; congruence).
  unfold getDisplayTitle. destruct (map_get TITLE_MAPPINGS (toLowerCase filename)) as [t|] eqn:E; [|done].
  rewrite Forall_forall in K. exfalso. apply (K (toLowerCase filename)); [|done]. apply elem_of_map_keys. eauto.
Qed.

(** The links of a document of Google Drive: where it is shown and where it is
    fetched from. *)
Theorem drive_links id : id <> [] -> Forall (fun c => id_char c = true) id ->
  let link := js "https://drive.google.com/file/d/" ++ id ++ js "/view?usp=drivesdk" in
  convertToDownloadUrl link = js "https://drive.google.com/uc?export=download&id=" ++ id /\
  updateURL link = js "https://drive.google.com/file/d/" ++ id ++ js "/preview".
Proof.
  intros Hne Hid link. split.
  - unfold convertToDownloadUrl, link. cbn -[drive_id_at]. unfold drive_id_at. cbn -[run_length].
    rewrite !drop_0, run_length_app by done. destruct (length id) eqn:E; [by destruct id|]. by rewrite <- E, take_app_length.
  - unfold updateURL.
    assert (E : link = (js "https://drive.google.com/file/d/" ++ id) ++ slash :: js "view?usp=drivesdk") by (unfold link; by rewrite <- app_assoc).
    rewrite E, lastIndexOf_char by (cbn; set_solver). rewrite substring_prefix, Nat2Z.id, take_app_length by lia. by rewrite <- app_assoc.
Qed.

(** ** The selection *)

Section selection.
Context (documents : list (list Document)) (maxSelections : option nat).
Hypothesis Hids : NoDup (d_id <$> flattenedAll documents).

Inductive choice := Click (doc : Document) | Key (doc : Document) | All.

Definition on_choice (p : Page) (c : choice) : Page :=
  match c with
  | Click doc => clickCard maxSelections doc p
  | Key doc => keyCard maxSelections doc p
  | All => handleSelectAllToggle documents p
  end.

Definition selection_ok (l : list Document) : Prop := NoDup (d_id <$> l) /\ forall d, d ∈ l -> d ∈ flattenedAll documents.

Lemma select_ok doc p : doc ∈ flattenedAll documents -> selection_ok (p_selected p) -> selection_ok (p_selected (handleDocumentSelect doc p)).
Proof.
  intros Hd [H1 H2]. unfold handleDocumentSelect. case_bool_decide as E; [done|]. cbn. split.
  - rewrite fmap_app. apply NoDup_app. split; [done|]. split; [|apply NoDup_singleton]. intros x Hx. set_solver.
  - intros d. rewrite elem_of_app, list_elem_of_singleton. intros [?| ->]; eauto.
Qed.

Lemma deselect_ok doc p : selection_ok (p_selected p) -> selection_ok (p_selected (handleDocumentDeselect doc p)).
Proof.
  intros [H1 H2]. unfold handleDocumentDeselect. cbn. split.
  - revert H1. clear. induction (p_selected p) as [|x l IH]; [done|]. cbn. intros [Hx H]%NoDup_cons.
    destruct (negb _); cbn; [|by apply IH]. constructor; [|by apply IH]. intros (y & E & Hy)%list_elem_of_fmap.
    apply elem_of_filterb in Hy as [Hy _]. apply Hx. rewrite E. by apply list_elem_of_fmap_2.
  - intros d [Hd _]%elem_of_filterb. by apply H2.
Qed.

(** Whatever is clicked, each selected document is one of the list and is
    selected once, and the button offers to deselect all exactly when every
    document is selected. *)
Theorem selection_consistent cs p :
  p_selected p = [] -> Forall (fun c => match c with Click d | Key d => d ∈ flattenedAll documents | All => True end) cs ->
  let p' := foldl on_choice p cs in
  selection_ok (p_selected p') /\
  (allSelected documents p' = true <-> flattenedAll documents <> [] /\ forall d, d ∈ flattenedAll documents -> d ∈ p_selected p').
Proof.
  intros Hp Hcs p'. assert (H : selection_ok (p_selected p')).
  { unfold p'. assert (H0 : selection_ok (p_selected p)) by (rewrite Hp; split; [constructor|set_solver]).
    clear Hp p'. revert p H0. induction Hcs as [|c cs Hc _ IH]; intros p H0; [done|]. cbn. apply IH. destruct c as [d|d|]; cbn.
    - unfold clickCard, handleDocumentToggle. destruct (isDisabled _ _ _); [done|].
      destruct (isDocumentSelected _ _); [by apply deselect_ok|]. destruct (at_maximum _ _); [done|by apply select_ok].
    - unfold keyCard. destruct (isDisabled _ _ _); [done|by apply select_ok].
    - unfold handleSelectAllToggle. case_match; [split; [constructor|set_solver]|]. by split. }
  split; [done|]. destruct H as [H1 H2]. unfold allSelected. rewrite andb_true_iff, Nat.eqb_eq, Nat.ltb_lt.
  assert (Hsub : p_selected p' ⊆+ flattenedAll documents) by (apply NoDup_submseteq; [by eapply NoDup_fmap_1|done]).
  split.
  - intros [E L]. split; [intros Hn; rewrite Hn in L; cbn in L; lia|]. intros d Hd.
    by rewrite (submseteq_length_Permutation _ _ Hsub) by lia.
  - intros [Hne Hall]. assert (flattenedAll documents ⊆+ p_selected p') as Hs by (apply NoDup_submseteq; [by eapply NoDup_fmap_1|done]).
    apply submseteq_length in Hs, Hsub. split; [lia|]. destruct (flattenedAll documents); [done|cbn; lia].
Qed.
End selection.

(** ** Copied code *)

Lemma trim_space s c : is_space c = true -> trim (s ++ [c]) = trim s.
Proof.
  intros Hc. unfold trim. assert (E : forall t, trimEnd (t ++ [c]) = trimEnd t).
  { intros t. unfold trimEnd. rewrite rev_app_distr. cbn. by rewrite Hc. }
  induction s as [|d s IH]; cbn; [by rewrite Hc|]. destruct (is_space d); [done|]. apply (E (d :: s)).
Qed.

Lemma replace_none m s : (forall t, t `suffix_of` s -> m t = None) -> replace_matches m s 0 = s.
Proof.
  intros H. induction s as [|c s IH]; [done|]. cbn. rewrite (H (c :: s)) by done. f_equal. apply IH.
  intros t Ht. apply H. by apply suffix_cons_r.
Qed.

(** What the button copies of an answer that is one block of code is the code,
    without the white space around it, as long as it has no backtick. *)
Theorem code_copied lang code : Forall (fun c => is_word c = true) lang -> tick ∉ code ->
  stripMarkdownFormatting (fence ++ lang ++ nl ++ code ++ nl ++ fence) = trim code.
Proof.
  intros Hl Hc. assert (P : replace_matches fence_open (fence ++ lang ++ nl ++ code ++ nl ++ fence) 0 = code ++ nl).
  { replace (fence ++ lang ++ nl ++ code ++ nl ++ fence) with ((fence ++ lang ++ nl) ++ (code ++ nl) ++ fence) by (by rewrite <- !app_assoc).
    rewrite (replace_matches_at fence_open (fence ++ lang ++ nl) _ []); [|done|].
    - rewrite replace_matches_plain; [by rewrite app_nil_r|]. intros a1 a2 E Hne. destruct a2 as [|c a2]; [done|].
      assert (c <> tick).
      { intros ->. assert (tick ∈ code ++ nl) as Hin by (rewrite E; set_solver). apply elem_of_app in Hin as [|Hin]; [done|].
        by apply list_elem_of_singleton in Hin. }
      unfold fence_open. cbn [is_prefix fence app]. by rewrite bool_decide_false by congruence.
    - unfold fence_open. rewrite <- !app_assoc. rewrite (proj2 (is_prefix_spec fence _)) by eauto.
      change (drop 3 (fence ++ ?x)) with x. rewrite run_length_app by done.
      replace (drop (3 + length lang) (fence ++ lang ++ nl ++ code ++ nl ++ fence)) with (nl ++ code ++ nl ++ fence)
        by (cbn [Nat.add fence app drop]; by rewrite drop_app_length).
      cbn [head nl app]. rewrite bool_decide_true by done. rewrite !length_app. cbn. by replace (length lang + 1) with (S (length lang)) by lia. }
  assert (Q : tick ∉ code ++ nl) by (rewrite elem_of_app; intros [?|Hin]; [done|by apply list_elem_of_singleton in Hin]).
  unfold stripMarkdownFormatting. rewrite P, (replace_none fence_close), (replace_none inline_code); [by apply trim_space|..];
    intros t [u Eu]; destruct t as [|c t]; try done; (assert (c <> tick) by (intros ->; apply Q; rewrite Eu; set_solver)).
  - cbn. by rewrite bool_decide_false by done.
  - unfold fence_close. destruct (is_prefix (newline :: fence) (c :: t)) eqn:X.
    + apply is_prefix_spec in X as [v X]. exfalso. apply Q. rewrite Eu, X. set_solver.
    + cbn [is_prefix fence]. by rewrite (bool_decide_false (tick = c)) by congruence.
Qed.

(** ** Examples *)

(** Code with a template literal loses its backticks. *)
Example template_literal_lost : stripMarkdownFormatting (js "const s = `hi`;") = js "const s = hi;".
Proof. vm_compute. reflexivity. Qed.

(** The Enter key does not deselect a document. *)
Lemma key_keeps doc p : p_selected (keyCard None doc p) = p_selected p ++ (if bool_decide (d_id doc ∈ d_id <$> p_selected p) then [] else [doc]).
Proof.
  unfold keyCard, isDisabled, at_maximum. rewrite andb_false_r. unfold handleDocumentSelect.
  by case_bool_decide; [rewrite app_nil_r|].
Qed.

(** Selecting all documents does not respect the maximum. *)
Example select_all_beyond_maximum :
  let d i := MkDocument i i i None in
  let p := handleSelectAllToggle [[d (js "1"); d (js "2")]] (MkPage [] [] [] [] false false false false) in
  length (p_selected p) = 2 /\ at_maximum (Some 1) (p_selected p) = true.
Proof. vm_compute. auto. Qed.

Definition toy_root : list str := [js "srv"; js "nexus"].
Definition toy_files (p : str) : result str := if bool_decide (p = js "/srv/nexus/.env") then Ok (js "KEY=1") else Throw (js "ENOENT").

Lemma toy_root_ok : Forall name_part toy_root.
Proof. repeat constructor; try (cbn; congruence); cbn; set_solver. Qed.

Lemma served_inside_witness :
  GET (path_of toy_root) toy_files [js "documents"; js "a.pdf"] = Denied \/
  exists rest, let file := path_of toy_root ++ js "/documents" ++ rest in
    (rest = [] \/ head rest = Some slash) /\
    GET (path_of toy_root) toy_files [js "documents"; js "a.pdf"] = match toy_files file with Throw _ => NotFound
      | Ok c => Served c (content_type (toLowerCase (List.last (split (js "documents/a.pdf") (js ".")) []))) end.
Proof. apply (served_inside toy_root toy_files toy_root_ok [js "documents"; js "a.pdf"]). vm_compute. set_solver. Defined.

Lemma outside_served_witness :
  GET (path_of toy_root) toy_files [js "documents"; js "../.env"] = Served (js "KEY=1") (js "application/octet-stream").
Proof.
  etransitivity; [exact (outside_served toy_root toy_files toy_root_ok [js ".env"] ltac:(done) ltac:(repeat constructor; try (cbn; congruence); cbn; set_solver))|].
  vm_compute. reflexivity.
Defined.

Lemma documents_listed_witness :
  let drive q := if includes q (js "16yv") then inl (Some [MkDriveFile (js "1") (js "a.pdf") (js "x/d/7/view")]) else inr (MkDriveError (Some 500%Z) None) in
  fetchDocuments true 200 (documents_route drive (rev folderIds)).2
  = Ok [[MkListed (js "1") (js "a.pdf") (js "a") (js "x/d/7/preview") (drive_url "7")]; []].
Proof.
  intros drive. rewrite (proj1 (documents_listed drive (rev folderIds) ltac:(apply perm_swap))). vm_compute. reflexivity.
Defined.

Lemma drive_links_witness : convertToDownloadUrl (js "https://drive.google.com/file/d/a-1/view?usp=drivesdk") = drive_url "a-1".
Proof. apply (drive_links (js "a-1")); [done|repeat constructor]. Defined.

Lemma selection_consistent_witness :
  let d i := MkDocument i i i None in
  let p' := foldl (on_choice [[d (js "1")]; [d (js "2")]] None) (MkPage [] [] [] [] false false false false) [Click (d (js "1")); Key (d (js "2"))] in
  selection_ok [[d (js "1")]; [d (js "2")]] (p_selected p').
Proof.
  intros d p'. apply (selection_consistent [[d (js "1")]; [d (js "2")]] None); [|done|].
  - cbn. apply NoDup_cons; split; [set_solver|]. apply NoDup_singleton.
  - repeat constructor; set_solver.
Defined.

Lemma code_copied_witness : stripMarkdownFormatting (fence ++ js "ts" ++ nl ++ js "let a = 1;" ++ nl ++ fence) = js "let a = 1;".
Proof. apply (code_copied (js "ts") (js "let a = 1;")); [repeat constructor|cbn; set_solver]. Defined.
