(* ===== verification/Uri.v ===== *)
(** * URLs

    What the clients use of the URL functions of the platform:
    [encodeURIComponent] and the serialisation of [URLSearchParams], with the
    reading of both.  A character of a string is a code point below 256; its
    UTF-8 form has one or two bytes. *)

From S2P Require Import Prelude JsString.

(** ** Bytes *)

Definition hex_digit (n : N) : ascii := if (n <? 10)%N then ascii_of_N (48 + n) else ascii_of_N (55 + n).

Definition unhex (c : ascii) : option N :=
  if is_digit c then Some (code c - 48)%N
  else if between 65 70 c then Some (code c - 55)%N
  else if between 97 102 c then Some (code c - 87)%N
  else None.

(** ["%XX"] *)
Definition percent (b : N) : str := ["%"%char; hex_digit (b / 16); hex_digit (b mod 16)].

Definition utf8 (c : ascii) : list N :=
  if (code c <? 128)%N then [code c] else [192 + code c / 64; 128 + code c mod 64]%N.

Definition escape (c : ascii) : str := concat (percent <$> utf8 c).

(** ** Encoding *)

Definition is_alnum (c : ascii) : bool := is_digit c || between 65 90 c || between 97 122 c.

(** The characters [encodeURIComponent] leaves alone. *)
Definition unreserved (c : ascii) : bool := is_alnum c || bool_decide (c ∈ js "-_.!~*'()").

Definition encodeURIComponent (s : str) : str :=
  concat ((fun c => if unreserved c then [c] else escape c) <$> s).

Definition form_char (c : ascii) : str :=
  if bool_decide (c = " "%char) then js "+"
  else if is_alnum c || bool_decide (c ∈ js "*-._") then [c] else escape c.

Definition form_encode (s : str) : str := concat (form_char <$> s).

(** [params.toString()] *)
Definition searchParams (params : list (str * str)) : str :=
  join ((fun kv => form_encode kv.1 ++ "="%char :: form_encode kv.2) <$> params) (js "&").

(** ** Decoding *)

Definition unpercent (a b : ascii) : option N :=
  match unhex a, unhex b with Some x, Some y => Some (16 * x + y)%N | _, _ => None end.

(** The text of an encoded component, [None] when it is malformed; [plus]
    says whether a plus sign is a space. *)
Fixpoint decode_with (plus : bool) (s : str) : option str :=
  match s with
  | [] => Some []
  | "%"%char :: a :: b :: s' =>
      match unpercent a b with
      | Some n =>
          if (n <? 128)%N then cons (ascii_of_N n) <$> decode_with plus s'
          else if (n <? 194)%N || (195 <? n)%N then None
          else
            match s' with
            | "%"%char :: a' :: b' :: s'' =>
                match unpercent a' b' with
                | Some m =>
                    if (128 <=? m)%N && (m <? 192)%N
                    then cons (ascii_of_N (64 * (n - 192) + (m - 128))) <$> decode_with plus s''
                    else None
                | None => None
                end
            | _ => None
            end
      | None => None
      end
  | "%"%char :: _ => None
  | c :: s' => cons (if plus && bool_decide (c = "+"%char) then " "%char else c) <$> decode_with plus s'
  end.

Definition decodeURIComponent : str -> option str := decode_with false.
Definition form_decode : str -> option str := decode_with true.

(** The name and the value of a parameter. *)
Definition parameter_of (p : str) : option (str * str) :=
  let '(k, v) := match indexOf p (js "=") with Some i => (take i p, drop (S i) p) | None => (p, []) end in
  match form_decode k, form_decode v with Some k, Some v => Some (k, v) | _, _ => None end.

(** [new URLSearchParams(query)] *)
Definition parse_query (q : str) : option (list (str * str)) :=
  match q with [] => Some [] | _ => mapM parameter_of (split q (js "&")) end.

(** ** Round trips *)

Lemma decode_uri_char c s :
  decode_with false ((if unreserved c then [c] else escape c) ++ s) = cons c <$> decode_with false s.
Proof. destruct c as [[][][][][][][][]]; reflexivity. Qed.

Lemma decode_form_char c s : form_decode (form_char c ++ s) = cons c <$> form_decode s.
Proof. destruct c as [[][][][][][][][]]; reflexivity. Qed.

Lemma encodeURIComponent_decoded s : decodeURIComponent (encodeURIComponent s) = Some s.
Proof.
  unfold decodeURIComponent, encodeURIComponent. induction s as [|c s IH]; [done|].
  cbn [fmap list_fmap concat]. by rewrite decode_uri_char, IH.
Qed.

Lemma form_decoded s : form_decode (form_encode s) = Some s.
Proof.
  unfold form_encode. induction s as [|c s IH]; [done|]. cbn [fmap list_fmap concat]. by rewrite decode_form_char, IH.
Qed.

(** The characters of encoded text: none that delimits a part of a URL. *)
Definition encoded (c : ascii) : bool := is_alnum c || bool_decide (c ∈ js "-_.!~*'()+%").

Lemma uri_char_encoded c : Forall (fun x => encoded x = true) (if unreserved c then [c] else escape c).
Proof. destruct c as [[][][][][][][][]]; repeat constructor. Qed.

Lemma form_char_encoded c : Forall (fun x => encoded x = true) (form_char c).
Proof. destruct c as [[][][][][][][][]]; repeat constructor. Qed.

Lemma concat_encoded (f : ascii -> str) s :
  (forall c, Forall (fun x => encoded x = true) (f c)) -> Forall (fun x => encoded x = true) (concat (f <$> s)).
Proof. intros Hf. induction s as [|c s IH]; [constructor|]. cbn. apply Forall_app_2; [apply Hf|done]. Qed.

Lemma encoded_free s c : encoded c = false -> Forall (fun x => encoded x = true) s -> c ∉ s.
Proof. intros Hc Hs Hin. rewrite Forall_forall in Hs. apply Hs in Hin. congruence. Qed.

Lemma encodeURIComponent_free s c : encoded c = false -> c ∉ encodeURIComponent s.
Proof. intros Hc. apply encoded_free; [done|]. apply concat_encoded, uri_char_encoded. Qed.

Lemma form_encode_free s c : encoded c = false -> c ∉ form_encode s.
Proof. intros Hc. apply encoded_free; [done|]. apply concat_encoded, form_char_encoded. Qed.

Lemma parameter_of_printed k v : parameter_of (form_encode k ++ "="%char :: form_encode v) = Some (k, v).
Proof.
  unfold parameter_of. change (js "=") with ["="%char]. rewrite indexOf_char by by apply form_encode_free.
  rewrite take_app_length. change ("="%char :: form_encode v) with (["="%char] ++ form_encode v).
  rewrite app_assoc, drop_app_length'; [|rewrite length_app; cbn; lia]. by rewrite !form_decoded.
Qed.

Lemma searchParams_nil params : searchParams params = [] <-> params = [].
Proof.
  split; [|by intros ->]. destruct params as [|[k v] params]; [done|]. unfold searchParams.
  intros E. apply (f_equal (fun s => bool_decide ("="%char ∈ s))) in E. cbn in E.
  rewrite bool_decide_eq_true_2 in E; [done|]. destruct params; cbn; set_solver.
Qed.

(** What is written into a query is read back, whatever characters the names
    and values have. *)
Lemma parse_query_printed params : parse_query (searchParams params) = Some params.
Proof.
  destruct (searchParams params) eqn:E; [by apply searchParams_nil in E as ->|]. unfold parse_query. rewrite <- E.
  assert (params <> []) as Hne by (intros ->; done). unfold searchParams.
  change (js "&") with ["&"%char]. rewrite split_join.
  - clear. apply mapM_Some. induction params as [|[k v] params IH]; cbn; constructor; [|done].
    apply parameter_of_printed.
  - by destruct params.
  - apply Forall_fmap, Forall_forall. intros [k v] _. cbn.
    intros [H|H%elem_of_cons]%elem_of_app; [by apply form_encode_free in H|].
    destruct H as [|H]; [done|by apply form_encode_free in H].
Qed.

(** A query has no character that delimits a part of a URL. *)
Lemma searchParams_free params c :
  encoded c = false -> c <> "="%char -> c <> "&"%char -> c ∉ searchParams params.
Proof.
  intros Hc He Ha. unfold searchParams.
  assert (forall k v, c ∉ form_encode k ++ "="%char :: form_encode v) as Hp.
  { intros k v [H|H%elem_of_cons]%elem_of_app; [by apply form_encode_free in H|].
    destruct H as [|H]; [done|by apply form_encode_free in H]. }
  induction params as [|[k v] [|p params] IH]; cbn in *; [set_solver|apply Hp|].
  intros [H|H]%elem_of_app; [by apply Hp in H|]. set_solver.
Qed.

Lemma searchParams_inj p q : searchParams p = searchParams q -> p = q.
Proof. intros E%(f_equal parse_query). rewrite !parse_query_printed in E. congruence. Qed.

Lemma encodeURIComponent_inj s t : encodeURIComponent s = encodeURIComponent t -> s = t.
Proof. intros E%(f_equal decodeURIComponent). rewrite !encodeURIComponent_decoded in E. congruence. Qed.
