(* ===== verification/TextCodec.v ===== *)
(** * Text as bytes

    What the readers of streams use of the platform: [TextEncoder.encode],
    and [TextDecoder.decode] called without [{ stream: true }], which decodes
    each array of bytes on its own.  A character of a string is a code point
    below 256, so its encoding has one byte, or a lead byte C2 or C3 and a
    continuation byte; the arrays decoded are pieces of such encodings.  A
    byte that is not part of a whole character decodes to U+FFFD, which the
    alphabet of the strings lacks: the control character SUBSTITUTE (U+001A)
    stands for it. *)

From S2P Require Import Prelude JsString Uri.

Abbreviation bytes := (list N).

Definition encode (s : str) : bytes := concat (utf8 <$> s).

Definition replacement : ascii := "026"%char.

Definition is_lead (b : N) : bool := (b =? 194)%N || (b =? 195)%N.
Definition is_continuation (b : N) : bool := (128 <=? b)%N && (b <? 192)%N.

(** [new TextDecoder().decode(value)] *)
Fixpoint decode (value : bytes) : str :=
  match value with
  | [] => []
  | b :: rest =>
      if (b <? 128)%N then ascii_of_N b :: decode rest
      else if is_lead b then
        match rest with
        | b' :: rest' =>
            if is_continuation b' then ascii_of_N (64 * (b - 192) + (b' - 128)) :: decode rest'
            else replacement :: decode rest
        | [] => [replacement]
        end
      else replacement :: decode rest
  end.

Lemma encode_app s t : encode (s ++ t) = encode s ++ encode t.
Proof. unfold encode. by rewrite fmap_app, concat_app. Qed.

Lemma encode_concat ss : encode (concat ss) = concat (encode <$> ss).
Proof. induction ss as [|s ss IH]; [done|]. cbn [concat fmap list_fmap]. by rewrite encode_app, IH. Qed.

Lemma code_bound c : (code c < 256)%N.
Proof. apply N_ascii_bounded. Qed.

(** The two bytes of a character above 127. *)
Lemma utf8_two c : (128 <= code c)%N ->
  exists b b', utf8 c = [b; b'] /\ (b <? 128)%N = false /\ is_lead b = true /\ (b' <? 128)%N = false /\
    is_lead b' = false /\ is_continuation b' = true /\ ascii_of_N (64 * (b - 192) + (b' - 128)) = c.
Proof.
  intros Hc. pose proof (code_bound c) as Hb. unfold utf8. rewrite (proj2 (N.ltb_ge _ _) Hc).
  exists (192 + code c / 64)%N, (128 + code c mod 64)%N.
  pose proof (N.Div0.div_mod (code c) 64) as E. pose proof (N.mod_lt (code c) 64 ltac:(done)) as Hm.
  revert E Hm. generalize (code c / 64)%N (code c mod 64)%N. intros q m E Hm.
  assert (2 <= q < 4)%N as Hq by lia.
  split; [done|]. split; [apply N.ltb_ge; lia|]. split.
  { unfold is_lead. apply orb_true_iff. rewrite !N.eqb_eq. lia. }
  split; [apply N.ltb_ge; lia|]. split.
  { unfold is_lead. apply orb_false_iff. rewrite !N.eqb_neq. lia. }
  split; [unfold is_continuation; apply andb_true_iff; rewrite N.leb_le, N.ltb_lt; lia|].
  replace (64 * (192 + q - 192) + (128 + m - 128))%N with (code c) by lia.
  apply ascii_N_embedding.
Qed.

(** Decoding goes on after the characters of a text. *)
Lemma decode_encode_app s rest : decode (encode s ++ rest) = s ++ decode rest.
Proof.
  induction s as [|c s IH]; [done|]. unfold encode. cbn [fmap list_fmap concat]. fold (encode s).
  rewrite <- app_assoc. destruct (decide (128 <= code c)%N) as [Hc|Hc].
  - destruct (utf8_two c Hc) as (b & b' & -> & Hb & Hl & _ & _ & Hk & Ec). cbn [app decode].
    by rewrite Hb, Hl, Hk, Ec, IH.
  - unfold utf8. rewrite (proj2 (N.ltb_lt _ _)) by lia. cbn [app decode]. rewrite (proj2 (N.ltb_lt _ _)) by lia.
    unfold code. by rewrite ascii_N_embedding, IH.
Qed.

Lemma text_decode_encode s : decode (encode s) = s.
Proof. rewrite <- (app_nil_r (encode s)), decode_encode_app. apply app_nil_r. Qed.

Lemma encode_inj s t : encode s = encode t -> s = t.
Proof. intros E. by rewrite <- (text_decode_encode s), E, text_decode_encode. Qed.

(** A character of two bytes that is cut decodes to two replacements. *)
Lemma decode_cut s c t : (128 <= code c)%N ->
  exists b b', encode (s ++ c :: t) = (encode s ++ [b]) ++ (b' :: encode t) /\
    decode (encode s ++ [b]) ++ decode (b' :: encode t) = s ++ [replacement; replacement] ++ t.
Proof.
  intros Hc. destruct (utf8_two c Hc) as (b & b' & Eu & Hb & Hl & Hb' & Hl' & _ & _). exists b, b'. split.
  - rewrite encode_app. unfold encode at 2. cbn [fmap list_fmap concat]. rewrite Eu, <- app_assoc. done.
  - rewrite decode_encode_app. cbn [decode]. rewrite Hb, Hl, Hb', Hl', text_decode_encode. by rewrite <- app_assoc.
Qed.
