(* ===== verification/Endpoints.v ===== *)
(** * The operations of the drawing and file-sharing toolkits

    The modules canvases.js, invites.js, notifications.js and auth.js of
    src/ecosystem/tools/drawing-lib/src/modules and auth.js, files.js and
    shares.js of src/ecosystem/tools/reshare-lib/src/modules: what each
    operation asks of the server, on top of the requests of [ApiClients].
    Page numbers and timestamps are integers, printed in decimal.  [on_wire]
    is what [fetch] makes of a call: its URL is parsed (fragment, dot segments,
    back slashes, percent-encoding) and its body is text.

    rooms.js has the operations of canvases.js once more; no module loads it,
    and [client.rooms] is [client.canvases]. *)

From S2P Require Import Prelude JsString JsArray JsNum Json Http Uri ApiClients.

Definition GET : str := js "GET".
Definition POST : str := js "POST".
Definition PATCH : str := js "PATCH".
Definition DELETE : str := js "DELETE".

(** A string that is not empty, a number that is not zero. *)
Definition nonempty (s : option str) : option str := match s with Some (c :: t) => Some (c :: t) | _ => None end.
Definition nonzero (z : option Z) : option Z := match z with Some 0%Z => None | _ => z end.

(** ** The drawing toolkit *)

(** The arguments of [client._request]; the body is given to
    [JSON.stringify]. *)
Record call := Call { c_method : str; c_path : str; c_body : option json }.

(** [queryString ? `${path}?${queryString}` : path] *)
Definition with_query (path : str) (params : list (str * str)) : str :=
  match searchParams params with [] => path | q => path ++ js "?" ++ q end.

(** [if (value) params.append(key, value)] *)
Definition append (key : string) (value : option str) : list (str * str) :=
  match nonempty value with Some v => [(js key, v)] | None => [] end.

Module Canvases.

Record ListOptions := MkList {
  includeArchived : bool;
  sortBy : option str;
  order : option str;
  page : option Z;
  per_page : option Z;
  type : option str;
}.

Record StrokeOptions := MkStrokes { since : option Z; until : option Z }.

Definition create (name type : str) (description : option str) : call :=
  Call POST (js "/canvases") (Some (JObj (present
    [(js "name", Some (JStr name)); (js "type", Some (JStr type)); (js "description", JStr <$> description)]))).

Definition list_params (o : ListOptions) : list (str * str) :=
  append "includeArchived" (if includeArchived o then Some (js "true") else None) ++
  append "sortBy" (sortBy o) ++ append "order" (order o) ++
  append "page" (str_of_Z <$> nonzero (page o)) ++ append "per_page" (str_of_Z <$> nonzero (per_page o)) ++
  append "type" (type o).

Definition list (o : ListOptions) : call := Call GET (with_query (js "/canvases") (list_params o)) None.

(** [`/canvases/${canvasId}`] *)
Definition canvas (id : str) : str := js "/canvases/" ++ id.

Definition get (id : str) : call := Call GET (canvas id) None.
Definition update (id : str) (updates : json) : call := Call PATCH (canvas id) (Some updates).
Definition delete (id : str) : call := Call DELETE (canvas id) None.
Definition share (id : str) (users : json) : call :=
  Call POST (canvas id ++ js "/share") (Some (JObj [(js "users", users)])).
Definition getMembers (id : str) : call := Call GET (canvas id ++ js "/members") None.

Definition stroke_params (o : StrokeOptions) : Datatypes.list (str * str) :=
  append "since" (str_of_Z <$> nonzero (since o)) ++ append "until" (str_of_Z <$> nonzero (until o)).

Definition getStrokes (id : str) (o : StrokeOptions) : call :=
  Call GET (with_query (canvas id ++ js "/strokes") (stroke_params o)) None.
Definition addStroke (id : str) (stroke : json) : call := Call POST (canvas id ++ js "/strokes") (Some stroke).
Definition undo (id : str) : call := Call POST (canvas id ++ js "/history/undo") None.
Definition redo (id : str) : call := Call POST (canvas id ++ js "/history/redo") None.
Definition clear (id : str) : call := Call DELETE (canvas id ++ js "/strokes") None.
Definition getUndoRedoStatus (id : str) : call := Call GET (canvas id ++ js "/history/status") None.
Definition resetStacks (id : str) : call := Call POST (canvas id ++ js "/history/reset") None.
Definition transferOwnership (id newOwnerId : str) : call :=
  Call POST (canvas id ++ js "/transfer") (Some (JObj [(js "newOwnerId", JStr newOwnerId)])).
Definition leave (id : str) : call := Call POST (canvas id ++ js "/leave") None.
Definition invite (id username : str) (role : option str) : call :=
  Call POST (canvas id ++ js "/invite")
    (Some (JObj [(js "username", JStr username); (js "role", JStr (coalesce role (js "editor")))])).
Definition suggest (query : str) : call := Call GET (js "/canvases/suggest?q=" ++ encodeURIComponent query) None.

End Canvases.

Module Invites.
Definition list : call := Call GET (js "/collaborations/invitations") None.
Definition accept (id : str) : call := Call POST (js "/collaborations/invitations/" ++ id ++ js "/accept") None.
Definition decline (id : str) : call := Call POST (js "/collaborations/invitations/" ++ id ++ js "/decline") None.
End Invites.

Module Notifications.
Definition list : call := Call GET (js "/notifications") None.
Definition markRead (id : str) : call := Call POST (js "/notifications/" ++ id ++ js "/mark-read") None.
Definition delete (id : str) : call := Call DELETE (js "/notifications/" ++ id) None.
Definition clear : call := Call DELETE (js "/notifications") None.
Definition getPreferences : call := Call GET (js "/notifications/preferences") None.
Definition updatePreferences (preferences : json) : call :=
  Call PATCH (js "/notifications/preferences") (Some preferences).
End Notifications.

Module Auth.
Definition getMe : call := Call GET (js "/auth/me") None.
Definition changePassword (newPassword : str) : call :=
  Call POST (js "/auth/change-password") (Some (JObj [(js "password", JStr newPassword)])).
Definition searchUsers (query : str) : call := Call GET (js "/users/search?q=" ++ encodeURIComponent query) None.
End Auth.

(** One operation of the toolkit with its arguments. *)
Inductive operation :=
| Create (name type : str) (description : option str)
| List (o : Canvases.ListOptions)
| Get (id : str)
| Update (id : str) (updates : json)
| Delete (id : str)
| Share (id : str) (users : json)
| GetMembers (id : str)
| GetStrokes (id : str) (o : Canvases.StrokeOptions)
| AddStroke (id : str) (stroke : json)
| Undo (id : str)
| Redo (id : str)
| Clear (id : str)
| GetUndoRedoStatus (id : str)
| ResetStacks (id : str)
| TransferOwnership (id newOwnerId : str)
| Leave (id : str)
| Invite (id username : str) (role : option str)
| Suggest (query : str)
| Invitations
| Accept (id : str)
| Decline (id : str)
| ListNotifications
| MarkRead (id : str)
| DeleteNotification (id : str)
| ClearNotifications
| GetPreferences
| UpdatePreferences (preferences : json)
| GetMe
| ChangePassword (newPassword : str)
| SearchUsers (query : str).

Definition call_of (o : operation) : call :=
  match o with
  | Create n t d => Canvases.create n t d
  | List o => Canvases.list o
  | Get i => Canvases.get i
  | Update i u => Canvases.update i u
  | Delete i => Canvases.delete i
  | Share i u => Canvases.share i u
  | GetMembers i => Canvases.getMembers i
  | GetStrokes i o => Canvases.getStrokes i o
  | AddStroke i s => Canvases.addStroke i s
  | Undo i => Canvases.undo i
  | Redo i => Canvases.redo i
  | Clear i => Canvases.clear i
  | GetUndoRedoStatus i => Canvases.getUndoRedoStatus i
  | ResetStacks i => Canvases.resetStacks i
  | TransferOwnership i n => Canvases.transferOwnership i n
  | Leave i => Canvases.leave i
  | Invite i u r => Canvases.invite i u r
  | Suggest q => Canvases.suggest q
  | Invitations => Invites.list
  | Accept i => Invites.accept i
  | Decline i => Invites.decline i
  | ListNotifications => Notifications.list
  | MarkRead i => Notifications.markRead i
  | DeleteNotification i => Notifications.delete i
  | ClearNotifications => Notifications.clear
  | GetPreferences => Notifications.getPreferences
  | UpdatePreferences p => Notifications.updatePreferences p
  | GetMe => Auth.getMe
  | ChangePassword p => Auth.changePassword p
  | SearchUsers q => Auth.searchUsers q
  end.

(** [this.client._request(path, { method, body })] *)
Definition perform server onTokenExpired (stringify : json -> str) (c : Drawing.Config) (token : option str)
    (k : call) : list action * option str * (option json + failure) :=
  Drawing._request server onTokenExpired c token (c_method k) (c_path k) [] (stringify <$> c_body k).

(** ** The file-sharing toolkit *)

Module Shared.
Import ReShare.

(** The arguments of [_requestJson] and [_requestRaw]. *)
Record rcall := RCall {
  r_method : str;
  r_path : str;
  r_body : option sent_body;
  r_retries : option nat;
  r_raw : bool;
}.

Definition json_call (method path : string) (body : list (str * option json)) (retries : option nat) : rcall :=
  RCall (js method) (js path) (Some (ObjectBody (JObj (present body)))) retries false.

Abbreviation text := (fun s => Some (JStr s)).

Definition login (username password : str) : rcall :=
  json_call "POST" "/login" [(js "username", text username); (js "password", text password)] (Some 0).
Definition signup (username password : str) : rcall :=
  json_call "POST" "/signup" [(js "username", text username); (js "password", text password)] (Some 0).
Definition logout : rcall := RCall POST (js "/logout") None None false.
Definition deleteUser (password : str) : rcall :=
  json_call "DELETE" "/delete-user" [(js "password", text password)] None.
Definition status : rcall := RCall GET (js "/auth-status") None None false.

Definition createFolder (path : str) : rcall :=
  json_call "POST" "/create-folder" [(js "folder_path", text path)] None.

(** A file, a [Blob] without a name or a [File] with one. *)
Record file := File { content : str; f_name : option str }.

(** A field of a form: its name, its value and its file name. *)
Record field := Field { field_name : str; value : str; file_name : option str }.

Definition upload_form (f : file) (path : option str) (skipProcessing : option bool) (filename : option str)
    : list field :=
  [Field (js "file") (content f)
     (nonempty (match nonempty filename with Some n => Some n | None => f_name f end));
   Field (js "path") (coalesce path []) None;
   Field (js "skip_ai_processing") (if coalesce skipProcessing true then js "true" else js "false") None].

(** [form] encodes a form; without it there is no [FormData]. *)
Definition upload (form : option (list field -> str)) (f : option file) (path : option str)
    (skipProcessing : option bool) (filename : option str) : result rcall :=
  match f with
  | None => Throw (js "upload requires a file")
  | Some f =>
      match form with
      | None => Throw (js "FormData is not available (provide config.FormData in Node)")
      | Some encode =>
          Ok (RCall POST (js "/upload") (Some (PlainBody (encode (upload_form f path skipProcessing filename))))
                (Some 0) false)
      end
  end.

Definition delete_call (node_path : str) (delete_in_root : bool) : rcall :=
  json_call "DELETE" "/delete" [(js "node_path", text node_path); (js "delete_in_root", Some (JBool delete_in_root))] None.

Definition deleteItem (path : str) (deleteInRoot : option bool) : rcall :=
  delete_call path (coalesce deleteInRoot true).

Definition download_call (target : string) (path : str) (isShared : option bool) : rcall :=
  RCall POST (js target)
    (Some (ObjectBody (JObj [(js "path", JStr path); (js "is_shared", JBool (coalesce isShared false))]))) None true.

Definition download : str -> option bool -> rcall := download_call "/download".
Definition downloadZip : str -> option bool -> rcall := download_call "/download-zip".

Definition share (stringify : json -> str) (target path : option str) (node : option json) : result rcall :=
  match nonempty target with
  | None => Throw (js "share requires a target username")
  | Some t =>
      Ok (json_call "POST" "/share"
        [(js "target", text t); (js "path", JStr <$> nonempty path);
         (js "node", if truthy node
                     then (fun n => JStr (match n with JStr s => s | n => stringify n end)) <$> node else None)] None)
  end.

Definition list : rcall := RCall GET (js "/shared") None None false.

Definition remove (combinedPath fromUser path : option str) : result rcall :=
  let nodePath :=
    match nonempty combinedPath, nonempty fromUser, nonempty path with
    | Some p, _, _ => Some p
    | None, Some u, Some p => Some (u ++ js "/" ++ p)
    | _, _, _ => None
    end in
  match nodePath with
  | None => Throw (js "remove requires combinedPath or fromUser and path")
  | Some p => Ok (delete_call p false)
  end.

Definition run server onAuthExpired (stringify : json -> str) (c : Config) (st : state) (k : rcall)
    : Datatypes.list action * state * (body + failure) :=
  _request server onAuthExpired c (r_raw k) stringify st (r_method k) (r_path k) [] (r_body k) (r_retries k).
End Shared.

(** ** Errors *)

Module Errors.
Section messages.
(** How a value other than a string is shown. *)
Context (toString : json -> str).

Definition display (v : json) : str := match v with JStr s => s | v => toString v end.

(** The fields of an [ApiError]. *)
Record ApiError := MkError { e_status : Z; e_body : option json; e_message : str }.

Definition build_error (status : Z) (body : option json) (reason : option json) : ApiError :=
  MkError status body
    (match reason with
     | Some v => display v
     | None => js "API error: " ++ str_of_Z status
     end).

Definition if_truthy (v : option json) : option json := if truthy v then v else None.

(** [new ApiError(status, body, message)] of the drawing toolkit *)
Definition drawing_error (status : Z) (body : option json) (message : option str) : ApiError :=
  build_error status body
    (if_truthy (js_or (JStr <$> message) (opt_prop body (js "message")))).

(** The one of the file-sharing toolkit. *)
Definition sharing_error (status : Z) (body : option json) (message : option str) : ApiError :=
  build_error status body
    (if_truthy (js_or (js_or (JStr <$> message) (opt_prop body (js "message"))) (opt_prop body (js "status")))).

Definition isAuthError (e : ApiError) : bool := (e_status e =? 401)%Z.
Definition isValidationError (e : ApiError) : bool := (e_status e =? 400)%Z.
Definition getValidationErrors (e : ApiError) : json :=
  coalesce (if_truthy (opt_prop (e_body e) (js "errors"))) (JObj []).

(** [Object.entries(v)] for an object or an array. *)
Definition entries (v : json) : list (str * json) :=
  match v with
  | JObj o => omap (fun k => pair k <$> map_get o k) (object_keys o)
  | JArr l => (fun iv => (str_of_nat iv.1, iv.2)) <$> indexed l
  | _ => []
  end.

Definition describe (fields : json) : str :=
  join ((fun kv => kv.1 ++ js ": " ++ display kv.2) <$> entries fields) (js ", ").

Definition getUserMessage (e : ApiError) : json :=
  match opt_prop (e_body e) (js "errors") with
  | Some (JObj o) => JStr (describe (JObj o))
  | Some (JArr l) => JStr (describe (JArr l))
  | _ => coalesce (if_truthy (opt_prop (e_body e) (js "message"))) (JStr (e_message e))
  end.
End messages.
End Errors.

(** ** Listeners of the socket *)

Module Listeners.
Import Socket.

(** The client and the callbacks on its sockets: socket, event, callback. *)
Record Listening := MkListening { client : SocketClient; callbacks : list (nat * str * nat) }.

Definition on (event : str) (callback : nat) (l : Listening) : result Listening :=
  match socket (client l) with
  | None => Throw not_connected
  | Some s => Ok (MkListening (client l) (callbacks l ++ [(s, event, callback)]))
  end.

Fixpoint remove_first {A} (f : A -> bool) (l : list A) : list A :=
  match l with [] => [] | x :: l' => if f x then l' else x :: remove_first f l' end.

Definition off (event : str) (callback : option nat) (l : Listening) : Listening :=
  match socket (client l) with
  | None => l
  | Some s =>
      MkListening (client l)
        (match callback with
         | Some k => remove_first (fun c => bool_decide (c = (s, event, k))) (callbacks l)
         | None => filterb (fun c => negb (bool_decide (c.1 = (s, event)))) (callbacks l)
         end)
  end.

Definition emit (event data : str) (l : Listening) : result emitted :=
  match socket (client l) with
  | None => Throw not_connected
  | Some s => Ok [(event, s, data)]
  end.

(** [up] says whether a socket has a connection. *)
Definition isConnected (up : nat -> bool) (l : Listening) : option bool :=
  if connected (client l) then up <$> socket (client l) else Some false.

Definition joinRoom : str -> SocketClient -> SocketClient * result emitted := joinCanvas.
Definition leaveRoom : str -> SocketClient -> SocketClient * result emitted := leaveCanvas.

(** The callbacks an event on a socket reaches. *)
Definition reached (s : nat) (event : str) (l : Listening) : list nat :=
  omap (fun c => if bool_decide (c.1 = (s, event)) then Some c.2 else None) (callbacks l).

Definition reconnect (l : Listening) : Listening := MkListening (connect (client l)) (callbacks l).
End Listeners.

(** ** What is sent says what was meant *)

(** An operation with the optional arguments that make no difference left
    out. *)
Definition meaning (o : operation) : operation :=
  match o with
  | List (Canvases.MkList a s r p q t) =>
      List (Canvases.MkList a (nonempty s) (nonempty r) (nonzero p) (nonzero q) (nonempty t))
  | GetStrokes i (Canvases.MkStrokes s u) => GetStrokes i (Canvases.MkStrokes (nonzero s) (nonzero u))
  | Invite i u r => Invite i u (Some (coalesce r (js "editor")))
  | o => o
  end.

(** *** What [fetch] makes of a URL

    The part of the URL parser of the platform that concerns what follows the
    base: [base] are the segments of the base's own path. *)

Fixpoint strip_end (s : str) : str :=
  match s with
  | [] => []
  | c :: s' => match strip_end s' with [] => if (code c <=? 32)%N then [] else [c] | t => c :: t end
  end.

Definition is_tab_or_newline (c : ascii) : bool := bool_decide (code c ∈ [9; 10; 13]%N).

(** The characters that are percent-encoded in a path and in a query. *)
Definition path_set (c : ascii) : bool :=
  (code c <=? 32)%N || (126 <? code c)%N || bool_decide (c ∈ js "#<>?`{}^") || (code c =? 34)%N.
Definition query_set (c : ascii) : bool :=
  (code c <=? 32)%N || (126 <? code c)%N || bool_decide (c ∈ js "#<>'") || (code c =? 34)%N.

Definition url_encode (set : ascii -> bool) (s : str) : str :=
  concat ((fun c => if set c then escape c else [c]) <$> s).

Definition single_dot (s : str) : bool := bool_decide (toLowerCase s ∈ [js "."; js "%2e"]).
Definition double_dot (s : str) : bool :=
  bool_decide (toLowerCase s ∈ [js ".."; js ".%2e"; js "%2e."; js "%2e%2e"]).

Fixpoint resolve (path segments : list str) : list str :=
  match segments with
  | [] => path
  | s :: rest =>
      let ending := match rest with [] => [[]] | _ => [] end in
      if double_dot s then resolve (removelast path ++ ending) rest
      else if single_dot s then resolve (path ++ ending) rest
      else resolve (path ++ [url_encode path_set s]) rest
  end.

(** The text before and after the first occurrence of a character. *)
Definition cut_at (c : ascii) (s : str) : str * option str :=
  match indexOf s [c] with
  | Some i => (take i s, Some (drop (S i) s))
  | None => (s, None)
  end.

(** The segments of the path and the query that are sent for [base ++ s]. *)
Definition url_target (base : list str) (s : str) : list str * option str :=
  let s := filterb (fun c => negb (is_tab_or_newline c)) (strip_end s) in
  let '(path, query) := cut_at "?"%char (cut_at "#"%char s).1 in
  let slashes := (fun c => if bool_decide (c = "092"%char) then "/"%char else c) <$> path in
  (resolve base (tail (split slashes (js "/"))), url_encode query_set <$> query).

(** Method, URL and body of the request of an operation. *)
Definition on_wire (stringify : json -> str) (base : list str) (o : operation)
    : str * (list str * option str) * option str :=
  (c_method (call_of o), url_target base (c_path (call_of o)), stringify <$> c_body (call_of o)).

(** *** Arguments that survive it *)

(** An identifier as the server makes them: letters, digits, [-] and [_]. *)
Definition segment_char (c : ascii) : bool := is_alnum c || bool_decide (c ∈ js "-_").
Definition segment (id : str) : Prop := Forall (fun c => segment_char c = true) id.

(** A value whose JSON text is its own: the numbers are finite and not
    negative zero, and the keys of an object are different and in the order
    of the language. *)
Fixpoint plain (v : json) : bool :=
  match v with
  | JNum (SpecFloat.S754_zero s) => negb s
  | JNum (SpecFloat.S754_finite _ _ _) => true
  | JNum _ => false
  | JArr l => forallb plain l
  | JObj o => bool_decide (object_keys o = o.*1) && bool_decide (NoDup o.*1) && forallb (fun kv => plain kv.2) o
  | _ => true
  end.

Definition well_named (o : operation) : Prop :=
  match o with
  | Update i v | Share i v | AddStroke i v => segment i /\ plain v = true
  | UpdatePreferences v => plain v = true
  | Get i | Delete i | GetMembers i | GetStrokes i _ | Undo i | Redo i
  | Clear i | GetUndoRedoStatus i | ResetStacks i | TransferOwnership i _ | Leave i | Invite i _ _
  | Accept i | Decline i | MarkRead i | DeleteNotification i => segment i
  | _ => True
  end.

Definition query_of (params : list (str * str)) : option str :=
  match params with [] => None | _ => Some (searchParams params) end.

(** What the path of an operation says. *)
Definition location (o : operation) : list str * option str :=
  let at_canvas i l := [] :: js "canvases" :: i :: l in
  match o with
  | Create _ _ _ => ([[]; js "canvases"], None)
  | List o => ([[]; js "canvases"], query_of (Canvases.list_params o))
  | Get i | Update i _ | Delete i => (at_canvas i [], None)
  | Share i _ => (at_canvas i [js "share"], None)
  | GetMembers i => (at_canvas i [js "members"], None)
  | GetStrokes i o => (at_canvas i [js "strokes"], query_of (Canvases.stroke_params o))
  | AddStroke i _ | Clear i => (at_canvas i [js "strokes"], None)
  | Undo i => (at_canvas i [js "history"; js "undo"], None)
  | Redo i => (at_canvas i [js "history"; js "redo"], None)
  | GetUndoRedoStatus i => (at_canvas i [js "history"; js "status"], None)
  | ResetStacks i => (at_canvas i [js "history"; js "reset"], None)
  | TransferOwnership i _ => (at_canvas i [js "transfer"], None)
  | Leave i => (at_canvas i [js "leave"], None)
  | Invite i _ _ => (at_canvas i [js "invite"], None)
  | Suggest q => (at_canvas (js "suggest") [], Some (js "q=" ++ encodeURIComponent q))
  | Invitations => ([[]; js "collaborations"; js "invitations"], None)
  | Accept i => ([[]; js "collaborations"; js "invitations"; i; js "accept"], None)
  | Decline i => ([[]; js "collaborations"; js "invitations"; i; js "decline"], None)
  | ListNotifications | ClearNotifications => ([[]; js "notifications"], None)
  | MarkRead i => ([[]; js "notifications"; i; js "mark-read"], None)
  | DeleteNotification i => ([[]; js "notifications"; i], None)
  | GetPreferences | UpdatePreferences _ => ([[]; js "notifications"; js "preferences"], None)
  | GetMe => ([[]; js "auth"; js "me"], None)
  | ChangePassword _ => ([[]; js "auth"; js "change-password"], None)
  | SearchUsers q => ([[]; js "users"; js "search"], Some (js "q=" ++ encodeURIComponent q))
  end.

(** A path made of segments. *)
Definition path_of (l : list str * option str) : str :=
  join l.1 (js "/") ++ (match l.2 with Some q => js "?" ++ q | None => [] end).

(** A character that the parser leaves where it is. *)
Definition safe_char (c : ascii) : bool :=
  negb (code c <=? 32)%N && (code c <=? 126)%N && negb (bool_decide (c ∈ js "#")) && negb (code c =? 92)%N.

Lemma segment_safe c : segment_char c = true -> safe_char c = true /\ path_set c = false /\ c <> "?"%char /\ c <> "/"%char.
Proof. destruct c as [[][][][][][][][]]; cbn; intros H; try discriminate H; by repeat split. Qed.

Lemma safe_stripped s : Forall (fun c => safe_char c = true) s -> strip_end s = s.
Proof.
  induction 1 as [|c s Hc _ IH]; [done|]. cbn [strip_end]. rewrite IH. destruct s; [|done].
  unfold safe_char in Hc. destruct (code c <=? 32)%N; [done|done].
Qed.

Lemma safe_kept s : Forall (fun c => safe_char c = true) s -> filterb (fun c => negb (is_tab_or_newline c)) s = s.
Proof.
  intros H. apply filterb_all. rewrite Forall_forall in H. intros c Hc. specialize (H c Hc).
  unfold is_tab_or_newline. rewrite bool_decide_eq_false_2; [done|]. intros E.
  unfold safe_char in H. destruct (N.leb_spec (code c) 32); [done|].
  rewrite !elem_of_cons, elem_of_nil in E. lia.
Qed.

Lemma safe_slashes s :
  Forall (fun c => safe_char c = true) s -> (fun c => if bool_decide (c = "092"%char) then "/"%char else c) <$> s = s.
Proof.
  induction 1 as [|c s Hc _ IH]; [done|]. rewrite fmap_cons, IH. f_equal. case_bool_decide as E; [|done]. by subst.
Qed.

Lemma cut_at_none c s : c ∉ s -> cut_at c s = (s, None).
Proof.
  intros H. unfold cut_at. destruct (indexOf s [c]) as [i|] eqn:E; [|done].
  apply indexOf_Some in E as (t & E & _). destruct H. rewrite E. set_solver.
Qed.

Lemma cut_at_some c s t : c ∉ s -> cut_at c (s ++ c :: t) = (s, Some t).
Proof.
  intros H. unfold cut_at. rewrite indexOf_char by done. rewrite take_app_length.
  change (c :: t) with ([c] ++ t). rewrite app_assoc, drop_app_length'; [done|]. rewrite length_app. cbn. lia.
Qed.

Lemma url_encode_id set s : Forall (fun c => set c = false) s -> url_encode set s = s.
Proof.
  unfold url_encode. induction 1 as [|c s Hc _ IH]; [done|]. rewrite fmap_cons, Hc. cbn [concat]. by rewrite IH.
Qed.

Lemma segment_encoded s : segment s -> url_encode path_set s = s.
Proof. intros H. apply url_encode_id. eapply Forall_impl; [exact H|]. intros c Hc. by apply segment_safe. Qed.

(** A segment has no dot and no percent sign. *)
Lemma segment_no_dots s : segment s -> double_dot s = false /\ single_dot s = false.
Proof.
  intros H.
  assert (forall p, Exists (fun c => segment_char c = false) p -> toLowerCase s <> p) as Hne.
  { intros p Hp E. apply Exists_exists in Hp as (c & Hc & Hf). rewrite <- E in Hc.
    apply list_elem_of_fmap in Hc as (x & -> & Hx). unfold segment in H. rewrite Forall_forall in H.
    specialize (H x Hx). clear -H Hf. destruct x as [[][][][][][][][]]; vm_compute in H, Hf; congruence. }
  unfold double_dot, single_dot. rewrite !bool_decide_eq_false_2; [done|..];
    rewrite !elem_of_cons, elem_of_nil; intros E; repeat destruct E as [E|E]; try done;
    revert E; apply Hne; by repeat constructor.
Qed.

Lemma resolve_segments l : forall base, Forall segment l -> resolve base l = base ++ l.
Proof.
  induction l as [|s l IH]; intros base H; cbn [resolve]; [by rewrite app_nil_r|].
  apply Forall_cons in H as [Hs Hl]. destruct (segment_no_dots s Hs) as [-> ->].
  rewrite IH by done. by rewrite segment_encoded, <- app_assoc.
Qed.

Lemma join_safe l : Forall segment l ->
  Forall (fun c => safe_char c = true) (join l (js "/")) /\ ("?"%char ∉ join l (js "/")).
Proof.
  induction l as [|x [|y l] IH]; intros H; [split; [constructor|set_solver]| |].
  - apply Forall_inv in H. cbn. split.
    + eapply Forall_impl; [exact H|]. intros c Hc. by apply segment_safe.
    + intros Hin. unfold segment in H. rewrite Forall_forall in H. by apply H, segment_safe in Hin as (_ & _ & ? & _).
  - apply Forall_cons in H as [Hx Hl]. destruct (IH Hl) as [H1 H2]. rewrite join_cons. split.
    + apply Forall_app_2; [|by apply Forall_cons_2]. eapply Forall_impl; [exact Hx|]. intros c Hc. by apply segment_safe.
    + rewrite !not_elem_of_app. split; [|split; [set_solver|done]]. intros Hin. unfold segment in Hx.
      rewrite Forall_forall in Hx. by apply Hx, segment_safe in Hin as (_ & _ & ? & _).
Qed.

(** The path and the query of a call arrive as they are written, but for an
    apostrophe in the query. *)
Lemma url_target_path base l q :
  Forall segment l -> (forall t, q = Some t -> Forall (fun c => safe_char c = true) t) ->
  url_target base (path_of ([] :: l, q)) = (base ++ l, url_encode query_set <$> q).
Proof.
  intros Hl Hq. assert (Forall segment ([] :: l)) as Hl' by (constructor; [by constructor|done]).
  destruct (join_safe _ Hl') as [Hj Hjq].
  assert (Forall (fun c => safe_char c = true) (path_of ([] :: l, q))) as Hp.
  { unfold path_of. cbn [fst snd]. apply Forall_app_2; [done|]. destruct q as [t|]; [|constructor].
    apply Forall_cons_2; [done|by apply Hq]. }
  unfold url_target. rewrite safe_stripped, safe_kept by done. rewrite (cut_at_none "#"%char).
  2:{ intros H. rewrite Forall_forall in Hp. by specialize (Hp _ H). }
  cbn [fst]. assert (cut_at "?"%char (path_of ([] :: l, q)) = (join ([] :: l) (js "/"), q)) as ->.
  { unfold path_of. cbn [fst snd]. destruct q as [t|]; [by apply cut_at_some|].
    rewrite app_nil_r. by apply cut_at_none. }
  rewrite safe_slashes by done. change (js "/") with ["/"%char]. rewrite split_join; [|done|].
  - cbn [tail]. by rewrite resolve_segments.
  - eapply Forall_impl; [exact Hl'|]. intros x Hx Hin. unfold segment in Hx. rewrite Forall_forall in Hx.
    by apply Hx, segment_safe in Hin as (_ & _ & _ & ?).
Qed.

Lemma path_with_query l params :
  with_query (path_of (l, None)) params = path_of (l, query_of params).
Proof.
  unfold with_query, path_of, query_of. cbn [fst snd]. destruct params as [|p params].
  - done.
  - destruct (searchParams (p :: params)) eqn:E; [by apply searchParams_nil in E|]. by rewrite app_nil_r.
Qed.

Lemma call_path o : c_path (call_of o) = path_of (location o).
Proof.
  destruct o; cbn [call_of location c_path Canvases.list Canvases.getStrokes].
  2: exact (path_with_query [[]; js "canvases"] _).
  7: { rewrite <- path_with_query. f_equal. unfold path_of. cbn. by rewrite <- ?app_assoc. }
  all: unfold path_of; cbn; by rewrite ?app_nil_r, <- ?app_assoc.
Qed.

#[local] Instance segment_dec id : Decision (segment id).
Proof. apply _. Defined.

(** The segments after the first slash. *)
Lemma location_segments o : well_named o -> exists l, (location o).1 = [] :: l /\ Forall segment l.
Proof.
  intros Hw. destruct o; cbn [well_named location fst] in *; (eexists; split; [done|]);
    repeat first [apply Forall_nil_2 | apply Forall_cons_2]; try (by apply Hw);
    apply (bool_decide_unpack _); by vm_compute.
Qed.

Lemma encoded_safe c : encoded c = true -> safe_char c = true.
Proof. destruct c as [[][][][][][][][]]; cbn; intros H; try discriminate H; done. Qed.

Lemma searchParams_chars params :
  Forall (fun c => safe_char c = true) (searchParams params) /\ Forall (fun c => query_set c = false) (searchParams params).
Proof.
  assert (forall c, Forall (fun x => safe_char x = true /\ query_set x = false) (form_char c)) as Hc.
  { intros c. destruct c as [[][][][][][][][]]; repeat constructor. }
  assert (forall s, Forall (fun x => safe_char x = true /\ query_set x = false) (form_encode s)) as Hs.
  { intros s. unfold form_encode. induction s as [|c s IH]; [constructor|]. cbn. apply Forall_app_2; [apply Hc|done]. }
  apply Forall_and. unfold searchParams. induction params as [|[k v] params IH]; [constructor|].
  assert (Forall (fun x => safe_char x = true /\ query_set x = false) (form_encode k ++ "="%char :: form_encode v)) as Hp.
  { apply Forall_app_2; [apply Hs|]. apply Forall_cons_2; [done|apply Hs]. }
  destruct params as [|p params]; [exact Hp|]. cbn in *. apply Forall_app_2; [exact Hp|]. by apply Forall_cons_2.
Qed.

Lemma uri_chars s : Forall (fun c => safe_char c = true) (js "q=" ++ encodeURIComponent s).
Proof.
  apply Forall_app_2; [by repeat constructor|]. eapply Forall_impl; [|exact encoded_safe].
  apply concat_encoded, uri_char_encoded.
Qed.

Lemma location_query o t : (location o).2 = Some t -> Forall (fun c => safe_char c = true) t.
Proof.
  destruct o; cbn [location snd]; try done; unfold query_of.
  1, 2: repeat case_match; try done; intros [= <-]; apply searchParams_chars.
  all: intros [= <-]; apply uri_chars.
Qed.

(** The URL of an operation. *)
Lemma call_target base o : well_named o ->
  exists l, (location o).1 = [] :: l /\ url_target base (c_path (call_of o)) = (base ++ l, url_encode query_set <$> (location o).2).
Proof.
  intros Hw. destruct (location_segments o Hw) as (l & El & Hl). exists l. split; [done|]. rewrite call_path.
  destruct (location o) as [l' q] eqn:E. cbn in El. subst l'. apply url_target_path; [done|].
  intros t Et. apply (location_query o). by rewrite E.
Qed.

Lemma url_encode_app set s t : url_encode set (s ++ t) = url_encode set s ++ url_encode set t.
Proof. unfold url_encode. by rewrite fmap_app, concat_app. Qed.

(** An encoded text is read back from what is sent of it. *)
Lemma sent_text_decoded s : decodeURIComponent (url_encode query_set (encodeURIComponent s)) = Some s.
Proof.
  unfold decodeURIComponent, encodeURIComponent. induction s as [|c s IH]; [done|]. cbn [fmap list_fmap concat].
  rewrite url_encode_app.
  assert (forall t, decode_with false (url_encode query_set (if unreserved c then [c] else escape c) ++ t) =
    cons c <$> decode_with false t) as ->; [|by rewrite IH].
  intros t. destruct c as [[][][][][][][][]]; reflexivity.
Qed.

Lemma sent_text_inj s t :
  url_encode query_set (js "q=" ++ encodeURIComponent s) = url_encode query_set (js "q=" ++ encodeURIComponent t) -> s = t.
Proof.
  rewrite !url_encode_app. intros E%app_inv_head. apply (f_equal decodeURIComponent) in E.
  rewrite !sent_text_decoded in E. congruence.
Qed.

Lemma sent_params_inj p q :
  url_encode query_set <$> query_of p = url_encode query_set <$> query_of q -> query_of p = query_of q.
Proof.
  assert (forall params, url_encode query_set <$> query_of params = query_of params) as H; [|by rewrite !H].
  intros [|x params]; [done|]. unfold query_of. cbn [fmap option_fmap option_map]. f_equal.
  apply url_encode_id, searchParams_chars.
Qed.

Lemma query_of_inj p q : query_of p = query_of q -> p = q.
Proof.
  unfold query_of. destruct p as [|x p], q as [|y q]; try done. intros [= E]. by apply searchParams_inj.
Qed.

Lemma nonempty_number z : nonempty (str_of_Z <$> z) = str_of_Z <$> z.
Proof. destruct z as [z|]; cbn; [|done]. destruct (str_of_Z z) eqn:E; [by apply str_of_Z_ne in E|done]. Qed.

(** The parameters of a listing give its options back. *)
Lemma list_params_get o :
  let get k := map_get (Canvases.list_params o) (js k) in
  get "includeArchived" = (if Canvases.includeArchived o then Some (js "true") else None) /\
  get "sortBy" = nonempty (Canvases.sortBy o) /\ get "order" = nonempty (Canvases.order o) /\
  get "page" = str_of_Z <$> nonzero (Canvases.page o) /\
  get "per_page" = str_of_Z <$> nonzero (Canvases.per_page o) /\ get "type" = nonempty (Canvases.type o).
Proof.
  destruct o as [a s r p q t]. unfold Canvases.list_params, append. cbn zeta.
  rewrite !nonempty_number. cbn [Canvases.includeArchived Canvases.sortBy Canvases.order Canvases.page
    Canvases.per_page Canvases.type].
  destruct a, (nonempty s), (nonempty r), (nonzero p), (nonzero q), (nonempty t); by vm_compute.
Qed.

Lemma stroke_params_get o :
  let get k := map_get (Canvases.stroke_params o) (js k) in
  get "since" = str_of_Z <$> nonzero (Canvases.since o) /\ get "until" = str_of_Z <$> nonzero (Canvases.until o).
Proof.
  destruct o as [s u]. unfold Canvases.stroke_params, append. cbn zeta. rewrite !nonempty_number.
  cbn [Canvases.since Canvases.until]. destruct (nonzero s), (nonzero u); by vm_compute.
Qed.

#[local] Instance str_of_Z_injective : Inj (=) (=) str_of_Z.
Proof. intros x y. apply str_of_Z_inj. Qed.

Lemma list_params_inj o o' :
  Canvases.list_params o = Canvases.list_params o' -> meaning (List o) = meaning (List o').
Proof.
  intros E. pose proof (list_params_get o) as H. pose proof (list_params_get o') as H'. cbn zeta in H, H'.
  rewrite E in H. destruct H as (Ha & Hs & Hr & Hp & Hq & Ht), H' as (Ha' & Hs' & Hr' & Hp' & Hq' & Ht').
  rewrite Ha in Ha'. rewrite Hs in Hs'. rewrite Hr in Hr'. rewrite Hp in Hp'. rewrite Hq in Hq'. rewrite Ht in Ht'.
  apply (inj (fmap str_of_Z)) in Hp'. apply (inj (fmap str_of_Z)) in Hq'.
  destruct o as [a s r p q t], o' as [a' s' r' p' q' t'].
  cbn [meaning Canvases.includeArchived Canvases.sortBy Canvases.order Canvases.page
    Canvases.per_page Canvases.type] in *. rewrite Hs', Hr', Hp', Hq', Ht'. by destruct a, a'.
Qed.

Lemma stroke_params_inj id o o' :
  Canvases.stroke_params o = Canvases.stroke_params o' -> meaning (GetStrokes id o) = meaning (GetStrokes id o').
Proof.
  intros E. pose proof (stroke_params_get o) as H. pose proof (stroke_params_get o') as H'. cbn zeta in H, H'.
  rewrite E in H. destruct H as (Hs & Hu), H' as (Hs' & Hu'). rewrite Hs in Hs'. rewrite Hu in Hu'.
  apply (inj (fmap str_of_Z)) in Hs'. apply (inj (fmap str_of_Z)) in Hu'.
  destruct o, o'. cbn [meaning Canvases.since Canvases.until] in *. by rewrite Hs', Hu'.
Qed.

Lemma present_inj n t d n' t' d' :
  c_body (Canvases.create n t d) = c_body (Canvases.create n' t' d') -> n = n' /\ t = t' /\ d = d'.
Proof. destruct d, d'; cbn; intros E; by simplify_eq. Qed.

Lemma nonempty_idem s : nonempty (nonempty s) = nonempty s.
Proof. by destruct s as [[|??]|]. Qed.
Lemma nonzero_idem z : nonzero (nonzero z) = nonzero z.
Proof. by destruct z as [[| |]|]. Qed.

Lemma call_meaning o : call_of (meaning o) = call_of o.
Proof.
  destruct o as [| [a s r p q t] | | | | | | i [s u] | | | | | | | | | i u r | | | | | | | | | | | | |]; try done.
  - cbn [meaning call_of]. unfold Canvases.list, Canvases.list_params, append. cbn.
    by rewrite !nonempty_idem, !nonzero_idem.
  - cbn [meaning call_of]. unfold Canvases.getStrokes, Canvases.stroke_params, append. cbn.
    by rewrite !nonzero_idem.
Qed.

(** Method, path, query and body of an operation give its meaning. *)
Lemma meaning_inj o o' :
  c_method (call_of o) = c_method (call_of o') -> (location o).1 = (location o').1 ->
  url_encode query_set <$> (location o).2 = url_encode query_set <$> (location o').2 ->
  c_body (call_of o) = c_body (call_of o') -> meaning o = meaning o'.
Proof.
  intros Hm Hl Hq Hb. destruct o, o'; try discriminate Hm; try discriminate Hl; try discriminate Hq; try done.
  1: by apply present_inj in Hb as (-> & -> & ->).
  1: by apply list_params_inj, query_of_inj, sent_params_inj.
  6: injection Hl as ->; by apply stroke_params_inj, query_of_inj, sent_params_inj.
  15, 22: cbn [location snd fmap option_fmap option_map] in Hq; apply (inj Some) in Hq; by apply sent_text_inj in Hq as ->.
  all: cbn in Hl, Hb |- *; simplify_eq; try done; congruence.
Qed.

Lemma body_plain o v : well_named o -> c_body (call_of o) = Some v -> plain v = true.
Proof.
  destruct o; cbn [well_named]; intros Hw [= <-]; try (by apply Hw); try done.
  - by destruct description.
  - cbn [plain fmap list_fmap forallb fst snd]. destruct Hw as [_ ->]. by vm_compute.
Qed.

(** C23: the request of an operation says what was meant by it: two operations
    reach the server with the same method, the same URL (as [fetch] parses
    and sends it) and the same JSON text as body exactly when they are the
    same operation with the same arguments, up to empty strings, zeros and
    the default role given for an argument that may be left out.  The
    identifiers consist of letters, digits, hyphens and underscores; names,
    types and searched texts may have any characters; values given as
    bodies are such that [JSON.stringify] can tell them apart (no NaN,
    infinity or negative zero, and keys in the order of the language). *)
Theorem sent_alike stringify base o o'
  (Hjson : forall v w, plain v = true -> plain w = true -> stringify v = stringify w -> v = w)
  (Hw : well_named o) (Hw' : well_named o') :
  on_wire stringify base o = on_wire stringify base o' <-> meaning o = meaning o'.
Proof.
  split; intros E.
  - unfold on_wire in E. injection E as Hm Ht Hb.
    destruct (call_target base o Hw) as (l & El & Et), (call_target base o' Hw') as (l' & El' & Et').
    rewrite Et, Et' in Ht. injection Ht as Hl%app_inv_head Hq. apply meaning_inj; [done|congruence|done|].
    destruct (c_body (call_of o)) as [v|] eqn:Ev, (c_body (call_of o')) as [w|] eqn:Ew; try discriminate Hb; [|done].
    f_equal. apply Hjson; [exact (body_plain o v Hw Ev)|exact (body_plain o' w Hw' Ew)|by injection Hb].
  - unfold on_wire. by rewrite <- (call_meaning o), E, call_meaning.
Qed.

(** An identifier is not encoded, so one with a fragment or with dots is sent
    as another: deleting [7#a] deletes [7], and deleting [../users] does not
    stay among the canvases. *)
Example identifier_normalised :
  url_target [] (c_path (Canvases.delete (js "7#a"))) = url_target [] (c_path (Canvases.delete (js "7"))) /\
  url_target [] (c_path (Canvases.delete (js "../users"))) = ([js "users"], None).
Proof. by vm_compute. Qed.

(** An identifier is not encoded: one with a slash names another operation,
    and deleting a canvas clears it instead. *)
Example identifier_not_encoded :
  Canvases.delete (js "7/strokes") = Canvases.clear (js "7") /\
  Canvases.get (js "suggest?q=a%20b") = Canvases.suggest (js "a b").
Proof. by vm_compute. Qed.

(** ** Requests that are sent again *)

(** A stroke is added once for every answer that is lost.  When the first [k]
    requests of [addStroke] fail on the way, a lost answer being such a
    failure, and the next one is answered, the call returns that answer as if
    the stroke had been submitted once, and the server has got the same POST
    [k + 1] times. *)
Theorem stroke_repeated server onTokenExpired stringify c token id stroke k a v
  (Hk : k <= Drawing.retries c) (Hlost : forall j r, j < k -> exists e, server j r = Throw e)
  (Ha : forall r, server k r = Ok a) (Hok : a_ok a = true) (Hj : is_json a = true) (Hv : a_json a = Ok v) :
  let '(acts, token', res) :=
    perform server onTokenExpired stringify c token (Canvases.addStroke id stroke) in
  res = inl (Some v) /\ token' = token /\
  sends acts = replicate (S k) (Drawing.make_request c token POST (js "/canvases/" ++ id ++ js "/strokes") []
    (Some (stringify stroke))).
Proof.
  unfold perform, Drawing._request. cbn [c_method c_path c_body Canvases.addStroke fmap option_fmap option_map].
  unfold Canvases.canvas. rewrite <- app_assoc. set (r := Drawing.make_request _ _ _ _ _ _).
  destruct (attempts_survive server onTokenExpired r (Drawing.retries c) (Drawing.retries c) 0 token None k a v)
    as (acts & -> & Hs); [done|done| |by rewrite Nat.add_0_l|done..|done].
  intros j Hj'. destruct (Hlost j r) as [e ->]; [lia|]. exact I.
Qed.

(** ** The file-sharing toolkit *)

Import Shared.

(** What is changed at most once: a file is uploaded, an account is made and
    a session is opened with a single request, unless a new token is asked
    for, which takes a second one. *)
Definition unrepeated (k : rcall) : Prop :=
  (exists u p, k = login u p \/ k = signup u p) \/
  exists form f path skip name, upload form f path skip name = Ok k.

Lemma unrepeated_retries k : unrepeated k -> r_retries k = Some 0.
Proof.
  intros [(u & p & [-> | ->])|(form & f & path & skip & name & E)]; [done..|].
  unfold upload in E. destruct f, form; try done. by injection E as <-.
Qed.

Theorem sent_once server onAuthExpired stringify c st k (Hk : unrepeated k) :
  let sent := sends (Shared.run server onAuthExpired stringify c st k).1.1 in
  let most := match onAuthExpired with Some _ => 2 | None => 1 end in
  exists n, 1 <= n <= most /\
    sent = replicate n (ReShare.make_request stringify c st (r_method k) (r_path k) [] (r_body k)).
Proof.
  cbn zeta. unfold Shared.run. rewrite unrepeated_retries by done.
  destruct onAuthExpired as [ask|].
  - by destruct (reshare_attempts server (Some ask) c (r_raw k) stringify st (r_method k) (r_path k) [] (r_body k) (Some 0))
      as [(n & Hn & E) _]; exists n.
  - unfold ReShare._request. cbn [coalesce Nat.add ReShare.attempts].
    set (r := ReShare.make_request _ _ _ _ _ _ _).
    pose proof (reshare_one_acts server None c (r_raw k) r 0 false st) as (Hs & _ & Hnone & _).
    assert ((ReShare.one_attempt server None c (r_raw k) r 0 false st).2 <> inl None) as Hne
      by (unfold ReShare.one_attempt; repeat case_match; done).
    exists 1. split; [lia|]. destruct (ReShare.one_attempt _ _ _ _ _ _ _ _) as [[[acts st'] f] out]. cbn in Hs, Hne.
    destruct out as [[v|]|e]; [done|done|]. by destruct (ApiClients.final e).
Qed.

(** Removing a share never removes the file: what was shared by a user under a
    path is named as [fromUser/path], and the owner's copy is kept; files that
    are deleted without further arguments are. *)
Lemma removed_share combined user path k :
  remove combined user path = Ok k -> exists p, k = delete_call p false /\ p <> [].
Proof.
  unfold remove. destruct combined as [[|??]|], user as [[|??]|], path as [[|??]|]; cbn; intros [= <-]; by eexists.
Qed.

(** ** Errors and listeners *)

Lemma elem_of_entries o k v : map_get o k = Some v -> (k, v) ∈ Errors.entries (JObj o).
Proof.
  intros H. apply list_elem_of_omap. exists k. rewrite H. split; [|done].
  apply elem_of_object_keys. apply map_get_elem in H. apply list_elem_of_fmap. by exists (k, v).
Qed.

(** The message for a user names every field that was refused, with its
    reason. *)
Lemma every_field_named toString e o k v :
  opt_prop (Errors.e_body e) (js "errors") = Some (JObj o) -> map_get o k = Some v ->
  exists text, Errors.getUserMessage toString e = JStr text /\
    includes text (k ++ js ": " ++ Errors.display toString v) = true.
Proof.
  intros E H. unfold Errors.getUserMessage. rewrite E. eexists. split; [done|]. apply join_includes.
  apply list_elem_of_fmap. exists (k, v). split; [done|]. by apply elem_of_entries.
Qed.

(** The sockets a client knows of are numbered below the next one. *)
Definition numbered (l : Listeners.Listening) : Prop :=
  forall c, c ∈ Listeners.callbacks l -> c.1.1 < Socket.made (Listeners.client l).

(** Connecting again, after the connection was lost, makes a new socket, and
    no callback of the application is on it: every event is lost until the
    application registers them again. *)
Theorem listeners_lost l event (Hn : numbered l) (Hc : Socket.connected (Listeners.client l) = false) :
  exists s, Socket.socket (Listeners.client (Listeners.reconnect l)) = Some s /\
    Listeners.reached s event (Listeners.reconnect l) = [].
Proof.
  destruct l as [c cbs]. unfold Listeners.reconnect, Socket.connect in *. cbn in *. rewrite Hc. exists (Socket.made c).
  split; [done|]. unfold Listeners.reached. cbn. apply elem_of_nil_inv. intros k Hk.
  apply list_elem_of_omap in Hk as ([[s ev] k'] & Hin & E). case_bool_decide as Hs; [|done].
  specialize (Hn _ Hin). cbn in Hn, Hs. injection Hs as -> ->. lia.
Qed.

(** ** Witnesses *)

Definition seven : operation := GetStrokes (js "7") (Canvases.MkStrokes (Some 0%Z) (Some 5%Z)).

(** A printer that tells all values apart: the value as a tree of leaves. *)
#[local] Instance num_eq_dec : EqDecision num.
Proof. solve_decision. Defined.
#[local] Instance num_countable : Countable num :=
  inj_countable'
    (fun x : num => match x with
              | SpecFloat.S754_zero s => inl (inl s)
              | SpecFloat.S754_infinity s => inl (inr s)
              | SpecFloat.S754_nan => inr (inl tt)
              | SpecFloat.S754_finite s m e => inr (inr (s, m, e))
              end)
    (fun c => match c with
              | inl (inl s) => SpecFloat.S754_zero s
              | inl (inr s) => SpecFloat.S754_infinity s
              | inr (inl _) => SpecFloat.S754_nan
              | inr (inr (s, m, e)) => SpecFloat.S754_finite s m e
              end) ltac:(by intros []).

Abbreviation leaf := (bool + num + str)%type.

Fixpoint to_tree (v : json) : gen_tree leaf :=
  match v with
  | JNull => GenNode 0 []
  | JBool b => GenLeaf (inl (inl b))
  | JNum n => GenLeaf (inl (inr n))
  | JStr s => GenLeaf (inr s)
  | JArr l => GenNode 1 (map to_tree l)
  | JObj o => GenNode 2 (map (fun kv => GenNode 3 [GenLeaf (inr kv.1); to_tree kv.2]) o)
  end.

Fixpoint of_tree (t : gen_tree leaf) : json :=
  match t with
  | GenLeaf (inl (inl b)) => JBool b
  | GenLeaf (inl (inr n)) => JNum n
  | GenLeaf (inr s) => JStr s
  | GenNode 1 l => JArr (map of_tree l)
  | GenNode 2 l =>
      JObj (map (fun t => match t with GenNode _ [GenLeaf (inr k); v] => (k, of_tree v) | _ => ([], JNull) end) l)
  | GenNode _ _ => JNull
  end.

Lemma of_to_tree : forall v, of_tree (to_tree v) = v.
Proof.
  fix IH 1. intros [|b|n|s|l|o]; cbn; try done; f_equal.
  - induction l as [|x l IHl]; [done|]. cbn. f_equal; [apply IH|exact IHl].
  - induction o as [|[k x] o IHo]; [done|]. cbn. f_equal; [|exact IHo]. f_equal. apply IH.
Defined.

Definition tree_text (v : json) : str := print_bits (to_tree v).

Lemma tree_text_inj v w : tree_text v = tree_text w -> v = w.
Proof.
  intros E%(f_equal (read_bits (A := gen_tree leaf))). unfold tree_text in E. rewrite !read_print_bits in E.
  injection E as E. by rewrite <- (of_to_tree v), E, of_to_tree.
Defined.

Lemma sent_alike_witness :
  let o := GetStrokes (js "7") (Canvases.MkStrokes None (Some 5%Z)) in
  (on_wire tree_text [js "api"] seven = on_wire tree_text [js "api"] o <-> meaning seven = meaning o) /\
  meaning seven = meaning o /\
  on_wire tree_text [js "api"] o =
    (js "GET", ([js "api"; js "canvases"; js "7"; js "strokes"], Some (js "until=5")), None).
Proof.
  cbn zeta. split; [|split; [reflexivity|vm_compute; reflexivity]].
  apply sent_alike; [intros v w _ _; apply tree_text_inj|..]; apply (bool_decide_unpack _); vm_compute; exact I.
Defined.

Definition flaky (i : nat) (r : request) : result answer :=
  match i with O => Throw (js "network") | _ => Ok (toy_answer 200) end.

Lemma stroke_repeated_witness :
  let '(acts, token, res) :=
    perform flaky None (fun _ => js "{}") toy_config None (Canvases.addStroke (js "7") JNull) in
  res = inl (Some JNull) /\ token = None /\
  sends acts = replicate 2 (Drawing.make_request toy_config None POST (js "/canvases/" ++ js "7" ++ js "/strokes") []
    (Some (js "{}"))).
Proof.
  refine (stroke_repeated flaky None (fun _ => js "{}") toy_config None (js "7") JNull 1 (toy_answer 200) JNull
    _ _ _ _ _ _); try reflexivity; [cbn; lia|].
  intros j r Hj. assert (j = 0) as -> by lia. by eexists.
Defined.

Lemma sent_once_witness :
  let c := ReShare.new_config (js "https://x") None None true in
  let k := login (js "ann") (js "secret") in
  let sent := sends (Shared.run flaky None (fun _ => js "{}") c (ReShare.State None []) k).1.1 in
  exists n, 1 <= n <= 1 /\
    sent = replicate n (ReShare.make_request (fun _ => js "{}") c (ReShare.State None []) POST (js "/login") []
      (r_body k)).
Proof.
  refine (sent_once flaky None (fun _ => js "{}") (ReShare.new_config (js "https://x") None None true)
    (ReShare.State None []) (login (js "ann") (js "secret")) _).
  left. exists (js "ann"), (js "secret"). by left.
Defined.

(** Switching retries off has no effect. *)
Example zero_retries_ignored : Drawing.retries (Drawing.new_config (js "https://x") None (Some 0)) = 3.
Proof. reflexivity. Qed.

Lemma listeners_lost_witness :
  let l := Listeners.MkListening (Socket.Client (Some 0) false [] [0] 1) [(0, js "new_line", 7)] in
  exists s, Socket.socket (Listeners.client (Listeners.reconnect l)) = Some s /\
    Listeners.reached s (js "new_line") (Listeners.reconnect l) = [].
Proof.
  apply listeners_lost; [|reflexivity]. intros c Hc. apply list_elem_of_singleton in Hc as ->. cbn. lia.
Defined.
