(* ===== verification/BeaconIssues.v ===== *)
(** * Comments on the documentation

    The comment box of the Beacon pages and the endpoint that turns a comment
    into a GitHub issue: components/CommentSection.tsx and
    pages/api/create-github-issue.ts of src/ecosystem/ai-tools/beacon.

    The session of the user, the clock and GitHub are parameters.  The fields
    of a request are strings or absent. *)

From S2P Require Import Prelude JsString JsArray JsNum Json.

(** ** The limit on requests *)

Record Entry := MkEntry { count : nat; timestamp : Z }.

Section endpoint.
(** [process.env.NODE_ENV === 'production'] and [process.env.NEXTAUTH_URL] *)
Context (production : bool) (NEXTAUTH_URL : option str).

Definition MAX_REQUESTS : nat := if production then 5 else 50.
Definition WINDOW_MS : Z := if production then 60000 else 300000.

Definition isRateLimited (now : Z) (identifier : str) (requestMap : jsmap str Entry) : bool * jsmap str Entry :=
  match map_get requestMap identifier with
  | None => (false, map_set requestMap identifier (MkEntry 1 now))
  | Some e =>
      if (WINDOW_MS <? now - timestamp e)%Z then (false, map_set requestMap identifier (MkEntry 1 now))
      else if (MAX_REQUESTS <=? count e)%nat then (true, requestMap)
      else (false, map_set requestMap identifier (MkEntry (S (count e)) (timestamp e)))
  end.

(** ** The endpoint *)

Record Session := MkSession { accessToken : option str; email : option str }.
Inductive header := Absent | One (value : str) | Several (values : list str).

Record Body := MkBody {
  title : option str;
  text : option str;
  repoOwner : option str;
  repoName : option str;
  labels : option (list str);
}.

Record Request := MkRequest {
  method : str;
  session : result (option Session);
  forwarded : header;
  body : option Body;
}.

Record Issue := MkIssue {
  auth : str;
  owner : str;
  repo : str;
  i_title : str;
  i_body : str;
  i_labels : list str;
}.

Inductive answer :=
| Created (html_url : str) (number : num)
| Refused (status : option Z) (message : option str).

Definition error_reply (status : Z) (message : str) : Z * json := (status, JObj [(js "error", JStr message)]).

Definition given (s : option str) : bool := match s with Some (_ :: _) => true | _ => false end.

Definition userIdentifier (s : Session) (f : header) : str :=
  let header := match f with Several (v :: _) => Some v | One v => Some v | _ => None end in
  str_or (email s) (str_or header (js "anonymous")).

Definition too_many : Z * json :=
  (429%Z, JObj [(js "error", JStr (js "Too many requests. Please try again later."));
              (js "retryAfter", JNum (of_Z (WINDOW_MS / 1000)))]).

Definition signature : str :=
  nl ++ nl ++ js "---" ++ nl ++ js "_Posted via " ++ coalesce NEXTAUTH_URL (js "undefined") ++ js "_".

Definition default_labels : list str := [js "user-feedback"; js "documentation"].

(** What the fields of a request ask for, or why they are refused. *)
Definition issue_of (token : str) (b : Body) : Issue + Z * json :=
  match title b, text b, repoOwner b, repoName b with
  | Some (c :: t), Some (c' :: x), Some (c'' :: o), Some (c3 :: n) =>
      if production && (256 <? length (c :: t))%nat
      then inr (error_reply 400 (js "Title is too long (max 256 characters)"))
      else if production && (65536 <? Z.of_nat (length (c' :: x)))%Z
      then inr (error_reply 400 (js "Body is too long (max 65536 characters)"))
      else inl (MkIssue token (c'' :: o) (c3 :: n) (c :: t) ((c' :: x) ++ signature) (coalesce (labels b) default_labels))
  | _, _, _, _ => inr (error_reply 400 (js "Title, body, repository owner, and repository name are required"))
  end.

Definition created_reply (a : answer) : Z * json :=
  match a with
  | Created url number =>
      (200%Z, JObj [(js "success", JBool true); (js "issueUrl", JStr url); (js "issueNumber", JNum number)])
  | Refused status message =>
      error_reply (match status with Some 0%Z | None => 500%Z | Some s => s end)
        (str_or message (js "Failed to create GitHub issue"))
  end.

(** The endpoint: the new map of requests, the reply and the issue it asked
    GitHub for. *)
Definition handler (github : Issue -> answer) (now : Z) (r : Request) (m : jsmap str Entry)
    : jsmap str Entry * (Z * json) * option Issue :=
  if negb (bool_decide (method r = js "POST")) then (m, error_reply 405 (js "Method not allowed"), None)
  else
    match session r with
    | Throw _ => (m, error_reply 500 (js "Internal server error"), None)
    | Ok (Some (MkSession (Some (c :: t)) e)) =>
        let '(limited, m) := isRateLimited now (userIdentifier (MkSession (Some (c :: t)) e) (forwarded r)) m in
        if limited then (m, too_many, None)
        else
          match body r with
          | None => (m, error_reply 500 (js "Internal server error"), None)
          | Some b =>
              match issue_of (c :: t) b with
              | inr refusal => (m, refusal, None)
              | inl i => (m, created_reply (github i), Some i)
              end
          end
    | Ok _ => (m, error_reply 401 (js "Unauthorized - Please sign in with GitHub"), None)
    end.

(** A sequence of requests with their times: for each its time, the user and
    the issue. *)
Definition user_of (r : Request) : option str :=
  match session r with
  | Ok (Some s) => Some (userIdentifier s (forwarded r))
  | _ => None
  end.

Fixpoint serve (github : Issue -> answer) (rs : list (Z * Request)) (m : jsmap str Entry)
    : list (Z * option str * option Issue) :=
  match rs with
  | [] => []
  | (now, r) :: rs' =>
      let '(m', _, i) := handler github now r m in (now, user_of r, i) :: serve github rs' m'
  end.
End endpoint.

(** ** The comment box *)

Record Comments := MkComments {
  comment : str;
  isSubmitting : bool;
  error : option str;
  success : bool;
  (** Someone is signed in. *)
  user : bool;
}.

Definition new_comments (u : bool) : Comments := MkComments [] false None false u.

(** The body of the request, before it is sent. *)
Definition comment_body (pageTitle repoOwner repoName : str) (labels : option (list str)) (c : Comments) : Body :=
  MkBody (Some (js "Feedback: " ++ pageTitle)) (Some (comment c)) (Some repoOwner) (Some repoName)
    (Some (coalesce labels default_labels)).

Definition failed (message : str) (c : Comments) : Comments :=
  MkComments (comment c) false (Some message) (success c) (user c).

(** [handleSubmit]; [post] is the endpoint, or how the request failed. *)
Definition handleSubmit (post : Body -> result (Z * json)) (pageTitle repoOwner repoName : str)
    (labels : option (list str)) (c : Comments) : Comments :=
  if negb (user c)
  then MkComments (comment c) (isSubmitting c) (Some (js "Please sign in with GitHub to submit a comment"))
         (success c) (user c)
  else
    match post (comment_body pageTitle repoOwner repoName labels c) with
    | Throw e => failed e c
    | Ok (status, reply) =>
        if ((200 <=? status) && (status <=? 299))%Z then MkComments [] false None true (user c)
        else
          match reply with
          | JNull => failed (js "Cannot read properties of null (reading 'error')") c
          | _ => failed (str_or (as_str (prop reply (js "error"))) (js "Failed to create GitHub issue")) c
          end
    end.

(** What an issue takes from the fields of a request. *)
Lemma issue_of_fields production url token b i :
  issue_of production url token b = inl i ->
  token = auth i /\ exists x, title b = Some (i_title i) /\ text b = Some x /\ x <> [] /\ i_body i = x ++ signature url /\
    (production = true -> length (i_title i) <= 256 /\ (Z.of_nat (length x) <= 65536)%Z).
Proof.
  unfold issue_of. destruct (title b) as [[|c1 s1]|] eqn:E1; try done.
  destruct (text b) as [[|c2 s2]|] eqn:E2; try done. destruct (repoOwner b) as [[|c3 s3]|]; try done.
  destruct (repoName b) as [[|c4 s4]|]; try done.
  destruct (production && _) eqn:L1; [done|]. destruct (production && (65536 <? _)%Z) eqn:L2; [done|].
  intros [= <-]. cbn [auth i_title i_body]. split; [done|]. exists (c2 :: s2). split_and!; try done.
  intros ->. cbn [andb] in *. apply Nat.ltb_ge in L1. apply Z.ltb_ge in L2. split; done.
Qed.

(** ** The limit holds *)

Section limit.
Context (production : bool) (url : option str) (github : Issue -> answer).
Abbreviation MAX := (MAX_REQUESTS production).
Abbreviation W := (WINDOW_MS production).
Abbreviation handle := (handler production url github).

(** The entry of a user after a request that is let through, [None] when it
    is not. *)
Definition let_through (now : Z) (e : option Entry) : option Entry :=
  match e with
  | None => Some (MkEntry 1 now)
  | Some e =>
      if (W <? now - timestamp e)%Z then Some (MkEntry 1 now)
      else if (MAX <=? count e)%nat then None else Some (MkEntry (S (count e)) (timestamp e))
  end.

Lemma isRateLimited_spec now id m :
  isRateLimited production now id m =
  match let_through now (map_get m id) with Some e => (false, map_set m id e) | None => (true, m) end.
Proof. unfold isRateLimited, let_through. repeat case_match; simplify_eq; done. Qed.

(** A request leaves the entry of a user alone and opens no issue of theirs,
    or it is let through. *)
Lemma handler_entry now r m u :
  let '(m', _, i) := handle now r m in
  (map_get m' u = map_get m u /\ (i = None \/ user_of r <> Some u)) \/
  (user_of r = Some u /\ exists e, let_through now (map_get m u) = Some e /\ map_get m' u = Some e).
Proof.
  unfold handler, user_of. case_bool_decide; cbn [negb]; [|by auto].
  destruct (session r) as [[[tok em]|]|]; try by auto. destruct tok as [[|c t]|]; try by auto.
  rewrite isRateLimited_spec. set (id := userIdentifier _ _).
  destruct (let_through now (map_get m id)) as [e|] eqn:E; [|by auto].
  assert (forall i : option Issue,
    (map_get (map_set m id e) u = map_get m u /\ (i = None \/ Some id <> Some u)) \/
    (Some id = Some u /\ exists e0, let_through now (map_get m u) = Some e0 /\ map_get (map_set m id e) u = Some e0)) as H'.
  { intros i. destruct (decide (id = u)) as [<-|Hne].
    - right. split; [done|]. exists e. by rewrite map_get_set_eq.
    - left. rewrite map_get_set_ne by done. split; [done|right; congruence]. }
  destruct (body r) as [b|]; [|apply H']. destruct (issue_of _ _ _ b); apply H'.
Qed.

Lemma let_through_count now e e' :
  (forall x, e = Some x -> 1 <= count x <= MAX) -> let_through now e = Some e' -> 1 <= count e' <= MAX.
Proof.
  intros He. assert (1 <= MAX) by (unfold MAX_REQUESTS; destruct production; lia).
  unfold let_through. destruct e as [x|]; [|by intros [= <-]]. pose proof (He x eq_refl).
  repeat case_match; intros [= <-]; cbn; [lia|].
  match goal with H : (_ <=? _)%nat = false |- _ => apply Nat.leb_gt in H end. lia.
Qed.

(** The issues a user opened between [a] and [a + W]. *)
Definition opened (u : str) (a : Z) (out : list (Z * option str * option Issue)) : nat :=
  length (filterb (fun x => bool_decide (x.1.2 = Some u) && bool_decide (is_Some x.2) &&
    ((a <=? x.1.1) && (x.1.1 <=? a + W))%Z) out).

Definition limits_ok (m : jsmap str Entry) : Prop := forall u e, map_get m u = Some e -> 1 <= count e <= MAX.

(** What is left for a user from [a] on. *)
Definition left_over (a : Z) (e : option Entry) : nat :=
  match e with
  | None => 2 * MAX
  | Some e => if (a <=? timestamp e)%Z then MAX - count e else 2 * MAX - count e
  end.

Lemma opened_cons u a x out :
  opened u a (x :: out) =
  (if bool_decide (x.1.2 = Some u) && bool_decide (is_Some x.2) && ((a <=? x.1.1) && (x.1.1 <=? a + W))%Z
   then 1 else 0) + opened u a out.
Proof. unfold opened. cbn. by case_match. Qed.

Lemma opened_after u a rs m :
  Forall (fun x => (a + W < x.1)%Z) rs -> opened u a (serve production url github rs m) = 0.
Proof.
  intros H. revert m. induction H as [|[now r] rs Hx H IH]; intros m; [done|]. cbn [serve].
  destruct (handle now r m) as [[m' p] i]. rewrite opened_cons, IH. cbn in *.
  rewrite (proj2 (Z.leb_gt _ _) Hx). by rewrite !andb_false_r.
Qed.

Lemma limits_step now r m : limits_ok m -> limits_ok (handle now r m).1.1.
Proof.
  intros Hm u e. pose proof (handler_entry now r m u) as H. destruct (handle now r m) as [[m' p] i]. cbn.
  destruct H as [[-> _]|(_ & e' & Ha & ->)]; [apply Hm|]. intros [= ->]. eapply let_through_count; [|done]. apply Hm.
Qed.

(** What a request that is let through takes from what is left. *)
Lemma left_over_step now a e e' :
  (a <= now)%Z -> (forall x, e = Some x -> 1 <= count x <= MAX) -> let_through now e = Some e' ->
  (exists x, e = Some x /\ (a <= timestamp x)%Z /\ (a + W < now)%Z) \/ S (left_over a (Some e')) <= left_over a e.
Proof.
  intros Ha He. assert (1 <= MAX) by (unfold MAX_REQUESTS; destruct production; lia).
  unfold let_through, left_over. destruct e as [x|].
  - pose proof (He x eq_refl). destruct (W <? now - timestamp x)%Z eqn:Ew.
    + apply Z.ltb_lt in Ew. intros [= <-]. cbn. rewrite (proj2 (Z.leb_le a now)) by lia.
      destruct (a <=? timestamp x)%Z eqn:Es; [left|right; lia]. apply Z.leb_le in Es. exists x. split_and!; [done|lia..].
    + destruct (MAX <=? count x)%nat eqn:Em; [done|]. apply Nat.leb_gt in Em. intros [= <-]. right. cbn.
      destruct (a <=? timestamp x)%Z; lia.
  - intros [= <-]. right. cbn. rewrite (proj2 (Z.leb_le a now)) by lia. lia.
Qed.

Abbreviation in_order := (StronglySorted (fun x y : Z * Request => (x.1 <= y.1)%Z)).

Lemma opened_from u a rs m :
  limits_ok m -> in_order rs -> Forall (fun x => (a <= x.1)%Z) rs ->
  opened u a (serve production url github rs m) <= left_over a (map_get m u).
Proof.
  intros Hm Hs Ha. revert m Hm. induction rs as [|[now r] rs IH]; intros m Hm; [cbn; lia|].
  apply StronglySorted_inv in Hs as [Hs Hnow]. apply Forall_cons in Ha as [Ha Has]. cbn in Ha. cbn [serve].
  pose proof (handler_entry now r m u) as H. pose proof (limits_step now r m Hm) as Hm'.
  destruct (handle now r m) as [[m' p] i]. cbn in Hm'. specialize (IH Hs Has m' Hm').
  rewrite opened_cons. cbn [fst snd].
  destruct H as [[E Hi]|(Hu & e & Ht & E)].
  - rewrite E in IH. assert (bool_decide (user_of r = Some u) && bool_decide (is_Some i) = false) as ->; [|cbn; lia].
    destruct Hi as [-> | Hi]; [by rewrite andb_false_r|by rewrite bool_decide_eq_false_2].
  - rewrite E in IH. destruct (left_over_step now a _ e Ha (Hm u) Ht) as [(x & Ex & Hx & Hlate)|Hle].
    + assert ((a <=? now) && (now <=? a + W) = false)%Z as ->
        by (rewrite (proj2 (Z.leb_gt _ _) Hlate); apply andb_false_r).
      rewrite andb_false_r, opened_after; [cbn; lia|]. eapply Forall_impl; [exact Hnow|]. cbn. intros y Hy. lia.
    + destruct (_ && _); lia.
Qed.

(** C13: the limit of the endpoint is one per window, and windows follow each
    other, so in any period as long as the window a user opens at most twice
    the maximum of issues, whatever requests are made, by whom, and whatever
    GitHub answers. *)
Theorem issues_limited rs u a (Hs : in_order rs) :
  opened u a (serve production url github rs []) <= 2 * MAX.
Proof.
  assert (forall e, left_over a e <= 2 * MAX) as Hl by (intros [e|]; cbn; [case_match|]; lia).
  cut (forall m, limits_ok m -> opened u a (serve production url github rs m) <= 2 * MAX); [intros H; by apply H|].
  induction rs as [|[now r] rs IH]; intros m Hm; [cbn; lia|].
  destruct (decide (a <= now)%Z) as [Ha|Ha].
  - etrans; [|apply Hl]. apply opened_from; [done..|]. apply StronglySorted_inv in Hs as [_ Hnow].
    constructor; [done|]. eapply Forall_impl; [exact Hnow|]. cbn. intros y Hy. lia.
  - apply StronglySorted_inv in Hs as [Hs _]. pose proof (limits_step now r m Hm) as Hm'. cbn [serve].
    destruct (handle now r m) as [[m' p] i]. rewrite opened_cons. cbn [fst snd].
    rewrite (proj2 (Z.leb_gt a now)) by lia. rewrite andb_false_r. by apply IH.
Qed.

(** An issue is opened only for a POST of a user who is signed in, with the
    token of their session and under the title they gave, and in production
    only when title and text are not too long. *)
Theorem issue_authorised now r m i (Hi : (handle now r m).2 = Some i) :
  method r = js "POST" /\ (exists e, session r = Ok (Some (MkSession (Some (auth i)) e))) /\ auth i <> [] /\
  exists b x, body r = Some b /\ title b = Some (i_title i) /\ text b = Some x /\ x <> [] /\
    i_body i = x ++ signature url /\
    (production = true -> length (i_title i) <= 256 /\ (Z.of_nat (length x) <= 65536)%Z).
Proof.
  unfold handler in Hi. case_bool_decide as Hp; cbn [negb] in Hi; [|done].
  destruct (session r) as [[[[[|c t]|] em]|]|]; try done.
  destruct (isRateLimited _ _ _ _) as [[] m']; [done|]. destruct (body r) as [b|]; [|done].
  destruct (issue_of _ _ _ b) as [i'|] eqn:E; [|done]. injection Hi as ->.
  apply issue_of_fields in E as (Ea & x & Et & Ex & Hx & Eb & Hl). cbn. rewrite <- Ea.
  split_and!; [done|by eexists|done|]. by exists b, x.
Qed.
End limit.

(** ** Commenting *)

(** The request of the comment box as the endpoint gets it. *)
Definition posted (s : Session) (f : header) (b : Body) : Request := MkRequest (js "POST") (Ok (Some s)) f (Some b).

Definition post_comment production url github now s f m (b : Body) : result (Z * json) :=
  Ok (handler production url github now (posted s f b) m).1.2.

Lemma refusal_error production token url b x :
  issue_of production url token b = inr x -> exists e, x = error_reply 400 e /\ e <> [].
Proof. unfold issue_of. intros E. repeat (case_match; try done); injection E as <-; by eexists. Qed.

(** A comment is posted or kept.  When someone who is signed in submits a
    comment, an issue with the comment as its text has been created and the
    box is empty, or the comment is still there, and the reason is shown. *)
Theorem comment_posted_or_kept production url github now s f m pageTitle o n l c
  (Hu : user c = true)
  (Hgh : forall i st msg, github i = Refused (Some st) msg -> ~ (200 <= st <= 299)%Z) :
  let post := post_comment production url github now s f m in
  let c' := handleSubmit post pageTitle o n l c in
  isSubmitting c' = false /\
  ((exists i link number, (handler production url github now (posted s f (comment_body pageTitle o n l c)) m).2 = Some i /\
      i_title i = js "Feedback: " ++ pageTitle /\ i_body i = comment c ++ signature url /\
      github i = Created link number /\ c' = MkComments [] false None true true) \/
   (comment c' = comment c /\ exists e, error c' = Some e /\ e <> [])).
Proof.
  cbn zeta. unfold handleSubmit, post_comment. rewrite Hu. cbn [negb]. unfold handler, posted. cbn [method session forwarded body].
  rewrite bool_decide_eq_true_2 by done. cbn [negb].
  destruct s as [[[|x t]|] em]; try (cbn; split; [done|]; right; by split; [|eexists]).
  destruct (isRateLimited _ _ _ _) as [[] m']; [cbn; split; [done|]; right; by split; [|eexists]|].
  destruct (issue_of production url (x :: t) _) as [i|refusal] eqn:E.
  - cbn [fst snd]. destruct (github i) as [link number|st msg] eqn:Eg; cbn [created_reply].
    + cbn. split; [done|]. left. exists i, link, number.
      apply issue_of_fields in E as (_ & y & Et & Ey & _ & Eb & _). injection Et as <-. injection Ey as <-. done.
    + set (st' := match st with Some 0%Z | None => 500%Z | Some s => s end).
      assert (~ (200 <= st' <= 299)%Z) as Hst.
      { subst st'. destruct st as [[| |]|]; try lia; by eapply Hgh. }
      destruct ((200 <=? st') && (st' <=? 299))%Z eqn:Eb; [lia|].
      unfold error_reply. rewrite Eb. cbn. split; [done|]. right. split; [done|].
      destruct msg as [[|??]|]; cbn; by eexists.
  - apply refusal_error in E as (e & -> & He). cbn. split; [done|]. right. split; [done|].
    destruct e; [done|]. by eexists.
Qed.

(** A comment that failed after one that was posted: the page says both that
    it failed and that it was posted. *)
Example success_stays :
  let c := handleSubmit (fun _ => Ok (error_reply 429 (js "Too many requests."))) (js "Intro") (js "o") (js "r") None
    (MkComments (js "again") false None true true) in
  success c = true /\ error c = Some (js "Too many requests.").
Proof. by vm_compute. Qed.

(** ** Witnesses *)

Definition toy_session : Session := MkSession (Some (js "token")) (Some (js "ann@x")).
Definition toy_body : Body := MkBody (Some (js "t")) (Some (js "b")) (Some (js "o")) (Some (js "r")) None.
Definition toy_github (i : Issue) : answer := Created (js "https://x/1") (of_Z 1).
Definition burst (t : Z) (k : nat) : list (Z * Request) := replicate k (t, posted toy_session Absent toy_body).

(** Five requests at the end of a window and five at the start of the next
    one are all let through. *)
Lemma issues_limited_witness :
  let rs := burst 0 1 ++ burst 60000 5 ++ burst 60001 6 in
  opened true (js "ann@x") 60000 (serve true None toy_github rs []) <= 2 * MAX_REQUESTS true /\
  opened true (js "ann@x") 60000 (serve true None toy_github rs []) = 9.
Proof.
  cbn zeta. split; [|vm_compute; reflexivity]. apply issues_limited. cbn. repeat constructor; cbn; lia.
Defined.

Lemma issue_authorised_witness :
  let i := MkIssue (js "token") (js "o") (js "r") (js "t") (js "b" ++ signature None) default_labels in
  js "POST" = js "POST" /\ (exists e, Ok (Some toy_session) = Ok (Some (MkSession (Some (auth i)) e))) /\ auth i <> [] /\
  exists b x, Some toy_body = Some b /\ title b = Some (i_title i) /\ text b = Some x /\ x <> [] /\
    i_body i = x ++ signature None /\
    (true = true -> length (i_title i) <= 256 /\ (Z.of_nat (length x) <= 65536)%Z).
Proof.
  refine (issue_authorised true None toy_github 0 (posted toy_session Absent toy_body) []
    (MkIssue (js "token") (js "o") (js "r") (js "t") (js "b" ++ signature None) default_labels) _).
  vm_compute. reflexivity.
Defined.

Lemma comment_posted_or_kept_witness :
  let c := MkComments (js "Nice") false None false true in
  let post := post_comment true None toy_github 0 toy_session Absent [] in
  let c' := handleSubmit post (js "Intro") (js "o") (js "r") None c in
  isSubmitting c' = false /\
  ((exists i link number, (handler true None toy_github 0
        (posted toy_session Absent (comment_body (js "Intro") (js "o") (js "r") None c)) []).2 = Some i /\
      i_title i = js "Feedback: " ++ js "Intro" /\ i_body i = comment c ++ signature None /\
      toy_github i = Created link number /\ c' = MkComments [] false None true true) \/
   (comment c' = comment c /\ exists e, error c' = Some e /\ e <> [])).
Proof.
  refine (comment_posted_or_kept true None toy_github 0 toy_session Absent [] (js "Intro") (js "o") (js "r") None
    (MkComments (js "Nice") false None false true) _ _); [reflexivity|].
  intros i st msg E. discriminate E.
Defined.
