(* ===== verification/BeaconAssist.v ===== *)
(** * The assistants of the documentation

    Of src/ecosystem/ai-tools/beacon: the endpoint that relays the answers of
    a language model (app/api/chat/route.ts), the chat beside the playgrounds
    (components/TypeScriptPlayground.tsx, and the same in
    PythonPlayground.tsx), running Python code (PythonPlayground.tsx) and the
    assistant that explains selected text (FloatingAssistant.tsx).

    What is read from the network are arrays of bytes, each of which is
    decoded on its own.  The model, the network, the Python interpreter and
    the parser of JSON are parameters. *)

From S2P Require Import Prelude JsString JsArray JsNum Json Uri TextCodec.

(** ** The relay *)

Module Relay.
Section relay.
Context (JSON_parse : str -> result json) (toString : json -> str).

(** [choices[0]] *)
Definition first_choice (choices : json) : option json :=
  match choices with
  | JArr l => head l
  | JObj o => map_get o (js "0")
  | JStr (c :: _) => Some (JStr [c])
  | _ => None
  end.

(** [parsed.choices[0]?.delta?.content || ''] *)
Definition content_of (parsed : json) : result str :=
  match parsed with
  | JNull => Throw (js "Cannot read properties of null (reading 'choices')")
  | _ =>
      match prop parsed (js "choices") with
      | None => Throw (js "Cannot read properties of undefined (reading '0')")
      | Some JNull => Throw (js "Cannot read properties of null (reading '0')")
      | Some choices =>
          let content := opt_prop (opt_prop (first_choice choices) (js "delta")) (js "content") in
          Ok (if truthy content then match content with Some (JStr s) => s | Some v => toString v | None => [] end
              else [])
      end
  end.

(** What a line of the model's answer adds to the stream. *)
Definition relay_line (line : str) : list str :=
  if startsWith line (js "data: ") then
    let data := drop 6 line in
    if bool_decide (data = js "[DONE]") then []
    else
      match JSON_parse data with
      | Throw _ => []
      | Ok parsed => match content_of parsed with Ok (c :: s) => [c :: s] | _ => [] end
      end
  else [].

Definition relay_chunk (chunk : str) : list str :=
  concat (relay_line <$> filterb (fun l => negb (bool_decide (trim l = []))) (split chunk nl)).

(** The answer of the model: an error status, or its chunks and whether
    reading them failed in the end; no body at all is no chunks. *)
Inductive upstream := Status (status : Z) | Chunks (chunks : list bytes) (failed : bool).

Inductive reply :=
| Plain (status : Z) (text : str)
| Stream (pieces : list bytes) (failed : bool)
| Failure.

(** [...messages] *)
Definition spread (messages : option json) : option (list json) :=
  match messages with
  | Some (JArr l) => Some l
  | Some (JStr s) => Some ((fun c => JStr [c]) <$> s)
  | _ => None
  end.

Definition model_request (systemPrompt : str) (messages : list json) : json :=
  JObj [(js "model", JStr (js "deepseek-chat"));
        (js "messages", JArr (JObj [(js "role", JStr (js "system")); (js "content", JStr systemPrompt)] :: messages));
        (js "stream", JBool true)].

(** [POST]: the request to the model and the reply. *)
Definition POST (systemPrompt : str) (model : json -> result upstream) (request : result json)
    : option json * reply :=
  match request with
  | Throw _ | Ok JNull => (None, Failure)
  | Ok body =>
      match spread (prop body (js "messages")) with
      | None => (None, Failure)
      | Some messages =>
          let q := model_request systemPrompt messages in
          (Some q,
           match model q with
           | Throw _ => Failure
           | Ok (Status s) => Plain s (js "Error from DeepSeek API")
           | Ok (Chunks chunks failed) =>
               Stream (concat ((fun value => encode <$> relay_chunk (decode value)) <$> chunks)) failed
           end)
      end
  end.

(** *** Nothing is lost when lines arrive whole *)

Definition lines_text (ls : list str) : str := concat ((fun l => l ++ nl) <$> ls).

Lemma lines_text_join ls t : lines_text ls ++ t = join (ls ++ [t]) nl.
Proof.
  induction ls as [|l ls IH]; [done|]. unfold lines_text in *. cbn [fmap list_fmap concat]. rewrite <- app_assoc, IH.
  destruct ls as [|l' ls]; cbn [app join]; by rewrite <- ?app_assoc.
Qed.

Lemma relay_blank l : trim l = [] -> relay_line l = [].
Proof.
  intros E. unfold relay_line. destruct (startsWith l (js "data: ")) eqn:H; [|done].
  apply startsWith_spec in H as [t ->]. apply trim_nil_spaces in E. by apply Forall_inv in E.
Qed.

Lemma relay_filtered k :
  concat (relay_line <$> filterb (fun l => negb (bool_decide (trim l = []))) k) = concat (relay_line <$> k).
Proof.
  induction k as [|l k IH]; [done|]. rewrite fmap_cons. cbn [concat]. rewrite <- IH.
  unfold filterb. cbn [List.filter]. case_bool_decide as E; cbn [negb]; [|done]. by rewrite relay_blank.
Qed.

Lemma relay_join ls :
  ls <> [] -> Forall (fun l => newline ∉ l) ls -> relay_chunk (join ls nl) = concat (relay_line <$> ls).
Proof. intros Hne H. unfold relay_chunk, nl. by rewrite split_join, relay_filtered. Qed.

Lemma relay_chunk_cut ls t :
  Forall (fun l => newline ∉ l) ls -> newline ∉ t ->
  relay_chunk (lines_text ls ++ t) = concat (relay_line <$> ls) ++ relay_line t.
Proof.
  intros H Ht. rewrite lines_text_join, relay_join; [|by destruct ls|apply Forall_app; by repeat constructor].
  rewrite fmap_app, concat_app. cbn. by rewrite app_nil_r.
Qed.

Lemma relay_chunk_lines ls :
  Forall (fun l => newline ∉ l) ls -> relay_chunk (lines_text ls) = concat (relay_line <$> ls).
Proof.
  intros H. rewrite <- (app_nil_r (lines_text ls)), relay_chunk_cut; [apply app_nil_r|done|by intros ?%elem_of_nil].
Qed.

(** When the chunks of the model's answer end at ends of lines, the reader
    gets the contents of all its lines, in order. *)
Lemma relay_complete groups :
  Forall (Forall (fun l => newline ∉ l)) groups ->
  concat (relay_chunk <$> (lines_text <$> groups)) = concat (relay_line <$> concat groups).
Proof.
  induction 1 as [|g gs Hg _ IH]; [done|]. cbn [fmap list_fmap concat]. rewrite IH, relay_chunk_lines by done.
  by rewrite fmap_app, concat_app.
Qed.

(** The bytes the reader gets then. *)
Lemma relay_bytes groups :
  Forall (Forall (fun l => newline ∉ l)) groups ->
  concat (concat ((fun value => encode <$> relay_chunk (decode value)) <$> (encode <$> (lines_text <$> groups)))) =
  encode (concat (concat (relay_line <$> concat groups))).
Proof.
  intros H. rewrite <- relay_complete by done.
  induction (lines_text <$> groups) as [|g gs IH]; [done|].
  rewrite !fmap_cons. cbn [concat]. by rewrite !concat_app, encode_app, IH, !encode_concat, text_decode_encode.
Qed.

(** A line that the network cuts in two is lost.  Its first part is no JSON
    and its second part does not look like data, so neither adds anything to
    the answer; nothing is kept from one chunk for the next. *)
Theorem cut_line_lost a b before after
  (Ha : forall d, js "data: " ++ d = a -> d <> js "[DONE]" /\ exists e, JSON_parse d = Throw e)
  (Hb : startsWith b (js "data: ") = false) (Hna : newline ∉ a ++ b)
  (Hbefore : Forall (fun l => newline ∉ l) before) (Hafter : Forall (fun l => newline ∉ l) after) :
  concat (relay_chunk <$> [lines_text before ++ a; b ++ nl ++ lines_text after]) =
  concat (relay_line <$> before) ++ concat (relay_line <$> after).
Proof.
  cbn [fmap list_fmap concat]. rewrite app_nil_r. rewrite relay_chunk_cut by set_solver.
  rewrite (app_assoc b nl).
  change ((b ++ nl) ++ lines_text after) with (lines_text (b :: after)).
  rewrite relay_chunk_lines by (constructor; [set_solver|done]). cbn [fmap list_fmap concat].
  assert (relay_line b = []) as -> by (unfold relay_line; by rewrite Hb).
  assert (relay_line a = []) as ->; [|by rewrite app_nil_r].
  unfold relay_line. destruct (startsWith a (js "data: ")) eqn:E; [|done].
  apply startsWith_spec in E as [d ->]. destruct (Ha d eq_refl) as [Hd [e He]]. change (drop 6 _) with d.
  by rewrite bool_decide_eq_false_2, He.
Qed.
End relay.
End Relay.

(** ** The chat beside a playground *)

Module Chat.

Inductive role := User | Assistant.
Record Message := MkMessage { m_role : role; m_content : str }.

(** A request whose answer is read: its controller, the text so far, and
    whether it was aborted. *)
Record Pending := MkPending { p_id : nat; p_text : str; p_aborted : bool }.

Record Chat := MkChat {
  messages : list Message;
  input : str;
  isAiLoading : bool;
  abortController : option nat;
  pending : list Pending;
  made : nat;
  (** Rendering failed, and the page is gone. *)
  crashed : bool;
  (** The conversations sent to the endpoint, the latest last. *)
  sent : list (list Message);
}.

Definition new_chat : Chat := MkChat [] [] false None [] 0 false [].

Definition set_messages (ms : list Message) (c : Chat) : Chat :=
  MkChat ms (input c) (isAiLoading c) (abortController c) (pending c) (made c) (crashed c) (sent c).
Definition set_pending (ps : list Pending) (c : Chat) : Chat :=
  MkChat (messages c) (input c) (isAiLoading c) (abortController c) ps (made c) (crashed c) (sent c).
Definition setInput (s : str) (c : Chat) : Chat :=
  MkChat (messages c) s (isAiLoading c) (abortController c) (pending c) (made c) (crashed c) (sent c).
Definition crash (c : Chat) : Chat :=
  MkChat (messages c) (input c) (isAiLoading c) (abortController c) (pending c) (made c) true (sent c).

Definition find_pending (k : nat) (c : Chat) : option Pending :=
  find (fun p => (p_id p =? k)%nat) (pending c).

(** [handleSubmit] up to the request. *)
Definition handleSubmit (c : Chat) : Chat :=
  match trim (input c) with
  | [] => c
  | _ =>
      let ms := messages c ++ [MkMessage User (input c)] in
      MkChat ms [] true (Some (made c)) (pending c ++ [MkPending (made c) [] false]) (S (made c)) (crashed c)
        (sent c ++ [ms])
  end.

(** The [finally] block. *)
Definition finish (k : nat) (c : Chat) : Chat :=
  MkChat (messages c) (input c) false None (filterb (fun p => negb (p_id p =? k)%nat) (pending c)) (made c) (crashed c)
    (sent c).

Definition say (s : string) (c : Chat) : Chat := set_messages (messages c ++ [MkMessage Assistant (js s)]) c.

Definition on_error (k : nat) (aborted : bool) (c : Chat) : Chat :=
  finish k (say (if aborted then "Response generation stopped."
                 else "Sorry, there was an error processing your request.") c).

(** The last message gets the text of the answer so far, or it becomes a
    message of its own; without a last message the updater throws. *)
Definition show (text : str) (c : Chat) : Chat :=
  match last (messages c) with
  | None => crash c
  | Some (MkMessage Assistant _) => set_messages (removelast (messages c) ++ [MkMessage Assistant text]) c
  | Some (MkMessage User _) => set_messages (messages c ++ [MkMessage Assistant text]) c
  end.

(** [value] is what one read gave. *)
Inductive outcome := Answered (ok : bool) | Piece (value : bytes) | End | Failed.

(** What a pending request waits for happens; once it is aborted, that is an
    error. *)
Definition on_outcome (k : nat) (o : outcome) (c : Chat) : Chat :=
  match find_pending k c with
  | None => c
  | Some p =>
      if p_aborted p then on_error k true c
      else
        match o with
        | Answered true => c
        | Answered false | Failed => on_error k false c
        | Piece value =>
            let text := p_text p ++ decode value in
            show text (set_pending ((fun q => if (p_id q =? k)%nat then MkPending k text (p_aborted q) else q) <$> pending c) c)
        | End => finish k c
        end
  end.

Definition stopGeneration (c : Chat) : Chat :=
  match abortController c with
  | None => c
  | Some k =>
      MkChat (messages c) (input c) (isAiLoading c) None
        ((fun q => if (p_id q =? k)%nat then MkPending k (p_text q) true else q) <$> pending c)
        (made c) (crashed c) (sent c)
  end.

Definition clearConversation (c : Chat) : Chat := set_messages [] c.

Inductive event :=
| Type_ (text : str)
| Send
| Stop
| Clear
| Happens (k : nat) (o : outcome).

(** While an answer is awaited the text field is disabled and the button
    stops it; an empty conversation cannot be cleared. *)
Definition on_event (e : event) (c : Chat) : Chat :=
  if crashed c then c
  else
    match e with
    | Type_ t => if isAiLoading c then c else setInput t c
    | Send => if isAiLoading c then c else handleSubmit c
    | Stop => if isAiLoading c then stopGeneration c else c
    | Clear => match messages c with [] => c | _ => clearConversation c end
    | Happens k o => on_outcome k o c
    end.

Definition on_events (es : list event) (c : Chat) : Chat := foldl (fun c e => on_event e c) c es.

(** *** One request at a time *)

Definition chat_ok (c : Chat) : Prop :=
  match pending c with
  | [] => isAiLoading c = false /\ abortController c = None
  | [p] => isAiLoading c = true /\ p_id p < made c /\ abortController c = (if p_aborted p then None else Some (p_id p))
  | _ => False
  end.

Lemma handleSubmit_ok c : isAiLoading c = false -> chat_ok c -> chat_ok (handleSubmit c).
Proof.
  unfold chat_ok, handleSubmit. intros Hl Hc. destruct (trim (input c)); [done|]. cbn.
  destruct (pending c) as [|p [|? ?]]; [|by destruct Hc as [? _]; congruence|done]. cbn. split_and!; [done|lia|done].
Qed.

Lemma finish_ok k c p : pending c = [p] -> p_id p = k -> chat_ok (finish k c).
Proof. intros E <-. unfold chat_ok, finish. cbn. rewrite E. cbn. by rewrite Nat.eqb_refl. Qed.

Lemma show_pending t c :
  pending (show t c) = pending c /\ isAiLoading (show t c) = isAiLoading c /\
  abortController (show t c) = abortController c /\ made (show t c) = made c.
Proof. unfold show. by destruct (last (messages c)) as [[[] ?]|]. Qed.

Lemma find_only k c p q : pending c = [q] -> find_pending k c = Some p -> p = q /\ p_id q = k.
Proof.
  intros E. unfold find_pending. rewrite E. cbn. destruct (Nat.eqb_spec (p_id q) k); [|done]. by intros [= ->].
Qed.

Lemma on_outcome_ok k o c : chat_ok c -> chat_ok (on_outcome k o c).
Proof.
  intros Hc. unfold on_outcome. destruct (find_pending k c) as [p|] eqn:E; [|done].
  unfold chat_ok in Hc. destruct (pending c) as [|q [|? ?]] eqn:Ep; [by unfold find_pending in E; rewrite Ep in E| |done].
  destruct (find_only k c p q Ep E) as [-> Hk].
  assert (forall b, chat_ok (on_error k b c)) as Herr by (intros b; by eapply finish_ok).
  destruct (p_aborted q) eqn:Ea; [done|]. destruct o as [[]|t| |]; try done.
  - unfold chat_ok. rewrite Ep, Ea. exact Hc.
  - unfold chat_ok. set (c' := set_pending _ c). destruct (show_pending (p_text q ++ decode t) c') as (-> & -> & -> & ->).
    subst c'. cbn. subst k. rewrite Nat.eqb_refl. cbn. rewrite Ea. exact Hc.
  - by eapply finish_ok.
Qed.

Lemma on_event_chat e c : chat_ok c -> chat_ok (on_event e c).
Proof.
  intros Hc. unfold on_event. destruct (crashed c); [done|]. destruct e as [t| | | |k o].
  - by destruct (isAiLoading c) eqn:E.
  - destruct (isAiLoading c) eqn:E; [done|by apply handleSubmit_ok].
  - destruct (isAiLoading c) eqn:E; [|done]. unfold stopGeneration. destruct (abortController c) as [k|] eqn:Ec; [|done].
    unfold chat_ok in *. cbn. destruct (pending c) as [|p [|? ?]]; [by destruct Hc|cbn|done].
    destruct Hc as (_ & Hp & Ha). destruct (p_aborted p); [congruence|]. rewrite Ec in Ha. injection Ha as ->.
    rewrite Nat.eqb_refl. by cbn.
  - by destruct (messages c).
  - by apply on_outcome_ok.
Qed.

(** Whatever the user presses and whatever the network does, one answer at
    most is awaited; it is awaited exactly while the page shows that it is,
    and the stop button is for it until it was pressed. *)
Theorem one_answer_awaited es : chat_ok (on_events es new_chat).
Proof.
  assert (forall c, chat_ok c -> chat_ok (on_events es c)) as H; [|by apply H].
  induction es as [|e es IH]; intros c Hc; [done|]. cbn. by apply IH, on_event_chat.
Qed.
(** *** Answers *)

Definition pieces (k : nat) (vs : list bytes) : list event := (fun v => Happens k (Piece v)) <$> vs.

(** The chat while the answer of request [k] to a question arrives. *)
Definition reading (k : nat) (ms : list Message) (text : str) (old : Chat) : Chat :=
  MkChat ms [] true (Some k) [MkPending k text false] (S k) false (sent old).

Lemma read_piece k ms q text t old :
  on_event (Happens k (Piece t)) (reading k (ms ++ [MkMessage User q; MkMessage Assistant text]) text old) =
  reading k (ms ++ [MkMessage User q; MkMessage Assistant (text ++ decode t)]) (text ++ decode t) old.
Proof.
  unfold on_event, reading. cbn [crashed]. unfold on_outcome, find_pending. cbn. rewrite Nat.eqb_refl. cbn.
  unfold show, set_pending. cbn.
  assert (forall x y : Message, last (ms ++ [x; y]) = Some y /\ removelast (ms ++ [x; y]) = ms ++ [x]) as Hl.
  { intros x y. change (ms ++ [x; y]) with (ms ++ [x] ++ [y]). rewrite app_assoc. by rewrite last_snoc, removelast_last. }
  destruct (Hl (MkMessage User q) (MkMessage Assistant text)) as [-> ->]. unfold set_messages. cbn.
  by rewrite <- app_assoc.
Qed.

Lemma read_pieces k ms q text ts old :
  on_events (pieces k ts) (reading k (ms ++ [MkMessage User q; MkMessage Assistant text]) text old) =
  reading k (ms ++ [MkMessage User q; MkMessage Assistant (text ++ concat (decode <$> ts))]) (text ++ concat (decode <$> ts)) old.
Proof.
  revert text. induction ts as [|t ts IH]; intros text; cbn [pieces fmap list_fmap concat]; [by rewrite app_nil_r|].
  unfold on_events. cbn [foldl]. rewrite read_piece. fold (on_events (pieces k ts)).
  change (foldl _ ?x _) with (on_events (pieces k ts) x). by rewrite IH, <- app_assoc.
Qed.

Lemma on_events_app es es' c : on_events (es ++ es') c = on_events es' (on_events es c).
Proof. apply foldl_app. Qed.

(** A question and its answer: what the user typed is sent after the
    conversation so far, and when the answer has arrived the conversation is
    followed by the question and by all of its text. *)
Lemma question_answered c q t ts :
  isAiLoading c = false -> crashed c = false -> pending c = [] -> trim q <> [] ->
  let k := made c in
  let ms := messages c ++ [MkMessage User q] in
  on_events ([Type_ q; Send; Happens k (Answered true)] ++ pieces k (t :: ts) ++ [Happens k End]) c =
  MkChat (ms ++ [MkMessage Assistant (concat (decode <$> t :: ts))]) [] false None [] (S k) false (sent c ++ [ms]).
Proof.
  intros Hl Hc Hp Hq k ms. rewrite on_events_app.
  assert (on_events [Type_ q; Send; Happens k (Answered true)] c =
    MkChat ms [] true (Some k) [MkPending k [] false] (S k) false (sent c ++ [ms])) as ->.
  { unfold on_events. cbn [foldl]. unfold on_event at 3. rewrite Hc, Hl. unfold on_event at 2. cbn [crashed setInput isAiLoading].
    rewrite Hc, Hl. unfold handleSubmit. cbn [setInput input]. destruct (trim q) eqn:E; [done|]. cbn. rewrite Hp. cbn.
    unfold on_event. cbn. rewrite Hc. unfold on_outcome, find_pending. cbn. by rewrite Nat.eqb_refl. }
  rewrite on_events_app. cbn [pieces fmap list_fmap]. unfold on_events at 2. cbn [foldl].
  assert (on_event (Happens k (Piece t)) (MkChat ms [] true (Some k) [MkPending k [] false] (S k) false (sent c ++ [ms])) =
    reading k (messages c ++ [MkMessage User q; MkMessage Assistant (decode t)]) (decode t)
      (MkChat [] [] false None [] 0 false (sent c ++ [ms]))) as ->.
  { unfold on_event, on_outcome, find_pending. cbn. rewrite Nat.eqb_refl. cbn. unfold show, set_pending. cbn.
    subst ms. rewrite last_snoc. unfold set_messages, reading. cbn. by rewrite <- app_assoc. }
  change (foldl _ ?x _) with (on_events (pieces k ts) x). rewrite read_pieces. unfold on_events. cbn [foldl].
  unfold on_event, reading, on_outcome, find_pending. cbn. rewrite Nat.eqb_refl. unfold finish. cbn.
  rewrite Nat.eqb_refl. cbn. subst ms. by rewrite <- app_assoc.
Qed.

(** An answer that was stopped: what arrived of it stays, and whatever comes
    next for the request ends it. *)
Lemma stopped_answer k o ms text old :
  on_events [Stop; Happens k o] (reading k ms text old) =
  MkChat (ms ++ [MkMessage Assistant (js "Response generation stopped.")]) [] false None [] (S k) false (sent old).
Proof.
  unfold on_events. cbn [foldl]. unfold on_event at 2, reading. cbn. unfold stopGeneration. cbn. rewrite Nat.eqb_refl.
  unfold on_event. cbn. unfold on_outcome, find_pending. cbn. rewrite Nat.eqb_refl. unfold on_error, finish. cbn.
  by rewrite Nat.eqb_refl.
Qed.

(** Clearing the conversation while an answer arrives takes the page down. *)
Example cleared_while_answered :
  crashed (on_events ([Type_ (js "Why?"); Send; Happens 0 (Answered true); Clear] ++ pieces 0 [encode (js "Because")]) new_chat) = true.
Proof. by vm_compute. Qed.
End Chat.

(** ** From the model to the page *)

Definition message_json (m : Chat.Message) : json :=
  JObj [(js "role", JStr (match Chat.m_role m with Chat.User => js "user" | Chat.Assistant => js "assistant" end));
        (js "content", JStr (Chat.m_content m))].

(** The body of the request of the chat. *)
Definition chat_body (ms : list Chat.Message) (code : str) : json :=
  JObj [(js "messages", JArr (message_json <$> ms)); (js "code", JStr code)].

(** C17: A question is answered with what the model said.  The endpoint passes the
    conversation and the question on after its own instructions; when the
    model answers in lines that arrive whole, in chunks of any number of
    lines, and the page reads the relayed bytes in pieces that the network
    may cut anywhere between two characters (not inside the bytes of one:
    each piece is decoded on its own), the answer in the conversation is
    the content of the model's lines, in order, and the page awaits nothing
    any more. *)
Theorem model_answer_shown JSON_parse toString prompt model code c q groups t ts
  (Hl : Chat.isAiLoading c = false) (Hc : Chat.crashed c = false) (Hp : Chat.pending c = []) (Hq : trim q <> [])
  (Hmodel : model (Relay.model_request prompt (message_json <$> Chat.messages c ++ [Chat.MkMessage Chat.User q])) =
    Ok (Relay.Chunks (encode <$> (Relay.lines_text <$> groups)) false))
  (Hlines : Forall (Forall (fun l => newline ∉ l)) groups) :
  let asked := Chat.messages c ++ [Chat.MkMessage Chat.User q] in
  let said := concat (concat (Relay.relay_line JSON_parse toString <$> concat groups)) in
  exists relayed, (Relay.POST JSON_parse toString prompt model (Ok (chat_body asked code))).2 = Relay.Stream relayed false /\
  (concat (encode <$> t :: ts) = concat relayed ->
   let c' := Chat.on_events ([Chat.Type_ q; Chat.Send; Chat.Happens (Chat.made c) (Chat.Answered true)] ++
     Chat.pieces (Chat.made c) (encode <$> t :: ts) ++ [Chat.Happens (Chat.made c) Chat.End]) c in
   last (Chat.sent c') = Some asked /\ Chat.messages c' = asked ++ [Chat.MkMessage Chat.Assistant said] /\
   Chat.isAiLoading c' = false /\ Chat.pending c' = []).
Proof.
  cbn zeta. eexists. split.
  - unfold Relay.POST. cbn [prop chat_body]. cbn [Relay.spread map_get]. rewrite decide_True by done. cbn [Relay.spread].
    rewrite Hmodel. cbn [snd]. reflexivity.
  - rewrite Relay.relay_bytes, <- encode_concat by done. intros E%encode_inj.
    rewrite fmap_cons, Chat.question_answered by done. cbn [Chat.messages Chat.sent Chat.isAiLoading Chat.pending].
    rewrite <- fmap_cons, <- list_fmap_compose.
    rewrite (list_fmap_ext (decode ∘ encode) id), list_fmap_id, E by (intros; apply text_decode_encode).
    by rewrite last_snoc.
Qed.

(** A character of more than one byte that the network cuts is lost: the
    page shows two replacement characters in its place. *)
Theorem cut_character_replaced k ms q text s c t old (Hc : (128 <= code c)%N) :
  exists v w, encode (s ++ c :: t) = v ++ w /\
    Chat.messages (Chat.on_events (Chat.pieces k [v; w])
      (Chat.reading k (ms ++ [Chat.MkMessage Chat.User q; Chat.MkMessage Chat.Assistant text]) text old)) =
    ms ++ [Chat.MkMessage Chat.User q;
           Chat.MkMessage Chat.Assistant (text ++ s ++ [replacement; replacement] ++ t)].
Proof.
  destruct (decode_cut s c t Hc) as (b & b' & E & D). exists (encode s ++ [b]), (b' :: encode t).
  split; [exact E|]. rewrite Chat.read_pieces. cbn [fmap list_fmap concat]. rewrite app_nil_r, D. done.
Qed.

(** ** Running Python *)

Module Python.

(** The lines of the output, without their icons. *)
Inductive line :=
| Initializing
| Ready
| Running
| Completed
| Printed (text : str)
| Error (message : str).

Record Playground := MkPlayground {
  code : str;
  output : list line;
  isLoading : bool;
  isRunning : bool;
  (** What the interpreter has printed and not yet dropped, when there is
      one. *)
  pyodide : option str;
}.

(** [/\bawait\b/] at the head of a string. *)
Definition await_at (s : str) : option unit :=
  if startsWith s (js "await") && match drop 5 s with c :: _ => negb (is_word c) | [] => true end then Some () else None.

Fixpoint uses_await (before : bool) (s : str) : bool :=
  match s with
  | [] => false
  | c :: s' => (before && bool_decide (is_Some (await_at s))) || uses_await (negb (is_word c)) s'
  end.

Definition wrapped (code : str) : str :=
  nl ++ js "async def __run():" ++ nl ++ join ((fun l => js "    " ++ l) <$> split code nl) nl ++ nl ++ nl ++
  js "import asyncio" ++ nl ++ js "loop = asyncio.get_event_loop()" ++ nl ++ js "loop.run_until_complete(__run())" ++ nl.

Definition codeToRun (code : str) : str := if uses_await true code then wrapped code else code.

Section run.
(** What a program prints, and whether it ends with an exception. *)
Context (runPython : str -> str * result unit).

Definition no_interpreter : str := js "Cannot read properties of undefined (reading 'runPythonAsync')".

Definition runCode (p : Playground) : Playground :=
  if isLoading p || isRunning p then p
  else
    match pyodide p with
    | None =>
        (* the [finally] block fails as well *)
        MkPlayground (code p) [Running; Error no_interpreter] false true None
    | Some printed =>
        let '(text, res) := runPython (codeToRun (code p)) in
        let stdout := printed ++ text in
        MkPlayground (code p)
          (Running :: match res with
                      | Ok _ => match stdout with [] => [Completed] | _ => [Printed stdout; Completed] end
                      | Throw e => [Error e]
                      end) false false (Some [])
    end.

Definition setCode (c : str) (p : Playground) : Playground :=
  MkPlayground c (output p) (isLoading p) (isRunning p) (pyodide p).

(** Several programs, one after the other. *)
Definition run_all (programs : list str) (p : Playground) : Playground :=
  foldl (fun p c => runCode (setCode c p)) p programs.

Lemma run_ready p :
  isLoading p = false -> isRunning p = false -> pyodide p = Some [] ->
  isLoading (runCode p) = false /\ isRunning (runCode p) = false /\ pyodide (runCode p) = Some [].
Proof. intros H1 H2 H3. unfold runCode. rewrite H1, H2, H3. cbn. by destruct (runPython _) as [? []]. Qed.

(** Each run shows what its own program printed, and nothing of the programs
    before it, whether they ended well or not. *)
Theorem own_output_shown programs prog p
  (Hl : isLoading p = false) (Hr : isRunning p = false) (Hp : pyodide p = Some [])
  (text : str) (Hrun : runPython (codeToRun prog) = (text, Ok ())) (Hne : text <> []) :
  output (run_all (programs ++ [prog]) p) = [Running; Printed text; Completed].
Proof.
  unfold run_all. rewrite foldl_app. cbn [foldl].
  assert (forall q, isLoading q = false -> isRunning q = false -> pyodide q = Some [] ->
    let r := foldl (fun p c => runCode (setCode c p)) q programs in
    isLoading r = false /\ isRunning r = false /\ pyodide r = Some []) as H.
  { induction programs as [|c cs IH]; intros q H1 H2 H3; [done|]. cbn [foldl].
    destruct (run_ready (setCode c q)) as (G1 & G2 & G3); [done..|]. by apply IH. }
  destruct (H p Hl Hr Hp) as (H1 & H2 & H3). set (r := foldl _ p programs) in *. unfold runCode, setCode. cbn.
  rewrite H1, H2, H3, Hrun. cbn. by destruct text.
Qed.

(** When the interpreter could not be loaded the first run fails and is never
    over: the page shows it as running, and no later run does anything. *)
Theorem run_never_over programs prog p
  (Hl : isLoading p = false) (Hr : isRunning p = false) (Hp : pyodide p = None) :
  isRunning (run_all (prog :: programs) p) = true /\
  output (run_all (prog :: programs) p) = [Running; Error no_interpreter].
Proof.
  unfold run_all. cbn [foldl]. set (q := runCode (setCode prog p)).
  assert (isRunning q = true /\ output q = [Running; Error no_interpreter]) as Hq
    by (subst q; unfold runCode, setCode; cbn; by rewrite Hl, Hr, Hp).
  clearbody q. revert q Hq. induction programs as [|c cs IH]; intros q [H1 H2]; [done|]. cbn [foldl].
  apply IH. unfold runCode, setCode. cbn. rewrite H1, orb_true_r. done.
Qed.
End run.

(** What a program printed before an exception is not shown. *)
Example output_before_error_lost :
  output (runCode (fun _ => (js "step 1", Throw (js "ValueError"))) (MkPlayground (js "x") [Ready] false false (Some [])))
  = [Running; Error (js "ValueError")].
Proof. by vm_compute. Qed.

Lemma uses_await_word : uses_await true (js "await f()") = true /\ uses_await true (js "x = awaited(1)") = false /\
  uses_await true (js "no_await") = false.
Proof. by vm_compute. Qed.
End Python.

(** ** Explaining a selection *)

Module Floating.

Record Explaining := MkExplaining { x_id : nat; x_text : str }.

(** A timer of the selection, with the last selection of the rendering that
    set it. *)
Record Timer := MkTimer { t_id : nat; t_last : str }.

Record Assistant := MkAssistant {
  isOpen : bool;
  selectedText : str;
  explanation : str;
  isLoading : bool;
  question : str;
  isAskingQuestion : bool;
  debounceTimer : option nat;
  lastSelection : str;
  highlightMode : bool;
  timers : list Timer;
  explaining : list Explaining;
  made : nat;
  (** The prompts sent to the endpoint. *)
  asked : list str;
}.

Definition new_assistant : Assistant := MkAssistant false [] [] false [] false None [] false [] [] 0 [].

Definition quote : str := ["034"%char].

Definition explain_prompt (text : str) : str :=
  js "Explain the following text or concept in detail:" ++ nl ++ text ++ nl ++ nl ++ js "Please:" ++ nl ++
  js "1. Break down any complex concepts" ++ nl ++ js "2. Provide examples if relevant" ++ nl ++
  js "3. Explain any technical terms" ++ nl ++ js "4. Use markdown formatting for better readability".

Definition question_prompt (selected question : str) : str :=
  match selected with
  | [] => question
  | _ => js "Regarding this text: " ++ quote ++ selected ++ quote ++ nl ++ nl ++ question
  end.

(** [getExplanation] up to the request *)
Definition getExplanation (prompt : str) (a : Assistant) : Assistant :=
  MkAssistant (isOpen a) (selectedText a) (explanation a) true (question a) (isAskingQuestion a) (debounceTimer a)
    (lastSelection a) (highlightMode a) (timers a) (explaining a ++ [MkExplaining (made a) []]) (S (made a))
    (asked a ++ [prompt]).

(** [handleTextSelection] *)
Definition handleTextSelection (a : Assistant) : Assistant :=
  if highlightMode a then
    let kept := match debounceTimer a with
                | Some k => filterb (fun t => negb (t_id t =? k)%nat) (timers a)
                | None => timers a
                end in
    MkAssistant (isOpen a) (selectedText a) (explanation a) (isLoading a) (question a) (isAskingQuestion a)
      (Some (made a)) (lastSelection a) (highlightMode a) (kept ++ [MkTimer (made a) (lastSelection a)]) (explaining a)
      (S (made a)) (asked a)
  else a.

(** The timer: [selection] is what is selected now, [in_editor] whether it is
    in a code editor. *)
Definition on_timer (k : nat) (selection : str) (in_editor : bool) (a : Assistant) : Assistant :=
  match find (fun t => (t_id t =? k)%nat) (timers a) with
  | None => a
  | Some t =>
      let a := MkAssistant (isOpen a) (selectedText a) (explanation a) (isLoading a) (question a) (isAskingQuestion a)
                 (debounceTimer a) (lastSelection a) (highlightMode a)
                 (filterb (fun t => negb (t_id t =? k)%nat) (timers a)) (explaining a) (made a) (asked a) in
      let s := trim selection in
      if bool_decide (s = []) || in_editor || bool_decide (s = t_last t) then a
      else getExplanation (explain_prompt s)
             (MkAssistant true s (explanation a) (isLoading a) (question a) (isAskingQuestion a) (debounceTimer a) s
                (highlightMode a) (timers a) (explaining a) (made a) (asked a))
  end.

Definition handleModalClose (a : Assistant) : Assistant :=
  MkAssistant false [] [] (isLoading a) [] (isAskingQuestion a) (debounceTimer a) [] (highlightMode a) (timers a)
    (explaining a) (made a) (asked a).

Definition openModal (a : Assistant) : Assistant :=
  MkAssistant true (selectedText a) (explanation a) (isLoading a) (question a) (isAskingQuestion a) (debounceTimer a)
    (lastSelection a) (highlightMode a) (timers a) (explaining a) (made a) (asked a).

Definition setHighlightMode (b : bool) (a : Assistant) : Assistant :=
  MkAssistant (isOpen a) (selectedText a) (explanation a) (isLoading a) (question a) (isAskingQuestion a)
    (debounceTimer a) (lastSelection a) b (timers a) (explaining a) (made a) (asked a).

Definition setQuestion (q : str) (a : Assistant) : Assistant :=
  MkAssistant (isOpen a) (selectedText a) (explanation a) (isLoading a) q (isAskingQuestion a) (debounceTimer a)
    (lastSelection a) (highlightMode a) (timers a) (explaining a) (made a) (asked a).

Definition handleAskQuestion (a : Assistant) : Assistant :=
  match trim (question a) with
  | [] => a
  | _ =>
      setQuestion [] (getExplanation (question_prompt (selectedText a) (question a))
        (MkAssistant (isOpen a) (selectedText a) (explanation a) (isLoading a) (question a) true (debounceTimer a)
           (lastSelection a) (highlightMode a) (timers a) (explaining a) (made a) (asked a)))
  end.

Definition sorry : str := js "Sorry, there was an error getting the explanation.".

Definition ended (k : nat) (text : str) (a : Assistant) : Assistant :=
  MkAssistant (isOpen a) (selectedText a) text false (question a) false (debounceTimer a) (lastSelection a)
    (highlightMode a) (timers a) (filterb (fun x => negb (x_id x =? k)%nat) (explaining a)) (made a) (asked a).

Inductive outcome := Piece (value : bytes) | End | Failed.

Definition on_outcome (k : nat) (o : outcome) (a : Assistant) : Assistant :=
  match find (fun x => (x_id x =? k)%nat) (explaining a) with
  | None => a
  | Some x =>
      match o with
      | Piece value =>
          let text := x_text x ++ decode value in
          MkAssistant (isOpen a) (selectedText a) text (isLoading a) (question a) (isAskingQuestion a) (debounceTimer a)
            (lastSelection a) (highlightMode a) (timers a)
            ((fun y => if (x_id y =? k)%nat then MkExplaining k text else y) <$> explaining a) (made a) (asked a)
      | End => ended k (explanation a) a
      | Failed => ended k sorry a
      end
  end.

Inductive event :=
| MouseUp
| Fires (k : nat) (selection : str) (in_editor : bool)
| Close
| Open
| Highlight (b : bool)
| Question (q : str)
| Ask
| Happens (k : nat) (o : outcome).

(** The text field is disabled while an explanation is awaited, the button
    while one that was asked for is. *)
Definition on_event (e : event) (a : Assistant) : Assistant :=
  match e with
  | MouseUp => handleTextSelection a
  | Fires k s b => on_timer k s b a
  | Close => if isOpen a then handleModalClose a else a
  | Open => openModal a
  | Highlight b => setHighlightMode b a
  | Question q => if isLoading a then a else setQuestion q a
  | Ask => if isAskingQuestion a then a else handleAskQuestion a
  | Happens k o => on_outcome k o a
  end.

Definition on_events (es : list event) (a : Assistant) : Assistant := foldl (fun a e => on_event e a) a es.

(** *** One timer *)

Definition timers_ok (a : Assistant) : Prop :=
  forall t, t ∈ timers a -> timers a = [t] /\ debounceTimer a = Some (t_id t).

Lemma on_event_timers e a : timers_ok a -> timers_ok (on_event e a).
Proof.
  intros Ha. assert (forall f t, t ∈ filterb f (timers a) -> filterb f (timers a) = [t] /\ debounceTimer a = Some (t_id t))
    as Hf.
  { intros f t [Ht Hft]%elem_of_filterb. destruct (Ha t Ht) as [E Hd]. rewrite E. cbn. by rewrite Hft. }
  destruct e as [|k s b| | |b|q| |k o]; cbn.
  - unfold handleTextSelection. destruct (highlightMode a); [|done]. intros t. cbn.
    assert (match debounceTimer a with
            | Some k => filterb (fun t => negb (t_id t =? k)%nat) (timers a) | None => timers a end = []) as ->.
    { apply elem_of_nil_inv. intros t' Ht'. destruct (debounceTimer a) as [k|] eqn:E.
      - apply elem_of_filterb in Ht' as [Ht' Hk]. destruct (Ha t' Ht') as [_ Hd]. rewrite E in Hd. injection Hd as ->.
        by rewrite Nat.eqb_refl in Hk.
      - by destruct (Ha t' Ht') as [_ Hd]; rewrite E in Hd. }
    cbn. intros ->%list_elem_of_singleton. done.
  - unfold on_timer. destruct (find _ _); [|done]. case_match; intros t1; cbn; apply Hf.
  - by destruct (isOpen a).
  - done.
  - done.
  - by destruct (isLoading a).
  - destruct (isAskingQuestion a); [done|]. unfold handleAskQuestion. by destruct (trim (question a)).
  - unfold on_outcome. destruct (find _ _); [|done]. by destruct o.
Qed.

(** Whatever happens, at most one timer of the selection is running, and it is
    the one the next selection stops. *)
Theorem one_selection_timer es : timers_ok (on_events es new_assistant).
Proof.
  assert (forall a, timers_ok a -> timers_ok (on_events es a)) as H.
  { induction es as [|e es IH]; intros a Ha; [done|]. cbn. by apply IH, on_event_timers. }
  apply H. by intros t ?%elem_of_nil.
Qed.

(** *** Explanations that are late *)

(** A second text is selected while the first is being explained; the rest of
    the first explanation is shown for the second text. *)
Example late_explanation_shown :
  let a := on_events [Highlight true; MouseUp; Fires 0 (js "PBFT") false; Happens 1 (Piece (encode (js "A protocol")));
    MouseUp; Fires 2 (js "Raft") false; Happens 3 (Piece (encode (js "Another"))); Happens 1 (Piece (encode (js " for n nodes")))] new_assistant in
  selectedText a = js "Raft" /\ explanation a = js "A protocol for n nodes".
Proof. by vm_compute. Qed.

(** Closing does not end an explanation: it is there when the assistant is
    opened again, without the text it is about. *)
Example closed_explanation_returns :
  let a := on_events [Highlight true; MouseUp; Fires 0 (js "PBFT") false; Happens 1 (Piece (encode (js "A protocol"))); Close;
    Happens 1 (Piece (encode (js " for n nodes"))); Open] new_assistant in
  selectedText a = [] /\ explanation a = js "A protocol for n nodes" /\ isOpen a = true.
Proof. by vm_compute. Qed.

(** Switching the mode off does not stop a selection that is waiting. *)
Example explained_after_switch :
  asked (on_events [Highlight true; MouseUp; Highlight false; Fires 0 (js "PBFT") false] new_assistant) =
  [explain_prompt (js "PBFT")].
Proof. by vm_compute. Qed.
End Floating.

(** ** Witnesses *)

(** A parser that knows one line. *)
Definition hello : json :=
  JObj [(js "choices", JArr [JObj [(js "delta", JObj [(js "content", JStr (js "Hello"))])]])].
Definition toy_parse (s : str) : result json :=
  if bool_decide (s = js "{hello}") then Ok hello else Throw (js "Unexpected end of JSON input").
Definition no_string (v : json) : str := [].

Lemma cut_line_lost_witness :
  concat (Relay.relay_chunk toy_parse no_string <$>
    [Relay.lines_text [js "data: {hello}"] ++ js "data: {he"; js "llo}" ++ nl ++ Relay.lines_text [js "data: [DONE]"]]) =
  concat (Relay.relay_line toy_parse no_string <$> [js "data: {hello}"]) ++
  concat (Relay.relay_line toy_parse no_string <$> [js "data: [DONE]"]) /\
  concat (Relay.relay_line toy_parse no_string <$> [js "data: {hello}"]) = [js "Hello"].
Proof.
  split; [|vm_compute; reflexivity].
  refine (Relay.cut_line_lost toy_parse no_string (js "data: {he") (js "llo}") [js "data: {hello}"] [js "data: [DONE]"]
    _ _ _ _ _).
  - intros d Hd. injection Hd as ->. split; [discriminate|]. by eexists.
  - reflexivity.
  - apply (bool_decide_unpack _). vm_compute. exact I.
  - apply (bool_decide_unpack _). vm_compute. exact I.
  - apply (bool_decide_unpack _). vm_compute. exact I.
Defined.

Definition toy_model (q : json) : result Relay.upstream :=
  Ok (Relay.Chunks (encode <$> (Relay.lines_text <$> [[js "data: {hello}"; []]; [js "data: {hello}"; js "data: [DONE]"]])) false).

Lemma model_answer_shown_witness :
  let asked := [Chat.MkMessage Chat.User (js "Hi?")] in
  let said := concat (concat (Relay.relay_line toy_parse no_string <$>
    concat [[js "data: {hello}"; []]; [js "data: {hello}"; js "data: [DONE]"]])) in
  exists relayed,
    (Relay.POST toy_parse no_string [] toy_model (Ok (chat_body asked []))).2 = Relay.Stream relayed false /\
  (concat (encode <$> [js "Hel"; js "loHello"]) = concat relayed ->
   let c' := Chat.on_events ([Chat.Type_ (js "Hi?"); Chat.Send; Chat.Happens 0 (Chat.Answered true)] ++
     Chat.pieces 0 (encode <$> [js "Hel"; js "loHello"]) ++ [Chat.Happens 0 Chat.End]) Chat.new_chat in
   last (Chat.sent c') = Some asked /\ Chat.messages c' = asked ++ [Chat.MkMessage Chat.Assistant said] /\
   Chat.isAiLoading c' = false /\ Chat.pending c' = []).
Proof.
  refine (model_answer_shown toy_parse no_string [] toy_model [] Chat.new_chat (js "Hi?")
    [[js "data: {hello}"; []]; [js "data: {hello}"; js "data: [DONE]"]] (js "Hel") [js "loHello"] _ _ _ _ _ _);
    try reflexivity; [discriminate|].
  apply (bool_decide_unpack _). vm_compute. exact I.
Defined.

Definition toy_python (program : str) : str * result unit :=
  if bool_decide (program = js "print(1)") then (js "1", Ok ()) else (js "x", Throw (js "NameError")).
Definition idle (interpreter : option str) : Python.Playground :=
  Python.MkPlayground [] [Python.Ready] false false interpreter.

Lemma own_output_shown_witness :
  Python.output (Python.run_all toy_python ([js "f("] ++ [js "print(1)"]) (idle (Some []))) =
  [Python.Running; Python.Printed (js "1"); Python.Completed].
Proof.
  apply (Python.own_output_shown toy_python [js "f("] (js "print(1)") (idle (Some []))); try reflexivity. discriminate.
Defined.

Lemma run_never_over_witness :
  Python.isRunning (Python.run_all toy_python [js "print(1)"; js "print(1)"] (idle None)) = true /\
  Python.output (Python.run_all toy_python [js "print(1)"; js "print(1)"] (idle None)) =
  [Python.Running; Python.Error Python.no_interpreter].
Proof. apply (Python.run_never_over toy_python [js "print(1)"] (js "print(1)") (idle None)); reflexivity. Defined.

Lemma cut_character_replaced_witness :
  exists v w, encode (js "caf" ++ ["233"%char]) = v ++ w /\
    Chat.messages (Chat.on_events (Chat.pieces 0 [v; w])
      (Chat.reading 0 [Chat.MkMessage Chat.User (js "Hi?"); Chat.MkMessage Chat.Assistant []] [] Chat.new_chat)) =
    [Chat.MkMessage Chat.User (js "Hi?");
     Chat.MkMessage Chat.Assistant (js "caf" ++ [replacement; replacement])].
Proof.
  apply (cut_character_replaced 0 [] (js "Hi?") [] (js "caf") "233"%char [] Chat.new_chat). vm_compute. discriminate.
Defined.
