(* ===== verification/BeaconFind.v ===== *)
(** * Results of the documentation search

    components/SearchBar/PagefindSearch.tsx of src/ecosystem/ai-tools/beacon:
    how the terms of a query are marked in the excerpt of a result, which page
    a result leads to, and the search bar: its timer, its two kinds of search
    and their answers, which arrive in any order ([Bar]).  The search library
    is loaded; it and the endpoint of the agent are parameters.

    A term is used as a regular expression.  The terms without special
    characters stand for themselves; what [new RegExp] makes of a term with
    special characters, a replacement or an exception, is a parameter
    ([compile]). *)

From S2P Require Import Prelude JsString JsArray Json.

(** ** Marking *)

Definition dquote : str := ["034"%char].
Definition mark_open : str :=
  js "<mark style=" ++ dquote ++
  js "background: rgba(0, 191, 255, 0.3); color: #00bfff; padding: 1px 2px; border-radius: 2px;" ++ dquote ++ js ">".
Definition mark_close : str := js "</mark>".

Definition special (c : ascii) : bool := bool_decide (c ∈ js "\^$.*+?()[]{}|").
Definition literal (term : str) : bool := forallb (fun c => negb (special c)) term.

(** The head of [s] is [term], in upper or lower case. *)
Fixpoint matches_ci (term s : str) : bool :=
  match term, s with
  | [], _ => true
  | _ :: _, [] => false
  | t :: term', c :: s' => bool_decide (char_lower t = char_lower c) && matches_ci term' s'
  end.

Definition mark (w : str) : str := mark_open ++ w ++ mark_close.

Definition mark_at (term s : str) : option (nat * str) :=
  if matches_ci term s then Some (length term, mark (take (length term) s)) else None.

(** [text.replace(new RegExp(`(${term})`, 'gi'), '<mark ...>$1</mark>')] *)
Definition mark_term (text term : str) : str := replace_matches (mark_at term) text 0.

Definition terms (query : str) : list str := filterb (fun t => (2 <? length t)%nat) (split_ws (toLowerCase query)).

Section terms.
(** [new RegExp(`(${term})`, 'gi')] and the replacement by it, for a term
    with special characters. *)
Context (compile : str -> Prelude.result (str -> str)).

Definition regex (term : str) : Prelude.result (str -> str) :=
  if literal term then Ok (fun text => mark_term text term) else compile term.

(** The loop over the terms; an invalid one throws. *)
Fixpoint mark_terms (text : str) (ts : list str) : Prelude.result str :=
  match ts with
  | [] => Ok text
  | t :: ts' => match regex t with Ok f => mark_terms (f text) ts' | Throw e => Throw e end
  end.

Definition highlightSearchTerms (text query : str) : Prelude.result str :=
  match trim query with
  | [] => Ok text
  | _ => mark_terms text (terms query)
  end.

Lemma mark_terms_literal ts : forall text,
  forallb literal ts = true -> mark_terms text ts = Ok (foldl mark_term text ts).
Proof.
  induction ts as [|t ts IH]; intros text; [done|]. cbn [forallb mark_terms foldl]. intros [Ht Hts]%andb_true_iff.
  unfold regex. rewrite Ht. by apply IH.
Qed.

Lemma mark_terms_invalid t e ts : forall text,
  t ∈ ts -> regex t = Throw e -> exists e', mark_terms text ts = Throw e'.
Proof.
  induction ts as [|u ts IH]; intros text Hin Ht; [by apply elem_of_nil in Hin|]. cbn [mark_terms].
  apply elem_of_cons in Hin as [<-|Hin]; [rewrite Ht; eauto|]. destruct (regex u) as [f|e']; [by apply IH|eauto].
Qed.
End terms.

(** ** Addresses *)

(** [s.replace(/end$/, '')] for a fixed end *)
Definition strip_end (e s : str) : str := if endsWith s e then take (length s - length e) s else s.

Definition cleanUrl (url : str) : str :=
  let clean := strip_end (js ".html") url in
  let clean := strip_end (js "/index") clean in
  if startsWith clean (js "/") then clean else js "/" ++ clean.

(** ** A text with marks *)







(** *** Marks do not touch tags *)













(** A later term that is part of the markup of an earlier one is marked inside
    it, and the excerpt is no longer well-formed. *)
Example markup_marked compile :
  highlightSearchTerms compile (js "Use docs") (js "docs color") =
  Ok (js "Use " ++ js "<mark style=" ++ dquote ++ js "background: rgba(0, 191, 255, 0.3); " ++ mark (js "color") ++
    js ": #00bfff; padding: 1px 2px; border-radius: 2px;" ++ dquote ++ js ">docs</mark>").
Proof. by vm_compute. Qed.

(** ** Pages *)

Lemma strip_end_app e s : strip_end e (s ++ e) = s.
Proof.
  unfold strip_end, endsWith. rewrite rev_app_distr.
  assert (is_prefix (rev e) (rev e ++ rev s) = true) as -> by (apply is_prefix_spec; by eexists).
  rewrite length_app. replace (length s + length e - length e) with (length s) by lia. apply take_app_length.
Qed.

(** The page of a directory and its index file are one address. *)
Lemma index_page dir :
  dir = [] \/ startsWith dir (js "/") = true ->
  cleanUrl (dir ++ js "/index.html") = match dir with [] => js "/" | _ => dir end.
Proof.
  intros Hd. unfold cleanUrl. change (js "/index.html") with (js "/index" ++ js ".html").
  rewrite app_assoc, strip_end_app, strip_end_app. destruct Hd as [-> | Hd]; [done|]. rewrite Hd. by destruct dir.
Qed.

(** ** The search bar *)

Module Bar.

Inductive mode := Search | Agent.
#[export] Instance mode_dec : EqDecision mode.
Proof. solve_decision. Defined.

Record Hit := MkHit { h_id : str; h_url : str; h_excerpt : option str }.
(** A result, with its excerpt marked. *)
Definition result : Type := Hit * str.

(** A search under way: its number, its query, and who was asked. *)
Record Running := MkRunning { r_id : nat; r_query : str; r_mode : mode }.

Record Bar := MkBar {
  isOpen : bool;
  query : str;
  bar_mode : mode;
  results : list result;
  agentResults : list result;
  isLoading : bool;
  isAgentLoading : bool;
  (** The timer, with the query and the mode it was set for. *)
  timer : option (nat * str * mode);
  running : list Running;
  made : nat;
  (** The pages opened. *)
  visited : list str;
}.

Definition new_bar : Bar := MkBar false [] Search [] [] false false (Some (0, [], Search)) [] 1 [].

Section bar.
Context (compile : str -> Prelude.result (str -> str)).

(** [results.map(...)]: an exception for one hit leaves the loop. *)
Fixpoint highlight (q : str) (hits : list Hit) : Prelude.result (list result) :=
  match hits with
  | [] => Ok []
  | h :: hits' =>
      (try! text <- highlightSearchTerms compile (coalesce (h_excerpt h) []) q;
       try! rs <- highlight q hits'; Ok ((h, text) :: rs))%js
  end.

(** The effect on the query and the mode: a change sets the timer anew. *)
Definition retime (old : Bar) (b : Bar) : Bar :=
  if bool_decide (query b = query old) && bool_decide (bar_mode b = bar_mode old) then b
  else MkBar (isOpen b) (query b) (bar_mode b) (results b) (agentResults b) (isLoading b) (isAgentLoading b)
         (Some (made b, query b, bar_mode b)) (running b) (S (made b)) (visited b).

Definition setResults (rs : list result) (b : Bar) : Bar :=
  MkBar (isOpen b) (query b) (bar_mode b) rs (agentResults b) (isLoading b) (isAgentLoading b) (timer b) (running b)
    (made b) (visited b).

Definition handleSearch (q : str) (b : Bar) : Bar :=
  match trim q with
  | [] => setResults [] b
  | _ => MkBar (isOpen b) (query b) (bar_mode b) (results b) (agentResults b) true (isAgentLoading b) (timer b)
           (running b ++ [MkRunning (made b) q Search]) (S (made b)) (visited b)
  end.

Definition handleAgentSearch (q : str) (b : Bar) : Bar :=
  match trim q with
  | [] => b
  | _ => MkBar (isOpen b) (query b) (bar_mode b) (results b) [] (isLoading b) true (timer b)
           (running b ++ [MkRunning (made b) q Agent]) (S (made b)) (visited b)
  end.

Definition handleSubmit (b : Bar) : Bar :=
  if negb (bool_decide (trim (query b) = [])) && bool_decide (bar_mode b = Agent)
  then handleAgentSearch (query b) b else b.

Definition on_timer (k : nat) (b : Bar) : Bar :=
  match timer b with
  | Some (k', q, m) =>
      if (k =? k')%nat then
        let b := MkBar (isOpen b) (query b) (bar_mode b) (results b) (agentResults b) (isLoading b) (isAgentLoading b) None
                   (running b) (made b) (visited b) in
        match m with
        | Search => match q with [] => setResults [] b | _ => handleSearch q b end
        | Agent => b
        end
      else b
  | None => b
  end.

(** The answer to a search: its hits; [Nothing] is the [null] of a search that
    another one replaced, whose results cannot be read, or a failure. *)
Inductive answer := Hits (hits : list Hit) | Nothing.

Definition on_answer (k : nat) (a : answer) (b : Bar) : Bar :=
  match find (fun r => (r_id r =? k)%nat) (running b) with
  | None => b
  | Some r =>
      (* the [catch] empties the results *)
      let found := match a with
                   | Hits hits => match highlight (r_query r) hits with Ok rs => rs | Throw _ => [] end
                   | Nothing => []
                   end in
      let rest := filterb (fun r => negb (r_id r =? k)%nat) (running b) in
      match r_mode r with
      | Search => MkBar (isOpen b) (query b) (bar_mode b) found (agentResults b) false (isAgentLoading b) (timer b) rest
                    (made b) (visited b)
      | Agent => MkBar (isOpen b) (query b) (bar_mode b) (results b) found (isLoading b) false (timer b) rest
                   (made b) (visited b)
      end
  end.

Definition closeModal (b : Bar) : Bar :=
  MkBar false [] (bar_mode b) [] [] (isLoading b) (isAgentLoading b) (timer b) (running b) (made b) (visited b).

Definition handleResultClick (url : str) (b : Bar) : Bar :=
  MkBar false [] (bar_mode b) [] (agentResults b) (isLoading b) (isAgentLoading b) (timer b) (running b) (made b)
    (visited b ++ [cleanUrl url]).

Definition agentResultClick (url : str) (b : Bar) : Bar :=
  MkBar false [] (bar_mode b) (results b) [] (isLoading b) (isAgentLoading b) (timer b) (running b) (made b)
    (visited b ++ [url]).

Inductive event :=
| Open
| Close
| Query (q : str)
| Mode (m : mode)
| Submit
| Fires (k : nat)
| Answers (k : nat) (a : answer)
| Click (h : Hit)
| ClickAgent (h : Hit).

Definition act (e : event) (b : Bar) : Bar :=
  match e with
  | Open => MkBar true (query b) (bar_mode b) (results b) (agentResults b) (isLoading b) (isAgentLoading b) (timer b)
              (running b) (made b) (visited b)
  | Close => if isOpen b then closeModal b else b
  | Query q => MkBar (isOpen b) q (bar_mode b) (results b) (agentResults b) (isLoading b) (isAgentLoading b) (timer b)
                 (running b) (made b) (visited b)
  | Mode m => MkBar (isOpen b) (query b) m (results b) (agentResults b) (isLoading b) (isAgentLoading b) (timer b)
                (running b) (made b) (visited b)
  | Submit => handleSubmit b
  | Fires k => on_timer k b
  | Answers k a => on_answer k a b
  | Click h => handleResultClick (h_url h) b
  | ClickAgent h => agentResultClick (h_url h) b
  end.

Definition on_event (e : event) (b : Bar) : Bar := retime b (act e b).
Definition on_events (es : list event) (b : Bar) : Bar := foldl (fun b e => on_event e b) b es.

(** *** The timer is for what is typed *)

Definition timer_ok (b : Bar) : Prop := forall k q m, timer b = Some (k, q, m) -> q = query b /\ m = bar_mode b.

Lemma handleSearch_keeps q b :
  timer (handleSearch q b) = timer b /\ query (handleSearch q b) = query b /\ bar_mode (handleSearch q b) = bar_mode b.
Proof. unfold handleSearch. by destruct (trim q). Qed.

(** An event leaves the timer alone or stops it. *)
Lemma act_timer e b : timer (act e b) = timer b \/ timer (act e b) = None.
Proof.
  destruct e as [| |q|m| |k|k a|h|h]; cbn; auto.
  - destruct (isOpen b); auto.
  - unfold handleSubmit, handleAgentSearch. destruct (_ && _); [destruct (trim _)|]; auto.
  - unfold on_timer. destruct (timer b) as [[[k' q] m]|] eqn:E; [|auto]. destruct (k =? k')%nat; [|auto].
    right. destruct m; [|done]. destruct q; [done|]. by rewrite (proj1 (handleSearch_keeps _ _)).
  - unfold on_answer. destruct (find _ _) as [r|]; [|auto]. destruct (r_mode r); auto.
Qed.

Lemma on_event_timer e b : timer_ok b -> timer_ok (on_event e b).
Proof.
  intros Hb. unfold on_event, retime. case_bool_decide as Eq; case_bool_decide as Em; cbn [andb].
  1: { intros k q m. rewrite Eq, Em. destruct (act_timer e b) as [-> | ->]; [apply Hb|done]. }
  all: intros k q m; cbn; by intros [= <- <- <-].
Qed.

(** The searches under way were numbered before. *)
Definition ids_ok (b : Bar) : Prop := Forall (fun r => r_id r < made b) (running b).

Lemma ids_new b q m : ids_ok b -> Forall (fun r => r_id r < S (made b)) (running b ++ [MkRunning (made b) q m]).
Proof.
  intros H. apply Forall_app. split; [|by repeat constructor]. eapply Forall_impl; [exact H|]. intros r Hr. cbn in *. lia.
Qed.

Lemma act_ids e b : ids_ok b -> ids_ok (act e b).
Proof.
  intros Hb. destruct e as [| |q|m| |k|k a|h|h]; cbn; try done.
  - by destruct (isOpen b).
  - unfold handleSubmit, handleAgentSearch. destruct (_ && _); [|done]. destruct (trim _); [done|]. by apply ids_new.
  - unfold on_timer. destruct (timer b) as [[[k' q] m]|]; [|done]. destruct (k =? k')%nat; [|done].
    destruct m; [|done]. destruct q; [done|]. unfold handleSearch. destruct (trim _); [done|]. cbn.
    by apply (ids_new b).
  - unfold on_answer. destruct (find _ _) as [r|]; [|done].
    assert (Forall (fun r => r_id r < made b) (filterb (fun r => negb (r_id r =? k)%nat) (running b))) as Hf.
    { apply Forall_forall. intros x [Hx _]%elem_of_filterb. unfold ids_ok in Hb. rewrite Forall_forall in Hb. by apply Hb. }
    by destruct (r_mode r).
Qed.

Lemma on_event_ids e b : ids_ok b -> ids_ok (on_event e b).
Proof.
  intros Hb. apply (act_ids e) in Hb. unfold on_event, retime. destruct (_ && _); [done|]. unfold ids_ok. cbn.
  eapply Forall_impl; [exact Hb|]. intros r Hr. cbn in *. lia.
Qed.

Lemma bar_invariant es b : timer_ok b /\ ids_ok b -> timer_ok (on_events es b) /\ ids_ok (on_events es b).
Proof.
  revert b. induction es as [|e es IH]; intros b [H1 H2]; [done|]. cbn. apply IH.
  split; [by apply on_event_timer|by apply on_event_ids].
Qed.

Lemma find_new b x : ids_ok b -> r_id x = made b -> find (fun r => (r_id r =? made b)%nat) (running b ++ [x]) = Some x.
Proof.
  unfold ids_ok. intros H Hx. induction H as [|r l Hr _ IH]; cbn.
  - by rewrite Hx, Nat.eqb_refl.
  - destruct (Nat.eqb_spec (r_id r) (made b)); [lia|done].
Qed.

(** The hits of a query without special characters, marked. *)
Lemma highlight_literal q hits : trim q <> [] -> forallb literal (terms q) = true ->
  highlight q hits = Ok ((fun h => (h, foldl mark_term (coalesce (h_excerpt h) []) (terms q))) <$> hits).
Proof.
  intros Hq Hl. induction hits as [|h hits IH]; [done|]. cbn [highlight]. rewrite IH.
  unfold highlightSearchTerms. destruct (trim q); [done|]. by rewrite mark_terms_literal.
Qed.

(** The state when the timer for [q] has run out. *)
Definition searching (q : str) (b : Bar) : Bar :=
  MkBar (isOpen b) (query b) (bar_mode b) (results b) (agentResults b) true (isAgentLoading b)
    None (running b ++ [MkRunning (made b) q Search]) (S (made b)) (visited b).

Lemma fires_searching k q b :
  timer b = Some (k, q, Search) -> trim q <> [] -> on_event (Fires k) b = searching q b.
Proof.
  intros Ht Hne. unfold on_event. cbn [act]. unfold on_timer. rewrite Ht, Nat.eqb_refl. destruct q as [|c q]; [done|].
  unfold handleSearch, retime. destruct (trim (c :: q)); [done|]. cbn [query bar_mode].
  by rewrite !bool_decide_eq_true_2.
Qed.

Lemma answer_shown q hits b : ids_ok b ->
  results (on_event (Answers (made b) (Hits hits)) (searching q b)) =
    match highlight q hits with Ok rs => rs | Throw _ => [] end.
Proof.
  intros Hi. unfold on_event. cbn [act]. unfold on_answer. cbn [running searching].
  rewrite find_new by done. cbn. unfold retime. cbn. by rewrite !bool_decide_eq_true_2.
Qed.

(** C32: searching while typing.  After any events the timer, when it is running,
    is for the query and the mode that are shown; when it runs out in the
    search mode and the query is not blank, one search is started, for that
    query; and when its answer arrives, the results are the hits, each with
    its excerpt in which the terms of the query are marked, provided the terms
    (the words of more than two characters) have no special characters of
    regular expressions. *)
Theorem search_as_typed es k q m hits (Hne : trim q <> [])
  (Ht : timer (on_events es new_bar) = Some (k, q, m)) :
  let b := on_events es new_bar in
  q = query b /\ m = bar_mode b /\
  (m = Search ->
   running (on_event (Fires k) b) = running b ++ [MkRunning (made b) q Search] /\
   (forallb literal (terms q) = true ->
    results (on_events [Fires k; Answers (made b) (Hits hits)] b) =
      (fun h => (h, foldl mark_term (coalesce (h_excerpt h) []) (terms q))) <$> hits)).
Proof.
  cbn zeta. set (b := on_events es new_bar) in *.
  assert (timer_ok b /\ ids_ok b) as [Hb Hi] by (apply bar_invariant; split; [by intros ??? [= <- <- <-]|constructor]).
  destruct (Hb k q m Ht) as [Eq Em]. split_and!; [done..|]. intros ->.
  rewrite fires_searching with (q := q) by done. split; [done|]. intros Hlit. unfold on_events. cbn [foldl].
  by rewrite fires_searching with (q := q), answer_shown, highlight_literal.
Qed.

(** A query with a term that is no regular expression, such as [c++], shows
    nothing whatever was found: the exception of the constructor empties the
    results. *)
Theorem invalid_term_empties es k q t e hits (Hne : trim q <> [])
  (Ht : timer (on_events es new_bar) = Some (k, q, Search))
  (Hin : t ∈ terms q) (Hbad : regex compile t = Throw e) :
  let b := on_events es new_bar in
  results (on_events [Fires k; Answers (made b) (Hits hits)] b) = [].
Proof.
  cbn zeta. set (b := on_events es new_bar) in *.
  assert (timer_ok b /\ ids_ok b) as [_ Hi] by (apply bar_invariant; split; [by intros ??? [= <- <- <-]|constructor]).
  unfold on_events. cbn [foldl]. rewrite fires_searching with (q := q), answer_shown by done.
  destruct hits as [|h hits]; [done|]. cbn [highlight]. unfold highlightSearchTerms. destruct (trim q); [done|].
  by destruct (mark_terms_invalid compile t e (terms q) (coalesce (h_excerpt h) []) Hin Hbad) as [e' ->].
Qed.

(** The answer to an earlier query replaces the one to a later query. *)
Example older_results_shown :
  let b := on_events [Open; Query (js "raft"); Fires 1; Query (js "pbft"); Fires 3;
    Answers 4 (Hits [MkHit (js "b") (js "/pbft") None]); Answers 2 (Hits [MkHit (js "a") (js "/raft") None])] new_bar in
  query b = js "pbft" /\ (h_url ∘ fst) <$> results b = [js "/raft"].
Proof. by vm_compute. Qed.

(** A search that was replaced answers nothing, and that empties the results
    of the one that replaced it. *)
Example replaced_search_clears :
  results (on_events [Open; Query (js "raft"); Fires 1; Query (js "pbft"); Fires 3;
    Answers 4 (Hits [MkHit (js "b") (js "/pbft") None]); Answers 2 Nothing] new_bar) = [].
Proof. by vm_compute. Qed.
End bar.
End Bar.

(** ** Witnesses *)

(** A constructor that refuses every term with special characters. *)
Definition refuse (term : str) : Prelude.result (str -> str) :=
  Throw (js "Invalid regular expression: nothing to repeat").

Lemma search_as_typed_witness :
  let b := Bar.on_events refuse [Bar.Open; Bar.Query (js "raft")] Bar.new_bar in
  Bar.results (Bar.on_events refuse [Bar.Fires 1; Bar.Answers (Bar.made b)
    (Bar.Hits [Bar.MkHit (js "a") (js "/raft") (Some (js "Raft!"))])] b) =
  [(Bar.MkHit (js "a") (js "/raft") (Some (js "Raft!")), mark (js "Raft") ++ js "!")].
Proof.
  cbn zeta.
  destruct (Bar.search_as_typed refuse [Bar.Open; Bar.Query (js "raft")] 1 (js "raft") Bar.Search
    [Bar.MkHit (js "a") (js "/raft") (Some (js "Raft!"))]) as (_ & _ & H); [discriminate|reflexivity|].
  destruct (H eq_refl) as [_ Hr]. rewrite (Hr eq_refl). vm_compute. reflexivity.
Defined.

Lemma invalid_term_empties_witness :
  let b := Bar.on_events refuse [Bar.Open; Bar.Query (js "c++")] Bar.new_bar in
  Bar.results (Bar.on_events refuse [Bar.Fires 1; Bar.Answers (Bar.made b)
    (Bar.Hits [Bar.MkHit (js "a") (js "/cpp") None])] b) = [].
Proof.
  apply (Bar.invalid_term_empties refuse [Bar.Open; Bar.Query (js "c++")] 1 (js "c++") (js "c++")
    (js "Invalid regular expression: nothing to repeat")).
  - discriminate.
  - reflexivity.
  - left.
  - reflexivity.
Defined.

