(* ===== verification/CreateApp.v ===== *)
(** * Creating a project

    src/ecosystem/tools/create-resilient-app/src/index.ts: the questions, the
    choice of the template and the copy.  The terminal, the file system and
    the copying of a directory are parameters. *)

From S2P Require Import Prelude JsString JsArray Json NexusDocs.

Record Options := MkOptions { name : option str; framework : option str; language : option str }.
Record Answers := MkAnswers { a_projectName : str; a_framework : str; a_language : str }.

Inductive question := AskName | AskFramework | AskLanguage.

(** What the program does, in order. *)
Inductive action :=
| Log (text : str)
| LogError (text : str)
| Copy (template target : str)
| Exit (code : Z).

Section app.
(** [fs.existsSync], the current directory and the one of the program. *)
Context (existsSync : str -> bool) (cwd dirname : str).
(** [inquirer.prompt]: answers that pass the validation, or how it failed. *)
Context (prompt : list question -> result Answers).
(** [fs.copy] *)
Context (copy : str -> str -> result unit).

Definition given (o : option str) : bool := match o with Some (_ :: _) => true | _ => false end.

Definition questions (o : Options) : list question :=
  (if given (name o) then [] else [AskName]) ++ (if given (framework o) then [] else [AskFramework]) ++
  (if given (language o) then [] else [AskLanguage]).

(** [validate] of the name: why it is refused. *)
Definition validate (input : str) : option str :=
  match input with
  | [] => Some (js "Project name cannot be empty.")
  | _ => if existsSync (join_path cwd input) then Some (js "A directory with this name already exists.") else None
  end.

Definition promptUser (o : Options) : result Answers :=
  match prompt (questions o) with
  | Throw e => Throw e
  | Ok a =>
      Ok (MkAnswers (str_or (name o) (a_projectName a)) (str_or (framework o) (a_framework a))
            (str_or (language o) (a_language a)))
  end.

Definition templateDir (framework language : str) : str :=
  framework ++ js "-" ++ (if bool_decide (toLowerCase language = js "typescript") then js "ts" else js "js") ++
  js "-resvault-sdk".

Definition getTemplatePath (framework language : str) : result str :=
  let dir := templateDir framework language in
  let templatePath := join_path dirname (js "../templates/" ++ dir) in
  let alternativePath := join_path dirname (js "templates/" ++ dir) in
  if existsSync templatePath then Ok templatePath
  else if existsSync alternativePath then Ok alternativePath
  else Throw (js "Template not found at " ++ templatePath ++ js " or " ++ alternativePath).

(** [path.basename] *)
Definition basename (p : str) : str := List.last (filterb (fun s => negb (bool_decide (s = []))) (split p (js "/"))) [].

Definition copyTemplate (template target : str) : list action :=
  Copy template target ::
  match copy template target with
  | Ok _ =>
      [Log (js "Project setup complete!");
       Log (js "Navigate to your project by running: cd " ++ basename target);
       Log (js "Please run " ++ ["034"%char] ++ js "npm install" ++ ["034"%char] ++ js " to install dependencies.")]
  | Throw e => [LogError (js "Error copying template: " ++ e)]
  end.

Definition failure (e : str) : list action := [LogError (js "An error occurred: " ++ e)].

Definition main (o : Options) : list action :=
  match promptUser o with
  | Throw e => failure e
  | Ok (MkAnswers projectName framework language) =>
      [Log (js "Selected Framework: " ++ framework); Log (js "Selected Language: " ++ language);
       Log (js "Project Name: " ++ projectName)] ++
      match getTemplatePath framework language with
      | Throw e => failure e
      | Ok templatePath =>
          let targetPath := join_path cwd projectName in
          if existsSync targetPath then
            [LogError (js "A directory named " ++ ["034"%char] ++ projectName ++ ["034"%char] ++
               js " already exists. Please choose a different project name."); Exit 1]
          else copyTemplate templatePath targetPath
      end
  end.

(** ** Projects *)

Definition copies (l : list action) : list (str * str) :=
  omap (fun a => match a with Copy x y => Some (x, y) | _ => None end) l.

Lemma getTemplatePath_exists f l p :
  getTemplatePath f l = Ok p -> existsSync p = true /\ exists d, p = join_path dirname (d ++ templateDir f l).
Proof.
  unfold getTemplatePath. cbn zeta. destruct (existsSync (join_path dirname (js "../templates/" ++ _))) eqn:E.
  - intros [= <-]. split; [done|by exists (js "../templates/")].
  - destruct (existsSync (join_path dirname (js "templates/" ++ _))) eqn:E'; [|done].
    intros [= <-]. split; [done|by exists (js "templates/")].
Qed.

(** At most one directory is copied: a template that is there, the one named
    after the framework and the language, to the directory of the project in
    the current one, which was not there before. *)
Theorem project_copied o t d (Hc : (t, d) ∈ copies (main o)) :
  copies (main o) = [(t, d)] /\ existsSync t = true /\ existsSync d = false /\
  exists a, promptUser o = Ok a /\ d = join_path cwd (a_projectName a) /\
    exists pre, t = join_path dirname (pre ++ templateDir (a_framework a) (a_language a)).
Proof.
  unfold main in *. destruct (promptUser o) as [[n f l]|] eqn:Ep; [|cbn in Hc; set_solver].
  destruct (getTemplatePath f l) as [p|] eqn:Et; [|cbn in Hc; set_solver].
  destruct (existsSync (join_path cwd n)) eqn:Ed; [cbn in Hc; set_solver|].
  apply getTemplatePath_exists in Et as [Hp [pre ->]].
  assert (copies ([Log (js "Selected Framework: " ++ f); Log (js "Selected Language: " ++ l); Log (js "Project Name: " ++ n)] ++
    copyTemplate (join_path dirname (pre ++ templateDir f l)) (join_path cwd n)) =
    [(join_path dirname (pre ++ templateDir f l), join_path cwd n)]) as E
    by (unfold copyTemplate; destruct (copy _ _); reflexivity).
  rewrite E in *. apply list_elem_of_singleton in Hc as [= -> ->]. split_and!; try done.
  eexists. split; [done|]. cbn. split; [done|]. by exists pre.
Qed.
End app.

(** The short name of the language is not understood: a JavaScript project is
    made for it. *)
Example short_language : templateDir (js "react") (js "ts") = js "react-js-resvault-sdk".
Proof. by vm_compute. Qed.

Lemma project_copied_witness :
  let exists_ (p : str) := bool_decide (p = js "/opt/templates/vue-ts-resvault-sdk") in
  let o := MkOptions (Some (js "shop")) (Some (js "vue")) (Some (js "TypeScript")) in
  let acts := main exists_ (js "/home/ann") (js "/opt/dist") (fun _ => Ok (MkAnswers [] [] [])) (fun _ _ => Ok ()) o in
  copies acts = [(js "/opt/templates/vue-ts-resvault-sdk", js "/home/ann/shop")] /\
  exists_ (js "/opt/templates/vue-ts-resvault-sdk") = true /\ exists_ (js "/home/ann/shop") = false /\
  exists a, promptUser (fun _ => Ok (MkAnswers [] [] [])) o = Ok a /\
    js "/home/ann/shop" = join_path (js "/home/ann") (a_projectName a) /\
    exists pre, js "/opt/templates/vue-ts-resvault-sdk" = join_path (js "/opt/dist") (pre ++ templateDir (a_framework a) (a_language a)).
Proof.
  cbn zeta.
  apply (project_copied (fun p => bool_decide (p = js "/opt/templates/vue-ts-resvault-sdk")) (js "/home/ann") (js "/opt/dist")
    (fun _ => Ok (MkAnswers [] [] [])) (fun _ _ => Ok ())).
  vm_compute. left.
Defined.
